(* ===== verification/_CoqProject ===== *)
-Q . S2P
Prelude.v
CFloat.v
DramCommon.v
DramConfig.v
Stats.v
CDouble.v
Energy.v
BankState.v
Timing.v
ChannelState.v
ChannelProps.v
Refresh.v
CommandQueue.v
ChannelRun.v
Controller.v
ControllerProps.v
ControllerTick.v
Replacement.v
BloomFilter.v
Common.v
MemoryRun.v
DRAMInterface.v
DramSystem.v
GcnMemory.v
Hmc.v
VertexReader.v
EdgeReader.v
DataController.v
Text.v
DataReader.v
CsrTools.v
CmdTrace.v
Translator.v
Floorplan.v
Thermal.v
Tiling.v
DynTiling.v
Cpu.v
Distributer.v
Simulator.v
IniParser.v
Main.v
BasisEdgeReader.v
Accelerator.v
GlobalBuffer.v
