(* ===== verification/Prelude.v ===== *)
(** * GCNSim_AWB: a verification library for the GCN accelerator simulator

    GCNSim simulates, cycle by cycle, an accelerator for graph convolution: it reads a
    graph as a CSR matrix A and multiplies it with a dense matrix XW held in DRAM, in
    blocks of vertices and in [w_fold] passes (folds) over each block.  The bundled
    simulator DRAMsim3 gives the cycle of every memory access.  This library models the
    C++ code under src/ and proves what makes it correct, or shows where it is not.

    ** Conventions

    A C++ function is a Rocq function of the same name (with the class as a prefix where
    two classes share it) from the state of its object, and of the globals it uses, to
    [res]: [Ok] with the new state, or [Err] with the reason a run leaves the intended
    behaviour: an index out of range, [front] of an empty container, signed overflow, a
    thrown exception, an abort, a member that was never assigned, or a fuelled loop of the
    model that has not ended.
    [uint64_t] is [Z] with [u64] after each operation that may wrap; [int] is [Z] with
    [int_chk] on each operation that may overflow and [i32] on a conversion; vectors and
    queues are lists with checked access ([vget], [vset], [qfront], [qpop]); hash tables
    and maps are [gmap]s.  Objects that the C++ code shares by pointer (the DRAM
    interface, the queues of DataReader) are threaded through as the record [Globals].
    [float] and [double] expressions are computed with their rounding: those of the
    simulator, on integers and exact (CFloat), those of DRAMsim3 in the binary64 format
    with its infinities (CDouble).
    Loops are [for_loop], [for_each] or a Fixpoint with fuel.  Fuel is always a bound that
    a theorem shows to suffice (the length of the text for readers, [add_fuel] for the
    dispatch loop, four rounds for the search of RRIP, the length of the return queue for
    the returns of a tick, the links and the picoseconds of a cycle for the memory cube,
    20 doublings for the tiles of a bank), so that [OutOfFuel] never appears in a theorem's
    conclusion; only [Simulator.sim_loop], the main loop, takes its number of cycles as an
    argument, and [Thermal.rank_cells] is a loop of the code that never ends.

    ** The parts of the program and their files

    The simulator's own units (src/):
    - Common: the structs of Common.h, the globals of a run ([Globals]), the parameters
      of the configuration and the data files ([Params]); the class [DramPort], what a
      unit asks of the DRAM interface, and [MemorySystem], [MemorySystemSpec] and
      [MemorySystemRuns], what the DRAM interface asks of a memory system and relies on.
    - IniParser (IniParser.cpp), DataReader (DataReader.cpp), on Text (the parts of the
      C++ library they use): a run's parameters and its CSR matrix, cut into blocks.
    - Distributer (Distributer.cpp): the division of the matrix among the units.
    - VertexReader, EdgeReader, BasisEdgeReader, DataController (same names): the units
      that fetch row pointers and column indices, and answer them to one another.
    - GlobalBuffer, on Replacement and BloomFilter (CacheReplacement.cpp): the cache of XW
      lines and its six replacement policies.
    - Accelerator (Accelerator.cpp and XWReader.cpp): the multiply-accumulate units.
    - DRAMInterface (DRAMInterface.cpp): the queue in front of the memory systems.
    - Simulator (RunSimulator.cpp): the main loop over all of them; Main: the program, from
      the contents of its files through the units' construction to the end of the loop.
    - CsrTools (CSR_converter/vtmake.cpp), Tiling (recursive_tiling_maker*.cpp) and
      DynTiling (vtmake_dynamic_vt_*.cpp): the tools that rearrange a CSR file into tiles,
      whose output the simulator reads.  Translator (xwgen.cpp, csr_translator.cpp): the
      generator of layer files, and the translator of edge lists.
    The memory simulator (src/DRAMsim3/src/):
    - DramCommon, DramConfig, Timing, Stats: common types, configuration and address
      mapping, the table of delays, the statistics.  Energy: the power parameters, and the
      energies and averages of the statistics.
    - BankState, ChannelState with ChannelProps and ChannelRun, Refresh, CommandQueue: the
      banks of a channel, the channel, its refreshes, its command queues.
    - Controller with ControllerProps and ControllerTick: the controller of a channel, its
      invariant, its cycle.
    - DramSystem (dram_system.cc, memory_system.cc): the memory system of all channels,
      and Hmc (hmc.cc): the memory cube, whose vaults are such channels.  MemoryRun runs
      a client against either, through the classes of Common.
    - Cpu (cpu.cc, main.cc): the stand-alone driver, its three processors and its traces.
    - CmdTrace (common.cc, controller.cc, thermal_replay.cc): the trace of the commands and
      its parser.  Floorplan and Thermal (thermal.cc): the places of the banks on the die,
      and the power maps that the commands add up to; both are compiled in with THERMAL.
    GcnMemory puts the two halves together: the DRAM interface over JEDEC memory systems.

    ** What the theorems show

    - Nothing is lost: each layer keeps a ledger.  A controller returns every accepted
      transaction once or still owes it ([controller_runs], [pending_requests_wait]); so
      does a memory system, with its switch and its response table if it is a memory cube
      ([memory_system_runs], [hmc_system_runs]); the DRAM interface holds, reports or
      completes each request exactly once ([dram_ledger], and [interface_runs] for the
      composition).  The main loop is run next to logs of what it issued, received and was
      told by the memory in each cycle ([sim_logs]): the logs balance with what is in
      flight, and the loop ends only when all output writes are complete
      ([simulation_ledger]), so that the program, run on well-formed files, is told of as
      many output writes as the output has lines before it ends ([main_writes_output]).
      The loop of the stand-alone driver keeps the ledger too, and offers the transactions
      of a trace in its order, each until it is accepted ([driver_runs]).
    - Nothing aborts: for up to 2^30 - 1 cycles (the room of the [int] counters), and
      without the self-refresh policy, which no shipped configuration enables, no
      [AbruptExit], out-of-range access or overflow is reached by a controller, a memory
      system, or the interface over it, whatever is asked of them (the interface: up to
      [tot_req + 2^31] requests); a memory cube lasts until its logic die has run 2^31 - 3 cycles (the
      room of its age counters).
    - The DRAM protocol: commands are legal, and impose the delays of the timing table
      ([channel_ready_command_legal], which says what a refresh of a single bank leaves
      out); in any run that serves requests the activations of a rank respect its windows
      ([activation_windows]); a bank serves a request in at most three commands; a round of
      the command queues idles exactly when every request that no refresh blocks is held
      back ([idle_round_justified]); refreshes go round.
    - The readers: a block of vertices or edges is requested in whole cache lines,
      answered in the same lines ([answers_match_requests], from the readers to the
      controller and back) and replayed exactly [w_fold] times.
    - The cache: one outstanding request per line, LRU as a refinement of move-to-front,
      the victims of the other policies, the counts of the Bloom filters.
    - What is reported: the final counters, histograms, energies and averages are those of
      the events of the whole run, wherever epochs end ([final_report_exact],
      [energies_exact]); every cell of the power maps is the sum of what the commands put
      there, in the banks they address ([commands_warm_their_banks]), and no two banks
      share a place ([bank_place_roundtrip]).
    - Files: configuration, data and tiled files are read back as written; the division
      among units and the tilings put every edge in exactly one place, which for the unequal
      ones is given by their rectangles ([unequal_tiles]).
    - Where the code does not do what it means to: a run with two folds, which reads
      the front of an empty queue before its end ([Main.ex_two_folds]), a command trace
      of which the rows are lost ([trace_loses_rows]), write buffers that are never drained
      ([small_write_buffer_stuck]), a refresh of a single bank that is drawn in another
      group ([Thermal.ex_wrong_group]), the last vertex of the last block, a block whose last
      row is empty, the last quarter of the matrix in vt_0_3 ([unequal_tiles]), the end of a
      trace ([driver_runs]), and the other findings listed with the library.

    ** Not modelled, and why

    - The thermal solver (thermal_solver.c), which computes temperatures from the power
      maps with the SuperLU library, and the printing of maps and temperatures: numerical
      output that nothing reads back.
    - The replay loop of thermal_replay.cc: it calls functions of the statistics that do not
      exist (RankBackgroundEnergy), so that its effect is not defined by the sources.
    - The reports of statistics of DRAMsim3 (text and JSON): output of the modelled values.
    - The command lines of the programs, their progress output and their result files.
    - The headers under DRAMsim3/ext: third-party libraries.  The INI reader among them is
      a parameter of DramConfig. *)

From stdpp Require Export base tactics option list numbers gmap strings.
From coqutil Require Export Datatypes.RecordSetters.
From Stdlib Require Export ZArith Lia.
Export DoubleBraceUpdate.

Open Scope Z_scope.

(** Record updates reduce by [cbn] once the record is a constructor. *)
#[global] Arguments constant {E} newValue _ /.

(** ** Faults and the error monad

    A C++ run can leave the behaviour the source intends: by undefined
    behaviour (an index out of range, [front] of an empty queue, signed
    overflow), by a thrown [invalid_argument], by [AbruptExit]/[exit], or,
    in a fuelled loop of the model, by not having terminated yet.  Every
    operation that can do so returns [res]. *)

Inductive fault :=
  | OutOfRange        (* operator[] or iterator past the end of a vector *)
  | EmptyQueue        (* front/pop/back on an empty container *)
  | SignedOverflow    (* arithmetic on int outside [-2^31, 2^31) *)
  | DivByZero         (* integer division or modulo by zero *)
  | FloatRange        (* conversion of an out-of-range floating value to an integer *)
  | InvalidArgument   (* throw invalid_argument *)
  | RangeError        (* throw out_of_range *)
  | Uninitialised     (* the value of an object that was never assigned *)
  | BadShift          (* a shift by a negative count, or by the width or more *)
  | NoReturn          (* control reaches the end of a function that returns a value *)
  | AbruptExit        (* AbruptExit(__FILE__, __LINE__), exit(1), assert *)
  | OutOfFuel.        (* a fuelled loop that has not ended *)

Inductive res (A : Type) :=
  | Ok (a : A)
  | Err (f : fault).
Arguments Ok {A} a.
Arguments Err {A} f.

#[global] Instance res_ret : MRet res := λ A a, Ok a.
#[global] Instance res_bind : MBind res := λ A B f m,
  match m with Ok a => f a | Err e => Err e end.
#[global] Instance res_map : FMap res := λ A B f m,
  match m with Ok a => Ok (f a) | Err e => Err e end.

#[global] Instance fault_eq_dec : EqDecision fault.
Proof. solve_decision. Defined.
#[global] Instance res_eq_dec {A} `{EqDecision A} : EqDecision (res A).
Proof. solve_decision. Defined.

Definition is_Ok {A} (m : res A) : bool :=
  match m with Ok _ => true | Err _ => false end.

Definition of_option {A} (f : fault) (o : option A) : res A :=
  match o with Some a => Ok a | None => Err f end.

(** ** Machine integers: [uint64_t] and [int] as [Z] *)

Definition u64_max : Z := 2 ^ 64.

(** Conversion to (and arithmetic modulo) [uint64_t]. *)
Definition u64 (z : Z) : Z := z mod 2 ^ 64.

(** Conversion to [int]: modular, as g++ implements it. *)
Definition i32 (z : Z) : Z := (z + 2 ^ 31) mod 2 ^ 32 - 2 ^ 31.

Definition in_i32 (z : Z) : bool := (- 2 ^ 31 <=? z) && (z <? 2 ^ 31).

(** The result of an [int] operation: overflow is undefined behaviour. *)
Definition int_chk (z : Z) : res Z :=
  if in_i32 z then Ok z else Err SignedOverflow.

(** Unsigned division and modulo. *)
Definition udiv (a b : Z) : res Z := if b =? 0 then Err DivByZero else Ok (a / b).
Definition umod (a b : Z) : res Z := if b =? 0 then Err DivByZero else Ok (a mod b).

(** ** [std::vector] and [std::queue] *)

Section Containers.
Context {A : Type}.

(** [v[i]] *)
Definition vget (l : list A) (i : Z) : res A :=
  if i <? 0 then Err OutOfRange else of_option OutOfRange (l !! Z.to_nat i).

(** [v[i] = x] *)
Definition vset (l : list A) (i : Z) (x : A) : res (list A) :=
  if (i <? 0) || (Z.of_nat (length l) <=? i) then Err OutOfRange
  else Ok (<[Z.to_nat i := x]> l).

(** [v.erase(v.begin() + i)] *)
Definition verase (l : list A) (i : Z) : res (list A) :=
  if (i <? 0) || (Z.of_nat (length l) <=? i) then Err OutOfRange
  else Ok (delete (Z.to_nat i) l).

(** [v[i]] replaced by [f v[i]]. *)
Definition vmod (l : list A) (i : Z) (f : A → res A) : res (list A) :=
  x ← vget l i; y ← f x; vset l i y.

(** [q.front()] and [q.pop()] *)
Definition qfront (q : list A) : res A :=
  match q with x :: _ => Ok x | [] => Err EmptyQueue end.
Definition qpop (q : list A) : res (list A) :=
  match q with _ :: q' => Ok q' | [] => Err EmptyQueue end.
(** [q.push(x)] / [v.push_back(x)] *)
Definition qpush (q : list A) (x : A) : list A := q ++ [x].
(** [q.back()] *)
Definition qback (q : list A) : res A := of_option EmptyQueue (last q).

(** [q.empty()] and [q.size()] *)
Definition qempty (q : list A) : bool := match q with [] => true | _ => false end.
Definition vsize (l : list A) : Z := Z.of_nat (length l).

(** [for (int i = 0; i < n; i++) body] with state [s]. *)
Fixpoint for_loop {S : Type} (n : nat) (i : Z) (body : Z → S → res S) (s : S) : res S :=
  match n with
  | O => Ok s
  | S n' => s' ← body i s; for_loop n' (i + 1) body s'
  end.

(** [for (auto x : l) body] with state [s]. *)
Fixpoint for_each {S : Type} (l : list A) (body : A → S → res S) (s : S) : res S :=
  match l with
  | [] => Ok s
  | x :: l' => s' ← body x s; for_each l' body s'
  end.
End Containers.

(** ** Generic lemmas *)

Create HintDb sim.
Create Rewrite HintDb sim.

Section ResLemmas.
Context {A B : Type}.

Lemma bind_Ok (a : A) (f : A → res B) : (Ok a ≫= f) = f a.
Proof. reflexivity. Qed.

Lemma bind_Ok_inv (m : res A) (f : A → res B) (b : B) :
  (m ≫= f) = Ok b → ∃ a, m = Ok a ∧ f a = Ok b.
Proof. destruct m as [a|]; [eauto | discriminate]. Qed.

(** A result that is computed to be one, and one with a field that is computed. *)
Lemma ok_or (m : res A) (d : A) : is_Ok m = true → m = Ok (match m with Ok a => a | Err _ => d end).
Proof. by destruct m. Qed.

Lemma ok_field (f : A → B) (m : res A) (b : B) : f <$> m = Ok b → ∃ a, m = Ok a ∧ f a = b.
Proof. destruct m as [a|]; [|discriminate]. intros E. injection E as E. by exists a. Qed.

Lemma of_option_Ok (e : fault) (o : option A) (a : A) :
  of_option e o = Ok a ↔ o = Some a.
Proof. destruct o; simpl; naive_solver. Qed.
End ResLemmas.

(** [inv_res H]: open every bind of [H : m ≫= f = Ok b]. *)
Ltac inv_res H :=
  repeat match type of H with
  | (_ ≫= _) = Ok _ =>
      let a := fresh "v" in let H1 := fresh H in
      apply bind_Ok_inv in H; destruct H as (a & H1 & H)
  end.

Section ContainerLemmas.
Context {A : Type}.
Implicit Types (l q : list A) (i : Z) (x : A).

Lemma vget_lookup l i x : vget l i = Ok x ↔ 0 ≤ i ∧ l !! Z.to_nat i = Some x.
Proof.
  unfold vget. destruct (Z.ltb_spec i 0); rewrite ?of_option_Ok; [|naive_solver lia].
  split; [discriminate | lia].
Qed.

Lemma vget_is_Ok l i : 0 ≤ i < vsize l → ∃ x, vget l i = Ok x.
Proof.
  unfold vsize. intros Hi.
  destruct (lookup_lt_is_Some_2 l (Z.to_nat i)) as [x Hx]; [lia|].
  exists x. apply vget_lookup. split; [lia | done].
Qed.

Lemma vget_range l i x : vget l i = Ok x → 0 ≤ i < vsize l.
Proof.
  intros [? H%lookup_lt_Some]%vget_lookup. unfold vsize. lia.
Qed.

Lemma vset_Ok l i x : 0 ≤ i < vsize l → vset l i x = Ok (<[Z.to_nat i := x]> l).
Proof.
  unfold vset, vsize. intros. 
  destruct (Z.ltb_spec i 0), (Z.leb_spec (Z.of_nat (length l)) i); simpl; done || lia.
Qed.

Lemma vset_inv l i x l' :
  vset l i x = Ok l' → 0 ≤ i < vsize l ∧ l' = <[Z.to_nat i := x]> l.
Proof.
  unfold vset, vsize. intros H.
  destruct (Z.ltb_spec i 0), (Z.leb_spec (Z.of_nat (length l)) i); simplify_eq/=.
  split; [lia | done].
Qed.

Lemma vget_nat l (i : nat) x : l !! i = Some x → vget l (Z.of_nat i) = Ok x.
Proof. intros H. apply vget_lookup. rewrite Nat2Z.id. split; [lia|done]. Qed.

Lemma vset_nat l (i : nat) x : (i < length l)%nat → vset l (Z.of_nat i) x = Ok (<[i := x]> l).
Proof. intros H. rewrite vset_Ok, Nat2Z.id; [done|]. unfold vsize. lia. Qed.

Lemma vmod_inv l i f l' :
  vmod l i f = Ok l' →
  ∃ x y, vget l i = Ok x ∧ f x = Ok y ∧ 0 ≤ i < vsize l ∧ l' = <[Z.to_nat i := y]> l.
Proof.
  unfold vmod. intros H. inv_res H. apply vset_inv in H as [Hi ->].
  exists v, v0. done.
Qed.

Lemma vmod_Ok l i f x y :
  vget l i = Ok x → f x = Ok y → vmod l i f = Ok (<[Z.to_nat i := y]> l).
Proof.
  intros Hx Hy. unfold vmod. rewrite Hx. simpl. rewrite Hy. simpl.
  apply vset_Ok. by eapply vget_range.
Qed.

Lemma vget_insert l i i' x :
  0 ≤ i < vsize l →
  vget (<[Z.to_nat i := x]> l) i' = if decide (i' = i) then Ok x else vget l i'.
Proof.
  unfold vsize, vget. intros Hi. case_decide as E.
  - subst i'. destruct (Z.ltb_spec i 0); [lia|]. rewrite list_lookup_insert_eq; [done | lia].
  - destruct (Z.ltb_spec i' 0); [done|]. rewrite list_lookup_insert_ne; [done | lia].
Qed.

Lemma vsize_insert l n x : vsize (<[n := x]> l) = vsize l.
Proof. unfold vsize. by rewrite length_insert. Qed.

Lemma vsize_nonneg l : 0 ≤ vsize l.
Proof. unfold vsize. lia. Qed.

Lemma vsize_app l l' : vsize (l ++ l') = vsize l + vsize l'.
Proof. unfold vsize. rewrite length_app. lia. Qed.

Lemma vsize_cons x l : vsize (x :: l) = vsize l + 1.
Proof. unfold vsize. simpl. lia. Qed.

Lemma qempty_spec q : qempty q = true ↔ q = [].
Proof. destruct q; naive_solver. Qed.
End ContainerLemmas.

#[export] Hint Rewrite @vsize_insert @vsize_app @vsize_cons : sim.
#[export] Hint Resolve vsize_nonneg : sim.

(** ** Lists *)

Lemma list_filter_all {A} (P : A → Prop) `{∀ x, Decision (P x)} (l : list A) :
  (∀ n x, l !! n = Some x → P x) → filter P l = l.
Proof.
  induction l as [|x l IH]; intros Hl; [done|]. rewrite filter_cons_True by by apply (Hl 0%nat).
  f_equal. apply IH. intros n. apply (Hl (S n)).
Qed.

(** Erasing the only occurrence of an element. *)
Lemma delete_filter_NoDup {A} `{EqDecision A} (l : list A) n x :
  NoDup l → l !! n = Some x → delete n l = filter (λ y, y ≠ x) l.
Proof.
  intros Hnd. revert n. induction Hnd as [|y l Hy Hnd IH]; intros n Hn; [done|].
  destruct n as [|n]; simpl in Hn.
  - simplify_eq. rewrite filter_cons_False by naive_solver. simpl. symmetry.
    apply list_filter_all. intros m z Hz ->. apply Hy. by eapply list_elem_of_lookup_2.
  - rewrite filter_cons_True; [simpl; f_equal; by apply IH|].
    intros ->. apply Hy. by eapply list_elem_of_lookup_2.
Qed.

(** Exchanging one part of a concatenation. *)
Lemma concat_insert_perm {A B} (f : A → list B) (l : list A) i x y p q :
  l !! i = Some x → f y ++ p ≡ₚ f x ++ q →
  concat (f <$> <[i := y]> l) ++ p ≡ₚ concat (f <$> l) ++ q.
Proof.
  intros Hi Hp. revert i Hi. induction l as [|z l IH]; intros [|i] Hi; simpl in *; [done..| |].
  - injection Hi as ->. rewrite <- !app_assoc, (Permutation_app_comm (concat _) p),
      (Permutation_app_comm (concat _) q), !app_assoc. by rewrite Hp.
  - rewrite <- !app_assoc. by rewrite (IH i Hi).
Qed.

(** Pushing to and popping from one of several queues. *)
Lemma concat_insert_snoc {A} (l : list (list A)) i r c :
  l !! i = Some r → concat (<[i := r ++ [c]]> l) ≡ₚ concat l ++ [c].
Proof.
  intros Hi. pose proof (concat_insert_perm id l i r (r ++ [c]) [] [c] Hi) as H.
  rewrite !list_fmap_id, !app_nil_r in H. by apply H.
Qed.

Lemma concat_insert_tail {A} (l : list (list A)) i x r :
  l !! i = Some (x :: r) → concat l ≡ₚ x :: concat (<[i := r]> l).
Proof.
  intros Hi. pose proof (concat_insert_perm id l i (x :: r) r [x] [] Hi) as H.
  rewrite !list_fmap_id, !app_nil_r in H. rewrite <- H; [by rewrite (Permutation_app_comm _ [x])|].
  cbn. by rewrite (Permutation_app_comm r [x]).
Qed.

Lemma last_default {A} (l : list A) a b : l ≠ [] → List.last l a = List.last l b.
Proof. induction l as [|x [|y l] IH]; intros Hl; [done | done |]. by apply IH. Qed.

Lemma last_cons {A} (l : list A) x d : List.last (x :: l) d = List.last l x.
Proof. destruct l as [|y l]; [done|]. by apply (last_default (y :: l)). Qed.

Lemma last_app {A} (l1 l2 : list A) d : List.last (l1 ++ l2) d = List.last l2 (List.last l1 d).
Proof.
  revert d. induction l1 as [|x l1 IH]; intros d; [done|]. cbn [app]. by rewrite !last_cons, IH.
Qed.

(** Permutations by counting: [perm_solve] turns a permutation goal and the
    permutation hypotheses into linear arithmetic on multiplicities. *)
Definition mult {A} `{EqDecision A} (l : list A) (x : A) : nat :=
  count_occ (decide_rel (=)) l x.

#[global] Arguments mult : simpl never.

Lemma perm_mult {A} `{EqDecision A} (l l' : list A) :
  l ≡ₚ l' ↔ ∀ x, mult l x = mult l' x.
Proof. apply Permutation_count_occ. Qed.

Lemma mult_app {A} `{EqDecision A} (l l' : list A) x : mult (l ++ l') x = (mult l x + mult l' x)%nat.
Proof. apply count_occ_app. Qed.

Lemma mult_cons {A} `{EqDecision A} (a : A) l x : mult (a :: l) x = (mult [a] x + mult l x)%nat.
Proof. apply (mult_app [a] l). Qed.

Lemma mult_nil {A} `{EqDecision A} (x : A) : mult [] x = 0%nat.
Proof. done. Qed.

Lemma mult_single {A} `{EqDecision A} (a x : A) : mult [a] x = if decide (a = x) then 1%nat else 0%nat.
Proof. unfold mult, count_occ, decide_rel, decide. by destruct (EqDecision0 a x). Qed.

Ltac perm_solve :=
  let z := fresh "z" in
  apply perm_mult; intros z;
  repeat match goal with
  | H : _ ≡ₚ _ |- _ => rewrite perm_mult in H; specialize (H z)
  end;
  rewrite ?fmap_app in *; csimpl in *;
  repeat match goal with
  | |- context [list_fmap ?A ?B ?f ?l] => progress change (list_fmap A B f l) with (f <$> l)
  | H : context [list_fmap ?A ?B ?f ?l] |- _ =>
      progress change (list_fmap A B f l) with (f <$> l) in H
  end;
  repeat match goal with
  | H : context [mult (_ ++ _) _] |- _ => rewrite mult_app in H
  | H : context [mult (?a :: ?l) _] |- _ =>
      lazymatch l with [] => fail | _ => rewrite (mult_cons a l) in H end
  | H : context [mult [] _] |- _ => rewrite mult_nil in H
  | |- context [mult (_ ++ _) _] => rewrite mult_app
  | |- context [mult (?a :: ?l) _] =>
      lazymatch l with [] => fail | _ => rewrite (mult_cons a l) end
  | |- context [mult [] _] => rewrite mult_nil
  end; lia.

Section LoopLemmas.
Context {S : Type} (R : S → S → Prop) `{!PreOrder R}.

(** A loop that only moves along a preorder [R], and that reaches at each
    iteration a fact [T i] which [R] preserves, ends and reaches all of them. *)
Lemma for_loop_reach (T : Z → S → Prop) n i body s :
  (∀ i' s1 s2, T i' s1 → R s1 s2 → T i' s2) →
  (∀ i' s1, i ≤ i' < i + Z.of_nat n → R s s1 →
     ∃ s2, body i' s1 = Ok s2 ∧ R s1 s2 ∧ T i' s2) →
  ∃ s', for_loop n i body s = Ok s' ∧ R s s' ∧ ∀ i', i ≤ i' < i + Z.of_nat n → T i' s'.
Proof.
  intros HT. revert i s. induction n as [|n IH]; intros i s Hb.
  { exists s. split; [done|]. split; [reflexivity|]. lia. }
  destruct (Hb i s) as (s1 & E1 & R1 & T1); [lia | reflexivity |].
  destruct (IH (i + 1) s1) as (s2 & E2 & R2 & T2).
  { intros i' s3 Hi HR. apply Hb; [lia | by etrans]. }
  exists s2. simpl. rewrite E1. simpl. split; [done|]. split; [by etrans|].
  intros i' Hi. destruct (decide (i' = i)) as [->|]; [by eapply HT|]. apply T2. lia.
Qed.

Lemma for_each_reach {A} (T : A → S → Prop) (l : list A) body s :
  (∀ x s1 s2, T x s1 → R s1 s2 → T x s2) →
  (∀ x s1, x ∈ l → R s s1 → ∃ s2, body x s1 = Ok s2 ∧ R s1 s2 ∧ T x s2) →
  ∃ s', for_each l body s = Ok s' ∧ R s s' ∧ ∀ x, x ∈ l → T x s'.
Proof.
  intros HT. revert s. induction l as [|x l IH]; intros s Hb.
  { exists s. split; [done|]. split; [reflexivity|]. intros ? []%elem_of_nil. }
  destruct (Hb x s) as (s1 & E1 & R1 & T1); [set_solver | reflexivity |].
  destruct (IH s1) as (s2 & E2 & R2 & T2).
  { intros x' s3 Hx HR. apply Hb; [set_solver | by etrans]. }
  exists s2. simpl. rewrite E1. simpl. split; [done|]. split; [by etrans|].
  intros x' [->|Hx]%elem_of_cons; [by eapply HT | by apply T2].
Qed.

(** A loop that ends moved along [R] if each of its steps did. *)
Lemma for_each_rel {A} (l : list A) body s s' :
  (∀ x s1 s2, x ∈ l → body x s1 = Ok s2 → R s1 s2) →
  for_each l body s = Ok s' → R s s'.
Proof.
  intros Hb. revert s Hb. induction l as [|x l IH]; intros s Hb; simpl.
  { intros [= ->]. reflexivity. }
  intros H. inv_res H. etrans; [eapply Hb; [|done]; set_solver | eapply IH; [|done]].
  intros ????. apply Hb. set_solver.
Qed.

Lemma for_loop_rel n i body s s' :
  (∀ i' s1 s2, i ≤ i' < i + Z.of_nat n → body i' s1 = Ok s2 → R s1 s2) →
  for_loop n i body s = Ok s' → R s s'.
Proof.
  revert i s. induction n as [|n IH]; intros i s Hb; simpl.
  { intros [= ->]. reflexivity. }
  intros H. inv_res H. etrans; [eapply Hb; [|done]; lia | eapply (IH (i + 1)); [|done]].
  intros ????. apply Hb. lia.
Qed.
End LoopLemmas.

(** An invariant of the turns that succeed, whatever the loop's turns need to. *)
Lemma for_loop_keeps {S} (I : Z → S → Prop) n i (body : Z → S → res S) s s' :
  (∀ i' s1 s2, i ≤ i' < i + Z.of_nat n → I i' s1 → body i' s1 = Ok s2 → I (i' + 1) s2) →
  I i s → for_loop n i body s = Ok s' → I (i + Z.of_nat n) s'.
Proof.
  revert i s. induction n as [|n IH]; intros i s Hb Hi E; cbn [for_loop] in E.
  { injection E as <-. by rewrite Z.add_0_r. }
  apply bind_Ok_inv in E as (s1 & E1 & E). replace (i + Z.of_nat (Datatypes.S n)) with (i + 1 + Z.of_nat n) by lia.
  apply (IH (i + 1) s1); [intros i' s2 s3 Hr; apply Hb; lia | eapply Hb; [lia | exact Hi | exact E1] | exact E].
Qed.

(** A loop that keeps an invariant, which holds at each iteration before the last turn. *)
Lemma for_loop_inv {S} (I : Z → S → Prop) n i (body : Z → S → res S) s :
  I i s → (∀ i' s1, i ≤ i' < i + Z.of_nat n → I i' s1 → ∃ s2, body i' s1 = Ok s2 ∧ I (i' + 1) s2) →
  ∃ s', for_loop n i body s = Ok s' ∧ I (i + Z.of_nat n) s'.
Proof.
  revert i s. induction n as [|n IH]; intros i s Hi Hb.
  { exists s. split; [done|]. by rewrite Z.add_0_r. }
  destruct (Hb i s) as (s1 & E1 & H1); [lia | done |].
  destruct (IH (i + 1) s1 H1) as (s2 & E2 & H2); [intros i' s3 Hr; apply Hb; lia|].
  exists s2. cbn. rewrite E1. split; [done|]. by replace (i + Z.of_nat (Datatypes.S n)) with (i + 1 + Z.of_nat n) by lia.
Qed.

Lemma for_each_app {A S} (l1 l2 : list A) (body : A → S → res S) s :
  for_each (l1 ++ l2) body s = s' ← for_each l1 body s; for_each l2 body s'.
Proof.
  revert s. induction l1 as [|x l1 IH]; intros s; simpl; [done|].
  destruct (body x s) as [s'|]; simpl; [apply IH | done].
Qed.

Lemma for_loop_app {T} (n m : nat) (i : Z) (body : Z → T → res T) (s : T) :
  for_loop (n + m) i body s = (for_loop n i body s ≫= for_loop m (i + Z.of_nat n) body).
Proof.
  revert i s. induction n as [|n IH]; intros i s; [cbn; by rewrite Z.add_0_r|]. cbn [Nat.add for_loop].
  destruct (body i s) as [s1|]; [|done]. cbn [mbind res_bind]. rewrite IH.
  by replace (i + 1 + Z.of_nat n) with (i + Z.of_nat (S n)) by lia.
Qed.

(** A loop that appends [F i] at each iteration. *)
Lemma for_loop_append {A} (F : Z → list A) n i (body : Z → list A → res (list A)) s :
  (∀ i' s', i ≤ i' < i + Z.of_nat n → body i' s' = Ok (s' ++ F i')) →
  for_loop n i body s = Ok (s ++ concat (F <$> seqZ i (Z.of_nat n))).
Proof.
  revert i s. induction n as [|n IH]; intros i s Hb.
  { simpl. by rewrite app_nil_r. }
  rewrite seqZ_cons by lia. simpl. rewrite Hb by lia. simpl. rewrite IH.
  - rewrite <- app_assoc. replace (Z.pred (Z.of_nat (S n))) with (Z.of_nat n) by lia.
    by rewrite Z.add_1_r.
  - intros. apply Hb. lia.
Qed.

Lemma u64_range z : 0 ≤ u64 z < 2 ^ 64.
Proof. apply Z.mod_pos_bound. lia. Qed.

Lemma u64_small z : 0 ≤ z < 2 ^ 64 → u64 z = z.
Proof. apply Z.mod_small. Qed.

Lemma i32_range z : - 2 ^ 31 ≤ i32 z < 2 ^ 31.
Proof. unfold i32. pose proof (Z.mod_pos_bound (z + 2 ^ 31) (2 ^ 32)). lia. Qed.

Lemma i32_small z : - 2 ^ 31 ≤ z < 2 ^ 31 → i32 z = z.
Proof. intros. unfold i32. rewrite Z.mod_small; lia. Qed.

Lemma int_chk_Ok z : - 2 ^ 31 ≤ z < 2 ^ 31 → int_chk z = Ok z.
Proof.
  intros. unfold int_chk, in_i32.
  destruct (Z.leb_spec (- 2 ^ 31) z), (Z.ltb_spec z (2 ^ 31)); simpl; done || lia.
Qed.

Lemma int_chk_inv z z' : int_chk z = Ok z' → z' = z ∧ - 2 ^ 31 ≤ z < 2 ^ 31.
Proof.
  unfold int_chk, in_i32.
  destruct (Z.leb_spec (- 2 ^ 31) z), (Z.ltb_spec z (2 ^ 31)); simpl; naive_solver.
Qed.

Lemma umod_Ok a b : b ≠ 0 → umod a b = Ok (a mod b).
Proof. intros. unfold umod. by destruct (Z.eqb_spec b 0). Qed.

Lemma udiv_Ok a b : b ≠ 0 → udiv a b = Ok (a / b).
Proof. intros. unfold udiv. by destruct (Z.eqb_spec b 0). Qed.

(** ** Cutting a list into pieces of [k] *)

Section Chunks.
Context {A : Type}.
Implicit Types l : list A.

Fixpoint chunks_fuel (f k : nat) l : list (list A) :=
  match f, l with
  | S f', _ :: _ => take k l :: chunks_fuel f' k (drop k l)
  | _, _ => []
  end.

Definition chunks (k : nat) l : list (list A) := chunks_fuel (length l) k l.

Lemma chunks_fuel_enough f k l :
  (0 < k)%nat → (length l ≤ f)%nat → chunks_fuel f k l = chunks k l.
Proof.
  unfold chunks. intros Hk. revert l f.
  assert (∀ n l f, (length l ≤ n)%nat → (length l ≤ f)%nat →
    chunks_fuel f k l = chunks_fuel (length l) k l) as Hgen; [|eauto].
  induction n as [|n IH]; intros l f Hn Hf;
    (destruct l as [|x l]; [by destruct f | simpl in *; try lia]).
  destruct f as [|f]; [lia|]. simpl. f_equal.
  assert (length (drop k (x :: l)) ≤ length l)%nat as Hd by (rewrite length_drop; simpl; lia).
  rewrite (IH _ f), (IH _ (length l)); (done || lia).
Qed.

Lemma chunks_nil k : chunks k [] = [].
Proof. done. Qed.

Lemma chunks_step k l : (0 < k)%nat → l ≠ [] → chunks k l = take k l :: chunks k (drop k l).
Proof.
  intros Hk Hl. destruct l as [|x l]; [done|]. unfold chunks at 1. simpl. f_equal.
  apply chunks_fuel_enough; [done|]. rewrite length_drop. simpl. lia.
Qed.

Lemma chunks_short k l : l ≠ [] → (length l ≤ k)%nat → chunks k l = [l].
Proof.
  intros Hl Hk. destruct l as [|x l]; [done|]. simpl in Hk. rewrite chunks_step by (done || lia).
  rewrite take_ge, drop_ge by (simpl; lia). done.
Qed.

Lemma chunks_app k l1 l2 :
  (0 < k)%nat → length l1 = k → chunks k (l1 ++ l2) = l1 :: chunks k l2.
Proof.
  intros Hk <-. rewrite chunks_step; [|lia | by destruct l1; [simpl in Hk; lia|]].
  by rewrite take_app_length, drop_app_length.
Qed.

(** Induction along the pieces. *)
Lemma chunks_ind (k : nat) (Hk : (0 < k)%nat) (Q : list A → Prop) :
  Q [] → (∀ l, l ≠ [] → Q (drop k l) → Q l) → ∀ l, Q l.
Proof.
  intros H0 HS l. remember (length l) as n eqn:Hn. revert l Hn.
  induction (lt_wf n) as [n _ IH]. intros l Hn. destruct l as [|x l]; [done|].
  apply HS; [done|]. apply (IH (length (drop k (x :: l)))); [|done].
  rewrite length_drop. simpl in *. lia.
Qed.

Lemma chunks_nonempty k l : (0 < k)%nat → Forall (λ x, x ≠ []) (chunks k l).
Proof.
  intros Hk. induction l as [|l Hl IH] using (chunks_ind k Hk); [by apply Forall_nil|].
  rewrite chunks_step by done. apply Forall_cons. split; [|done]. destruct l, k; done || lia.
Qed.

Lemma concat_chunks k l : (0 < k)%nat → concat (chunks k l) = l.
Proof.
  intros Hk. induction l as [|l Hl IH] using (chunks_ind k Hk); [done|].
  rewrite chunks_step by done. simpl. by rewrite IH, take_drop.
Qed.

(** Every piece but the last has [k] elements. *)
Lemma chunks_sizes k l B :
  (0 < k)%nat → B ∈ chunks k l → B ≠ [] ∧ (length B ≤ k)%nat.
Proof.
  intros Hk. induction l as [|l Hl IH] using (chunks_ind k Hk); [by intros ?%elem_of_nil|].
  rewrite chunks_step by done. intros [->|HB]%elem_of_cons; [|by apply IH].
  rewrite length_take. split; [|lia]. destruct l, k; done || lia.
Qed.
End Chunks.
