(* ===== verification/CFloat.v ===== *)
(** * Floating-point ceiling division

    The sources size every request count and every partition with
    [ceil((float)a / b)] or [ceil((double)a / b)] over [uint64_t] operands.
    This file models the exact IEEE computation: conversion of an unsigned
    integer to a [p]-bit significand and the division, both rounded to
    nearest even ([p = 24] for [float], [p = 53] for [double]).  With
    operands below 2^64 no overflow and no subnormal arises, so a value is
    an unbounded pair (significand, exponent).  The lemmas of the file say
    when the computation is the exact ceiling, and that a rounded quotient
    compares with the integers as the exact one; the example at the end
    shows the first operand for which the [float] ceiling is not exact. *)

From S2P Require Import Prelude.

Open Scope Z_scope.

(** The value of a dyadic [(m, e)] is [m * 2 ^ e], with [0 <= m]. *)
Definition dyadic : Type := Z * Z.

(** [n / d] rounded to the nearest integer, ties to even. *)
Definition rne_div (n d : Z) : Z :=
  let q := n / d in
  let r := n mod d in
  match 2 * r ?= d with
  | Lt => q
  | Gt => q + 1
  | Eq => if Z.even q then q else q + 1
  end.

(** Numerator and denominator of [(n / d) * 2 ^ -e]. *)
Definition scale_num (n e : Z) : Z := n * 2 ^ Z.max 0 (- e).
Definition scale_den (d e : Z) : Z := d * 2 ^ Z.max 0 e.

(** The exponent that gives [n / d] a [p]-bit significand. *)
Definition quot_exp (p n d : Z) : Z :=
  let e0 := Z.log2 n - Z.log2 d - p in
  if 2 ^ p <=? scale_num n e0 / scale_den d e0 then e0 + 1 else e0.

(** [n / d] rounded to [p] bits. *)
Definition round_quot (p n d : Z) : dyadic :=
  if n =? 0 then (0, 0)
  else let e := quot_exp p n d in
       (rne_div (scale_num n e) (scale_den d e), e).

(** [(float)n], [(double)n]. *)
Definition float_of_uint (p n : Z) : dyadic := round_quot p n 1.

(** [x / y] on floating values, [y] not zero. *)
Definition float_div (p : Z) (x y : dyadic) : dyadic :=
  round_quot p (scale_num x.1 (y.2 - x.2)) (scale_den y.1 (y.2 - x.2)).

(** [x * y] on floating values. *)
Definition float_mul (p : Z) (x y : dyadic) : dyadic :=
  round_quot p (scale_num (x.1 * y.1) (- (x.2 + y.2))) (scale_den 1 (- (x.2 + y.2))).

(** [ceil(x)] as an integer. *)
Definition ceil_dyadic (x : dyadic) : Z :=
  let '(m, e) := x in
  if 0 <=? e then m * 2 ^ e else - ((- m) / 2 ^ (- e)).

(** Truncation of a floating value, as in a conversion to an integer type. *)
Definition trunc_dyadic (x : dyadic) : Z :=
  let '(m, e) := x in
  if 0 <=? e then m * 2 ^ e else m / 2 ^ (- e).

(** [ceil((T)a / b)]; a division by zero gives an infinity or a NaN, whose
    conversion to an integer is undefined. *)
Definition ceil_fdiv (p a b : Z) : res Z :=
  if b =? 0 then Err FloatRange
  else Ok (ceil_dyadic (float_div p (float_of_uint p a) (float_of_uint p b))).

Definition ceil_float (a b : Z) : res Z := ceil_fdiv 24 a b.
Definition ceil_double (a b : Z) : res Z := ceil_fdiv 53 a b.

(** The same assigned to an [int] variable. *)
Definition ceil_float_int (a b : Z) : res Z :=
  z ← ceil_float a b; if in_i32 z then Ok z else Err FloatRange.
Definition ceil_double_int (a b : Z) : res Z :=
  z ← ceil_double a b; if in_i32 z then Ok z else Err FloatRange.

(** The exact ceiling the code means. *)
Definition ceil_div (a b : Z) : Z := (a + b - 1) / b.

(** ** Rounding lemmas *)

Lemma rne_div_exact n d : 0 < d → rne_div (n * d) d = n.
Proof.
  intros. unfold rne_div. rewrite Z.div_mul, Z.mod_mul by lia.
  destruct (Z.compare_spec (2 * 0) d); lia.
Qed.

Lemma rne_div_bounds n d :
  0 < d → n / d ≤ rne_div n d ≤ n / d + 1.
Proof.
  intros. unfold rne_div. destruct (_ ?= _); repeat case_match; lia.
Qed.

Lemma rne_div_le n d c : 0 < d → n ≤ c * d → rne_div n d ≤ c.
Proof.
  intros Hd Hn. destruct (decide (n = c * d)) as [->|].
  { by rewrite rne_div_exact. }
  pose proof (rne_div_bounds n d Hd).
  assert (n / d < c) by (apply Z.div_lt_upper_bound; lia). lia.
Qed.

Lemma rne_div_gt n d c : 0 < d → (2 * c + 1) * d < 2 * n → c < rne_div n d.
Proof.
  intros Hd Hn. pose proof (rne_div_bounds n d Hd).
  assert (c ≤ n / d) by (apply Z.div_le_lower_bound; lia).
  destruct (decide (c = n / d)) as [->|]; [|lia].
  unfold rne_div.
  pose proof (Z.div_mod n d). 
  destruct (Z.compare_spec (2 * (n mod d)) d); nia.
Qed.

Lemma pow2_pos k : 0 ≤ k → 0 < 2 ^ k.
Proof. intros. apply Z.pow_pos_nonneg; lia. Qed.

Lemma scale_den_pos d e : 0 < d → 0 < scale_den d e.
Proof. intros. pose proof (pow2_pos (Z.max 0 e)). unfold scale_den. nia. Qed.

Lemma scale_num_pos n e : 0 < n → 0 < scale_num n e.
Proof. intros. pose proof (pow2_pos (Z.max 0 (- e))). unfold scale_num. nia. Qed.

(** One more unit of exponent halves the scaled quotient. *)
Lemma scale_succ n d e :
  scale_num n e * scale_den d (e + 1) = 2 * (scale_num n (e + 1) * scale_den d e).
Proof.
  unfold scale_num, scale_den. destruct (Z.le_gt_cases 0 e).
  - rewrite !(Z.max_l 0 (- _)), !(Z.max_r 0 _), Z.pow_add_r by lia. nia.
  - rewrite !(Z.max_r 0 (- _)), !(Z.max_l 0 _) by lia.
    replace (- e) with (- (e + 1) + 1) by lia. rewrite Z.pow_add_r by lia. nia.
Qed.

(** The first guess of the exponent leaves at least [p] bits. *)
Lemma scale_guess p n d :
  0 < n → 0 < d → 0 < p →
  let e0 := Z.log2 n - Z.log2 d - p in
  scale_den d e0 * 2 ^ (p - 1) ≤ scale_num n e0.
Proof.
  intros Hn Hd Hp e0.
  pose proof (Z.log2_spec n Hn) as [Hn1 _]. pose proof (Z.log2_spec d Hd) as [_ Hd2].
  pose proof (Z.log2_nonneg n). pose proof (Z.log2_nonneg d).
  unfold scale_num, scale_den. destruct (Z.le_gt_cases 0 e0).
  - rewrite (Z.max_l 0 (- e0)), (Z.max_r 0 e0) by lia.
    assert (2 ^ Z.log2 n = 2 ^ Z.succ (Z.log2 d) * (2 ^ e0 * 2 ^ (p - 1))) as E.
    { rewrite <- !Z.pow_add_r by lia. f_equal. lia. }
    pose proof (pow2_pos e0). pose proof (pow2_pos (p - 1)). nia.
  - rewrite (Z.max_r 0 (- e0)), (Z.max_l 0 e0) by lia.
    assert (2 ^ Z.log2 n * 2 ^ (- e0) = 2 ^ Z.succ (Z.log2 d) * 2 ^ (p - 1)) as E.
    { rewrite <- !Z.pow_add_r by lia. f_equal. lia. }
    pose proof (pow2_pos (- e0)). pose proof (pow2_pos (p - 1)). nia.
Qed.

Lemma quot_exp_lower p n d :
  0 < n → 0 < d → 0 < p →
  scale_den d (quot_exp p n d) * 2 ^ (p - 1) ≤ scale_num n (quot_exp p n d).
Proof.
  intros Hn Hd Hp. unfold quot_exp.
  pose proof (scale_guess p n d Hn Hd Hp) as Hg. cbv zeta in Hg.
  set (e0 := Z.log2 n - Z.log2 d - p) in *.
  destruct (Z.leb_spec (2 ^ p) (scale_num n e0 / scale_den d e0)) as [Hle|]; [|done].
  pose proof (scale_succ n d e0) as Hs.
  pose proof (scale_den_pos d e0 Hd). pose proof (scale_den_pos d (e0 + 1) Hd).
  assert (scale_den d e0 * 2 ^ p ≤ scale_num n e0) as Hn0.
  { etrans; [|apply (Z.mul_div_le _ (scale_den d e0)); lia]. nia. }
  replace (2 ^ p) with (2 * 2 ^ (p - 1)) in Hn0
    by (rewrite <- Z.pow_succ_r by lia; f_equal; lia).
  nia.
Qed.

(** An integer with at most [p] bits converts exactly. *)
Lemma float_of_uint_exact p a :
  0 < p → 0 < a < 2 ^ p →
  float_of_uint p a = (a * 2 ^ (p - 1 - Z.log2 a), - (p - 1 - Z.log2 a)) ∧
  0 ≤ p - 1 - Z.log2 a.
Proof.
  intros Hp Ha.
  assert (Z.log2 a < p) as Hl by (apply Z.log2_lt_pow2; lia).
  pose proof (Z.log2_nonneg a). split; [|lia].
  unfold float_of_uint, round_quot, quot_exp.
  destruct (Z.eqb_spec a 0); [lia|]. change (Z.log2 1) with 0.
  assert (∀ e, e ≤ 0 → scale_den 1 e = 1) as Hden.
  { intros. unfold scale_den. by rewrite Z.max_l by lia. }
  assert (∀ e, e ≤ 0 → scale_num a e = a * 2 ^ (- e)) as Hnum.
  { intros. unfold scale_num. by rewrite Z.max_r by lia. }
  cbv zeta. rewrite (Hden (Z.log2 a - 0 - p)), (Hnum (Z.log2 a - 0 - p)), Z.div_1_r by lia.
  destruct (Z.leb_spec (2 ^ p) (a * 2 ^ (- (Z.log2 a - 0 - p)))) as [|Hlt].
  - replace (Z.log2 a - 0 - p + 1) with (- (p - 1 - Z.log2 a)) by lia.
    rewrite Hden, Hnum, Z.opp_involutive by lia.
    f_equal. rewrite <- (Z.mul_1_r (a * 2 ^ _)) at 1. by rewrite rne_div_exact by lia.
  - exfalso. pose proof (Z.log2_spec a). 
    assert (2 ^ p = 2 ^ Z.log2 a * 2 ^ (- (Z.log2 a - 0 - p))) as E.
    { rewrite <- Z.pow_add_r by lia. f_equal. lia. }
    pose proof (pow2_pos (- (Z.log2 a - 0 - p))). nia.
Qed.

Lemma rne_div_scale n d c : 0 < d → 0 < c → rne_div (n * c) (d * c) = rne_div n d.
Proof.
  intros Hd Hc. unfold rne_div. rewrite Z.div_mul_cancel_r, Z.mul_mod_distr_r by lia.
  generalize (n mod d) as r. intros r.
  replace (2 * (r * c) ?= d * c) with (2 * r ?= d). { done. }
  destruct (Z.compare_spec (2 * r) d) as [E|L|G]; symmetry.
  - apply Z.compare_eq_iff. rewrite <- E. ring.
  - apply Z.compare_lt_iff. nia.
  - apply Z.compare_gt_iff. nia.
Qed.

(** A common power of two does not change the rounded quotient. *)
Lemma round_quot_pow2 p a j : 0 ≤ j → 0 < a → round_quot p (a * 2 ^ j) (2 ^ j) = round_quot p a 1.
Proof.
  intros Hj Ha. pose proof (pow2_pos j Hj). unfold round_quot.
  destruct (Z.eqb_spec (a * 2 ^ j) 0); [nia|]. destruct (Z.eqb_spec a 0); [lia|].
  assert (∀ e, scale_num (a * 2 ^ j) e = scale_num a e * 2 ^ j) as Hn
    by (intros; unfold scale_num; ring).
  assert (∀ e, scale_den (2 ^ j) e = scale_den 1 e * 2 ^ j) as Hd
    by (intros; unfold scale_den; ring).
  assert (quot_exp p (a * 2 ^ j) (2 ^ j) = quot_exp p a 1) as ->.
  { unfold quot_exp. rewrite Hn, Hd, Z.div_mul_cancel_r; [|apply Z.neq_sym, Z.lt_neq,
      scale_den_pos; lia | lia].
    rewrite Z.log2_mul_pow2, Z.log2_pow2 by lia. change (Z.log2 1) with 0.
    by replace (j + Z.log2 a - j - p) with (Z.log2 a - 0 - p) by lia. }
  rewrite Hn, Hd, rne_div_scale; [done | apply scale_den_pos; lia | done].
Qed.

(** Products of integers that fit the significand are exact. *)
Lemma float_mul_exact p a b :
  0 < p → 0 < a → 0 < b → a * b < 2 ^ p →
  float_mul p (float_of_uint p a) (float_of_uint p b) = float_of_uint p (a * b).
Proof.
  intros Hp Ha Hb Hab. unfold float_mul.
  destruct (float_of_uint_exact p a) as [-> Hka]; [lia | nia |].
  destruct (float_of_uint_exact p b) as [-> Hkb]; [lia | nia |].
  set (ka := p - 1 - Z.log2 a) in *. set (kb := p - 1 - Z.log2 b) in *. cbn [fst snd].
  unfold scale_num, scale_den, float_of_uint. rewrite Z.opp_involutive.
  rewrite Z.max_l, Z.max_r, Z.mul_1_l by lia. change (2 ^ 0) with 1.
  rewrite <- (round_quot_pow2 p (a * b) (- (- ka + - kb))) by nia. f_equal.
  replace (- (- ka + - kb)) with (ka + kb) by lia. rewrite Z.pow_add_r by lia. ring.
Qed.

(** The ceiling of a rounded quotient is the exact ceiling when the
    numerator of the exact fraction has at most [p] bits. *)
Lemma round_quot_ceil p n d a b :
  0 < p → 0 < n → 0 < d → 0 < b → 0 < a < 2 ^ p → n * b = a * d →
  ceil_dyadic (round_quot p n d) = ceil_div a b.
Proof.
  intros Hp Hn Hd Hb Ha Hab. unfold round_quot.
  destruct (Z.eqb_spec n 0); [lia|].
  pose proof (quot_exp_lower p n d Hn Hd Hp) as Hlow.
  set (e := quot_exp p n d) in *. unfold ceil_dyadic, ceil_div.
  assert (2 ^ p = 2 * 2 ^ (p - 1)) as Hpow.
  { rewrite <- Z.pow_succ_r by lia. f_equal. lia. }
  pose proof (pow2_pos (p - 1) ltac:(lia)).
  destruct (Z.leb_spec 0 e).
  - (* the quotient is at least 2^(p-1), so the divisor is one *)
    unfold scale_num, scale_den in *.
    rewrite (Z.max_l 0 (- e)), (Z.max_r 0 e) in * by lia.
    change (2 ^ 0) with 1 in *.
    pose proof (pow2_pos e ltac:(lia)).
    set (P := 2 ^ (p - 1)) in *. set (E := 2 ^ e) in *.
    assert ((E * b) * (P * d) < 2 * (P * d)) by nia.
    assert (E * b < 2) by (apply (Z.mul_lt_mono_pos_r (P * d)); nia).
    assert (b = 1) as -> by nia. assert (E = 1) as -> by nia.
    assert (n = a * d) as -> by lia.
    rewrite !Z.mul_1_r, rne_div_exact by lia.
    by rewrite Z.div_1_r, Z.add_simpl_r.
  - unfold scale_num, scale_den in *.
    rewrite (Z.max_r 0 (- e)), (Z.max_l 0 e) in * by lia.
    change (2 ^ 0) with 1 in *. rewrite Z.mul_1_r in *.
    set (K := 2 ^ (- e)) in *. assert (0 < K) by (apply pow2_pos; lia).
    set (c := (a + b - 1) / b).
    assert (a ≤ c * b < a + b) as Hc.
    { unfold c. pose proof (Z.div_mod (a + b - 1) b). 
      pose proof (Z.mod_pos_bound (a + b - 1) b). nia. }
    assert (n ≤ c * d) by (apply (Z.mul_le_mono_pos_r _ _ b); nia).
    assert (rne_div (n * K) d ≤ c * K) by (apply rne_div_le; nia).
    assert ((c - 1) * K < rne_div (n * K) d).
    { apply rne_div_gt; [lia|].
      set (P := 2 ^ (p - 1)) in *.
      assert (b * (d * P) ≤ b * (n * K)) by (apply Z.mul_le_mono_nonneg_l; lia).
      assert (b * (n * K) = a * (d * K)) by (rewrite (Z.mul_assoc a), <- Hab; ring).
      assert (a * (d * K) < 2 * P * (d * K)) by (apply Z.mul_lt_mono_pos_r; nia).
      assert (b < 2 * K) by (apply (Z.mul_lt_mono_pos_l (P * d)); lia || nia).
      assert ((c - 1) * b ≤ a - 1) by nia.
      apply (Z.mul_lt_mono_pos_r b); [lia|].
      replace (2 * (n * K) * b) with (2 * K * (a * d)) by (rewrite <- Hab; ring).
      assert ((2 * K * ((c - 1) * b) + b) * d < 2 * K * a * d) by nia. nia. }
    assert (- (- rne_div (n * K) d / K) = c); [|done].
    enough (- rne_div (n * K) d / K = - c) by lia.
    symmetry. apply Z.div_unique_pos with (r := c * K - rne_div (n * K) d); lia.
Qed.

(** The quotient of two integers. *)
Lemma float_div_ratio p a b :
  0 < p → 0 < a < 2 ^ p → 0 < b < 2 ^ p →
  ∃ n d, float_div p (float_of_uint p a) (float_of_uint p b) = round_quot p n d ∧ 0 < n ∧ 0 < d ∧ n * b = a * d.
Proof.
  intros Hp Ha Hb.
  destruct (float_of_uint_exact p a Hp Ha) as [-> Hka]. destruct (float_of_uint_exact p b Hp Hb) as [-> Hkb].
  set (ka := p - 1 - Z.log2 a) in *. set (kb := p - 1 - Z.log2 b) in *.
  pose proof (pow2_pos ka Hka). pose proof (pow2_pos kb Hkb). unfold float_div. cbn [fst snd].
  eexists _, _. split; [reflexivity|]. split; [apply scale_num_pos; nia|]. split; [apply scale_den_pos; nia|].
  unfold scale_num, scale_den. destruct (Z.le_gt_cases ka kb).
  - rewrite (Z.max_r 0 (- _)), (Z.max_l 0 _) by lia.
    replace (2 ^ kb) with (2 ^ ka * 2 ^ (- (- kb - - ka))) by (rewrite <- Z.pow_add_r by lia; f_equal; lia).
    change (2 ^ 0) with 1. ring.
  - rewrite (Z.max_l 0 (- _)), (Z.max_r 0 _) by lia.
    replace (2 ^ ka) with (2 ^ kb * 2 ^ (- kb - - ka)) by (rewrite <- Z.pow_add_r by lia; f_equal; lia).
    change (2 ^ 0) with 1. ring.
Qed.

Lemma float_div_exact_ratio p a b :
  0 < p → 0 < a < 2 ^ p → 0 < b < 2 ^ p →
  ceil_dyadic (float_div p (float_of_uint p a) (float_of_uint p b)) = ceil_div a b.
Proof.
  intros Hp Ha Hb. destruct (float_div_ratio p a b Hp Ha Hb) as (n & d & -> & Hn & Hd & E).
  by apply (round_quot_ceil p n d a b); lia.
Qed.

Lemma ceil_fdiv_exact p a b :
  0 < p → 0 ≤ a < 2 ^ p → 0 < b < 2 ^ p → ceil_fdiv p a b = Ok (ceil_div a b).
Proof.
  intros Hp Ha Hb. unfold ceil_fdiv. destruct (Z.eqb_spec b 0); [lia|].
  destruct (decide (a = 0)) as [->|].
  - f_equal. unfold float_div, float_of_uint at 1. simpl. 
    unfold round_quot, ceil_div. simpl. rewrite Z.div_small by lia. done.
  - by rewrite float_div_exact_ratio by lia.
Qed.

(** Both instances used by the sources, for the operand ranges in which
    they are exact. *)
Lemma ceil_double_exact a b :
  0 ≤ a < 2 ^ 53 → 0 < b < 2 ^ 53 → ceil_double a b = Ok (ceil_div a b).
Proof. apply ceil_fdiv_exact. lia. Qed.

Lemma ceil_float_exact a b :
  0 ≤ a < 2 ^ 24 → 0 < b < 2 ^ 24 → ceil_float a b = Ok (ceil_div a b).
Proof. apply ceil_fdiv_exact. lia. Qed.

Lemma ceil_div_bounds a b : 0 < b → a ≤ ceil_div a b * b < a + b.
Proof.
  intros. unfold ceil_div. pose proof (Z.div_mod (a + b - 1) b).
  pose proof (Z.mod_pos_bound (a + b - 1) b). nia.
Qed.

Lemma ceil_double_int_exact a b :
  0 ≤ a < 2 ^ 31 → 0 < b < 2 ^ 53 → ceil_double_int a b = Ok (ceil_div a b).
Proof.
  intros. unfold ceil_double_int. rewrite ceil_double_exact by lia. simpl.
  pose proof (ceil_div_bounds a b). unfold in_i32.
  destruct (Z.leb_spec (- 2 ^ 31) (ceil_div a b)), (Z.ltb_spec (ceil_div a b) (2 ^ 31));
    simpl; done || nia.
Qed.

Lemma ceil_float_int_exact a b :
  0 ≤ a < 2 ^ 24 → 0 < b < 2 ^ 24 → ceil_float_int a b = Ok (ceil_div a b).
Proof.
  intros. unfold ceil_float_int. rewrite ceil_float_exact by lia. simpl.
  pose proof (ceil_div_bounds a b). unfold in_i32.
  destruct (Z.leb_spec (- 2 ^ 31) (ceil_div a b)), (Z.ltb_spec (ceil_div a b) (2 ^ 31));
    simpl; done || nia.
Qed.

(** ** Rounded quotients and integers *)

Lemma rne_div_lt n d c : 0 < d → 2 * n < (2 * c - 1) * d → rne_div n d < c.
Proof.
  intros Hd Hn. pose proof (rne_div_bounds n d Hd).
  assert (n / d < c) by (apply Z.div_lt_upper_bound; nia).
  destruct (decide (n / d + 1 = c)) as [<-|]; [|lia]. unfold rne_div. pose proof (Z.div_mod n d).
  destruct (Z.compare_spec (2 * (n mod d)) d); nia.
Qed.

Lemma rne_div_ge n d c : 0 < d → c * d ≤ n → c ≤ rne_div n d.
Proof. intros Hd Hn. pose proof (rne_div_bounds n d Hd). assert (c ≤ n / d) by (apply Z.div_le_lower_bound; lia). lia. Qed.

(** The significand has at most [p] bits, before it is rounded. *)
Lemma quot_exp_upper p n d :
  0 < n → 0 < d → 0 < p → scale_num n (quot_exp p n d) < 2 ^ p * scale_den d (quot_exp p n d).
Proof.
  intros Hn Hd Hp. unfold quot_exp. set (e0 := Z.log2 n - Z.log2 d - p).
  destruct (Z.leb_spec (2 ^ p) (scale_num n e0 / scale_den d e0)) as [_|Hlt].
  2: { pose proof (scale_den_pos d e0 Hd). pose proof (Z.mul_succ_div_gt (scale_num n e0) (scale_den d e0) ltac:(lia)). nia. }
  pose proof (Z.log2_spec n Hn) as [_ Hn2]. pose proof (Z.log2_spec d Hd) as [Hd1 _].
  pose proof (Z.log2_nonneg n). pose proof (Z.log2_nonneg d). unfold scale_num, scale_den.
  destruct (Z.le_gt_cases 0 (e0 + 1)).
  - rewrite (Z.max_l 0 (- (e0 + 1))), (Z.max_r 0 (e0 + 1)) by lia.
    assert (2 ^ Z.succ (Z.log2 n) = 2 ^ p * (2 ^ Z.log2 d * 2 ^ (e0 + 1))) as E
      by (rewrite <- !Z.pow_add_r by lia; f_equal; lia).
    pose proof (pow2_pos (e0 + 1)). pose proof (pow2_pos p). change (2 ^ 0) with 1. nia.
  - rewrite (Z.max_r 0 (- (e0 + 1))), (Z.max_l 0 (e0 + 1)) by lia.
    assert (2 ^ Z.succ (Z.log2 n) * 2 ^ (- (e0 + 1)) = 2 ^ p * 2 ^ Z.log2 d) as E
      by (rewrite <- !Z.pow_add_r by lia; f_equal; lia).
    pose proof (pow2_pos (- (e0 + 1))). pose proof (pow2_pos p). change (2 ^ 0) with 1. nia.
Qed.

(** What rounding leaves of a positive quotient: a significand, and a quotient of at least
    one stays so. *)
Lemma round_quot_shape p n d :
  0 < n → 0 < d → 0 < p → let x := round_quot p n d in
  0 < x.1 ≤ 2 ^ p ∧ (d ≤ n → if 0 <=? x.2 then 1 ≤ x.1 else 2 ^ (- x.2) ≤ x.1).
Proof.
  intros Hn Hd Hp. unfold round_quot. destruct (Z.eqb_spec n 0); [lia|]. cbn [fst snd].
  pose proof (quot_exp_lower p n d Hn Hd Hp) as Hlow. pose proof (quot_exp_upper p n d Hn Hd Hp) as Hup.
  set (e := quot_exp p n d) in *. pose proof (scale_den_pos d e Hd) as Hsd. pose proof (pow2_pos (p - 1) ltac:(lia)).
  assert (2 ^ (p - 1) ≤ rne_div (scale_num n e) (scale_den d e)) by (apply rne_div_ge; lia).
  split; [split; [lia | apply rne_div_le; lia]|]. intros Hdn. destruct (Z.leb_spec 0 e); [lia|].
  apply rne_div_ge; [done|]. unfold scale_num, scale_den. rewrite (Z.max_r 0 (- e)), (Z.max_l 0 e) by lia.
  change (2 ^ 0) with 1. pose proof (pow2_pos (- e)). nia.
Qed.

(** A rounded quotient compares with the integers as the exact one does, when the numerator
    of the exact fraction has at most [p] bits. *)
Lemma round_quot_compare p n d a b :
  0 < p → 0 < n → 0 < d → 0 < b → 0 < a < 2 ^ p → n * b = a * d →
  let x := round_quot p n d in x.2 ≤ 0 ∧ ∀ c, (x.1 ?= c * 2 ^ (- x.2)) = (a ?= c * b).
Proof.
  intros Hp Hn Hd Hb Ha Hab. unfold round_quot. destruct (Z.eqb_spec n 0); [lia|]. cbn [fst snd].
  pose proof (quot_exp_lower p n d Hn Hd Hp) as Hlow. set (e := quot_exp p n d) in *.
  assert (2 ^ p = 2 * 2 ^ (p - 1)) as Hpow by (rewrite <- Z.pow_succ_r by lia; f_equal; lia).
  pose proof (pow2_pos (p - 1) ltac:(lia)). destruct (Z.leb_spec 0 e).
  - unfold scale_num, scale_den in *. rewrite (Z.max_l 0 (- e)), (Z.max_r 0 e) in * by lia. change (2 ^ 0) with 1 in *.
    pose proof (pow2_pos e ltac:(lia)). set (P := 2 ^ (p - 1)) in *.
    assert ((2 ^ e * b) * (P * d) < 2 * (P * d)) by nia.
    assert (2 ^ e * b < 2) by (apply (Z.mul_lt_mono_pos_r (P * d)); nia).
    assert (b = 1) as -> by nia. assert (e = 0) as He.
    { destruct (Z.eq_dec e 0); [done|]. pose proof (Z.pow_le_mono_r 2 1 e ltac:(lia) ltac:(lia)). lia. }
    rewrite He in *. assert (n = a * d) as -> by lia. split; [lia|]. intros c.
    change (2 ^ 0) with 1. change (2 ^ (- 0)) with 1. by rewrite !Z.mul_1_r, rne_div_exact by lia.
  - split; [lia|]. unfold scale_num, scale_den in *. rewrite (Z.max_r 0 (- e)), (Z.max_l 0 e) in * by lia.
    change (2 ^ 0) with 1 in *. rewrite Z.mul_1_r in *. set (K := 2 ^ (- e)) in *. assert (0 < K) by (apply pow2_pos; lia).
    assert (b < 2 * K) as HbK.
    { set (P := 2 ^ (p - 1)) in *.
      assert (b * (d * P) ≤ b * (n * K)) by (apply Z.mul_le_mono_nonneg_l; lia).
      assert (b * (n * K) = a * (d * K)) by (rewrite (Z.mul_assoc a), <- Hab; ring).
      assert (a * (d * K) < 2 * P * (d * K)) by (apply Z.mul_lt_mono_pos_r; nia).
      apply (Z.mul_lt_mono_pos_l (P * d)); lia || nia. }
    assert (2 * (n * K) * b = 2 * K * (a * d)) as Ex by (rewrite <- Hab; ring).
    intros c. destruct (Z.compare_spec a (c * b)) as [E|L|G].
    + apply Z.compare_eq_iff. assert (n * K = c * K * d) as -> by (apply (Z.mul_reg_r _ _ b); nia). by rewrite rne_div_exact.
    + apply Z.compare_lt_iff. apply rne_div_lt; [done|]. apply (Z.mul_lt_mono_pos_r b); [lia|]. rewrite Ex.
      assert (a + 1 ≤ c * b) by lia. assert (2 * K * a + b < 2 * K * (c * b)) by nia. nia.
    + apply Z.compare_gt_iff. apply rne_div_gt; [done|]. apply (Z.mul_lt_mono_pos_r b); [lia|]. rewrite Ex.
      assert (c * b + 1 ≤ a) by lia. assert (2 * K * (c * b) + b < 2 * K * a) by nia. nia.
Qed.

(** The first count a [float] loses: 2^24 + 1 elements, one per unit. *)
Example ceil_float_inexact :
  ceil_float 16777217 1 = Ok 16777216 ∧ ceil_div 16777217 1 = 16777217.
Proof. split; vm_compute; reflexivity. Qed.

#[export] Hint Resolve ceil_div_bounds : sim.
