(* ===== verification/DramCommon.v ===== *)
(** * DRAMsim3 common types (DRAMsim3/src/common.h, common.cc)

    Addresses, commands and transactions of the bundled DRAM simulator, and its bit
    helpers. *)

From S2P Require Import Prelude.

Open Scope Z_scope.

(** ** Addresses, commands, transactions *)

Record Address := mkAddress {
  channel : Z; rank : Z; bankgroup : Z; bank : Z; row : Z; column : Z }.

(** The default constructor. *)
Definition Address_default : Address := mkAddress (-1) (-1) (-1) (-1) (-1) (-1).

Inductive CommandType :=
  | READ | READ_PRECHARGE | WRITE | WRITE_PRECHARGE | ACTIVATE | PRECHARGE
  | REFRESH_BANK | REFRESH | SREF_ENTER | SREF_EXIT | SIZE.

#[global] Instance CommandType_eq_dec : EqDecision CommandType.
Proof. solve_decision. Defined.

Record Command := mkCommand {
  cmd_type : CommandType; addr : Address; hex_addr : Z }.

(** [Command()], the invalid command. *)
Definition Command_default : Command := mkCommand SIZE Address_default 0.

Definition IsValid (c : Command) : bool := bool_decide (cmd_type c ≠ SIZE).
Definition IsRefresh (c : Command) : bool :=
  match cmd_type c with REFRESH | REFRESH_BANK => true | _ => false end.
Definition IsRead (c : Command) : bool :=
  match cmd_type c with READ | READ_PRECHARGE => true | _ => false end.
Definition IsWrite (c : Command) : bool :=
  match cmd_type c with WRITE | WRITE_PRECHARGE => true | _ => false end.
Definition IsReadWrite (c : Command) : bool := IsRead c || IsWrite c.
Definition IsRankCMD (c : Command) : bool :=
  match cmd_type c with REFRESH | SREF_ENTER | SREF_EXIT => true | _ => false end.

Definition Rank (c : Command) : Z := rank (addr c).
Definition Bankgroup (c : Command) : Z := bankgroup (addr c).
Definition Bank (c : Command) : Z := bank (addr c).
Definition Row (c : Command) : Z := row (addr c).
Definition Column (c : Command) : Z := column (addr c).

Record Transaction := mkTransaction {
  tr_addr : Z; added_cycle : Z; complete_cycle : Z; is_write : bool }.

(** [Transaction(addr, is_write)] *)
Definition new_Transaction (a : Z) (w : bool) : Transaction := mkTransaction a 0 0 w.

(** [static_cast<int>(cmd_type)], the index into the per-command vectors. *)
Definition cmd_index (t : CommandType) : Z :=
  match t with
  | READ => 0 | READ_PRECHARGE => 1 | WRITE => 2 | WRITE_PRECHARGE => 3
  | ACTIVATE => 4 | PRECHARGE => 5 | REFRESH_BANK => 6 | REFRESH => 7
  | SREF_ENTER => 8 | SREF_EXIT => 9 | SIZE => 10
  end.

(** ** Bit helpers *)

(** [ModuloWidth(addr, bit_width, pos)]: the [bit_width] bits at [pos]. *)
Definition ModuloWidth (a bit_width pos : Z) : Z :=
  let a1 := Z.shiftr a pos in
  let store := a1 in
  let a2 := Z.shiftr a1 bit_width in
  let a3 := u64 (Z.shiftl a2 bit_width) in
  Z.lxor store a3 mod 2 ^ 32.

Definition GetBitInPos (bits pos : Z) : Z := Z.land (Z.shiftr bits pos) 1.

(** [LogBase2]: halve (towards zero) until at most one, counting. *)
Fixpoint LogBase2_loop (fuel : nat) (power_of_two i : Z) : res Z :=
  if 1 <? power_of_two then
    match fuel with
    | O => Err OutOfFuel
    | S f => LogBase2_loop f (Z.quot power_of_two 2) (i + 1)
    end
  else Ok i.

(** 31 halvings empty any [int]. *)
Definition LogBase2 (power_of_two : Z) : res Z := LogBase2_loop 31 power_of_two 0.

(** ** Lemmas *)

Lemma IsValid_false c : IsValid c = false ↔ cmd_type c = SIZE.
Proof. unfold IsValid. rewrite bool_decide_eq_false. destruct (decide (cmd_type c = SIZE)); naive_solver. Qed.

(** The loop of [LogBase2] ends on every [int] and returns the exponent of
    the largest power of two below its argument. *)
Lemma LogBase2_loop_spec f n i :
  1 ≤ n < 2 ^ Z.of_nat (S f) → LogBase2_loop f n i = Ok (i + Z.log2 n).
Proof.
  revert n i. induction f as [|f IH]; intros n i Hn.
  - assert (n = 1) as -> by (change (2 ^ Z.of_nat 1) with 2 in Hn; lia).
    simpl. f_equal. lia.
  - simpl. destruct (Z.ltb_spec 1 n).
    + assert (1 ≤ Z.quot n 2 < 2 ^ Z.of_nat (S f)).
      { rewrite Z.quot_div_nonneg by lia.
        replace (Z.of_nat (S (S f))) with (Z.succ (Z.of_nat (S f))) in Hn by lia.
        rewrite Z.pow_succ_r in Hn by lia.
        split; [apply Z.div_le_lower_bound; lia | apply Z.div_lt_upper_bound; lia]. }
      rewrite IH by done. rewrite Z.quot_div_nonneg by lia.
      change (n / 2) with (n / 2 ^ 1). rewrite <- Z.shiftr_div_pow2 by lia.
      rewrite Z.log2_shiftr by lia. f_equal.
      assert (1 ≤ Z.log2 n) by (apply Z.log2_le_pow2; lia). lia.
    + assert (n = 1) as -> by lia. f_equal. change (Z.log2 1) with 0. lia.
Qed.

Lemma LogBase2_spec n : 1 ≤ n < 2 ^ 31 → LogBase2 n = Ok (Z.log2 n).
Proof. intros. unfold LogBase2. rewrite LogBase2_loop_spec; [done | lia]. Qed.

Lemma LogBase2_pow2 k : 0 ≤ k ≤ 30 → LogBase2 (2 ^ k) = Ok k.
Proof.
  intros. pose proof (Z.pow_pos_nonneg 2 k). pose proof (Z.pow_lt_mono_r 2 k 31).
  rewrite LogBase2_spec, Z.log2_pow2 by lia. done.
Qed.

Lemma LogBase2_loop_stop f n i : n ≤ 1 → LogBase2_loop f n i = Ok i.
Proof. intros. destruct f; simpl; by destruct (Z.ltb_spec 1 n); [lia|]. Qed.

Lemma LogBase2_nonpos n : n < 1 → LogBase2 n = Ok 0.
Proof. intros. apply LogBase2_loop_stop. lia. Qed.
