(* ===== verification/DramConfig.v ===== *)
(** * DRAMsim3 configuration (DRAMsim3/src/configuration.h, configuration.cc)

    The parameters of a memory system, the order in which they are read and
    derived, and the address mapping.  The INI reader is the bundled
    third-party header ext/headers/INIReader.h: it appears as the three
    look-up functions [GetInteger], [Get], [GetBoolean], each of which takes
    the section, the key and the default value.  The theorems concern the
    address mapping: every field is in range, and the six fields together
    determine the request address. *)

From S2P Require Import Prelude DramCommon.

Open Scope Z_scope.

Inductive DRAMProtocol :=
  | DDR3 | DDR4 | GDDR5 | GDDR5X | GDDR6 | LPDDR | LPDDR3 | LPDDR4 | HBM | HBM2 | HMC
  | PROTOCOL_SIZE.

#[global] Instance DRAMProtocol_eq_dec : EqDecision DRAMProtocol.
Proof. solve_decision. Defined.

Inductive RefreshPolicy :=
  | RANK_LEVEL_SIMULTANEOUS | RANK_LEVEL_STAGGERED | BANK_LEVEL_STAGGERED | POLICY_SIZE.

(** The class [Config] is one flat object; here its fields are grouped by
    the member function that assigns them. *)

(** Assigned by [InitSystemParams]. *)
Record SystemParams := mkSystem {
  sys_channel_size : Z; channels : Z; bus_width : Z;
  address_mapping : string; queue_structure : string; row_buf_policy : string;
  refresh_policy : RefreshPolicy; cmd_queue_size : Z; unified_queue : bool;
  trans_queue_size : Z; write_buf_size : Z; enable_self_refresh : bool;
  sref_threshold : Z; aggressive_precharging_enabled : bool }.

(** Assigned by [InitDRAMParams]. *)
Record DRAMParams := mkDRAM {
  protocol : DRAMProtocol; banks : Z; bankgroups : Z; banks_per_group : Z;
  rows : Z; columns : Z; device_width : Z; BL : Z; num_dies : Z;
  enable_hbm_dual_cmd : bool; burst_cycle : Z;
  num_links : Z; link_width : Z; link_speed : Z; block_size : Z; xbar_queue_depth : Z }.

(** Assigned by [CalculateSize]. *)
Record SizeParams := mkSize { devices_per_rank : Z; ranks : Z; channel_size : Z }.

(** Assigned by [SetAddressMapping]. *)
Record MappingParams := mkMapping {
  request_size_bytes : Z; shift_bits : Z;
  ch_pos : Z; ra_pos : Z; bg_pos : Z; ba_pos : Z; ro_pos : Z; co_pos : Z;
  ch_mask : Z; ra_mask : Z; bg_mask : Z; ba_mask : Z; ro_mask : Z; co_mask : Z }.

(** Assigned by [InitTimingParams]. *)
Record TimingParams := mkTiming {
  AL : Z; CL : Z; CWL : Z; RL : Z; WL : Z;
  tCCD_L : Z; tCCD_S : Z; tRTRS : Z; tRTP : Z; tWTR_L : Z; tWTR_S : Z; tWR : Z;
  tRP : Z; tRRD_L : Z; tRRD_S : Z; tRAS : Z; tRCD : Z; tRFC : Z; tRC : Z;
  tCKE : Z; tCKESR : Z; tXS : Z; tXP : Z; tRFCb : Z; tREFI : Z; tREFIb : Z;
  tFAW : Z; tRPRE : Z; tWPRE : Z; read_delay : Z; write_delay : Z;
  tPPD : Z; t32AW : Z; tRCDRD : Z; tRCDWR : Z; ideal_memory_latency : Z }.

Record Config := mkConfig {
  sysp : SystemParams; dramp : DRAMParams; sizep : SizeParams;
  amap : MappingParams; timp : TimingParams; epoch_period : Z }.

Definition IsGDDR (d : DRAMParams) : bool :=
  match protocol d with GDDR5 | GDDR5X | GDDR6 => true | _ => false end.
Definition IsHBM (d : DRAMParams) : bool :=
  match protocol d with HBM | HBM2 => true | _ => false end.
Definition IsHMC (d : DRAMParams) : bool :=
  match protocol d with HMC => true | _ => false end.

(** [Config::AddressMapping] *)
Definition AddressMapping (c : MappingParams) (h : Z) : Address :=
  let h := Z.shiftr h (shift_bits c) in
  mkAddress
    (i32 (Z.land (Z.shiftr h (ch_pos c)) (ch_mask c)))
    (i32 (Z.land (Z.shiftr h (ra_pos c)) (ra_mask c)))
    (i32 (Z.land (Z.shiftr h (bg_pos c)) (bg_mask c)))
    (i32 (Z.land (Z.shiftr h (ba_pos c)) (ba_mask c)))
    (i32 (Z.land (Z.shiftr h (ro_pos c)) (ro_mask c)))
    (i32 (Z.land (Z.shiftr h (co_pos c)) (co_mask c))).

(** [Config::GetDRAMProtocol] *)
Definition GetDRAMProtocol (s : string) : res DRAMProtocol :=
  let protocol_pairs : gmap string DRAMProtocol := list_to_map
    [("DDR3", DDR3); ("DDR4", DDR4); ("GDDR5", GDDR5); ("GDDR5X", GDDR5X);
     ("GDDR6", GDDR6); ("LPDDR", LPDDR); ("LPDDR3", LPDDR3); ("LPDDR4", LPDDR4);
     ("HBM", HBM); ("HBM2", HBM2); ("HMC", HMC)] in
  of_option AbruptExit (protocol_pairs !! s).

(** C integer division of two [int]s. *)
Definition int_div (a b : Z) : res Z :=
  if b =? 0 then Err DivByZero else int_chk (Z.quot a b).

(** [Config::CalculateSize] *)
Definition CalculateSize (s : SystemParams) (d : DRAMParams) : res SizeParams :=
  dpr ← int_div (bus_width s) (device_width d);
  pw ← int_chk (columns d * device_width d);
  page_size ← int_div pw 8;
  rk ← int_div (rows d) 1024;
  prk ← int_chk (page_size * rk);
  megs_per_bank ← int_div prk 1024;
  mb ← int_chk (megs_per_bank * banks d);
  megs_per_rank ← int_chk (mb * dpr);
  if sys_channel_size s <? megs_per_rank then Ok (mkSize dpr 1 megs_per_rank)
  else
    rs ← int_div (sys_channel_size s) megs_per_rank;
    cs ← int_chk (rs * megs_per_rank);
    Ok (mkSize dpr rs cs).

(** *** [Config::SetAddressMapping] *)

(** [address_mapping.substr(i, 2)] for [i = 0, 2, ...]. *)
Fixpoint split2 (s : string) : list string :=
  match s with
  | String a (String b r) => String a (String b EmptyString) :: split2 r
  | String a EmptyString => [String a EmptyString]
  | EmptyString => []
  end.

(** The loop that takes the last field, records its position and adds its
    width; [rev_fields] is [fields] from the back. *)
Fixpoint place_fields (widths : gmap string Z) (rev_fields : list string)
    (pos : Z) (field_pos : gmap string Z) : res (gmap string Z) :=
  match rev_fields with
  | [] => Ok field_pos
  | token :: rest =>
      w ← of_option AbruptExit (widths !! token);
      pos' ← int_chk (pos + w);
      place_fields widths rest pos' (<[token := pos]> field_pos)
  end.

(** [(1 << w) - 1] stored in a [uint64_t]. *)
Definition field_mask (w : Z) : res Z :=
  if (w <? 0) || (30 <? w) then Err SignedOverflow else Ok (2 ^ w - 1).

(** [field_widths] *)
Definition field_widths (s : SystemParams) (d : DRAMParams) (z : SizeParams)
    : res (gmap string Z) :=
  col_low_bits ← LogBase2 (BL d);
  lc ← LogBase2 (columns d);
  lch ← LogBase2 (channels s);
  lra ← LogBase2 (ranks z);
  lbg ← LogBase2 (bankgroups d);
  lba ← LogBase2 (banks_per_group d);
  lro ← LogBase2 (rows d);
  Ok (list_to_map [("ch", lch); ("ra", lra); ("bg", lbg); ("ba", lba); ("ro", lro);
                   ("co", lc - col_low_bits)]).

(** [m.at(k)] *)
Definition map_at (m : gmap string Z) (k : string) : res Z := of_option OutOfRange (m !! k).

(** The tail of [SetAddressMapping]: positions and masks from the two maps. *)
Definition read_mapping (rsb sb : Z) (field_pos widths : gmap string Z) : res MappingParams :=
  p1 ← map_at field_pos "ch"; p2 ← map_at field_pos "ra"; p3 ← map_at field_pos "bg";
  p4 ← map_at field_pos "ba"; p5 ← map_at field_pos "ro"; p6 ← map_at field_pos "co";
  m1 ← map_at widths "ch" ≫= field_mask; m2 ← map_at widths "ra" ≫= field_mask;
  m3 ← map_at widths "bg" ≫= field_mask; m4 ← map_at widths "ba" ≫= field_mask;
  m5 ← map_at widths "ro" ≫= field_mask; m6 ← map_at widths "co" ≫= field_mask;
  Ok (mkMapping rsb sb p1 p2 p3 p4 p5 p6 m1 m2 m3 m4 m5 m6).

Definition SetAddressMapping (s : SystemParams) (d : DRAMParams) (z : SizeParams)
    : res MappingParams :=
  b8 ← int_div (bus_width s) 8;
  rsb ← int_chk (b8 * BL d);
  sb ← LogBase2 rsb;
  widths ← field_widths s d z;
  if negb (String.length (address_mapping s) =? 12)%nat then Err AbruptExit else
  field_pos ← place_fields widths (reverse (split2 (address_mapping s))) 0 ∅;
  read_mapping rsb sb field_pos widths.

(** [BaseDRAMSystem::GetChannel] *)
Definition GetChannel (c : MappingParams) (h : Z) : Z :=
  i32 (Z.land (Z.shiftr (Z.shiftr h (shift_bits c)) (ch_pos c)) (ch_mask c)).

(** *** Reading the INI file *)

Section Reader.
Variable GetInteger : string → string → Z → Z.
Variable Get : string → string → string → string.
Variable GetBoolean : string → string → bool → bool.

(** [Config::InitSystemParams] *)
Definition InitSystemParams : res SystemParams :=
  let ref_policy := Get "system" "refresh_policy" "RANK_LEVEL_STAGGERED" in
  rp ← (if bool_decide (ref_policy = "RANK_LEVEL_SIMULTANEOUS") then Ok RANK_LEVEL_SIMULTANEOUS
        else if bool_decide (ref_policy = "RANK_LEVEL_STAGGERED") then Ok RANK_LEVEL_STAGGERED
        else if bool_decide (ref_policy = "BANK_LEVEL_STAGGERED") then Ok BANK_LEVEL_STAGGERED
        else Err AbruptExit);
  Ok {| sys_channel_size := GetInteger "system" "channel_size" 1024;
        channels := GetInteger "system" "channels" 1;
        bus_width := GetInteger "system" "bus_width" 64;
        address_mapping := Get "system" "address_mapping" "chrobabgraco";
        queue_structure := Get "system" "queue_structure" "PER_BANK";
        row_buf_policy := Get "system" "row_buf_policy" "OPEN_PAGE";
        cmd_queue_size := GetInteger "system" "cmd_queue_size" 16;
        trans_queue_size := GetInteger "system" "trans_queue_size" 32;
        unified_queue := GetBoolean "system" "unified_queue" false;
        write_buf_size := GetInteger "system" "write_buf_size" 16;
        refresh_policy := rp;
        enable_self_refresh := GetBoolean "system" "enable_self_refresh" false;
        sref_threshold := GetInteger "system" "sref_threshold" 1000;
        aggressive_precharging_enabled :=
          GetBoolean "system" "aggressive_precharging_enabled" false |}.

(** [Config::InitDRAMParams] *)
Definition InitDRAMParams : res DRAMParams :=
  proto ← GetDRAMProtocol (Get "dram_structure" "protocol" "DDR3");
  let bgs := GetInteger "dram_structure" "bankgroups" 2 in
  let bpg := GetInteger "dram_structure" "banks_per_group" 2 in
  let bankgroup_enable := GetBoolean "dram_structure" "bankgroup_enable" true in
  bpg ← (if bankgroup_enable then Ok bpg else int_chk (bpg * bgs));
  let bgs := if bankgroup_enable then bgs else 1 in
  bks ← int_chk (bgs * bpg);
  let is_hbm := match proto with HBM | HBM2 => true | _ => false end in
  let dw := GetInteger "dram_structure" "device_width" 8 in
  let blk := GetInteger "hmc" "block_size" 64 in
  bl ← (if bool_decide (proto = HMC) then b ← int_chk (blk * 8); int_div b dw
        else Ok (GetInteger "dram_structure" "BL" 8));
  let per := match proto with GDDR5 => 4 | GDDR5X => 8 | GDDR6 => 16 | _ => 2 end in
  let bl' := if bl =? 0 then (if is_hbm then 4 else 8) else bl in
  let cols := GetInteger "dram_structure" "columns" (2 ^ 10) in
  cols' ← (match proto with
           | GDDR5 | GDDR5X | GDDR6 => int_chk (cols * bl')
           | HBM | HBM2 => int_chk (cols * 2)
           | _ => Ok cols
           end);
  Ok {| protocol := proto; banks := bks; bankgroups := bgs; banks_per_group := bpg;
        rows := GetInteger "dram_structure" "rows" (2 ^ 16);
        columns := cols'; device_width := dw; BL := bl';
        num_dies := GetInteger "dram_structure" "num_dies" 1;
        enable_hbm_dual_cmd := GetBoolean "dram_structure" "hbm_dual_cmd" true && is_hbm;
        burst_cycle := if bl =? 0 then 0 else Z.quot bl per;
        num_links := GetInteger "hmc" "num_links" 4;
        link_width := GetInteger "hmc" "link_width" 16;
        link_speed := GetInteger "hmc" "link_speed" 15000;
        block_size := blk;
        xbar_queue_depth := GetInteger "hmc" "xbar_queue_depth" 16 |}.

(** [Config::InitTimingParams] (the clock period [tCK], a [double] that no
    timing decision reads, left out). *)
Definition InitTimingParams (d : DRAMParams) : res TimingParams :=
  let g k dflt := GetInteger "timing" k dflt in
  let al := g "AL" 0 in let cl := g "CL" 12 in let cwl := g "CWL" 12 in
  let trp := g "tRP" 10 in let tras := g "tRAS" 24 in
  trc ← int_chk (tras + trp);
  rl ← int_chk (al + cl);
  wl ← int_chk (al + cwl);
  rd ← int_chk (rl + burst_cycle d);
  wd ← int_chk (wl + burst_cycle d);
  Ok {| AL := al; CL := cl; CWL := cwl;
        tCCD_L := g "tCCD_L" 6; tCCD_S := g "tCCD_S" 4; tRTRS := g "tRTRS" 2;
        tRTP := g "tRTP" 5; tWTR_L := g "tWTR_L" 5; tWTR_S := g "tWTR_S" 5;
        tWR := g "tWR" 10; tRP := trp; tRRD_L := g "tRRD_L" 4; tRRD_S := g "tRRD_S" 4;
        tRAS := tras; tRCD := g "tRCD" 10; tRFC := g "tRFC" 74; tRC := trc;
        tCKE := g "tCKE" 6; tCKESR := g "tCKESR" 12; tXS := g "tXS" 432;
        tXP := g "tXP" 8; tRFCb := g "tRFCb" 20; tREFI := g "tREFI" 7800;
        tREFIb := g "tREFIb" 1950; tFAW := g "tFAW" 50; tRPRE := g "tRPRE" 1;
        tWPRE := g "tWPRE" 1; tPPD := g "tPPD" 0; t32AW := g "t32AW" 330;
        tRCDRD := g "tRCDRD" 24; tRCDWR := g "tRCDWR" 20;
        ideal_memory_latency := g "ideal_memory_latency" 10;
        RL := rl; WL := wl; read_delay := rd; write_delay := wd |}.

(** The integer and string part of [Config::Config]: the parameters in the
    order the constructor initialises them. *)
Definition new_Config : res Config :=
  s ← InitSystemParams;
  d ← InitDRAMParams;
  z ← CalculateSize s d;
  m ← SetAddressMapping s d z;
  t ← InitTimingParams d;
  Ok (mkConfig s d z m t (GetInteger "other" "epoch_period" 100000)).
End Reader.

(** ** The mapping is a bijection between addresses and coordinates *)

Definition field_names : list string := ["ch"; "ra"; "bg"; "ba"; "ro"; "co"].

(** The request address that the six coordinates of [a] stand for. *)
Definition AddressRecompose (m : MappingParams) (a : Address) : Z :=
  channel a * 2 ^ ch_pos m + rank a * 2 ^ ra_pos m + bankgroup a * 2 ^ bg_pos m
  + bank a * 2 ^ ba_pos m + row a * 2 ^ ro_pos m + column a * 2 ^ co_pos m.

(** The number of request addresses the six masks can tell apart. *)
Definition AddressSpace (m : MappingParams) : Z :=
  (ch_mask m + 1) * (ra_mask m + 1) * (bg_mask m + 1)
  * (ba_mask m + 1) * (ro_mask m + 1) * (co_mask m + 1).

Section Placement.
Variable W : gmap string Z.

(** [fp] stacks the fields of [toks] one above the other from [pos] on. *)
Fixpoint stacked (fp : gmap string Z) (toks : list string) (pos : Z) : Prop :=
  match toks with
  | [] => True
  | t :: r => ∃ w, W !! t = Some w ∧ fp !! t = Some pos ∧ stacked fp r (pos + w)
  end.

Lemma place_fields_frame toks pos fp fp' t :
  place_fields W toks pos fp = Ok fp' → t ∉ toks → fp' !! t = fp !! t.
Proof.
  revert pos fp. induction toks as [|u r IH]; intros pos fp Hp Ht; simpl in Hp.
  { by simplify_eq. }
  inv_res Hp. rewrite (IH _ _ Hp) by set_solver. apply lookup_insert_ne. set_solver.
Qed.

Lemma place_fields_stacked toks pos fp fp' :
  NoDup toks → place_fields W toks pos fp = Ok fp' → stacked fp' toks pos.
Proof.
  intros Hnd. revert pos fp. induction Hnd as [|t r Ht Hnd IH]; intros pos fp Hp; [done|].
  simpl in Hp. inv_res Hp. apply of_option_Ok in Hp0. apply int_chk_inv in Hp1 as [-> _].
  exists v. split; [done|]. split; [|by eapply IH].
  rewrite (place_fields_frame _ _ _ _ _ Hp Ht). apply lookup_insert_eq.
Qed.

(** The value of the fields in a request address [h]. *)
Variable h : Z.

Definition field_val (fp : gmap string Z) (t : string) : Z :=
  match fp !! t, W !! t with
  | Some p, Some w => (Z.shiftr h p) mod 2 ^ w * 2 ^ p
  | _, _ => 0
  end.

Definition fields_val (fp : gmap string Z) (toks : list string) : Z :=
  foldr Z.add 0 (field_val fp <$> toks).

Definition fields_width (toks : list string) : Z :=
  foldr Z.add 0 ((λ t, default 0 (W !! t)) <$> toks).

Lemma fields_val_stacked fp toks pos :
  0 ≤ pos → (∀ t w, W !! t = Some w → 0 ≤ w) → stacked fp toks pos →
  0 ≤ fields_width toks ∧
  fields_val fp toks = (Z.shiftr h pos) mod 2 ^ fields_width toks * 2 ^ pos.
Proof.
  intros Hpos HW. revert pos Hpos. induction toks as [|t r IH]; intros pos Hpos Hst.
  { unfold fields_val, fields_width. simpl. rewrite Z.mod_1_r. lia. }
  destruct Hst as (w & Hw & Hp & Hst). pose proof (HW _ _ Hw) as Hw0.
  destruct (IH (pos + w)) as [Hr E]; [lia | done |].
  change (fields_val fp (t :: r)) with (field_val fp t + fields_val fp r).
  change (fields_width (t :: r)) with (default 0 (W !! t) + fields_width r).
  rewrite E. unfold field_val. rewrite Hw, Hp. simpl. split; [lia|].
  set (k := fields_width r) in *.
  rewrite !Z.shiftr_div_pow2, !Z.pow_add_r by lia.
  pose proof (Z.pow_pos_nonneg 2 w). pose proof (Z.pow_pos_nonneg 2 k).
  pose proof (Z.pow_pos_nonneg 2 pos).
  rewrite <- Z.div_div, Z.rem_mul_r by lia. nia.
Qed.

Lemma fields_val_perm fp toks toks' :
  toks ≡ₚ toks' → fields_val fp toks = fields_val fp toks'.
Proof. unfold fields_val. induction 1; csimpl in *; lia. Qed.

Lemma fields_width_perm toks toks' :
  toks ≡ₚ toks' → fields_width toks = fields_width toks'.
Proof. unfold fields_width. induction 1; csimpl in *; lia. Qed.
End Placement.

Lemma split2_length s n : String.length s = (2 * n)%nat → length (split2 s) = n.
Proof.
  revert s. induction n as [|n IH]; intros s Hs.
  { by destruct s. }
  destruct s as [|a [|b s]]; simpl in Hs; [lia | lia |]. simpl. f_equal. apply IH. lia.
Qed.

(** Six tokens that cover the six names are a permutation of them. *)
Lemma six_tokens W toks fp fp_ok :
  length toks = 6%nat → place_fields W toks 0 ∅ = Ok fp →
  Forall (λ k, map_at fp k = Ok (fp_ok k)) field_names →
  field_names ≡ₚ toks.
Proof.
  intros Hl Hp Hall. apply submseteq_length_Permutation; [|by rewrite Hl].
  apply NoDup_submseteq; [by apply (bool_decide_unpack _); vm_compute|].
  intros k Hk. rewrite Forall_forall in Hall. apply Hall in Hk.
  apply of_option_Ok in Hk. destruct (decide (k ∈ toks)); [done|].
  by rewrite (place_fields_frame W toks 0 ∅ fp k Hp n) in Hk.
Qed.

Lemma field_mask_inv w m : field_mask w = Ok m → 0 ≤ w ≤ 30 ∧ m = 2 ^ w - 1.
Proof.
  unfold field_mask. destruct (Z.ltb_spec w 0), (Z.ltb_spec 30 w); naive_solver lia.
Qed.

(** One coordinate: the [int] conversion loses nothing. *)
Lemma mask_field_val h p w :
  0 ≤ w ≤ 30 → i32 (Z.land (Z.shiftr h p) (2 ^ w - 1)) = (Z.shiftr h p) mod 2 ^ w.
Proof.
  intros. rewrite Z.sub_1_r, <- Z.ones_equiv, Z.land_ones by lia. apply i32_small.
  pose proof (Z.mod_pos_bound (Z.shiftr h p) (2 ^ w) ltac:(apply Z.pow_pos_nonneg; lia)).
  pose proof (Z.pow_le_mono_r 2 w 30). lia.
Qed.

(** What a successful [SetAddressMapping] establishes. *)
Record mapping_ok (s : SystemParams) (d : DRAMParams) (z : SizeParams)
    (m : MappingParams) (W : gmap string Z) : Prop := {
  mo_widths : field_widths s d z = Ok W;
  mo_fields : ∃ fp, place_fields W (reverse (split2 (address_mapping s))) 0 ∅ = Ok fp ∧
    read_mapping (request_size_bytes m) (shift_bits m) fp W = Ok m;
  mo_length : length (split2 (address_mapping s)) = 6%nat }.

Lemma read_mapping_bits rsb sb fp W m :
  read_mapping rsb sb fp W = Ok m → request_size_bytes m = rsb ∧ shift_bits m = sb.
Proof. unfold read_mapping. intros H. inv_res H. by simplify_eq/=. Qed.

Lemma SetAddressMapping_ok s d z m :
  SetAddressMapping s d z = Ok m → ∃ W, mapping_ok s d z m W.
Proof.
  unfold SetAddressMapping. intros H. inv_res H. case_match eqn:Hlen; [done|].
  inv_res H. exists v2. destruct (read_mapping_bits _ _ _ _ _ H) as [E1 E2].
  split; [done | rewrite E1, E2; by eauto |].
  apply negb_false_iff, Nat.eqb_eq in Hlen. by apply (split2_length _ 6).
Qed.

Lemma map_mask_inv W k m :
  (map_at W k ≫= field_mask) = Ok m → ∃ w, W !! k = Some w ∧ 0 ≤ w ≤ 30 ∧ m = 2 ^ w - 1.
Proof.
  intros H. inv_res H. apply of_option_Ok in H0. apply field_mask_inv in H. eauto.
Qed.

(** The position, the width and the mask of each of the six fields. *)
Record fields_ok (W fp : gmap string Z) (m : MappingParams) : Prop := {
  fo_pos : (fp !! "ch" = Some (ch_pos m) ∧ fp !! "ra" = Some (ra_pos m)) ∧
    (fp !! "bg" = Some (bg_pos m) ∧ fp !! "ba" = Some (ba_pos m)) ∧
    (fp !! "ro" = Some (ro_pos m) ∧ fp !! "co" = Some (co_pos m));
  fo_ch : ∃ w, W !! "ch" = Some w ∧ 0 ≤ w ≤ 30 ∧ ch_mask m = 2 ^ w - 1;
  fo_ra : ∃ w, W !! "ra" = Some w ∧ 0 ≤ w ≤ 30 ∧ ra_mask m = 2 ^ w - 1;
  fo_bg : ∃ w, W !! "bg" = Some w ∧ 0 ≤ w ≤ 30 ∧ bg_mask m = 2 ^ w - 1;
  fo_ba : ∃ w, W !! "ba" = Some w ∧ 0 ≤ w ≤ 30 ∧ ba_mask m = 2 ^ w - 1;
  fo_ro : ∃ w, W !! "ro" = Some w ∧ 0 ≤ w ≤ 30 ∧ ro_mask m = 2 ^ w - 1;
  fo_co : ∃ w, W !! "co" = Some w ∧ 0 ≤ w ≤ 30 ∧ co_mask m = 2 ^ w - 1 }.

Lemma read_mapping_fields rsb sb fp W m :
  read_mapping rsb sb fp W = Ok m → fields_ok W fp m.
Proof.
  unfold read_mapping. intros H. inv_res H. simplify_eq/=.
  repeat match goal with
  | H : map_at fp _ = Ok _ |- _ => apply of_option_Ok in H
  | H : (map_at W _ ≫= field_mask) = Ok _ |- _ => apply map_mask_inv in H
  end.
  by split.
Qed.

Lemma field_widths_names s d z W t w :
  field_widths s d z = Ok W → W !! t = Some w → t ∈ field_names.
Proof.
  unfold field_widths. intros H. inv_res H. injection H as <-. intros Ht.
  rewrite !lookup_insert_Some, lookup_empty in Ht. unfold field_names. set_solver.
Qed.

Lemma fields_ok_nonneg W fp m t w :
  fields_ok W fp m → t ∈ field_names → W !! t = Some w → 0 ≤ w.
Proof.
  intros [] Ht Hw. unfold field_names in Ht. set_unfold in Ht.
  destruct_or?; subst; naive_solver lia.
Qed.

Lemma fields_ok_placed W toks fp m :
  length toks = 6%nat → place_fields W toks 0 ∅ = Ok fp → fields_ok W fp m →
  field_names ≡ₚ toks.
Proof.
  intros Hl Hp [Hpos _ _ _ _ _ _].
  apply (six_tokens W toks fp (λ k, default 0 (fp !! k)) Hl Hp).
  destruct_and?. unfold field_names, map_at. repeat constructor;
    match goal with H : fp !! ?k = _ |- of_option _ (_ !! ?k) = _ => by rewrite H end.
Qed.

(** The coordinates recompose the request address modulo the address space. *)
Lemma mapping_ok_recompose s d z m W h :
  0 ≤ h → mapping_ok s d z m W →
  AddressRecompose m (AddressMapping m h) = Z.shiftr h (shift_bits m) mod AddressSpace m.
Proof.
  intros Hh [HW (fp & Hp & Hr) Hlen].
  set (toks := reverse (split2 (address_mapping s))) in *.
  assert (length toks = 6%nat) as Hl by (unfold toks; by rewrite length_reverse).
  pose proof (read_mapping_fields _ _ _ _ _ Hr) as Hf.
  pose proof (fields_ok_placed _ _ _ _ Hl Hp Hf) as Hperm.
  assert (NoDup toks) as Hnd.
  { rewrite <- Hperm. by apply (bool_decide_unpack _); vm_compute. }
  set (g := Z.shiftr h (shift_bits m)).
  assert (0 ≤ g) by (by apply Z.shiftr_nonneg).
  destruct (fields_val_stacked W g fp toks 0) as [Hw0 E]; [lia| |by eapply place_fields_stacked|].
  { intros t w Ht. eapply fields_ok_nonneg; eauto using field_widths_names. }
  rewrite <- (fields_val_perm W g fp _ _ Hperm) in E.
  rewrite <- (fields_width_perm W _ _ Hperm) in E, Hw0.
  rewrite Z.shiftr_0_r, Z.mul_1_r in E.
  destruct Hf as [Hpos (w1&W1&B1&M1) (w2&W2&B2&M2) (w3&W3&B3&M3) (w4&W4&B4&M4) (w5&W5&B5&M5)
    (w6&W6&B6&M6)]. destruct_and?.
  unfold AddressRecompose, AddressSpace, AddressMapping. fold g. simpl.
  rewrite M1, M2, M3, M4, M5, M6, !mask_field_val by lia.
  rewrite !Z.sub_add.
  assert (fields_width W field_names = w1 + w2 + w3 + w4 + w5 + w6) as Ew.
  { unfold fields_width, field_names. csimpl. rewrite W1, W2, W3, W4, W5, W6. simpl. lia. }
  rewrite Ew, !Z.pow_add_r in E by lia. rewrite <- E.
  unfold fields_val, field_names, field_val. csimpl.
  repeat match goal with H : _ !! ?k = Some _ |- context [_ !! ?k] => rewrite H end.
  simpl. lia.
Qed.

(** The width of a field never exceeds the object it indexes. *)
Lemma LogBase2_pow_le n w : 1 ≤ n < 2 ^ 31 → LogBase2 n = Ok w → 2 ^ w ≤ n.
Proof.
  intros Hn. rewrite LogBase2_spec by done. intros [= <-]. apply Z.log2_spec. lia.
Qed.

Definition coords_in_range (s : SystemParams) (d : DRAMParams) (z : SizeParams)
    (a : Address) : Prop :=
  0 ≤ channel a < channels s ∧ 0 ≤ rank a < ranks z ∧ 0 ≤ bankgroup a < bankgroups d ∧
  0 ≤ bank a < banks_per_group d ∧ 0 ≤ row a < rows d.

Lemma mask_field_bounds h p w n :
  0 ≤ w ≤ 30 → 2 ^ w ≤ n → 0 ≤ i32 (Z.land (Z.shiftr h p) (2 ^ w - 1)) < n.
Proof.
  intros. rewrite mask_field_val by done.
  pose proof (Z.mod_pos_bound (Z.shiftr h p) (2 ^ w) ltac:(apply Z.pow_pos_nonneg; lia)). lia.
Qed.

Lemma mapping_in_range s d z m h :
  SetAddressMapping s d z = Ok m →
  1 ≤ channels s < 2 ^ 31 → 1 ≤ ranks z < 2 ^ 31 → 1 ≤ bankgroups d < 2 ^ 31 →
  1 ≤ banks_per_group d < 2 ^ 31 → 1 ≤ rows d < 2 ^ 31 →
  coords_in_range s d z (AddressMapping m h) ∧ GetChannel m h = channel (AddressMapping m h).
Proof.
  intros [W [HW (fp & _ & Hr) _]]%SetAddressMapping_ok H1 H2 H3 H4 H5.
  destruct (read_mapping_fields _ _ _ _ _ Hr) as [_ (w1&W1&B1&M1) (w2&W2&B2&M2)
    (w3&W3&B3&M3) (w4&W4&B4&M4) (w5&W5&B5&M5) _].
  unfold field_widths in HW. inv_res HW. injection HW as <-.
  split; [|done]. simplify_map_eq.
  unfold coords_in_range, AddressMapping. simpl. rewrite M1, M2, M3, M4, M5.
  refine (conj _ (conj _ (conj _ (conj _ _))));
    (apply mask_field_bounds; [done | by apply LogBase2_pow_le]).
Qed.

(** ** Properties *)

(** C25: a successful [SetAddressMapping] makes [AddressMapping] lossless: the six
    coordinates of any request address, put back at their positions, give the
    address in request units modulo the addressable space.  So two requests
    with the same coordinates are the same location of the channel. *)
Theorem address_mapping_roundtrip s d z m h :
  SetAddressMapping s d z = Ok m → 0 ≤ h →
  AddressRecompose m (AddressMapping m h) = Z.shiftr h (shift_bits m) mod AddressSpace m.
Proof.
  intros [W Hm]%SetAddressMapping_ok Hh. by eapply mapping_ok_recompose.
Qed.

(** The coordinates of every request index existing objects: the channel
    is one of the controllers, the rank, bank group and bank one of
    [bank_states_], and the row exists, whatever the sizes are (powers of two
    or not), as long as each is positive. *)
Theorem address_mapping_in_range s d z m h :
  SetAddressMapping s d z = Ok m →
  1 ≤ channels s < 2 ^ 31 → 1 ≤ ranks z < 2 ^ 31 → 1 ≤ bankgroups d < 2 ^ 31 →
  1 ≤ banks_per_group d < 2 ^ 31 → 1 ≤ rows d < 2 ^ 31 →
  coords_in_range s d z (AddressMapping m h) ∧ GetChannel m h = channel (AddressMapping m h).
Proof.
  apply mapping_in_range.
Qed.

(** A small DDR4-like channel: two channels, two ranks, 2x2 banks. *)
Definition ex_sys : SystemParams :=
  mkSystem 4096 2 64 "rochrababgco" "PER_BANK" "OPEN_PAGE" RANK_LEVEL_STAGGERED
    8 false 32 16 false 1000 false.
Definition ex_dram : DRAMParams :=
  mkDRAM DDR4 4 2 2 65536 1024 8 8 1 false 4 4 16 15000 64 16.
Definition ex_size : SizeParams := mkSize 8 2 4096.
Definition ex_map : MappingParams :=
  match SetAddressMapping ex_sys ex_dram ex_size with
  | Ok m => m
  | Err _ => mkMapping 0 0 0 0 0 0 0 0 0 0 0 0 0 0
  end.
Definition ex_tim : TimingParams :=
  {| AL := 0; CL := 16; CWL := 12; RL := 16; WL := 12; tCCD_L := 6; tCCD_S := 4; tRTRS := 1;
     tRTP := 8; tWTR_L := 8; tWTR_S := 3; tWR := 16; tRP := 16; tRRD_L := 6; tRRD_S := 4;
     tRAS := 39; tRCD := 16; tRFC := 420; tRC := 55; tCKE := 6; tCKESR := 7; tXS := 432;
     tXP := 8; tRFCb := 20; tREFI := 9360; tREFIb := 1950; tFAW := 26; tRPRE := 1; tWPRE := 1;
     read_delay := 20; write_delay := 16; tPPD := 0; t32AW := 0; tRCDRD := 24; tRCDWR := 20;
     ideal_memory_latency := 10 |}.
Definition ex_config : Config := mkConfig ex_sys ex_dram ex_size ex_map ex_tim 100000.

Lemma address_mapping_roundtrip_witness :
  ∃ m, SetAddressMapping ex_sys ex_dram ex_size = Ok m ∧
       AddressRecompose m (AddressMapping m 123456789) =
       Z.shiftr 123456789 (shift_bits m) mod AddressSpace m.
Proof.
  eexists. split; [vm_compute; reflexivity|].
  apply (address_mapping_roundtrip ex_sys ex_dram ex_size); [vm_compute; reflexivity | lia].
Defined.

Lemma address_mapping_in_range_witness :
  ∃ m, SetAddressMapping ex_sys ex_dram ex_size = Ok m ∧
       coords_in_range ex_sys ex_dram ex_size (AddressMapping m 987654321) ∧
       GetChannel m 987654321 = channel (AddressMapping m 987654321).
Proof.
  eexists. split; [vm_compute; reflexivity|].
  apply (address_mapping_in_range ex_sys ex_dram ex_size);
    [vm_compute; reflexivity | simpl; lia ..].
Defined.
