(* ===== verification/Stats.v ===== *)
(** * The statistics of a channel (DRAMsim3/src/simple_stats.h, simple_stats.cc)

    The integer counters, vector counters and histograms of [SimpleStats]: what a
    channel counts during an epoch, and what the end of an epoch and the final report
    make of it.  The loops over hash tables go through the entries in the order of
    [map_to_list]; the theorem shows the result does not depend on it.  The energies
    and averages, floating-point numbers computed from these counters, are in Energy; the
    JSON and text reports are output.  The theorem: after any run of the channel, whatever
    epochs end in it, the final report has the exact count of each event, and each
    value is in one bin of its histogram. *)

From S2P Require Import Prelude DramConfig.

Open Scope Z_scope.

Record SimpleStats := mkStats {
  counters_ : gmap string Z; epoch_counters_ : gmap string Z;
  vec_counters_ : gmap string (list Z); epoch_vec_counters_ : gmap string (list Z);
  histo_bounds_ : gmap string (Z * Z); bin_widths_ : gmap string Z;
  histo_counts_ : gmap string (gmap Z Z); epoch_histo_counts_ : gmap string (gmap Z Z);
  histo_bins_ : gmap string (list Z); epoch_histo_bins_ : gmap string (list Z) }.

(** [m[k] += v] *)
Definition map_add {K} `{Countable K} (k : K) (v : Z) (m : gmap K Z) : gmap K Z :=
  <[k := u64 (default 0 (m !! k) + v)]> m.

(** [Increment], [IncrementVec] and [AddValue] *)
Definition Increment (name : string) (s : SimpleStats) : SimpleStats :=
  s {{ epoch_counters_ := map_add name 1 (epoch_counters_ s) }}.
Definition IncrementVec (name : string) (pos : Z) (s : SimpleStats) : res SimpleStats :=
  v ← vmod (default [] (epoch_vec_counters_ s !! name)) pos (λ x, Ok (u64 (x + 1)));
  Ok (s {{ epoch_vec_counters_ := <[name := v]> (epoch_vec_counters_ s) }}).
Definition AddValue (name : string) (value : Z) (s : SimpleStats) : SimpleStats :=
  let counts := default ∅ (epoch_histo_counts_ s !! name) in
  s {{ epoch_histo_counts_ := <[name := map_add (i32 value) 1 counts]> (epoch_histo_counts_ s) }}.

(** [emplace]: an existing entry stays. *)
Definition emplace {V} (k : string) (v : V) (m : gmap string V) : gmap string V :=
  match m !! k with Some _ => m | None => <[k := v]> m end.

(** [InitStat], [InitVecStat] and [InitHistoStat]; the entries of doubles are left out. *)
Definition InitStat (name : string) (s : SimpleStats) : SimpleStats :=
  s {{ counters_ := emplace name 0 (counters_ s); epoch_counters_ := emplace name 0 (epoch_counters_ s) }}.
Definition InitVecStat (vec_len : nat) (name : string) (s : SimpleStats) : SimpleStats :=
  s {{ vec_counters_ := emplace name (replicate vec_len 0) (vec_counters_ s);
       epoch_vec_counters_ := emplace name (replicate vec_len 0) (epoch_vec_counters_ s) }}.
Definition InitHistoStat (name : string) (start_val end_val num_bins : Z) (s : SimpleStats) : SimpleStats :=
  let bins := replicate (Z.to_nat (num_bins + 2)) 0 in
  s {{ bin_widths_ := emplace name (Z.quot (end_val - start_val) num_bins) (bin_widths_ s);
       histo_bounds_ := emplace name (start_val, end_val) (histo_bounds_ s);
       histo_counts_ := emplace name ∅ (histo_counts_ s);
       epoch_histo_counts_ := emplace name ∅ (epoch_histo_counts_ s);
       histo_bins_ := emplace name bins (histo_bins_ s);
       epoch_histo_bins_ := emplace name bins (epoch_histo_bins_ s) }}.

(** [SimpleStats::SimpleStats] *)
Definition counter_names : list string :=
  ["num_cycles"; "epoch_num"; "num_reads_done"; "num_writes_done"; "num_write_buf_hits";
   "num_read_row_hits"; "num_write_row_hits"; "num_read_cmds"; "num_write_cmds"; "num_act_cmds";
   "num_pre_cmds"; "num_ondemand_pres"; "num_ref_cmds"; "num_refb_cmds"; "num_srefe_cmds";
   "num_srefx_cmds"; "hbm_dual_cmds"]%string.
Definition new_SimpleStats (ranks : nat) : SimpleStats :=
  let s := foldl (λ s n, InitStat n s) (mkStats ∅ ∅ ∅ ∅ ∅ ∅ ∅ ∅ ∅ ∅) counter_names in
  let s := foldl (λ s n, InitVecStat ranks n s) s
    ["all_bank_idle_cycles"; "rank_active_cycles"; "sref_cycles"]%string in
  InitHistoStat "interarrival_latency" 0 100 10
    (InitHistoStat "write_latency" 0 200 10 (InitHistoStat "read_latency" 0 200 10 s)).

#[global] Arguments new_SimpleStats : simpl never.

(** The loops [for (it : src) dst[it.first] = f(...)]. *)
Definition upd_each {A B} (f : string → A → option B → res B) (src : gmap string A)
    (dst : gmap string B) : res (gmap string B) :=
  for_each (map_to_list src) (λ '(n, a) d, b ← f n a (d !! n); Ok (<[n := b]> d)) dst.

(** [w[i] += v[i]], for the indices of [v]. *)
Definition add_vec (v w : list Z) : res (list Z) :=
  for_each (seqZ 0 (vsize v)) (λ i w, x ← vget v i; vmod w i (λ y, Ok (u64 (y + x)))) w.

(** [UpdateCounters] *)
Definition UpdateCounters (s : SimpleStats) : res SimpleStats :=
  c ← upd_each (λ _ v o, Ok (u64 (default 0 o + v))) (epoch_counters_ s) (counters_ s);
  w ← upd_each (λ _ v o, add_vec v (default [] o)) (epoch_vec_counters_ s) (vec_counters_ s);
  Ok (s {{ counters_ := c; vec_counters_ := w }}).

(** The bin of a value. *)
Definition bin_of (bounds : Z * Z) (width size value : Z) : res Z :=
  if value <? bounds.1 then Ok 0
  else if bounds.2 <? value then Ok (size - 1)
  else d ← int_chk (value - bounds.1); q ← int_div d width; int_chk (q + 1).

(** The bins of an epoch, from its counts. *)
Definition fill_bins (bounds : Z * Z) (width : Z) (counts : gmap Z Z) (bins : list Z) : res (list Z) :=
  for_each (map_to_list counts) (λ '(value, count) b,
      i ← bin_of bounds width (vsize bins) value; vmod b i (λ x, Ok (u64 (x + count))))
    (replicate (length bins) 0).

Definition add_counts (counts final : gmap Z Z) : gmap Z Z :=
  union_with (λ x y, Some (u64 (x + y))) final counts.

(** [UpdateHistoBins] *)
Definition UpdateHistoBins (s : SimpleStats) : res SimpleStats :=
  eb ← upd_each (λ n bins _, fill_bins (default (0, 0) (histo_bounds_ s !! n)) (default 0 (bin_widths_ s !! n))
                               (default ∅ (epoch_histo_counts_ s !! n)) bins)
         (epoch_histo_bins_ s) (epoch_histo_bins_ s);
  hc ← upd_each (λ _ counts o, Ok (add_counts counts (default ∅ o))) (epoch_histo_counts_ s) (histo_counts_ s);
  hb ← upd_each (λ n _ o, let final_bins := default [] o in
                   let bins := default [] (eb !! n) in
                   for_each (seqZ 0 (vsize final_bins))
                     (λ i w, x ← vget bins i; vmod w i (λ y, Ok (u64 (y + x)))) final_bins)
         (epoch_histo_counts_ s) (histo_bins_ s);
  Ok (s {{ epoch_histo_bins_ := eb; histo_counts_ := hc; histo_bins_ := hb }}).

(** [UpdateEpochStats], which [PrintEpochStats] calls, and [UpdateFinalStats] *)
Definition clear_epoch (s : SimpleStats) : SimpleStats :=
  s {{ epoch_counters_ := (λ _, 0) <$> epoch_counters_ s;
       epoch_vec_counters_ := (λ v, replicate (length v) 0) <$> epoch_vec_counters_ s;
       epoch_histo_counts_ := (λ _, ∅) <$> epoch_histo_counts_ s }}.
Definition UpdateEpochStats (s : SimpleStats) : res SimpleStats :=
  s ← UpdateCounters s; s ← UpdateHistoBins s; Ok (clear_epoch s).
Definition UpdateFinalStats (s : SimpleStats) : res SimpleStats :=
  s ← UpdateCounters s; UpdateHistoBins s.

(** [Reset] *)
Definition SimpleStats_Reset (s : SimpleStats) : SimpleStats :=
  s {{ counters_ := (λ _, 0) <$> counters_ s; epoch_counters_ := (λ _, 0) <$> epoch_counters_ s;
       vec_counters_ := (λ v, replicate (length v) 0) <$> vec_counters_ s;
       epoch_vec_counters_ := (λ v, replicate (length v) 0) <$> epoch_vec_counters_ s;
       histo_counts_ := (λ _, ∅) <$> histo_counts_ s;
       epoch_histo_counts_ := (λ _, ∅) <$> epoch_histo_counts_ s }}.

(** ** Specification *)

(** What happens to the statistics: the three kinds of counts, and the end of an epoch. *)
Inductive stat_event :=
  | SInc (name : string) | SVec (name : string) (pos : Z) | SAdd (name : string) (value : Z) | SEpoch.

Definition stat_step (e : stat_event) (s : SimpleStats) : res SimpleStats :=
  match e with
  | SInc n => Ok (Increment n s)
  | SVec n i => IncrementVec n i s
  | SAdd n v => Ok (AddValue n v s)
  | SEpoch => UpdateEpochStats s
  end.

(** How often something is counted. *)
Fixpoint count_events (p : stat_event → bool) (evs : list stat_event) : Z :=
  match evs with [] => 0 | e :: evs' => (if p e then 1 else 0) + count_events p evs' end.

Definition is_inc (n : string) (e : stat_event) : bool :=
  match e with SInc m => bool_decide (m = n) | _ => false end.
Definition is_vec (n : string) (i : nat) (e : stat_event) : bool :=
  match e with SVec m j => bool_decide (m = n) && (j =? Z.of_nat i) | _ => false end.
Definition is_value (n : string) (v : Z) (e : stat_event) : bool :=
  match e with SAdd m w => bool_decide (m = n) && (i32 w =? v) | _ => false end.

(** Whether [v] falls in bin [j] of a histogram. *)
Definition falls (bounds : Z * Z) (width size v : Z) (j : nat) : bool :=
  match bin_of bounds width size v with Ok i => i =? Z.of_nat j | Err _ => false end.
Definition is_binned (n : string) (bounds : Z * Z) (width size : Z) (j : nat) (e : stat_event) : bool :=
  match e with SAdd m w => bool_decide (m = n) && falls bounds width size (i32 w) j | _ => false end.

(** The entries of the tables, 0 for those that are missing. *)
Definition cell (m : gmap string Z) (n : string) : Z := default 0 (m !! n).
Definition vcell (m : gmap string (list Z)) (n : string) (i : nat) : Z := default 0 (default [] (m !! n) !! i).
Definition hcell (m : gmap string (gmap Z Z)) (n : string) (v : Z) : Z := default 0 (default ∅ (m !! n) !! v).

(** Equality of [uint64_t]s. *)
Definition eq64 (a b : Z) : Prop := u64 a = u64 b.

(** ** Modular arithmetic *)

#[global] Instance eq64_equivalence : Equivalence eq64.
Proof. split; unfold eq64; [by intros a | by intros a b -> | by intros a b c -> ->]. Qed.

#[global] Instance add_eq64 : Proper (eq64 ==> eq64 ==> eq64) Z.add.
Proof. intros a b H c d H'. unfold eq64, u64 in *. by rewrite Zplus_mod, H, H', <- Zplus_mod. Qed.

Lemma u64_eq64 z : eq64 (u64 z) z.
Proof. unfold eq64, u64. by rewrite Zmod_mod. Qed.

Lemma cell_add m n k v : eq64 (cell (map_add k v m) n) (cell m n + (if bool_decide (k = n) then v else 0)).
Proof.
  unfold cell, map_add. case_bool_decide as E.
  - subst. rewrite lookup_insert_eq. apply u64_eq64.
  - by rewrite lookup_insert_ne, Z.add_0_r by done.
Qed.

(** Sums over tables. *)
Definition zsum (l : list Z) : Z := foldr Z.add 0 l.

Lemma zsum_perm l l' : l ≡ₚ l' → zsum l = zsum l'.
Proof. unfold zsum. intros H. induction H; cbn [foldr]; lia. Qed.

(** The counts of the values that satisfy [p]. *)
Definition tally (p : Z → bool) (m : gmap Z Z) : Z :=
  zsum ((λ e, if p e.1 then e.2 else 0) <$> map_to_list m).

Lemma tally_delete p m k x :
  m !! k = Some x → tally p m = tally p (delete k m) + (if p k then x else 0).
Proof.
  intros H. unfold tally. rewrite <- (zsum_perm _ _ (fmap_Permutation _ _ _ (map_to_list_delete m k x H))).
  cbn [fmap list_fmap zsum foldr fst snd]. fold (zsum ((λ e : Z * Z, if p e.1 then e.2 else 0) <$> map_to_list (delete k m))). lia.
Qed.

Lemma tally_insert p m k x :
  tally p (<[k := x]> m) = tally p m + (if p k then x - default 0 (m !! k) else 0).
Proof.
  rewrite (tally_delete p (<[k := x]> m) k x) by apply lookup_insert_eq. rewrite delete_insert_eq.
  destruct (m !! k) as [y|] eqn:E.
  - rewrite (tally_delete p m k y E). cbn. destruct (p k); lia.
  - rewrite delete_id by done. cbn. destruct (p k); lia.
Qed.

Lemma tally_add p m k : eq64 (tally p (map_add k 1 m)) (tally p m + (if p k then 1 else 0)).
Proof.
  unfold map_add. rewrite tally_insert. destruct (p k); [|done].
  replace (tally p m + 1) with (tally p m + ((default 0 (m !! k) + 1) - default 0 (m !! k))) by lia.
  apply add_eq64; [done|]. unfold Z.sub. apply add_eq64; [apply u64_eq64|done].
Qed.

(** ** The loops *)

Lemma upd_each_ok {A B} (f : string → A → option B → res B) src dst :
  (∀ n a, src !! n = Some a → ∃ b, f n a (dst !! n) = Ok b) →
  ∃ d, upd_each f src dst = Ok d ∧ ∀ n,
    match src !! n with
    | Some a => ∃ b, f n a (dst !! n) = Ok b ∧ d !! n = Some b
    | None => d !! n = dst !! n
    end.
Proof.
  intros Hf. assert (∀ l (d0 : gmap string B), NoDup l.*1 → (∀ n a, (n, a) ∈ l → ∃ b, f n a (d0 !! n) = Ok b) →
    ∃ d : gmap string B, for_each l (λ '(n, a) d, b ← f n a (d !! n); Ok (<[n := b]> d)) d0 = Ok d ∧
      (∀ n a, (n, a) ∈ l → ∃ b, f n a (d0 !! n) = Ok b ∧ d !! n = Some b) ∧
      (∀ n, n ∉ l.*1 → d !! n = d0 !! n)) as Hl.
  { induction l as [|[n a] l IH]; intros d0 Hd Hok.
    { exists d0. split; [done|]. split; [|done]. by intros n a Hn%elem_of_nil. }
    csimpl in Hd. apply NoDup_cons in Hd as [Hn Hd]. destruct (Hok n a) as [b Hb]; [set_solver|].
    assert (∀ m c, (m, c) ∈ l → m ≠ n) as Hne.
    { intros m c Hm ->. apply Hn. apply list_elem_of_fmap. by exists (n, c). }
    destruct (IH (<[n := b]> d0) Hd) as (d & E & H1 & H2).
    { intros m c Hm. rewrite lookup_insert_ne by (by apply not_eq_sym, (Hne m c)). apply Hok. set_solver. }
    exists d. cbn [for_each]. rewrite Hb. cbn [mbind res_bind]. split; [done|]. split.
    - intros m c [[= -> ->]|Hm]%elem_of_cons.
      + exists b. split; [done|]. by rewrite (H2 n Hn), lookup_insert_eq.
      + destruct (H1 m c Hm) as (b' & Hb' & Hd'). exists b'. split; [|done].
        by rewrite lookup_insert_ne in Hb' by (by apply not_eq_sym, (Hne m c)).
    - intros m Hm. csimpl in Hm. apply not_elem_of_cons in Hm as [Hm1 Hm2].
      rewrite (H2 m Hm2). by rewrite lookup_insert_ne. }
  destruct (Hl (map_to_list src) dst) as (d & E & H1 & H2).
  - apply NoDup_fst_map_to_list.
  - intros n a Hn%elem_of_map_to_list. by apply Hf.
  - exists d. split; [exact E|]. intros n. destruct (src !! n) as [a|] eqn:Hn.
    + apply H1. by apply elem_of_map_to_list.
    + apply H2. intros Hin. apply list_elem_of_fmap in Hin as ([m a] & -> & Hin%elem_of_map_to_list). naive_solver.
Qed.

Lemma vmod_total {A} (l : list A) (i : nat) x f y :
  l !! i = Some x → f x = Ok y → vmod l (Z.of_nat i) f = Ok (<[i := y]> l).
Proof.
  intros Hl Hf. rewrite (vmod_Ok l (Z.of_nat i) f x y); [by rewrite Nat2Z.id | | done].
  apply vget_lookup. rewrite Nat2Z.id. split; [lia | done].
Qed.

Lemma add_upto_ok (n : nat) (v w : list Z) :
  (n ≤ length v)%nat → (n ≤ length w)%nat →
  ∃ w', for_each (seqZ 0 (Z.of_nat n)) (λ i w, x ← vget v i; vmod w i (λ y, Ok (u64 (y + x)))) w = Ok w' ∧
    length w' = length w ∧
    ∀ i : nat, default 0 (w' !! i) = if decide (i < n)%nat then u64 (default 0 (w !! i) + default 0 (v !! i)) else default 0 (w !! i).
Proof.
  induction n as [|n IH]; intros Hv Hw.
  { exists w. split; [done|]. split; [done|]. intros i. by rewrite decide_False by lia. }
  destruct IH as (w1 & E1 & L1 & H1); [lia..|].
  destruct (lookup_lt_is_Some_2 v n) as [x Hx]; [lia|]. destruct (lookup_lt_is_Some_2 w1 n) as [y Hy]; [lia|].
  replace (Z.of_nat (S n)) with (Z.of_nat n + 1) by lia.
  rewrite seqZ_app, for_each_app, E1 by lia. cbn [mbind res_bind]. rewrite Z.add_0_l.
  assert (seqZ (Z.of_nat n) 1 = [Z.of_nat n]) as -> by by rewrite seqZ_cons by lia.
  cbn [for_each].
  assert (vget v (Z.of_nat n) = Ok x) as -> by (apply vget_lookup; rewrite Nat2Z.id; split; [lia|done]).
  cbn [mbind res_bind]. rewrite (vmod_total w1 n y (λ y, Ok (u64 (y + x))) _ Hy eq_refl). cbn [mbind res_bind].
  eexists. split; [done|]. split; [by rewrite length_insert|]. intros i. specialize (H1 i).
  destruct (decide (i = n)) as [->|Hne].
  - rewrite list_lookup_insert_eq by lia. rewrite decide_True by lia. rewrite decide_False in H1 by lia.
    rewrite Hy in H1. cbn in *. by rewrite Hx, <- H1.
  - rewrite list_lookup_insert_ne by done. rewrite H1. repeat case_decide; done || lia.
Qed.

(** ** Well-formed statistics *)

(** Bounds, width and size of a histogram that has a bin for every value. *)
Record bins_ok (bounds : Z * Z) (width size : Z) : Prop := {
  bo_bounds : 0 ≤ bounds.1 ≤ bounds.2; bo_high : bounds.2 < 2 ^ 31 - 1; bo_width : 0 < width;
  bo_size : Z.quot (bounds.2 - bounds.1) width + 1 < size < 2 ^ 31 }.

Definition bounds_of (s : SimpleStats) (n : string) : Z * Z := default (0, 0) (histo_bounds_ s !! n).
Definition width_of (s : SimpleStats) (n : string) : Z := default 0 (bin_widths_ s !! n).

Record stats_wf (s : SimpleStats) : Prop := {
  sw_vec : ∀ n v, epoch_vec_counters_ s !! n = Some v →
    ∃ w, vec_counters_ s !! n = Some w ∧ length w = length v;
  sw_bins : ∀ n b, epoch_histo_bins_ s !! n = Some b → bins_ok (bounds_of s n) (width_of s n) (vsize b);
  sw_final : ∀ n w, histo_bins_ s !! n = Some w →
    (length w ≤ length (default [] (epoch_histo_bins_ s !! n)))%nat }.

(** The fields that no count changes. *)
Definition stats_frame (s : SimpleStats) :=
  (vec_counters_ s, epoch_vec_counters_ s, (histo_bounds_ s, bin_widths_ s), histo_bins_ s, epoch_histo_bins_ s).

Lemma stats_wf_frame s s' : stats_wf s → stats_frame s' = stats_frame s → stats_wf s'.
Proof.
  intros [H1 H2 H3] [= E1 E2 E3 E4 E5 E6]. split; unfold bounds_of, width_of; rewrite ?E1, ?E2, ?E3, ?E4, ?E5, ?E6; done.
Qed.

Lemma bin_of_ok bounds width size v :
  bins_ok bounds width size → ∃ i : nat, bin_of bounds width size v = Ok (Z.of_nat i) ∧ Z.of_nat i < size.
Proof.
  intros [B1 B2 B3 B4]. unfold bin_of. assert (0 ≤ Z.quot (bounds.2 - bounds.1) width) by (apply Z.quot_pos; lia).
  destruct (Z.ltb_spec v bounds.1); [exists 0%nat; split; [done|lia]|].
  destruct (Z.ltb_spec bounds.2 v).
  { exists (Z.to_nat (size - 1)). rewrite Z2Nat.id by lia. split; [done|lia]. }
  rewrite int_chk_Ok by lia. cbn [mbind res_bind]. unfold int_div.
  destruct (Z.eqb_spec width 0); [lia|].
  assert (0 ≤ Z.quot (v - bounds.1) width ≤ Z.quot (bounds.2 - bounds.1) width) as Hq.
  { split; [apply Z.quot_pos; lia | apply Z.quot_le_mono; lia]. }
  rewrite int_chk_Ok by lia. cbn [mbind res_bind]. rewrite int_chk_Ok by lia.
  exists (Z.to_nat (Z.quot (v - bounds.1) width + 1)). rewrite Z2Nat.id by lia. split; [done|lia].
Qed.

Lemma fill_bins_ok bounds width counts bins :
  bins_ok bounds width (vsize bins) →
  ∃ b, fill_bins bounds width counts bins = Ok b ∧ length b = length bins ∧
    ∀ j, (j < length bins)%nat → eq64 (default 0 (b !! j)) (tally (λ v, falls bounds width (vsize bins) v j) counts).
Proof.
  intros Hb. unfold fill_bins, tally. generalize (map_to_list counts) as l. intros l.
  assert (∀ b0 : list Z, length b0 = length bins → ∃ b, for_each l (λ '(value, count) b,
      i ← bin_of bounds width (vsize bins) value; vmod b i (λ x, Ok (u64 (x + count)))) b0 = Ok b ∧
    length b = length bins ∧ ∀ j, (j < length bins)%nat → eq64 (default 0 (b !! j))
      (default 0 (b0 !! j) + zsum ((λ e, if falls bounds width (vsize bins) e.1 j then e.2 else 0) <$> l))) as Hl.
  { induction l as [|[v c] l IH]; intros b0 Hlen.
    { exists b0. split; [done|]. split; [done|]. intros j _. cbn. by rewrite Z.add_0_r. }
    destruct (bin_of_ok bounds width (vsize bins) v Hb) as (i & Ei & Hi). unfold vsize in Hi.
    cbn [for_each]. rewrite Ei. cbn [mbind res_bind].
    destruct (lookup_lt_is_Some_2 b0 i) as [x Hx]; [lia|]. rewrite (vmod_total b0 i x (λ x, Ok (u64 (x + c))) _ Hx eq_refl).
    cbn [mbind res_bind]. destruct (IH (<[i := u64 (x + c)]> b0)) as (b & E & L & H); [by rewrite length_insert|].
    exists b. split; [exact E|]. split; [done|]. intros j Hj. rewrite (H j Hj). cbn [fmap list_fmap zsum foldr fst snd].
    fold (zsum ((λ e : Z * Z, if falls bounds width (vsize bins) e.1 j then e.2 else 0) <$> l)).
    assert (falls bounds width (vsize bins) v j = bool_decide (i = j)) as ->.
    { unfold falls. rewrite Ei. case_bool_decide; lia. }
    rewrite Z.add_assoc. apply add_eq64; [|done]. case_bool_decide.
    - subst j. rewrite list_lookup_insert_eq by lia. rewrite Hx. apply u64_eq64.
    - by rewrite list_lookup_insert_ne, Z.add_0_r by done. }
  destruct (Hl (replicate (length bins) 0)) as (b & E & L & H); [by rewrite length_replicate|].
  exists b. split; [exact E|]. split; [done|]. intros j Hj. rewrite (H j Hj). by rewrite lookup_replicate_2.
Qed.

Lemma cell_union m m' v :
  eq64 (default 0 (add_counts m m' !! v)) (default 0 (m' !! v) + default 0 (m !! v)).
Proof.
  unfold add_counts. rewrite lookup_union_with. destruct (m' !! v), (m !! v); cbn; rewrite ?Z.add_0_r; try done.
  apply u64_eq64.
Qed.

Lemma tally_union p m m' : eq64 (tally p (add_counts m m')) (tally p m' + tally p m).
Proof.
  revert m'. induction m as [|k x m Hk IH] using map_ind; intros m'.
  { unfold add_counts. rewrite right_id_L by apply _. unfold tally at 3. rewrite map_to_list_empty. cbn.
    by rewrite Z.add_0_r. }
  rewrite (tally_insert p m k x), Hk. cbn [default from_option].
  assert (add_counts (<[k := x]> m) m' = <[k := match m' !! k with Some y => u64 (y + x) | None => x end]> (add_counts m m')) as ->.
  { apply map_eq. intros i. unfold add_counts. rewrite lookup_union_with. destruct (decide (i = k)) as [->|Hne].
    - rewrite !lookup_insert_eq. by destruct (m' !! k).
    - rewrite !lookup_insert_ne, lookup_union_with by done. done. }
  rewrite tally_insert. assert (add_counts m m' !! k = m' !! k) as ->.
  { unfold add_counts. rewrite lookup_union_with, Hk. by destruct (m' !! k). }
  specialize (IH m'). destruct (p k); [|by rewrite !Z.add_0_r].
  rewrite IH, <- Z.add_assoc. apply add_eq64; [done|]. apply add_eq64; [done|].
  destruct (m' !! k) as [y|]; cbn; [|done]. 
  replace (x - 0) with ((y + x) - y) by lia. unfold Z.sub. apply add_eq64; [apply u64_eq64|done].
Qed.

(** ** The end of an epoch *)

Lemma counters_ok s :
  stats_wf s → ∃ c w, UpdateCounters s = Ok (s {{ counters_ := c; vec_counters_ := w }}) ∧
    (∀ n, eq64 (cell c n) (cell (counters_ s) n + cell (epoch_counters_ s) n)) ∧
    (∀ n i, eq64 (vcell w n i) (vcell (vec_counters_ s) n i + vcell (epoch_vec_counters_ s) n i)) ∧
    (∀ n v, epoch_vec_counters_ s !! n = Some v → ∃ u, w !! n = Some u ∧ length u = length v).
Proof.
  intros W. unfold UpdateCounters.
  destruct (upd_each_ok (λ (_ : string) v o, Ok (u64 (default 0 o + v))) (epoch_counters_ s) (counters_ s)) as (c & Ec & Hc);
    [eauto|].
  assert (∀ n v, epoch_vec_counters_ s !! n = Some v → ∃ u, add_vec v (default [] (vec_counters_ s !! n)) = Ok u ∧
    length u = length v ∧ ∀ i, eq64 (default 0 (u !! i)) (vcell (vec_counters_ s) n i + default 0 (v !! i))) as Hadd.
  { intros n v Hv. destruct (sw_vec _ W n v Hv) as (w & Hw & Hl). unfold vcell. rewrite Hw. cbn [default from_option id].
    destruct (add_upto_ok (length v) v w) as (u & E & Hu & H); [lia..|]. exists u. split; [exact E|].
    split; [lia|]. intros i. rewrite H. case_decide; [apply u64_eq64|].
    by rewrite (lookup_ge_None_2 v), Z.add_0_r by lia. }
  destruct (upd_each_ok (λ (_ : string) v o, add_vec v (default [] o)) (epoch_vec_counters_ s) (vec_counters_ s)) as (w & Ew & Hw).
  { intros n v Hv. destruct (Hadd n v Hv) as (u & -> & _). by exists u. }
  exists c, w. rewrite Ec. cbn [mbind res_bind]. rewrite Ew. cbn [mbind res_bind]. split; [done|]. split; [|split].
  - intros n. specialize (Hc n). unfold cell. destruct (epoch_counters_ s !! n); cbn.
    + destruct Hc as (b & [= <-] & ->). apply u64_eq64.
    + by rewrite Hc, Z.add_0_r.
  - intros n i. specialize (Hw n). unfold vcell at 1 3. destruct (epoch_vec_counters_ s !! n) as [v|] eqn:Hv; cbn.
    + destruct Hw as (b & Hb & ->). cbn. destruct (Hadd n v Hv) as (u & Eu & _ & Hu). rewrite Eu in Hb.
      injection Hb as <-. apply Hu.
    + unfold vcell. by rewrite Hw, Z.add_0_r.
  - intros n v Hv. specialize (Hw n). rewrite Hv in Hw. destruct Hw as (b & Hb & ->).
    destruct (Hadd n v Hv) as (u & Eu & Hl & _). exists b. split; [done|]. congruence.
Qed.

(** The bins of a histogram that the end of an epoch fills. *)
Definition size_of (s : SimpleStats) (n : string) : nat := length (default [] (epoch_histo_bins_ s !! n)).

Lemma histograms_ok s :
  stats_wf s → ∃ eb hc hb,
    UpdateHistoBins s = Ok (s {{ epoch_histo_bins_ := eb; histo_counts_ := hc; histo_bins_ := hb }}) ∧
    (∀ n, length (default [] (eb !! n)) = size_of s n) ∧
    (∀ n, is_Some (eb !! n) ↔ is_Some (epoch_histo_bins_ s !! n)) ∧
    (∀ n v, eq64 (hcell hc n v) (hcell (histo_counts_ s) n v + hcell (epoch_histo_counts_ s) n v)) ∧
    (∀ n, length (default [] (hb !! n)) = length (default [] (histo_bins_ s !! n))) ∧
    (∀ n j, (j < length (default [] (histo_bins_ s !! n)))%nat → eq64 (vcell hb n j) (vcell (histo_bins_ s) n j +
      tally (λ v, falls (bounds_of s n) (width_of s n) (Z.of_nat (size_of s n)) v j) (default ∅ (epoch_histo_counts_ s !! n)))).
Proof.
  intros W. unfold UpdateHistoBins.
  set (fill := λ n bins (_ : option (list Z)), fill_bins (default (0, 0) (histo_bounds_ s !! n))
    (default 0 (bin_widths_ s !! n)) (default ∅ (epoch_histo_counts_ s !! n)) bins).
  destruct (upd_each_ok fill (epoch_histo_bins_ s) (epoch_histo_bins_ s)) as (eb & Eeb & Heb).
  { intros n b Hb. destruct (fill_bins_ok _ _ (default ∅ (epoch_histo_counts_ s !! n)) b (sw_bins _ W n b Hb)) as (b' & E & _).
    by exists b'. }
  assert (∀ n, length (default [] (eb !! n)) = size_of s n) as Hsz.
  { intros n. specialize (Heb n). unfold size_of. destruct (epoch_histo_bins_ s !! n) as [b|] eqn:Hb; [|by rewrite Heb].
    destruct Heb as (b' & E & ->). destruct (fill_bins_ok _ _ (default ∅ (epoch_histo_counts_ s !! n)) b (sw_bins _ W n b Hb))
      as (b2 & E2 & L & _). unfold fill, bounds_of, width_of in *. cbn. congruence. }
  assert (∀ n, (length (default [] (histo_bins_ s !! n)) ≤ length (default [] (eb !! n)))%nat) as Hle.
  { intros n. rewrite Hsz. unfold size_of. destruct (histo_bins_ s !! n) as [w|] eqn:Hw; [|cbn; lia].
    by apply (sw_final _ W n w). }
  rewrite Eeb. cbn [mbind res_bind].
  destruct (upd_each_ok (λ (_ : string) counts o, Ok (add_counts counts (default ∅ o))) (epoch_histo_counts_ s) (histo_counts_ s))
    as (hc & Ehc & Hhc); [eauto|]. rewrite Ehc. cbn [mbind res_bind].
  set (add := λ n (_ : gmap Z Z) (o : option (list Z)), let final_bins := default [] o in
    let bins := default [] (eb !! n) in for_each (seqZ 0 (vsize final_bins))
      (λ i w, x ← vget bins i; vmod w i (λ y, Ok (u64 (y + x)))) final_bins).
  destruct (upd_each_ok add (epoch_histo_counts_ s) (histo_bins_ s)) as (hb & Ehb & Hhb).
  { intros n c _. destruct (add_upto_ok (length (default [] (histo_bins_ s !! n))) (default [] (eb !! n)) (default [] (histo_bins_ s !! n)))
      as (w & E & _); [apply Hle | lia | by exists w]. }
  rewrite Ehb. cbn [mbind res_bind]. exists eb, hc, hb. split; [done|]. split; [done|]. split; [|split; [|split]].
  - intros n. specialize (Heb n). destruct (epoch_histo_bins_ s !! n); [|by rewrite Heb].
    destruct Heb as (b & _ & ->). done.
  - intros n v. specialize (Hhc n). unfold hcell. destruct (epoch_histo_counts_ s !! n) as [c|]; cbn.
    + destruct Hhc as (b & [= <-] & ->). apply cell_union.
    + by rewrite Hhc, lookup_empty, Z.add_0_r.
  - intros n. specialize (Hhb n). destruct (epoch_histo_counts_ s !! n) as [c|]; [|by rewrite Hhb].
    destruct Hhb as (b & Hb & ->). cbn.
    destruct (add_upto_ok (length (default [] (histo_bins_ s !! n))) (default [] (eb !! n)) (default [] (histo_bins_ s !! n)))
      as (w & E & L & _); [apply Hle | lia |]. unfold add, vsize in Hb. cbv zeta in Hb. congruence.
  - intros n j Hj. specialize (Hhb n). unfold vcell. destruct (epoch_histo_counts_ s !! n) as [c|] eqn:Hc; cbn.
    + destruct Hhb as (b & Hb & ->). cbn.
      destruct (add_upto_ok (length (default [] (histo_bins_ s !! n))) (default [] (eb !! n)) (default [] (histo_bins_ s !! n)))
        as (w & E & L & H); [apply Hle | lia |]. unfold add, vsize in Hb. cbv zeta in Hb. rewrite E in Hb. injection Hb as <-.
      rewrite H, decide_True, u64_eq64 by done. apply add_eq64; [done|].
      specialize (Hsz n). specialize (Hle n). specialize (Heb n). unfold size_of in *.
      destruct (epoch_histo_bins_ s !! n) as [b|] eqn:Hb; [|rewrite Heb in Hle; cbn in Hle; lia].
      destruct Heb as (b' & Eb & Eb'). rewrite Eb' in *. cbn in *.
      destruct (fill_bins_ok _ _ c b (sw_bins _ W n b Hb)) as (b2 & E2 & L2 & H2).
      unfold fill in Eb. rewrite Hc in Eb. cbn in Eb. unfold bounds_of, width_of, vsize in *. rewrite Eb in E2.
      injection E2 as <-. apply H2. lia.
    + rewrite Hhb. unfold tally. rewrite map_to_list_empty. cbn. by rewrite Z.add_0_r.
Qed.

(** ** What the statistics have counted *)

(** The counts in [s], reported and of the current epoch, are those of [evs]. *)
Record tracks (evs : list stat_event) (s : SimpleStats) : Prop := {
  tk_inc : ∀ n, eq64 (cell (counters_ s) n + cell (epoch_counters_ s) n) (count_events (is_inc n) evs);
  tk_vec : ∀ n i, eq64 (vcell (vec_counters_ s) n i + vcell (epoch_vec_counters_ s) n i) (count_events (is_vec n i) evs);
  tk_value : ∀ n v, eq64 (hcell (histo_counts_ s) n v + hcell (epoch_histo_counts_ s) n v) (count_events (is_value n v) evs);
  tk_bin : ∀ n j, (j < length (default [] (histo_bins_ s !! n)))%nat →
    eq64 (vcell (histo_bins_ s) n j + tally (λ v, falls (bounds_of s n) (width_of s n) (Z.of_nat (size_of s n)) v j)
                                        (default ∅ (epoch_histo_counts_ s !! n)))
      (count_events (is_binned n (bounds_of s n) (width_of s n) (Z.of_nat (size_of s n)) j) evs) }.

(** The reported counts of [f] are those of [evs]. *)
Record reports (evs : list stat_event) (f : SimpleStats) : Prop := {
  rp_inc : ∀ n, eq64 (cell (counters_ f) n) (count_events (is_inc n) evs);
  rp_vec : ∀ n i, eq64 (vcell (vec_counters_ f) n i) (count_events (is_vec n i) evs);
  rp_value : ∀ n v, eq64 (hcell (histo_counts_ f) n v) (count_events (is_value n v) evs);
  rp_bin : ∀ n j, (j < length (default [] (histo_bins_ f !! n)))%nat →
    eq64 (vcell (histo_bins_ f) n j) (count_events (is_binned n (bounds_of f n) (width_of f n) (Z.of_nat (size_of f n)) j) evs) }.

(** [s'] has the tables of [s], with other counts. *)
Record same_shape (s s' : SimpleStats) : Prop := {
  ss_bounds : histo_bounds_ s' = histo_bounds_ s; ss_widths : bin_widths_ s' = bin_widths_ s;
  ss_size : ∀ n, size_of s' n = size_of s n;
  ss_bins : ∀ n, length (default [] (histo_bins_ s' !! n)) = length (default [] (histo_bins_ s !! n));
  ss_vecs : ∀ n, length <$> (epoch_vec_counters_ s' !! n) = length <$> (epoch_vec_counters_ s !! n) }.

#[global] Instance same_shape_preorder : PreOrder same_shape.
Proof.
  split; [by split|]. intros s1 s2 s3 [A1 A2 A3 A4 A5] [B1 B2 B3 B4 B5].
  split; [congruence | congruence | intros n; by rewrite B3 | intros n; by rewrite B4 | intros n; by rewrite B5].
Qed.

Lemma final_ok s :
  stats_wf s → ∃ f, UpdateFinalStats s = Ok f ∧ stats_wf f ∧ (∀ evs, tracks evs s → reports evs f) ∧
    same_shape s f ∧ epoch_counters_ f = epoch_counters_ s ∧ epoch_histo_counts_ f = epoch_histo_counts_ s ∧
    epoch_vec_counters_ f = epoch_vec_counters_ s.
Proof.
  intros W. destruct (counters_ok s W) as (c & w & E1 & C1 & C2 & C3).
  set (s1 := s {{ counters_ := c; vec_counters_ := w }}) in *.
  assert (stats_wf s1) as W1.
  { destruct W as [W1 W2 W3]. unfold s1. destruct s; cbn in *. by split. }
  destruct (histograms_ok s1 W1) as (eb & hc & hb & E2 & H1 & H2 & H3 & H4 & H5).
  unfold UpdateFinalStats. rewrite E1. cbn [mbind res_bind]. rewrite E2. eexists. split; [done|].
  destruct W1 as [V1 V2 V3]. unfold s1, size_of, bounds_of, width_of in *. clear s1.
  destruct s as [f1 f2 f3 f4 f5 f6 f7 f8 f9 f10]; cbn in *. split; [|split; [|split; [|done]]].
  - split; unfold bounds_of, width_of; cbn; [done| |].
    + intros n b Hb. destruct (proj1 (H2 n)) as [b0 Hb0]; [by eexists|]. specialize (V2 n b0 Hb0).
      specialize (H1 n). rewrite Hb, Hb0 in H1. cbn in H1. unfold vsize in *. by rewrite H1.
    + intros n u Hu. specialize (H4 n). rewrite Hu in H4. cbn in H4. rewrite H1, H4.
      destruct (f9 !! n) eqn:E; cbn; [by apply V3 | lia].
  - intros evs [T1 T2 T3 T4]. unfold size_of, bounds_of, width_of in *. cbn in *. split; unfold bounds_of, width_of, size_of; cbn.
    + intros n. etrans; [apply C1 | apply T1].
    + intros n i. etrans; [apply C2 | apply T2].
    + intros n v. etrans; [apply H3 | apply T3].
    + intros n j Hj. rewrite H4 in Hj. rewrite H1. etrans; [by apply H5 | by apply T4].
  - by split; unfold size_of; cbn.
Qed.

Lemma default_fmap_zero {V} (m : gmap string V) n : default 0 (((λ _, 0) <$> m) !! n) = 0.
Proof. rewrite lookup_fmap. by destruct (m !! n). Qed.

(** The end of an epoch. *)
Lemma epoch_ok s :
  stats_wf s → ∃ s', UpdateEpochStats s = Ok s' ∧ stats_wf s' ∧ (∀ evs, tracks evs s → tracks evs s') ∧ same_shape s s'.
Proof.
  intros W. destruct (final_ok s W) as (f & E & Wf & R & Sh & E1 & E2 & E3).
  unfold UpdateEpochStats. unfold UpdateFinalStats in E. apply bind_Ok_inv in E as (s1 & Es & E).
  rewrite Es. cbn [mbind res_bind]. rewrite E. cbn [mbind res_bind]. eexists. split; [done|].
  destruct Wf as [V1 V2 V3], Sh as [S1 S2 S3 S4 S5]. unfold size_of, bounds_of, width_of in *. clear E Es.
  destruct f as [f1 f2 f3 f4 f5 f6 f7 f8 f9 f10]; cbn in *. split; [|split].
  - split; unfold bounds_of, width_of; cbn; [|done|done].
    intros n v Hv. rewrite lookup_fmap in Hv. destruct (f4 !! n) as [u|] eqn:Hu; [|done]. cbn in Hv. injection Hv as <-.
    rewrite length_replicate. by apply V1.
  - intros evs [R1 R2 R3 R4]%R. unfold size_of, bounds_of, width_of in *. cbn in *. split; unfold bounds_of, width_of, size_of; cbn.
    + intros n. unfold cell at 2. rewrite default_fmap_zero, Z.add_0_r. apply R1.
    + intros n i. unfold vcell at 2. rewrite lookup_fmap.
      assert (default 0 (default [] ((λ v : list Z, replicate (length v) 0) <$> (f4 !! n)) !! i) = 0) as ->.
      { destruct (f4 !! n) as [u|]; [|done]. cbn. destruct (replicate (length u) 0 !! i) eqn:Hx; [|done].
        by apply lookup_replicate in Hx as [-> _]. }
      rewrite Z.add_0_r. apply R2.
    + intros n v. unfold hcell at 2. rewrite lookup_fmap.
      assert (default 0 (default ∅ ((λ _ : gmap Z Z, (∅ : gmap Z Z)) <$> (f8 !! n)) !! v) = 0) as -> by by destruct (f8 !! n).
      rewrite Z.add_0_r. apply R3.
    + intros n j Hj. rewrite lookup_fmap.
      assert (default ∅ ((λ _ : gmap Z Z, (∅ : gmap Z Z)) <$> (f8 !! n)) = ∅) as -> by by destruct (f8 !! n).
      unfold tally. rewrite map_to_list_empty. cbn. rewrite Z.add_0_r. by apply R4.
  - split; unfold size_of; cbn; try done. intros n. rewrite lookup_fmap, <- S5. destruct (f4 !! n); cbn; [|done].
    by rewrite length_replicate.
Qed.

(** ** Counting *)

(** An event the tables have a place for. *)
Definition event_ok (s : SimpleStats) (e : stat_event) : Prop :=
  match e with
  | SVec n i => ∃ v, epoch_vec_counters_ s !! n = Some v ∧ 0 ≤ i < vsize v
  | _ => True
  end.

Lemma event_ok_shape s s' e : same_shape s s' → event_ok s e → event_ok s' e.
Proof.
  intros [_ _ _ _ H]. destruct e as [| n i | |]; try done. intros (v & Hv & Hi). specialize (H n). rewrite Hv in H.
  destruct (epoch_vec_counters_ s' !! n) as [u|] eqn:Hu; [|done]. injection H as H. exists u. split; [done|].
  unfold vsize in *. lia.
Qed.

Lemma count_snoc p evs e : count_events p (evs ++ [e]) = count_events p evs + (if p e then 1 else 0).
Proof. induction evs as [|d evs IH]; cbn [count_events app]; lia. Qed.

(** A count that is not of the kind [p] looks for. *)
Lemma tracks_snoc evs s s' e :
  stats_frame s' = stats_frame s → counters_ s' = counters_ s → histo_counts_ s' = histo_counts_ s →
  (∀ n, eq64 (cell (epoch_counters_ s') n) (cell (epoch_counters_ s) n + (if is_inc n e then 1 else 0))) →
  (∀ n i, is_vec n i e = false) →
  (∀ n v, eq64 (hcell (epoch_histo_counts_ s') n v) (hcell (epoch_histo_counts_ s) n v + (if is_value n v e then 1 else 0))) →
  (∀ n b w z j, eq64 (tally (λ v, falls b w z v j) (default ∅ (epoch_histo_counts_ s' !! n)))
     (tally (λ v, falls b w z v j) (default ∅ (epoch_histo_counts_ s !! n)) + (if is_binned n b w z j e then 1 else 0))) →
  tracks evs s → tracks (evs ++ [e]) s' ∧ same_shape s s'.
Proof.
  intros [= F1 F2 F3 F4 F5 F6] Ec Eh Hi Hv Hn Hb [T1 T2 T3 T4]. split.
  - split; unfold bounds_of, width_of, size_of in *; rewrite ?F1, ?F2, ?F3, ?F4, ?F5, ?F6, ?Ec, ?Eh; intros; rewrite count_snoc.
    + rewrite (Hi n), Z.add_assoc. by rewrite T1.
    + rewrite Hv, Z.add_0_r. by apply T2.
    + rewrite (Hn n v), Z.add_assoc. by rewrite T3.
    + rewrite (Hb n _ _ _ j), Z.add_assoc. by rewrite T4.
  - split; unfold size_of; intros; by rewrite ?F2, ?F3, ?F4, ?F5, ?F6.
Qed.

Lemma increment_vec_wf n i v s :
  stats_wf s → epoch_vec_counters_ s !! n = Some v → 0 ≤ i < vsize v →
  ∃ s', IncrementVec n i s = Ok s' ∧ stats_wf s' ∧ same_shape s s'.
Proof.
  intros W Hv Hi. unfold IncrementVec. rewrite Hv. cbn [default from_option id].
  destruct (vget_is_Ok v i Hi) as [x Hx]. rewrite (vmod_Ok v i (λ x, Ok (u64 (x + 1))) x _ Hx eq_refl).
  cbn [mbind res_bind]. eexists. split; [done|]. destruct W as [W1 W2 W3]. unfold bounds_of, width_of, size_of in *.
  destruct s as [f1 f2 f3 f4 f5 f6 f7 f8 f9 f10]; cbn in *. split.
  - split; cbn; [|done|done]. intros m u Hu. destruct (decide (n = m)) as [<-|Hne].
    + rewrite lookup_insert_eq in Hu. injection Hu as <-. rewrite length_insert. by apply W1.
    + rewrite lookup_insert_ne in Hu by done. by apply W1.
  - split; try done. cbn. intros m. destruct (decide (n = m)) as [<-|Hne].
    + rewrite lookup_insert_eq, Hv. cbn. by rewrite length_insert.
    + by rewrite lookup_insert_ne.
Qed.

Lemma increment_tracks evs n i s s' :
  tracks evs s → IncrementVec n i s = Ok s' → tracks (evs ++ [SVec n i]) s'.
Proof.
  intros [T1 T2 T3 T4] E. unfold IncrementVec in E. apply bind_Ok_inv in E as (u & Eu & E). injection E as <-.
  apply vmod_inv in Eu as (x & y & [Hi Hx]%vget_lookup & [= <-] & _ & ->).
  unfold bounds_of, width_of, size_of in *. destruct s as [f1 f2 f3 f4 f5 f6 f7 f8 f9 f10]; cbn in *.
  split; unfold bounds_of, width_of, size_of; cbn; intros; rewrite count_snoc; cbn; rewrite ?Z.add_0_r; auto.
  rewrite <- T2, <- Z.add_assoc. apply add_eq64; [done|]. unfold vcell. destruct (decide (n = n0)) as [<-|Hne].
  - rewrite lookup_insert_eq, bool_decide_eq_true_2 by done. cbn. destruct (Z.eqb_spec i (Z.of_nat i0)) as [->|Hi0].
    + rewrite Nat2Z.id in *. rewrite list_lookup_insert_eq by (by eapply lookup_lt_Some). rewrite Hx. apply u64_eq64.
    + rewrite list_lookup_insert_ne by lia. by rewrite Z.add_0_r.
  - rewrite lookup_insert_ne, bool_decide_eq_false_2 by done. by rewrite Z.add_0_r.
Qed.

Lemma step_tracks evs s e :
  stats_wf s → tracks evs s → event_ok s e →
  ∃ s', stat_step e s = Ok s' ∧ stats_wf s' ∧ tracks (evs ++ [e]) s' ∧ same_shape s s'.
Proof.
  intros W T He. destruct e as [n|n i|n v|]; cbn [stat_step].
  - eexists. split; [done|]. split; [by apply (stats_wf_frame s)|].
    apply (tracks_snoc evs s); try done; intros; cbn; rewrite ?Z.add_0_r; try done. apply cell_add.
  - destruct He as (v & Hv & Hi). destruct (increment_vec_wf n i v s W Hv Hi) as (s' & E & W' & Sh).
    exists s'. split; [done|]. split; [done|]. split; [|done]. by apply (increment_tracks evs n i s).
  - eexists. split; [done|]. split; [by apply (stats_wf_frame s)|].
    apply (tracks_snoc evs s); try done; intros; cbn; rewrite ?Z.add_0_r; try done.
    + unfold hcell. case_bool_decide as Hm; cbn; [subst|by rewrite lookup_insert_ne, Z.add_0_r by done].
      rewrite lookup_insert_eq. cbn. unfold map_add. destruct (Z.eqb_spec (i32 v) v0) as [<-|Hne].
      * rewrite lookup_insert_eq. apply u64_eq64.
      * by rewrite lookup_insert_ne, Z.add_0_r by done.
    + case_bool_decide as Hm; cbn; [subst|by rewrite lookup_insert_ne, Z.add_0_r by done].
      rewrite lookup_insert_eq. apply tally_add.
  - destruct (epoch_ok s W) as (s' & E & W' & HT & Sh). exists s'. split; [done|]. split; [done|].
    split; [|done]. destruct (HT evs T) as [T1 T2 T3 T4]. split; intros; rewrite count_snoc; cbn; rewrite Z.add_0_r; auto.
Qed.

Fixpoint stat_run (evs : list stat_event) (s : SimpleStats) : res SimpleStats :=
  match evs with [] => Ok s | e :: evs' => s' ← stat_step e s; stat_run evs' s' end.

Lemma run_tracks evs evs0 s :
  stats_wf s → tracks evs0 s → Forall (event_ok s) evs →
  ∃ s', stat_run evs s = Ok s' ∧ stats_wf s' ∧ tracks (evs0 ++ evs) s' ∧ same_shape s s'.
Proof.
  revert evs0 s. induction evs as [|e evs IH]; intros evs0 s W T He.
  { exists s. rewrite app_nil_r. by split_and!. }
  apply Forall_cons in He as [He Hes]. destruct (step_tracks evs0 s e W T He) as (s1 & E1 & W1 & T1 & S1).
  destruct (IH (evs0 ++ [e]) s1 W1 T1) as (s2 & E2 & W2 & T2 & S2).
  { eapply Forall_impl; [exact Hes|]. intros d. by apply event_ok_shape. }
  exists s2. cbn [stat_run]. rewrite E1. cbn [mbind res_bind]. split; [done|]. split; [done|].
  split; [by rewrite <- app_assoc in T2 | by etrans].
Qed.

(** ** Fresh statistics *)

Lemma lookup_emplace {V} (m : gmap string V) k v n :
  emplace k v m !! n = if decide (k = n) then Some (default v (m !! n)) else m !! n.
Proof.
  unfold emplace. case_decide as E.
  - subst. destruct (m !! n) eqn:Hn; [done|]. by rewrite lookup_insert_eq.
  - destruct (m !! k); [done|]. by rewrite lookup_insert_ne.
Qed.

Lemma emplace_zero m n k : cell (emplace n 0 m) k = cell m k.
Proof. unfold cell. rewrite lookup_emplace. case_decide; [|done]. by destruct (m !! k). Qed.

Section Fresh.
Variable ranks : nat.

Definition per_rank (m : gmap string (list Z)) : gmap string (list Z) :=
  emplace "sref_cycles" (replicate ranks 0) (emplace "rank_active_cycles" (replicate ranks 0)
    (emplace "all_bank_idle_cycles" (replicate ranks 0) m)).

(** One entry per histogram. *)
Definition per_histogram {V} (read write inter : V) : gmap string V :=
  emplace "interarrival_latency" inter (emplace "write_latency" write (emplace "read_latency" read ∅)).

Lemma new_fields : let s := new_SimpleStats ranks in
  epoch_vec_counters_ s = per_rank ∅ ∧ vec_counters_ s = per_rank ∅ ∧
  epoch_histo_bins_ s = per_histogram (replicate 12 0) (replicate 12 0) (replicate 12 0) ∧
  histo_bins_ s = per_histogram (replicate 12 0) (replicate 12 0) (replicate 12 0) ∧
  histo_bounds_ s = per_histogram (0, 200) (0, 200) (0, 100) ∧ bin_widths_ s = per_histogram 20 20 10 ∧
  epoch_histo_counts_ s = per_histogram ∅ ∅ ∅ ∧ histo_counts_ s = per_histogram ∅ ∅ ∅.
Proof. cbv zeta. split_and!; reflexivity. Qed.

Lemma per_rank_lookup n v : per_rank ∅ !! n = Some v → v = replicate ranks 0.
Proof.
  unfold per_rank. rewrite !lookup_emplace, lookup_empty.
  repeat (case_decide; [naive_solver|]). done.
Qed.

Lemma per_histogram_lookup {V} (a b c : V) n :
  per_histogram a b c !! n =
    if decide ("interarrival_latency" = n)%string then Some c
    else if decide ("write_latency" = n)%string then Some b
    else if decide ("read_latency" = n)%string then Some a else None.
Proof.
  unfold per_histogram. rewrite !lookup_emplace, lookup_empty.
  repeat (case_decide; subst; try done).
Qed.

Lemma new_counters n :
  cell (counters_ (new_SimpleStats ranks)) n = 0 ∧ cell (epoch_counters_ (new_SimpleStats ranks)) n = 0.
Proof.
  assert (∀ l s, cell (counters_ s) n = 0 → cell (epoch_counters_ s) n = 0 →
    let s' := foldl (λ s n, InitStat n s) s l in cell (counters_ s') n = 0 ∧ cell (epoch_counters_ s') n = 0) as Hl.
  { induction l as [|k l IH]; intros s H1 H2; [done|]. cbn [foldl]. apply IH; destruct s; cbn in *; by rewrite emplace_zero. }
  unfold new_SimpleStats. destruct (Hl counter_names (mkStats ∅ ∅ ∅ ∅ ∅ ∅ ∅ ∅ ∅ ∅)) as [H1 H2];
    [unfold cell; cbn; by rewrite lookup_empty ..|].
  revert H1 H2. cbv zeta. generalize (foldl (λ s n, InitStat n s) (mkStats ∅ ∅ ∅ ∅ ∅ ∅ ∅ ∅ ∅ ∅) counter_names).
  intros s H1 H2. by destruct s.
Qed.

Lemma new_stats_ok : stats_wf (new_SimpleStats ranks) ∧ tracks [] (new_SimpleStats ranks).
Proof.
  pose proof new_fields as F. pose proof new_counters as C. cbv zeta in F. revert F C.
  generalize (new_SimpleStats ranks). intros s (E1 & E2 & E3 & E4 & E5 & E6 & E7 & E8) C. split.
  - split; unfold bounds_of, width_of; rewrite ?E1, ?E2, ?E3, ?E4, ?E5, ?E6.
    + intros n v Hv. by exists v.
    + intros n b. rewrite !per_histogram_lookup.
      repeat (case_decide; [intros [= <-]; split; vm_compute; repeat split; congruence|]). done.
    + intros n w ->. done.
  - split; unfold bounds_of, width_of, vcell, hcell; rewrite ?E1, ?E2, ?E3, ?E4, ?E5, ?E6, ?E7, ?E8; intros n; cbn.
    + by destruct (C n) as [-> ->].
    + intros i. destruct (per_rank ∅ !! n) as [v|] eqn:Hv; [|done]. apply per_rank_lookup in Hv as ->. cbn.
      destruct (replicate ranks 0 !! i) eqn:Hx; [|done]. by apply lookup_replicate in Hx as [-> _].
    + intros v. rewrite per_histogram_lookup. repeat (case_decide; [done|]). done.
    + intros j _. rewrite !per_histogram_lookup.
      assert (default 0 (replicate 12 0 !! j) = 0) as Hz
        by (destruct (replicate 12 0 !! j) eqn:Hx; [by apply lookup_replicate in Hx as [-> _]|done]).
      cbn [replicate] in Hz.
      repeat (case_decide; [cbn; rewrite Hz; unfold tally; by rewrite map_to_list_empty|]).
      unfold tally. cbn. by rewrite map_to_list_empty.
Qed.

(** The vector counters of a fresh channel. *)
Lemma new_vec_counters n :
  n ∈ ["all_bank_idle_cycles"; "rank_active_cycles"; "sref_cycles"]%string →
  epoch_vec_counters_ (new_SimpleStats ranks) !! n = Some (replicate ranks 0).
Proof.
  intros Hn. destruct new_fields as (-> & _). unfold per_rank. rewrite !lookup_emplace, lookup_empty. cbn.
  repeat (case_decide; [done|]). set_solver.
Qed.

(** ** Properties *)

(** C21: The final report is exact: after any run of counts and epoch ends on the
    statistics of a fresh channel, each counter, each cell of a vector counter and each
    value of a histogram has been counted as often as it occurred, modulo 2^64, and bin
    [j] of a histogram holds the number of values that fall in it, however the epochs
    cut the run and in whatever order the hash tables are traversed. *)
Theorem final_report_exact evs :
  Forall (event_ok (new_SimpleStats ranks)) evs →
  ∃ s f, stat_run evs (new_SimpleStats ranks) = Ok s ∧ UpdateFinalStats s = Ok f ∧ reports evs f ∧
    same_shape (new_SimpleStats ranks) f.
Proof.
  intros He. destruct new_stats_ok as [W T]. destruct (run_tracks evs [] _ W T He) as (s & E & Ws & Ts & Sh).
  destruct (final_ok s Ws) as (f & Ef & _ & R & Sh' & _). exists s, f. split_and!; [done|done|by apply R|by etrans].
Qed.
End Fresh.

(** Seven reads in two epochs: the bins of their latencies, and a row hit of rank 1. *)
Lemma final_report_exact_witness :
  let evs := [SAdd "read_latency" 25; SAdd "read_latency" 39; SAdd "read_latency" 40; SEpoch; SAdd "read_latency" 0;
    SAdd "read_latency" 200; SVec "sref_cycles" 1; SAdd "read_latency" 201; SInc "epoch_num"; SAdd "read_latency" 20] in
  ∃ s f, stat_run evs (new_SimpleStats 2) = Ok s ∧ UpdateFinalStats s = Ok f ∧ reports evs f ∧
    same_shape (new_SimpleStats 2) f.
Proof.
  cbv zeta. apply (final_report_exact 2). repeat (apply Forall_cons; split; [try exact I|]); [|by apply Forall_nil].
  exists [0; 0]. split; [reflexivity | unfold vsize; cbn; lia].
Defined.

(** The report of that run, computed. *)
Example ex_report :
  (s ← stat_run [SAdd "read_latency" 25; SAdd "read_latency" 39; SAdd "read_latency" 40; SEpoch; SAdd "read_latency" 0;
      SAdd "read_latency" 200; SAdd "read_latency" 201] (new_SimpleStats 2);
   f ← UpdateFinalStats s; Ok (default [] (histo_bins_ f !! "read_latency"%string)))
  = Ok [0; 1; 2; 1; 0; 0; 0; 0; 0; 0; 0; 2].
Proof. vm_compute. reflexivity. Qed.
