(* ===== verification/CDouble.v ===== *)
(** * Double precision arithmetic

    The statistics, the power parameters and the thermal model of DRAMsim3 compute with
    [double].  A value is an IEEE binary64 number, with its signed zeros, infinities and
    the not-a-number; the operations are the correctly rounded ones of the Standard
    Library's specification of floating-point arithmetic, at 53 bits of precision and
    with exponents up to 1024.  They are executable on the integers and rest on no
    axiom. *)

From S2P Require Import Prelude.
From Stdlib Require Import SpecFloat.

Open Scope Z_scope.

Abbreviation double := spec_float.

Definition d64_add (x y : double) : double := SFadd 53 1024 x y.
Definition d64_sub (x y : double) : double := SFsub 53 1024 x y.
Definition d64_mul (x y : double) : double := SFmul 53 1024 x y.
Definition d64_div (x y : double) : double := SFdiv 53 1024 x y.
Definition d64_sqrt (x : double) : double := SFsqrt 53 1024 x.

Declare Scope double_scope.
Infix "⊞" := d64_add (at level 50, left associativity) : double_scope.
Infix "⊟" := d64_sub (at level 50, left associativity) : double_scope.
Infix "⊠" := d64_mul (at level 40, left associativity) : double_scope.
Infix "⊘" := d64_div (at level 40, left associativity) : double_scope.

(** The comparisons, false on a not-a-number. *)
Definition d64_lt (x y : double) : bool := SFltb x y.
Definition d64_le (x y : double) : bool := SFleb x y.

(** The conversion of an integer, rounded to nearest even. *)
Definition d64_of_Z (z : Z) : double := binary_normalize 53 1024 z 0 false.
(** The same for a [uint64_t]. *)
Definition d64_of_u64 (z : Z) : double := d64_of_Z (u64 z).

(** The literal [n / d]: both are exact, so the quotient is the nearest double. *)
Definition d64_lit (n d : Z) : double := d64_div (d64_of_Z n) (d64_of_Z d).

Definition d64_zero : double := S754_zero false.

(** [ceil(x)] and the truncation of [x], if there is such an integer. *)
Definition d64_ceil (x : double) : option Z :=
  match x with
  | S754_zero _ => Some 0
  | S754_finite s m e =>
      let z := if s then Z.neg m else Z.pos m in
      Some (if 0 <=? e then z * 2 ^ e else - ((- z) / 2 ^ (- e)))
  | _ => None
  end.
Definition d64_trunc (x : double) : option Z :=
  match x with
  | S754_zero _ => Some 0
  | S754_finite s m e =>
      let z := if s then Z.neg m else Z.pos m in
      Some (if 0 <=? e then z * 2 ^ e else Z.quot z (2 ^ (- e)))
  | _ => None
  end.

(** The conversion of a double to an [int]: undefined outside its range. *)
Definition int_of_option (o : option Z) : res Z :=
  z ← of_option FloatRange o; if in_i32 z then Ok z else Err FloatRange.
Definition int_of_d64 (x : double) : res Z := int_of_option (d64_trunc x).

#[global] Instance spec_float_eq_dec : EqDecision spec_float.
Proof. intros x y. unfold Decision. decide equality; apply bool_dec || apply Z.eq_dec || apply Pos.eq_dec. Defined.

#[global] Opaque d64_add d64_sub d64_mul d64_div d64_of_Z.

(** ** Checks of the arithmetic *)

(** 0.1 + 0.2 is not 0.3, and 1e-9 is the double nearest to it. *)
Example ex_sum : d64_add (d64_lit 1 10) (d64_lit 2 10) = S754_finite false 5404319552844596 (-54) ∧
  d64_lit 3 10 = S754_finite false 5404319552844595 (-54) ∧
  d64_lit 1 1000000000 = S754_finite false 4835703278458517 (-82).
Proof. vm_compute. done. Qed.

Example ex_integers : d64_of_Z (2 ^ 53 + 1) = d64_of_Z (2 ^ 53) ∧ d64_of_Z 0 = d64_zero ∧
  int_of_d64 (d64_div (d64_of_Z (-7)) (d64_of_Z 2)) = Ok (-3) ∧ d64_ceil (d64_lit 7 2) = Some 4 ∧
  int_of_d64 (d64_of_Z (2 ^ 31)) = Err FloatRange ∧ int_of_d64 (d64_lit 1 0) = Err FloatRange.
Proof. vm_compute. done. Qed.
