(* ===== verification/Energy.v ===== *)
(** * Power and energy (DRAMsim3/src/configuration.cc, simple_stats.h, simple_stats.cc)

    The floating-point half of the configuration and of the statistics of a channel: the
    energy of each command and of each cycle, derived from the currents of the data
    sheet; the energies, averages, bandwidth and power that the end of an epoch and the
    final report compute from the counters.  The theorem: whatever the channel counted,
    and however epochs cut the run, the final energies are the products of the numbers of
    events with the energies per event, rounded once each, and the averages are those of
    all the values of the run. *)

From S2P Require Import Prelude DramConfig Stats CDouble.

Open Scope Z_scope.

(** ** Power parameters *)

(** The members that [InitPowerParams] assigns, and the clock period. *)
Record PowerParams := mkPower {
  tCK : double;
  act_energy_inc : double; read_energy_inc : double; write_energy_inc : double;
  ref_energy_inc : double; refb_energy_inc : double;
  act_stb_energy_inc : double; pre_stb_energy_inc : double; pre_pd_energy_inc : double;
  sref_energy_inc : double }.

Local Open Scope double_scope.

(** [Config::InitPowerParams]; [GetReal] is the look-up of the INI reader. *)
Definition InitPowerParams (GetReal : string → string → double → double)
    (d : DRAMParams) (z : SizeParams) (t : TimingParams) : PowerParams :=
  let I k dflt := GetReal "power" k (d64_of_Z dflt) in
  let VDD := GetReal "power" "VDD" (d64_lit 12 10) in
  let IDD0 := I "IDD0" 48 in let IDD2P := I "IDD2P" 25 in let IDD2N := I "IDD2N" 34 in
  let IDD3N := I "IDD3N" 43 in let IDD4W := I "IDD4W" 123 in let IDD4R := I "IDD4R" 135 in
  let IDD5AB := I "IDD5AB" 250 in let IDD5PB := I "IDD5PB" 5 in let IDD6x := I "IDD6x" 31 in
  let n := d64_of_Z in
  let devices := n (devices_per_rank z) in
  {| tCK := GetReal "timing" "tCK" (n 1);
     act_energy_inc := VDD ⊠ (IDD0 ⊠ n (tRC t) ⊟ (IDD3N ⊠ n (tRAS t) ⊞ IDD2N ⊠ n (tRP t))) ⊠ devices;
     read_energy_inc := VDD ⊠ (IDD4R ⊟ IDD3N) ⊠ n (burst_cycle d) ⊠ devices;
     write_energy_inc := VDD ⊠ (IDD4W ⊟ IDD3N) ⊠ n (burst_cycle d) ⊠ devices;
     ref_energy_inc := VDD ⊠ (IDD5AB ⊟ IDD3N) ⊠ n (tRFC t) ⊠ devices;
     refb_energy_inc := VDD ⊠ (IDD5PB ⊟ IDD3N) ⊠ n (tRFCb t) ⊠ devices;
     act_stb_energy_inc := VDD ⊠ IDD3N ⊠ devices;
     pre_stb_energy_inc := VDD ⊠ IDD2N ⊠ devices;
     pre_pd_energy_inc := VDD ⊠ IDD2P ⊠ devices;
     sref_energy_inc := VDD ⊠ IDD6x ⊠ devices |}.

(** ** The doubles of the statistics *)

Record EnergyStats := mkEnergy {
  doubles_ : gmap string double; vec_doubles_ : gmap string (list double); calculated_ : gmap string double }.

(** The entries that [InitStat] and [InitVecStat] make for them. *)
Definition new_EnergyStats (ranks : nat) : EnergyStats :=
  let inits l := foldl (λ m n, emplace n d64_zero m) ∅ l in
  {| doubles_ := inits ["act_energy"; "read_energy"; "write_energy"; "ref_energy"; "refb_energy"]%string;
     vec_doubles_ := foldl (λ m n, emplace n (replicate ranks d64_zero) m) ∅
                       ["act_stb_energy"; "pre_stb_energy"; "sref_energy"]%string;
     calculated_ := inits ["average_bandwidth"; "total_energy"; "average_power"; "average_read_latency";
                           "average_interarrival"]%string |}.

(** The part of [Reset] that clears them. *)
Definition EnergyStats_Reset (e : EnergyStats) : EnergyStats :=
  {| doubles_ := (λ _, d64_zero) <$> doubles_ e;
     vec_doubles_ := (λ v, replicate (length v) d64_zero) <$> vec_doubles_ e;
     calculated_ := (λ _, d64_zero) <$> calculated_ e |}.

(** [GetHistoAvg] *)
Definition GetHistoAvg (h : gmap Z Z) : double :=
  let '(accu_sum, count) :=
    foldl (λ '(a, c) '(v, n), (u64 (a + u64 (u64 v * n)), u64 (c + n))) (0, 0) (map_to_list h) in
  if count =? 0 then d64_zero else d64_of_u64 accu_sum ⊘ d64_of_u64 count.

Section Energies.
Variable P : PowerParams.
Variables ranks request_size_bytes : Z.

(** [m[name]] on a table of counters. *)
Definition counter (m : gmap string Z) (name : string) : Z := default 0 (m !! name).

(** The energies of the commands, and their order in the total. *)
Definition command_energies (c : gmap string Z) : list (string * double) :=
  [("act_energy", d64_of_u64 (counter c "num_act_cmds") ⊠ act_energy_inc P);
   ("read_energy", d64_of_u64 (counter c "num_read_cmds") ⊠ read_energy_inc P);
   ("write_energy", d64_of_u64 (counter c "num_write_cmds") ⊠ write_energy_inc P);
   ("ref_energy", d64_of_u64 (counter c "num_ref_cmds") ⊠ ref_energy_inc P);
   ("refb_energy", d64_of_u64 (counter c "num_refb_cmds") ⊠ refb_energy_inc P)]%string.

(** One turn of the loop over the ranks. *)
Definition rank_energy (v : gmap string (list Z)) (i : Z) (s : double * gmap string (list double))
    : res (double * gmap string (list double)) :=
  let '(background, m) := s in
  let cycles n := vget (default [] (v !! n)) i in
  let put n x m := l ← vset (default [] (m !! n)) i x; Ok (<[n := l]> m) in
  a ← cycles "rank_active_cycles"; p ← cycles "all_bank_idle_cycles"; r ← cycles "sref_cycles";
  let act_stb := d64_of_u64 a ⊠ act_stb_energy_inc P in
  let pre_stb := d64_of_u64 p ⊠ pre_stb_energy_inc P in
  let sref := d64_of_u64 r ⊠ sref_energy_inc P in
  m ← put "act_stb_energy" act_stb m; m ← put "pre_stb_energy" pre_stb m; m ← put "sref_energy" sref m;
  Ok (background ⊞ (act_stb ⊞ pre_stb ⊞ sref), m).

(** The doubles and vectors of doubles; the background energy goes on to the total. *)
Definition update_energies (c : gmap string Z) (v : gmap string (list Z)) (e : EnergyStats)
    : res (double * EnergyStats) :=
  let d := foldl (λ m '(n, x), <[n := x]> m) (doubles_ e) (command_energies c) in
  '(background, m) ← for_loop (Z.to_nat ranks) 0 (rank_energy v) (d64_zero, vec_doubles_ e);
  Ok (background, e {{ doubles_ := d; vec_doubles_ := m }}).

(** The calculated values, from the counters and the counts of the histograms. *)
Definition update_calculated (c : gmap string Z) (h : gmap string (gmap Z Z)) (background : double)
    (e : EnergyStats) : res EnergyStats :=
  let total_reqs := u64 (counter c "num_reads_done" + counter c "num_writes_done") in
  let total_time := d64_of_u64 (counter c "num_cycles") ⊠ tCK P in
  let avg_bw := d64_of_u64 (total_reqs * u64 request_size_bytes) ⊘ total_time in
  let d n := default d64_zero (doubles_ e !! n) in
  let total_energy := d "act_energy" ⊞ d "read_energy" ⊞ d "write_energy" ⊞ d "ref_energy" ⊞ d "refb_energy"
                      ⊞ background in
  rl ← of_option RangeError (h !! "read_latency");
  ia ← of_option RangeError (h !! "interarrival_latency");
  Ok (e {{ calculated_ :=
    <["average_interarrival" := GetHistoAvg ia]> (<["average_read_latency" := GetHistoAvg rl]>
      (<["average_power" := total_energy ⊘ d64_of_u64 (counter c "num_cycles")]>
        (<["total_energy" := total_energy]> (<["average_bandwidth" := avg_bw]> (calculated_ e))))) }}).

(** [UpdateEpochStats] and [UpdateFinalStats], whole. *)
Definition SimpleStats_UpdateEpochStats (s : SimpleStats * EnergyStats) : res (SimpleStats * EnergyStats) :=
  let '(s, e) := s in
  s ← UpdateCounters s;
  '(background, e) ← update_energies (epoch_counters_ s) (epoch_vec_counters_ s) e;
  s ← UpdateHistoBins s;
  e ← update_calculated (epoch_counters_ s) (epoch_histo_counts_ s) background e;
  Ok (clear_epoch s, e).
Definition SimpleStats_UpdateFinalStats (s : SimpleStats * EnergyStats) : res (SimpleStats * EnergyStats) :=
  let '(s, e) := s in
  s ← UpdateCounters s;
  '(background, e) ← update_energies (counters_ s) (vec_counters_ s) e;
  s ← UpdateHistoBins s;
  e ← update_calculated (counters_ s) (histo_counts_ s) background e;
  Ok (s, e).

(** A run of counts and epoch ends, with the doubles. *)
Definition energy_step (ev : stat_event) (s : SimpleStats * EnergyStats) : res (SimpleStats * EnergyStats) :=
  match ev with
  | SEpoch => SimpleStats_UpdateEpochStats s
  | _ => s1 ← stat_step ev s.1; Ok (s1, s.2)
  end.
Fixpoint energy_run (evs : list stat_event) (s : SimpleStats * EnergyStats) : res (SimpleStats * EnergyStats) :=
  match evs with [] => Ok s | e :: evs' => s' ← energy_step e s; energy_run evs' s' end.
End Energies.

(** ** What the report should say *)

(** The energy entries: the event that each counts and its energy. *)
Definition command_table (P : PowerParams) : list (string * string * double) :=
  [("act_energy", "num_act_cmds", act_energy_inc P); ("read_energy", "num_read_cmds", read_energy_inc P);
   ("write_energy", "num_write_cmds", write_energy_inc P); ("ref_energy", "num_ref_cmds", ref_energy_inc P);
   ("refb_energy", "num_refb_cmds", refb_energy_inc P)]%string.
Definition rank_table (P : PowerParams) : list (string * string * double) :=
  [("act_stb_energy", "rank_active_cycles", act_stb_energy_inc P);
   ("pre_stb_energy", "all_bank_idle_cycles", pre_stb_energy_inc P);
   ("sref_energy", "sref_cycles", sref_energy_inc P)]%string.

(** The values of a histogram in a run: their sum and their number. *)
Definition value_sum (n : string) (evs : list stat_event) : Z :=
  zsum ((λ e, match e with SAdd m v => if bool_decide (m = n) then i32 v else 0 | _ => 0 end) <$> evs).
Definition value_count (n : string) (evs : list stat_event) : Z :=
  zsum ((λ e, match e with SAdd m v => if bool_decide (m = n) then 1 else 0 | _ => 0 end) <$> evs).
Definition average (n : string) (evs : list stat_event) : double :=
  if u64 (value_count n evs) =? 0 then d64_zero
  else d64_of_u64 (value_sum n evs) ⊘ d64_of_u64 (value_count n evs).

Definition num (n : string) (evs : list stat_event) : Z := count_events (is_inc n) evs.
Definition command_energy (evs : list stat_event) (row : string * string * double) : double :=
  d64_of_u64 (num row.1.2 evs) ⊠ row.2.
Definition rank_energy_of (evs : list stat_event) (i : nat) (row : string * string * double) : double :=
  d64_of_u64 (count_events (is_vec row.1.2 i) evs) ⊠ row.2.

(** The background energy: rank by rank, each rank's three standby energies. *)
Definition background_of (P : PowerParams) (ranks : nat) (evs : list stat_event) : double :=
  foldl (λ b i, b ⊞ (rank_energy_of evs i ("act_stb_energy", "rank_active_cycles", act_stb_energy_inc P)
                      ⊞ rank_energy_of evs i ("pre_stb_energy", "all_bank_idle_cycles", pre_stb_energy_inc P)
                      ⊞ rank_energy_of evs i ("sref_energy", "sref_cycles", sref_energy_inc P)))%string
    d64_zero (seq 0 ranks).
Definition total_of (P : PowerParams) (ranks : nat) (evs : list stat_event) : double :=
  let c n inc := d64_of_u64 (num n evs) ⊠ inc in
  (c "num_act_cmds" (act_energy_inc P) ⊞ c "num_read_cmds" (read_energy_inc P)
   ⊞ c "num_write_cmds" (write_energy_inc P) ⊞ c "num_ref_cmds" (ref_energy_inc P)
   ⊞ c "num_refb_cmds" (refb_energy_inc P) ⊞ background_of P ranks evs)%string.

Record energies_of (P : PowerParams) (ranks : nat) (rsb : Z) (evs : list stat_event) (e : EnergyStats) : Prop := {
  eo_command : ∀ row, row ∈ command_table P → doubles_ e !! row.1.1 = Some (command_energy evs row);
  eo_rank : ∀ row, row ∈ rank_table P →
    default [] (vec_doubles_ e !! row.1.1) = (λ i, rank_energy_of evs i row) <$> seq 0 ranks;
  eo_total : calculated_ e !! "total_energy"%string = Some (total_of P ranks evs);
  eo_power : calculated_ e !! "average_power"%string = Some (total_of P ranks evs ⊘ d64_of_u64 (num "num_cycles" evs));
  eo_bandwidth : calculated_ e !! "average_bandwidth"%string =
    Some (d64_of_u64 ((num "num_reads_done" evs + num "num_writes_done" evs) * rsb)
          ⊘ (d64_of_u64 (num "num_cycles" evs) ⊠ tCK P));
  eo_latency : calculated_ e !! "average_read_latency"%string = Some (average "read_latency" evs);
  eo_interarrival : calculated_ e !! "average_interarrival"%string = Some (average "interarrival_latency" evs) }.

(** ** Averages *)

#[global] Instance d64_of_u64_proper : Proper (eq64 ==> eq) d64_of_u64.
Proof. intros a b H. unfold d64_of_u64. by rewrite H. Qed.

#[global] Instance mul_eq64 : Proper (eq64 ==> eq64 ==> eq64) Z.mul.
Proof. intros a b H c d H'. unfold eq64, u64 in *. by rewrite Zmult_mod, H, H', <- Zmult_mod. Qed.

Lemma eq64_test a b : eq64 a b → (u64 a =? 0) = (u64 b =? 0).
Proof. by intros ->. Qed.

(** Sums of functions over lists. *)
Definition sum_over {A} (f : A → Z) (l : list A) : Z := zsum (f <$> l).

Lemma sum_over_cons {A} (f : A → Z) x l : sum_over f (x :: l) = f x + sum_over f l.
Proof. done. Qed.

Lemma sum_over_app {A} (f : A → Z) l l' : sum_over f (l ++ l') = sum_over f l + sum_over f l'.
Proof. induction l as [|x l IH]; [done|]. cbn [app]. rewrite !sum_over_cons. lia. Qed.

Lemma sum_over_ext {A} (f g : A → Z) l : (∀ x, x ∈ l → f x = g x) → sum_over f l = sum_over g l.
Proof.
  induction l as [|x l IH]; intros H; [done|]. rewrite !sum_over_cons, (H x), IH; [done | set_solver | set_solver].
Qed.

Lemma sum_over_zero {A} (f : A → Z) l : (∀ x, x ∈ l → f x = 0) → sum_over f l = 0.
Proof. induction l as [|x l IH]; intros H; [done|]. rewrite sum_over_cons, (H x), IH; [done | set_solver | set_solver]. Qed.

Lemma sum_over_add {A} (f g : A → Z) l : sum_over (λ x, f x + g x) l = sum_over f l + sum_over g l.
Proof. induction l as [|x l IH]; [done|]. rewrite !sum_over_cons. lia. Qed.

Lemma sum_over_perm {A} (f : A → Z) l l' : l ≡ₚ l' → sum_over f l = sum_over f l'.
Proof. intros H. apply zsum_perm. by rewrite H. Qed.

(** A function that is zero but at one key. *)
Lemma sum_over_single (f : Z → Z) k K : NoDup K → k ∈ K → (∀ x, x ≠ k → f x = 0) → sum_over f K = f k.
Proof.
  intros HK Hk Hf. apply elem_of_Permutation in Hk as [K' Hp]. rewrite (sum_over_perm f _ _ Hp), sum_over_cons.
  rewrite sum_over_zero; [lia|]. intros x Hx. apply Hf. intros ->. rewrite Hp in HK. by apply NoDup_cons in HK as [? _].
Qed.

(** What [GetHistoAvg] adds up. *)
Lemma histo_sums (l : list (Z * Z)) a c :
  let r := foldl (λ '(a, c) '(v, n), (u64 (a + u64 (u64 v * n)), u64 (c + n))) (a, c) l in
  eq64 r.1 (a + sum_over (λ e, e.1 * e.2) l) ∧ eq64 r.2 (c + sum_over snd l) ∧ (l ≠ [] → u64 r.2 = r.2).
Proof.
  revert a c. induction l as [|[v n] l IH]; intros a c; [by cbn; rewrite !Z.add_0_r|].
  rewrite !sum_over_cons. cbn [foldl fst snd].
  destruct (IH (u64 (a + u64 (u64 v * n))) (u64 (c + n))) as (H1 & H2 & H3). cbv zeta in *.
  split; [|split].
  - etrans; [exact H1|]. rewrite Z.add_assoc. apply add_eq64; [|done]. by rewrite !u64_eq64.
  - etrans; [exact H2|]. rewrite Z.add_assoc. apply add_eq64; [|done]. apply u64_eq64.
  - intros _. destruct l as [|e l]; [|by apply H3]. cbn [foldl snd]. apply Z.mod_mod. lia.
Qed.

(** A sum over the entries of a table is one over any keys that include its own. *)
Lemma entries_by_key (h : gmap Z Z) (g : Z → Z) (K : list Z) :
  NoDup K → (∀ k, is_Some (h !! k) → k ∈ K) →
  sum_over (λ e, g e.1 * e.2) (map_to_list h) = sum_over (λ k, g k * default 0 (h !! k)) K.
Proof.
  intros HK. induction h as [|k x h Hk IH] using map_ind; intros Hin.
  - rewrite map_to_list_empty. symmetry. apply sum_over_zero. intros k _. rewrite lookup_empty. cbn. lia.
  - rewrite (sum_over_perm _ _ _ (map_to_list_insert h k x Hk)), sum_over_cons, IH; cycle 1.
    { intros k' Hk'. apply Hin. apply lookup_insert_is_Some'. by right. }
    assert (sum_over (λ k', g k' * (if decide (k' = k) then x else 0)) K = g k * x) as E.
    { rewrite (sum_over_single _ k); [by rewrite decide_True | done | |].
      - apply Hin. rewrite lookup_insert_eq. eauto.
      - intros k' Hne. rewrite decide_False by done. lia. }
    cbn [fst snd]. rewrite <- E, <- sum_over_add. apply sum_over_ext. intros k' _.
    case_decide as Ek; [subst; rewrite Hk, lookup_insert_eq; cbn; lia | rewrite lookup_insert_ne by done; lia].
Qed.

(** The events counted by key. *)
Lemma events_by_key n evs (g : Z → Z) (K : list Z) :
  NoDup K → (∀ v, SAdd n v ∈ evs → i32 v ∈ K) →
  sum_over (λ k, g k * count_events (is_value n k) evs) K =
  sum_over (λ e, match e with SAdd m v => if bool_decide (m = n) then g (i32 v) else 0 | _ => 0 end) evs.
Proof.
  intros HK. induction evs as [|e evs IH]; intros Hin; [apply sum_over_zero; cbn; lia|].
  rewrite sum_over_cons, <- IH by set_solver. cbn [count_events].
  rewrite (sum_over_ext _ (λ k, g k * (if is_value n k e then 1 else 0) + g k * count_events (is_value n k) evs)) by lia.
  rewrite sum_over_add. f_equal. destruct e as [m|m i|m v|]; cbn [is_value]; try (apply sum_over_zero; lia).
  case_bool_decide as Hm; cbn [andb]; [subst m|apply sum_over_zero; lia].
  rewrite (sum_over_single _ (i32 v)); [rewrite Z.eqb_refl; lia | done | apply Hin; set_solver |].
  intros k Hk. destruct (Z.eqb_spec (i32 v) k); [done|lia].
Qed.

Definition hist (h : gmap string (gmap Z Z)) (n : string) : gmap Z Z := default ∅ (h !! n).

(** An average over exact counts is the average of the values of the run. *)
Lemma histo_average h n evs :
  (∀ v, eq64 (hcell h n v) (count_events (is_value n v) evs)) → GetHistoAvg (hist h n) = average n evs.
Proof.
  intros Hh. set (K := remove_dups ((map_to_list (hist h n)).*1 ++
    ((λ e, match e with SAdd _ v => i32 v | _ => 0 end) <$> evs))).
  assert (NoDup K) as HK by apply NoDup_remove_dups.
  assert (∀ g, eq64 (sum_over (λ e, g e.1 * e.2) (map_to_list (hist h n)))
      (sum_over (λ e, match e with SAdd m v => if bool_decide (m = n) then g (i32 v) else 0 | _ => 0 end) evs)) as Hg.
  { intros g. rewrite (entries_by_key _ g K HK), <- (events_by_key n evs g K HK).
    - clear HK. induction K as [|k K IH]; [done|]. rewrite !sum_over_cons. apply add_eq64; [|exact IH].
      apply mul_eq64; [done|]. apply Hh.
    - intros v Hv. apply elem_of_remove_dups, elem_of_app. right. apply list_elem_of_fmap. by exists (SAdd n v).
    - intros k [x Hk]. apply elem_of_remove_dups, elem_of_app. left. apply list_elem_of_fmap. exists (k, x).
      split; [done|]. by apply elem_of_map_to_list. }
  unfold GetHistoAvg, average. set (l := map_to_list (hist h n)) in *.
  destruct (histo_sums l 0 0) as (H1 & H2 & H3). cbv zeta in *.
  destruct (foldl _ (0, 0) l) as [a c] eqn:El. cbn [fst snd] in *. rewrite !Z.add_0_l in *.
  assert (eq64 a (value_sum n evs)) as E1 by (etrans; [exact H1|apply (Hg (λ k, k))]).
  assert (eq64 c (value_count n evs)) as E2.
  { etrans; [exact H2|]. etrans; [|apply (Hg (λ _, 1))]. erewrite sum_over_ext; [done|]. cbn. lia. }
  assert (u64 c = c) as Ec by (destruct l as [|e l']; [by injection El as <- <-|by apply H3]).
  by rewrite <- (eq64_test c _ E2), Ec, (d64_of_u64_proper _ _ E1), (d64_of_u64_proper _ _ E2).
Qed.

(** ** The loops over commands and ranks *)

(** The cycle counts of a vector counter, priced. *)
Definition priced (v : gmap string (list Z)) (row : string * string * double) : list double :=
  (λ x, d64_of_u64 x ⊠ row.2) <$> default [] (v !! row.1.2).

Definition vectors_wf (ranks : nat) (v : gmap string (list Z)) : Prop :=
  ∀ n, n ∈ ["rank_active_cycles"; "all_bank_idle_cycles"; "sref_cycles"]%string →
    length (default [] (v !! n)) = ranks.
Definition vec_energies_wf (P : PowerParams) (ranks : nat) (m : gmap string (list double)) : Prop :=
  ∀ row, row ∈ rank_table P → length (default [] (m !! row.1.1)) = ranks.

Section RankLoop.
Variable P : PowerParams.
Variable ranks : nat.
Variable v : gmap string (list Z).
Hypothesis Hv : vectors_wf ranks v.

Definition cycles_at (n : string) (i : nat) : Z := default 0 (default [] (v !! n) !! i).
Definition standby (i : nat) (row : string * string * double) : double := d64_of_u64 (cycles_at row.1.2 i) ⊠ row.2.
Definition three_standby (i : nat) : double :=
  (standby i ("act_stb_energy", "rank_active_cycles", act_stb_energy_inc P)
   ⊞ standby i ("pre_stb_energy", "all_bank_idle_cycles", pre_stb_energy_inc P)
   ⊞ standby i ("sref_energy", "sref_cycles", sref_energy_inc P))%string.

(** After [k] turns, the first [k] entries are those of the first ranks. *)
Definition filled (k : nat) (m : gmap string (list double)) : Prop :=
  vec_energies_wf P ranks m ∧
  ∀ row, row ∈ rank_table P → ∀ i, (i < k)%nat → default [] (m !! row.1.1) !! i = Some (standby i row).

Lemma cycles_get n i :
  n ∈ ["rank_active_cycles"; "all_bank_idle_cycles"; "sref_cycles"]%string → (i < ranks)%nat →
  vget (default [] (v !! n)) (Z.of_nat i) = Ok (cycles_at n i).
Proof.
  intros Hn Hi. apply vget_nat. unfold cycles_at. specialize (Hv n Hn).
  destruct (lookup_lt_is_Some_2 (default [] (v !! n)) i) as [x Hx]; [lia|]. by rewrite Hx.
Qed.

(** The entry that a turn writes in the row [n]. *)
Lemma put_energy n cyc inc k x m :
  (n, cyc, inc) ∈ rank_table P → vec_energies_wf P ranks m → (k < ranks)%nat →
  (l ← vset (default [] (m !! n)) (Z.of_nat k) x; Ok (<[n := l]> m)) = Ok (<[n := <[k := x]> (default [] (m !! n))]> m) ∧
  vec_energies_wf P ranks (<[n := <[k := x]> (default [] (m !! n))]> m).
Proof.
  intros Hr Hm Hk. pose proof (Hm _ Hr) as Hl. cbn [fst snd] in Hl. rewrite vset_nat by lia. split; [done|].
  intros row Hrow. destruct (decide (row.1.1 = n)) as [->|Hne].
  - rewrite lookup_insert_eq. cbn. by rewrite length_insert.
  - rewrite lookup_insert_ne by done. by apply Hm.
Qed.

Lemma rank_turn k b m :
  (k < ranks)%nat → filled k m →
  ∃ m', rank_energy P v (Z.of_nat k) (b, m) = Ok (b ⊞ three_standby k, m') ∧ filled (S k) m'.
Proof.
  intros Hk [Hm Hf]. unfold rank_energy. rewrite !cycles_get by (done || set_solver). cbn [mbind res_bind].
  destruct (put_energy "act_stb_energy" "rank_active_cycles" (act_stb_energy_inc P) k
    (d64_of_u64 (cycles_at "rank_active_cycles" k) ⊠ act_stb_energy_inc P) m) as [-> H1]; [by left|done..|].
  cbn [mbind res_bind]. set (m1 := <[_ := _]> m) in *.
  destruct (put_energy "pre_stb_energy" "all_bank_idle_cycles" (pre_stb_energy_inc P) k
    (d64_of_u64 (cycles_at "all_bank_idle_cycles" k) ⊠ pre_stb_energy_inc P) m1) as [-> H2]; [by right; left|done..|].
  cbn [mbind res_bind]. set (m2 := <[_ := _]> m1) in *.
  destruct (put_energy "sref_energy" "sref_cycles" (sref_energy_inc P) k
    (d64_of_u64 (cycles_at "sref_cycles" k) ⊠ sref_energy_inc P) m2) as [-> H3]; [by right; right; left|done..|].
  cbn [mbind res_bind]. eexists. split; [done|]. split; [exact H3|].
  intros row Hr i Hi. assert (<["sref_energy"%string:=<[k:=d64_of_u64 (cycles_at "sref_cycles" k) ⊠ sref_energy_inc P]>
      (default [] (m2 !! "sref_energy"%string))]> m2 !! row.1.1 = Some (<[k := standby k row]> (default [] (m !! row.1.1)))) as ->.
  { unfold rank_table in Hr. rewrite !elem_of_cons, elem_of_nil in Hr.
    destruct Hr as [->|[->|[->|[]]]]; cbn [fst snd]; unfold m2, m1, standby; cbn [fst snd].
    - by rewrite !lookup_insert_ne, lookup_insert_eq by done.
    - rewrite lookup_insert_ne, lookup_insert_eq by done. by rewrite lookup_insert_ne.
    - rewrite lookup_insert_eq. by rewrite !lookup_insert_ne. }
  cbn [default from_option id]. destruct (decide (i = k)) as [->|Hne].
  - rewrite list_lookup_insert_eq; [done|]. rewrite (Hm row Hr). lia.
  - rewrite list_lookup_insert_ne by done. apply Hf; [done|lia].
Qed.

Lemma rank_turns k b m :
  (k ≤ ranks)%nat → vec_energies_wf P ranks m →
  ∃ m', for_loop k 0 (rank_energy P v) (b, m) = Ok (foldl (λ b i, b ⊞ three_standby i) b (seq 0 k), m') ∧ filled k m'.
Proof.
  intros Hk Hm. induction k as [|k IH].
  - exists m. split; [done|]. split; [done|]. intros; lia.
  - destruct IH as (m1 & E1 & F1); [lia|].
    destruct (rank_turn k (foldl (λ b i, b ⊞ three_standby i) b (seq 0 k)) m1) as (m2 & E2 & F2); [lia|done|].
    exists m2. split; [|done]. replace (S k) with (k + 1)%nat by lia.
    rewrite seq_app, foldl_app. rewrite for_loop_app, E1, Z.add_0_l.
    cbn [mbind res_bind for_loop]. by rewrite E2.
Qed.
End RankLoop.

(** ** Epoch ends and final reports *)

Lemma upd_each_dom {A B} (f : string → A → option B → res B) src dst d n :
  upd_each f src dst = Ok d → is_Some (dst !! n) → is_Some (d !! n).
Proof.
  unfold upd_each. generalize (map_to_list src) as l. intros l. revert dst.
  induction l as [|[k a] l IH]; intros dst E Hn; [by injection E as <-|]. cbn [for_each] in E.
  apply bind_Ok_inv in E as (m & Em & E). apply bind_Ok_inv in Em as (b & _ & Em). injection Em as <-.
  apply (IH _ E). apply lookup_insert_is_Some'. by right.
Qed.

(** The histograms that averages are taken of. *)
Definition has_histos (h : gmap string (gmap Z Z)) : Prop :=
  is_Some (h !! "read_latency"%string) ∧ is_Some (h !! "interarrival_latency"%string).

(** What the integer half does to the tables that the doubles read. *)
Lemma counters_frame s s1 :
  UpdateCounters s = Ok s1 → epoch_counters_ s1 = epoch_counters_ s ∧ epoch_vec_counters_ s1 = epoch_vec_counters_ s ∧
    epoch_histo_counts_ s1 = epoch_histo_counts_ s ∧ histo_counts_ s1 = histo_counts_ s.
Proof.
  unfold UpdateCounters. intros E. apply bind_Ok_inv in E as (c & _ & E). apply bind_Ok_inv in E as (w & _ & E).
  injection E as <-. by destruct s.
Qed.

Lemma histo_frame s s1 :
  UpdateHistoBins s = Ok s1 → counters_ s1 = counters_ s ∧ vec_counters_ s1 = vec_counters_ s ∧
    epoch_counters_ s1 = epoch_counters_ s ∧ epoch_vec_counters_ s1 = epoch_vec_counters_ s ∧
    epoch_histo_counts_ s1 = epoch_histo_counts_ s ∧ (has_histos (histo_counts_ s) → has_histos (histo_counts_ s1)).
Proof.
  unfold UpdateHistoBins. intros E. apply bind_Ok_inv in E as (eb & _ & E). apply bind_Ok_inv in E as (hc & Eh & E).
  apply bind_Ok_inv in E as (hb & _ & E). injection E as <-. destruct s; cbn in *.
  repeat (split; [done|]). intros [H1 H2]. split; by eapply upd_each_dom.
Qed.

Section Reports.
Variable P : PowerParams.
Variable ranks : nat.
Variable rsb : Z.

(** The tables of doubles have an entry per rank. *)
Definition energy_wf (e : EnergyStats) : Prop := vec_energies_wf P ranks (vec_doubles_ e).

(** What is computed from the counters [c], [v] and [h]. *)
Record computed (c : gmap string Z) (v : gmap string (list Z)) (h : gmap string (gmap Z Z)) (e : EnergyStats) : Prop := {
  cp_command : ∀ row, row ∈ command_table P → doubles_ e !! row.1.1 = Some (d64_of_u64 (counter c row.1.2) ⊠ row.2);
  cp_rank : filled P ranks v ranks (vec_doubles_ e);
  cp_calculated : ∃ total, total =
      (d64_of_u64 (counter c "num_act_cmds") ⊠ act_energy_inc P ⊞ d64_of_u64 (counter c "num_read_cmds") ⊠ read_energy_inc P
       ⊞ d64_of_u64 (counter c "num_write_cmds") ⊠ write_energy_inc P ⊞ d64_of_u64 (counter c "num_ref_cmds") ⊠ ref_energy_inc P
       ⊞ d64_of_u64 (counter c "num_refb_cmds") ⊠ refb_energy_inc P
       ⊞ foldl (λ b i, b ⊞ three_standby P v i) d64_zero (seq 0 ranks))%string ∧
    calculated_ e !! "total_energy"%string = Some total ∧
    calculated_ e !! "average_power"%string = Some (total ⊘ d64_of_u64 (counter c "num_cycles")) ∧
    calculated_ e !! "average_bandwidth"%string =
      Some (d64_of_u64 (u64 (counter c "num_reads_done" + counter c "num_writes_done") * u64 rsb)
            ⊘ (d64_of_u64 (counter c "num_cycles") ⊠ tCK P)) ∧
    calculated_ e !! "average_read_latency"%string = Some (GetHistoAvg (hist h "read_latency")) ∧
    calculated_ e !! "average_interarrival"%string = Some (GetHistoAvg (hist h "interarrival_latency")) }.

Lemma compute_ok c v h e :
  vectors_wf ranks v → has_histos h → energy_wf e →
  ∃ b e1 e2, update_energies P (Z.of_nat ranks) c v e = Ok (b, e1) ∧ update_calculated P rsb c h b e1 = Ok e2 ∧
    energy_wf e2 ∧ computed c v h e2.
Proof.
  intros Hv [[rl Hrl] [ia Hia]] He. unfold update_energies, update_calculated. rewrite Nat2Z.id.
  destruct (rank_turns P ranks v Hv ranks d64_zero (vec_doubles_ e)) as (m & E & F); [lia|exact He|].
  rewrite E. cbn [mbind res_bind]. rewrite Hrl, Hia. cbn [of_option mbind res_bind].
  eexists _, _, _. split; [reflexivity|]. split; [reflexivity|]. destruct e as [d0 v0 c0]. cbn in *. split; [apply F|].
  split; cbn.
  - intros row Hr. unfold command_table in Hr. rewrite !elem_of_cons, elem_of_nil in Hr.
    destruct Hr as [->|[->|[->|[->|[->|[]]]]]]; cbn [fst snd]; rewrite ?lookup_insert_ne by done; by rewrite lookup_insert_eq.
  - exact F.
  - eexists. split; [reflexivity|]. repeat (rewrite ?lookup_insert_eq, ?lookup_insert_ne by done; cbn [default from_option id]).
    unfold hist. rewrite Hrl, Hia. done.
Qed.

(** The statistics and their doubles, after the events [evs]. *)
Record energy_inv (evs : list stat_event) (s : SimpleStats * EnergyStats) : Prop := {
  ei_wf : stats_wf s.1; ei_tracks : tracks evs s.1; ei_shape : same_shape (new_SimpleStats ranks) s.1;
  ei_histos : has_histos (histo_counts_ s.1); ei_epoch : has_histos (epoch_histo_counts_ s.1);
  ei_energy : energy_wf s.2 }.

Lemma shape_vectors s :
  same_shape (new_SimpleStats ranks) s → stats_wf s →
  vectors_wf ranks (epoch_vec_counters_ s) ∧ vectors_wf ranks (vec_counters_ s).
Proof.
  intros Sh W. assert (∀ n, n ∈ ["rank_active_cycles"; "all_bank_idle_cycles"; "sref_cycles"]%string →
    ∃ v, epoch_vec_counters_ s !! n = Some v ∧ length v = ranks) as H.
  { intros n Hn. pose proof (ss_vecs _ _ Sh n) as E. rewrite (new_vec_counters ranks n) in E by set_solver.
    destruct (epoch_vec_counters_ s !! n) as [v|]; [|done]. exists v. split; [done|]. injection E as E.
    by rewrite length_replicate in E. }
  split; intros n Hn; destruct (H n Hn) as (v & Hv & Hl); [by rewrite Hv|].
  destruct (sw_vec _ W n v Hv) as (w & -> & Hw). cbn. lia.
Qed.

Lemma has_histos_insert h n x : has_histos h → has_histos (<[n := x]> h).
Proof. intros [H1 H2]. split; apply lookup_insert_is_Some'; by right. Qed.

Lemma event_histos ev s s' :
  ev ≠ SEpoch → stat_step ev s = Ok s' → histo_counts_ s' = histo_counts_ s ∧
    (has_histos (epoch_histo_counts_ s) → has_histos (epoch_histo_counts_ s')).
Proof.
  intros Hne E. destruct ev as [n|n i|n v|]; cbn in E; [injection E as <-; by destruct s| |injection E as <-|done].
  - unfold IncrementVec in E. apply bind_Ok_inv in E as (l & _ & E). injection E as <-. by destruct s.
  - destruct s; cbn. split; [done|]. apply has_histos_insert.
Qed.

Lemma energy_step_ok evs ev s :
  energy_inv evs s → event_ok (new_SimpleStats ranks) ev →
  ∃ s', energy_step P (Z.of_nat ranks) rsb ev s = Ok s' ∧ energy_inv (evs ++ [ev]) s'.
Proof.
  intros [W T Sh Hh He Hw] Hev. destruct s as [s e]. cbn [fst snd] in *.
  destruct (step_tracks evs s ev W T) as (s' & E & W' & T' & Sh'); [by apply (event_ok_shape (new_SimpleStats ranks))|].
  assert (same_shape (new_SimpleStats ranks) s') as Sh2 by by etrans.
  assert (ev = SEpoch ∨ ev ≠ SEpoch) as [->|Hne] by (destruct ev; first [by left | by right]); cycle 1.
  { exists (s', e). destruct (event_histos ev s s' Hne E) as [H1 H2]. split; [|split; cbn; rewrite ?H1; auto].
    destruct ev; cbn [energy_step fst snd]; try rewrite E; done. }
  cbn [stat_step] in E. unfold UpdateEpochStats in E. apply bind_Ok_inv in E as (s1 & E1 & E).
  apply bind_Ok_inv in E as (s2 & E2 & E). injection E as <-.
  destruct (counters_frame s s1 E1) as (F1 & F2 & F3 & F4). destruct (histo_frame s1 s2 E2) as (G1 & G2 & G3 & G4 & G5 & G6).
  destruct (shape_vectors s Sh W) as [V _].
  destruct (compute_ok (epoch_counters_ s1) (epoch_vec_counters_ s1) (epoch_histo_counts_ s2) e) as (b & e1 & e2 & E3 & E4 & He2 & _);
    [by rewrite F2 | by rewrite G5, F3 | done |].
  exists (clear_epoch s2, e2). cbn [energy_step SimpleStats_UpdateEpochStats]. rewrite E1. cbn [mbind res_bind].
  rewrite E3. cbn [mbind res_bind]. rewrite E2. cbn [mbind res_bind]. rewrite G3, E4. split; [done|].
  split; cbn [fst snd]; [done..| | |done].
  - assert (histo_counts_ (clear_epoch s2) = histo_counts_ s2) as -> by by destruct s2.
    apply G6. by rewrite F4.
  - assert (epoch_histo_counts_ (clear_epoch s2) = (λ _, ∅) <$> epoch_histo_counts_ s2) as -> by by destruct s2.
    rewrite G5, F3. destruct He as [H1 H2]. split; by apply fmap_is_Some in H1 || (rewrite lookup_fmap; by apply fmap_is_Some).
Qed.

Lemma energy_run_ok evs evs0 s :
  energy_inv evs0 s → Forall (event_ok (new_SimpleStats ranks)) evs →
  ∃ s', energy_run P (Z.of_nat ranks) rsb evs s = Ok s' ∧ energy_inv (evs0 ++ evs) s'.
Proof.
  revert evs0 s. induction evs as [|ev evs IH]; intros evs0 s I Hev.
  { exists s. by rewrite app_nil_r. }
  apply Forall_cons in Hev as [He Hes]. destruct (energy_step_ok evs0 ev s I He) as (s1 & E1 & I1).
  destruct (IH (evs0 ++ [ev]) s1 I1 Hes) as (s2 & E2 & I2). exists s2. cbn [energy_run]. rewrite E1. cbn [mbind res_bind].
  split; [done|]. by rewrite <- app_assoc in I2.
Qed.

Lemma new_energy_inv : energy_inv [] (new_SimpleStats ranks, new_EnergyStats ranks).
Proof.
  destruct (new_stats_ok ranks) as [W T]. destruct (new_fields ranks) as (_ & _ & _ & _ & _ & _ & H1 & H2).
  split; cbn [fst snd]; [done|done|done| | |].
  - rewrite H2. by split.
  - rewrite H1. by split.
  - intros row Hr. unfold rank_table in Hr. rewrite !elem_of_cons, elem_of_nil in Hr.
    destruct Hr as [->|[->|[->|[]]]]; cbn; apply length_replicate.
Qed.
End Reports.

(** ** From exact counts to exact energies *)

Section Exact.
Variable P : PowerParams.
Variable ranks : nat.
Variable rsb : Z.
Variable evs : list stat_event.
Variable f : SimpleStats.
Hypothesis HR : reports evs f.

Lemma counter_num n : d64_of_u64 (counter (counters_ f) n) = d64_of_u64 (num n evs).
Proof. apply d64_of_u64_proper. apply (rp_inc _ _ HR). Qed.

Lemma standby_exact i row : standby (vec_counters_ f) i row = rank_energy_of evs i row.
Proof. unfold standby, rank_energy_of. f_equal. apply d64_of_u64_proper. apply (rp_vec _ _ HR). Qed.

Lemma computed_exact e :
  computed P ranks rsb (counters_ f) (vec_counters_ f) (histo_counts_ f) e → energies_of P ranks rsb evs e.
Proof.
  intros [Hc [Hm Hr] (total & Ht & C1 & C2 & C3 & C4 & C5)].
  assert (total = total_of P ranks evs) as Htot.
  { subst total. rewrite !counter_num. unfold total_of. cbv zeta. f_equal. unfold background_of, three_standby.
    generalize d64_zero as b, (seq 0 ranks) as l. intros b l. revert b. induction l as [|i l IH]; intros b; [done|].
    cbn [foldl]. rewrite !standby_exact. apply IH. }
  split.
  - intros row Hrow. rewrite (Hc row Hrow), counter_num. done.
  - intros row Hrow. pose proof (Hm row Hrow) as Hl. apply list_eq. intros i. destruct (decide (i < ranks)%nat) as [Hi|Hi].
    + by rewrite (Hr row Hrow i Hi), standby_exact, list_lookup_fmap, lookup_seq_lt.
    + rewrite lookup_ge_None_2 by lia. by rewrite list_lookup_fmap, lookup_seq_ge by lia.
  - by rewrite C1, Htot.
  - by rewrite C2, Htot, counter_num.
  - rewrite C3, counter_num. f_equal. f_equal. apply d64_of_u64_proper. apply mul_eq64; [|apply u64_eq64].
    rewrite u64_eq64. apply add_eq64; apply (rp_inc _ _ HR).
  - rewrite C4. f_equal. apply histo_average. intros v. apply (rp_value _ _ HR).
  - rewrite C5. f_equal. apply histo_average. intros v. apply (rp_value _ _ HR).
Qed.
End Exact.

(** ** Properties *)

(** C22: The energies are exact: after any run of counts and epoch ends on the statistics
    of a fresh channel, the final report succeeds, its counters are exact, and each
    energy is the product of the number of its events in the whole run with the energy of
    one event, rounded once; the total, the power and the bandwidth are computed from
    these, the average latencies from all the values of the run, wherever epochs ended
    and in whatever order the tables are traversed. *)
Theorem energies_exact P ranks rsb evs :
  Forall (event_ok (new_SimpleStats ranks)) evs →
  ∃ s f, energy_run P (Z.of_nat ranks) rsb evs (new_SimpleStats ranks, new_EnergyStats ranks) = Ok s ∧
    SimpleStats_UpdateFinalStats P (Z.of_nat ranks) rsb s = Ok f ∧
    reports evs f.1 ∧ energies_of P ranks rsb evs f.2.
Proof.
  intros Hev. destruct (energy_run_ok P ranks rsb evs [] _ (new_energy_inv P ranks) Hev) as ([s e] & E & I).
  destruct I as [W T Sh Hh He Hw]. cbn [fst snd app] in *. destruct (final_ok s W) as (f & Ef & Wf & R & Shf & _).
  unfold UpdateFinalStats in Ef. apply bind_Ok_inv in Ef as (s1 & E1 & E2).
  destruct (counters_frame s s1 E1) as (F1 & F2 & F3 & F4). destruct (histo_frame s1 f E2) as (G1 & G2 & G3 & G4 & G5 & G6).
  destruct (shape_vectors ranks f) as [_ V]; [by etrans|done|].
  destruct (compute_ok P ranks rsb (counters_ s1) (vec_counters_ s1) (histo_counts_ f) e) as (b & e1 & e2 & E3 & E4 & _ & C);
    [by rewrite <- G2 | apply G6; by rewrite F4 | done |].
  exists (s, e), (f, e2). split; [done|]. cbn [SimpleStats_UpdateFinalStats]. rewrite E1. cbn [mbind res_bind].
  rewrite E3. cbn [mbind res_bind]. rewrite E2. cbn [mbind res_bind]. rewrite G1, E4. split; [done|].
  split; [by apply R|]. apply (computed_exact P ranks rsb evs f (R evs T)). by rewrite G1, G2.
Qed.

(** Two ranks, two epochs, the parameters of the default data sheet. *)
Definition ex_power : PowerParams := InitPowerParams (λ _ _ x, x) ex_dram ex_size ex_tim.
Definition ex_events : list stat_event :=
  [SInc "num_act_cmds"; SInc "num_cycles"; SVec "rank_active_cycles" 1; SAdd "read_latency" 25; SEpoch;
   SInc "num_act_cmds"; SInc "num_reads_done"; SVec "all_bank_idle_cycles" 0; SAdd "read_latency" 40; SInc "num_cycles"]%string.

Lemma energies_exact_witness :
  ∃ s f, energy_run ex_power 2 64 ex_events (new_SimpleStats 2, new_EnergyStats 2) = Ok s ∧
    SimpleStats_UpdateFinalStats ex_power 2 64 s = Ok f ∧ reports ex_events f.1 ∧ energies_of ex_power 2 64 ex_events f.2.
Proof.
  apply (energies_exact ex_power 2 64 ex_events).
  repeat (apply Forall_cons; split; [first [exact I | exists [0; 0]; split; [reflexivity | unfold vsize; cbn; lia]]|]).
  by apply Forall_nil.
Defined.

(** The average latency of that run is 32.5 cycles, and its activations took this energy. *)
Example ex_energies :
  (s ← energy_run ex_power 2 64 ex_events (new_SimpleStats 2, new_EnergyStats 2);
   f ← SimpleStats_UpdateFinalStats ex_power 2 64 s;
   Ok (calculated_ f.2 !! "average_read_latency", doubles_ f.2 !! "act_energy")%string)
  = Ok (Some (d64_lit 65 2), Some (d64_mul (d64_of_Z 2) (act_energy_inc ex_power))).
Proof. vm_compute. reflexivity. Qed.
