(* ===== verification/BankState.v ===== *)
(** * One DRAM bank (DRAMsim3/src/bankstate.h, bankstate.cc)

    The state machine of a bank (open, closed, self-refresh), the earliest
    issue time of each command type, and the theorems that tie the command
    chooser [GetReadyCommand] to the transition function [UpdateState]: every
    command it hands out is legal and not before its time, and it leads a
    request to its row in at most three commands. *)

From S2P Require Import Prelude DramCommon.

Open Scope Z_scope.

Inductive State := OPEN | CLOSED | SREF | PD | STATE_SIZE.

#[global] Instance State_eq_dec : EqDecision State.
Proof. solve_decision. Defined.

Record BankState := mkBank {
  state_ : State;
  cmd_timing_ : list Z;
  open_row_ : Z;
  row_hit_count_ : Z }.

(** [BankState::BankState] *)
Definition new_BankState : BankState := mkBank CLOSED (replicate 10 0) (-1) 0.

Definition IsRowOpen (b : BankState) : bool := bool_decide (state_ b = OPEN).
Definition OpenRow (b : BankState) : Z := open_row_ b.
Definition RowHitCount (b : BankState) : Z := row_hit_count_ b.

(** The [required_type] of [BankState::GetReadyCommand]. *)
Definition required_type (b : BankState) (cmd : Command) : res CommandType :=
  match state_ b with
  | CLOSED =>
      match cmd_type cmd with
      | READ | READ_PRECHARGE | WRITE | WRITE_PRECHARGE => Ok ACTIVATE
      | REFRESH | REFRESH_BANK | SREF_ENTER => Ok (cmd_type cmd)
      | _ => Err AbruptExit
      end
  | OPEN =>
      match cmd_type cmd with
      | READ | READ_PRECHARGE | WRITE | WRITE_PRECHARGE =>
          if Row cmd =? open_row_ b then Ok (cmd_type cmd) else Ok PRECHARGE
      | REFRESH | REFRESH_BANK | SREF_ENTER => Ok PRECHARGE
      | _ => Err AbruptExit
      end
  | SREF =>
      match cmd_type cmd with
      | READ | READ_PRECHARGE | WRITE | WRITE_PRECHARGE => Ok SREF_EXIT
      | _ => Err AbruptExit
      end
  | PD | STATE_SIZE => Err AbruptExit
  end.

(** [BankState::GetReadyCommand] *)
Definition BankState_GetReadyCommand (b : BankState) (cmd : Command) (clk : Z) : res Command :=
  t ← required_type b cmd;
  if bool_decide (t ≠ SIZE) then
    earliest ← vget (cmd_timing_ b) (cmd_index t);
    if earliest <=? clk then Ok (mkCommand t (addr cmd) (hex_addr cmd))
    else Ok Command_default
  else Ok Command_default.

(** [BankState::UpdateState] *)
Definition BankState_UpdateState (b : BankState) (cmd : Command) : res BankState :=
  match state_ b with
  | OPEN =>
      match cmd_type cmd with
      | READ | WRITE =>
          n ← int_chk (row_hit_count_ b + 1);
          Ok (mkBank OPEN (cmd_timing_ b) (open_row_ b) n)
      | READ_PRECHARGE | WRITE_PRECHARGE | PRECHARGE =>
          Ok (mkBank CLOSED (cmd_timing_ b) (-1) 0)
      | _ => Err AbruptExit
      end
  | CLOSED =>
      match cmd_type cmd with
      | REFRESH | REFRESH_BANK => Ok b
      | ACTIVATE => Ok (mkBank OPEN (cmd_timing_ b) (Row cmd) (row_hit_count_ b))
      | SREF_ENTER => Ok (mkBank SREF (cmd_timing_ b) (open_row_ b) (row_hit_count_ b))
      | _ => Err AbruptExit
      end
  | SREF =>
      match cmd_type cmd with
      | SREF_EXIT => Ok (mkBank CLOSED (cmd_timing_ b) (open_row_ b) (row_hit_count_ b))
      | _ => Err AbruptExit
      end
  | PD | STATE_SIZE => Err AbruptExit
  end.

(** [BankState::UpdateTiming] *)
Definition BankState_UpdateTiming (b : BankState) (t : CommandType) (time : Z) : res BankState :=
  old ← vget (cmd_timing_ b) (cmd_index t);
  v ← vset (cmd_timing_ b) (cmd_index t) (Z.max old time);
  Ok (mkBank (state_ b) v (open_row_ b) (row_hit_count_ b)).

(** ** Invariant *)

(** A reachable bank: a slot per command type, no open row and no hits unless
    the bank is open, and never one of the two unused states. *)
Record bank_wf (b : BankState) : Prop := {
  bw_timing : length (cmd_timing_ b) = 10%nat;
  bw_closed : state_ b ≠ OPEN → open_row_ b = -1 ∧ row_hit_count_ b = 0;
  bw_state : state_ b ≠ PD ∧ state_ b ≠ STATE_SIZE;
  bw_hits : 0 ≤ row_hit_count_ b }.

(** The earliest time of a command type. *)
Definition earliest (b : BankState) (t : CommandType) : Z :=
  match vget (cmd_timing_ b) (cmd_index t) with Ok z => z | Err _ => 0 end.

(** The commands that address the data of a row. *)
Definition is_rw (t : CommandType) : bool :=
  match t with READ | READ_PRECHARGE | WRITE | WRITE_PRECHARGE => true | _ => false end.

(** The commands a bank understands as a request. *)
Definition is_request (t : CommandType) : bool :=
  match t with
  | READ | READ_PRECHARGE | WRITE | WRITE_PRECHARGE
  | REFRESH | REFRESH_BANK | SREF_ENTER => true
  | _ => false
  end.

(** Serve a request as the controller does: ask for the ready command at
    [clk] and apply it. *)
Definition bank_issue (b : BankState) (cmd : Command) (clk : Z) : res (Command * BankState) :=
  r ← BankState_GetReadyCommand b cmd clk;
  if IsValid r then b' ← BankState_UpdateState b r; Ok (r, b') else Ok (r, b).

(** Issue [n] commands for the same request, collecting their types. *)
Fixpoint bank_serve (n : nat) (b : BankState) (cmd : Command) (clk : Z)
    : res (list CommandType * BankState) :=
  match n with
  | O => Ok ([], b)
  | S n' =>
      '(r, b1) ← bank_issue b cmd clk;
      if bool_decide (cmd_type r = cmd_type cmd) then Ok ([cmd_type r], b1)
      else '(l, b2) ← bank_serve n' b1 cmd clk; Ok (cmd_type r :: l, b2)
  end.

(** ** Lemmas *)

Lemma new_BankState_wf : bank_wf new_BankState.
Proof. split; simpl; done || lia. Qed.

Lemma cmd_index_range t : t ≠ SIZE → 0 ≤ cmd_index t < 10.
Proof. destruct t; simpl; done || lia. Qed.

Lemma bank_wf_vget b t :
  bank_wf b → t ≠ SIZE → vget (cmd_timing_ b) (cmd_index t) = Ok (earliest b t).
Proof.
  intros [Hl _ _ _] Ht. unfold earliest.
  destruct (vget_is_Ok (cmd_timing_ b) (cmd_index t)) as [x ->]; [|done].
  unfold vsize. rewrite Hl. by apply cmd_index_range.
Qed.

Lemma required_type_valid b cmd t : required_type b cmd = Ok t → t ≠ SIZE.
Proof.
  unfold required_type. destruct (state_ b), (cmd_type cmd);
    try discriminate; try (intros [= <-]; done); case_match; naive_solver.
Qed.

(** A ready command carries the address of the request it serves. *)
Lemma GetReadyCommand_inv b cmd clk r :
  BankState_GetReadyCommand b cmd clk = Ok r → IsValid r = true →
  required_type b cmd = Ok (cmd_type r) ∧ addr r = addr cmd ∧ hex_addr r = hex_addr cmd ∧
  (bank_wf b → earliest b (cmd_type r) ≤ clk).
Proof.
  unfold BankState_GetReadyCommand. intros H Hv. inv_res H.
  case_bool_decide as Hne; [|by simplify_eq]. inv_res H.
  destruct (Z.leb_spec v0 clk); simplify_eq/=.
  split_and!; try done. intros Hwf. rewrite bank_wf_vget in H1 by done. by simplify_eq.
Qed.

Lemma GetReadyCommand_total b cmd clk :
  bank_wf b → is_request (cmd_type cmd) = true →
  (state_ b = SREF → is_rw (cmd_type cmd) = true) →
  ∃ r, BankState_GetReadyCommand b cmd clk = Ok r.
Proof.
  intros Hwf Hq Hs. unfold BankState_GetReadyCommand.
  assert (∃ t, required_type b cmd = Ok t) as [t Ht].
  { unfold required_type. destruct Hwf as [_ _ [? ?] _].
    destruct (state_ b), (cmd_type cmd); simpl in *; try done; eauto;
      try (case_match; eauto); naive_solver. }
  rewrite Ht. simpl. pose proof (required_type_valid _ _ _ Ht).
  rewrite bool_decide_eq_true_2 by done. rewrite bank_wf_vget by done. simpl.
  case_match; eauto.
Qed.

(** The required command is always a legal transition of the bank. *)
Lemma required_type_legal b cmd t a h :
  required_type b cmd = Ok t → row_hit_count_ b < 2 ^ 31 - 1 → bank_wf b →
  ∃ b', BankState_UpdateState b (mkCommand t a h) = Ok b'.
Proof.
  intros Ht Hh Hwf. pose proof (bw_hits _ Hwf).
  unfold required_type in Ht. unfold BankState_UpdateState.
  destruct (state_ b), (cmd_type cmd); try discriminate;
    try (case_match; simplify_eq/=); simplify_eq/=;
    rewrite ?int_chk_Ok by lia; simpl; eauto.
Qed.

Lemma UpdateState_wf b cmd b' :
  bank_wf b → BankState_UpdateState b cmd = Ok b' → bank_wf b'.
Proof.
  intros [Hl Hc Hs Hh] H. unfold BankState_UpdateState in H.
  destruct (state_ b) eqn:Es, (cmd_type cmd) eqn:Et; try discriminate; inv_res H;
    repeat match goal with H : int_chk _ = Ok _ |- _ => apply int_chk_inv in H as [-> _] end;
    simplify_eq/=; split; simpl; try done; try lia; rewrite ?Es; naive_solver lia.
Qed.

Lemma UpdateTiming_wf b t time b' :
  bank_wf b → BankState_UpdateTiming b t time = Ok b' → bank_wf b'.
Proof.
  intros [Hl Hc Hs Hh] H. unfold BankState_UpdateTiming in H. inv_res H.
  apply vset_inv in H1 as [_ ->]. simplify_eq. split; simpl; try done.
  by rewrite length_insert.
Qed.

(** Timing constraints only ever move later. *)
Lemma UpdateTiming_earliest b t time b' t' :
  bank_wf b → BankState_UpdateTiming b t time = Ok b' → t' ≠ SIZE →
  earliest b' t' = if decide (t' = t) then Z.max (earliest b t) time else earliest b t'.
Proof.
  intros Hwf H Ht'. pose proof (UpdateTiming_wf _ _ _ _ Hwf H) as Hwf'.
  unfold BankState_UpdateTiming in H. inv_res H. apply vset_inv in H1 as [Hr ->].
  assert (t ≠ SIZE) as Ht.
  { intros ->. unfold vsize in Hr. rewrite (bw_timing _ Hwf) in Hr. simpl in Hr. lia. }
  pose proof (cmd_index_range t Ht). pose proof (cmd_index_range t' Ht').
  rewrite bank_wf_vget in H0 by done. simplify_eq.
  unfold earliest at 1. simpl. unfold vget.
  destruct (Z.ltb_spec (cmd_index t') 0); [lia|]. case_decide as E.
  - subst t'. rewrite list_lookup_insert_eq; [done|].
    rewrite (bw_timing _ Hwf). lia.
  - rewrite list_lookup_insert_ne.
    + unfold earliest, vget. destruct (Z.ltb_spec (cmd_index t') 0); [lia|done].
    + intros Eq. apply E. destruct t, t'; simpl in Eq; done.
Qed.

Lemma GetReadyCommand_ready b cmd clk t :
  bank_wf b → required_type b cmd = Ok t → earliest b t ≤ clk →
  BankState_GetReadyCommand b cmd clk = Ok (mkCommand t (addr cmd) (hex_addr cmd)).
Proof.
  intros Hwf Ht He. unfold BankState_GetReadyCommand. rewrite Ht. simpl.
  pose proof (required_type_valid _ _ _ Ht).
  rewrite bool_decide_eq_true_2, bank_wf_vget by done. simpl.
  by destruct (Z.leb_spec (earliest b t) clk); [|lia].
Qed.

(** What the chooser hands out can be applied. *)
Lemma GetReadyCommand_legal b cmd clk r :
  bank_wf b → row_hit_count_ b < 2 ^ 31 - 1 →
  BankState_GetReadyCommand b cmd clk = Ok r → IsValid r = true →
  ∃ b', BankState_UpdateState b r = Ok b'.
Proof.
  intros Hwf Hh Hg Hv. destruct (GetReadyCommand_inv _ _ _ _ Hg Hv) as (Ht & _).
  destruct r as [t a h]. by eapply required_type_legal.
Qed.

(** One issue when every timing constraint has elapsed. *)
Lemma bank_issue_ready b cmd clk t b' :
  bank_wf b → (∀ u, u ≠ SIZE → earliest b u ≤ clk) → required_type b cmd = Ok t →
  BankState_UpdateState b (mkCommand t (addr cmd) (hex_addr cmd)) = Ok b' →
  bank_issue b cmd clk = Ok (mkCommand t (addr cmd) (hex_addr cmd), b').
Proof.
  intros Hwf He Ht Hb. pose proof (required_type_valid _ _ _ Ht) as Hv.
  unfold bank_issue. rewrite (GetReadyCommand_ready b cmd clk t) by auto. simpl.
  unfold IsValid. simpl. rewrite bool_decide_eq_true_2 by done. by rewrite Hb.
Qed.

Lemma UpdateState_timing b cmd b' u :
  BankState_UpdateState b cmd = Ok b' → earliest b' u = earliest b u.
Proof.
  unfold BankState_UpdateState, earliest. intros H.
  destruct (state_ b), (cmd_type cmd); try discriminate; inv_res H; by simplify_eq/=.
Qed.

(** One more command of [bank_serve], when it is not the request itself. *)
Lemma bank_serve_step n b cmd clk t b1 l b2 :
  bank_wf b → (∀ u, u ≠ SIZE → earliest b u ≤ clk) → required_type b cmd = Ok t →
  BankState_UpdateState b (mkCommand t (addr cmd) (hex_addr cmd)) = Ok b1 →
  t ≠ cmd_type cmd → bank_serve n b1 cmd clk = Ok (l, b2) →
  bank_serve (S n) b cmd clk = Ok (t :: l, b2).
Proof.
  intros Hwf He Ht Hb Hne Hs. simpl.
  rewrite (bank_issue_ready b cmd clk t b1) by done. simpl.
  rewrite bool_decide_eq_false_2 by done. by rewrite Hs.
Qed.

(** From an open bank with the right row: the request itself. *)
Lemma bank_serve_open n b cmd clk :
  bank_wf b → (∀ u, u ≠ SIZE → earliest b u ≤ clk) → is_rw (cmd_type cmd) = true →
  state_ b = OPEN → open_row_ b = Row cmd → row_hit_count_ b < 2 ^ 31 - 1 →
  ∃ b', bank_serve (S n) b cmd clk = Ok ([cmd_type cmd], b').
Proof.
  intros Hwf He Hrw Hs Hr Hh.
  assert (required_type b cmd = Ok (cmd_type cmd)) as Ht.
  { unfold required_type. rewrite Hs, Hr, Z.eqb_refl. by destruct (cmd_type cmd). }
  destruct (required_type_legal b cmd _ (addr cmd) (hex_addr cmd) Ht Hh Hwf) as [b' Hb].
  exists b'. simpl. rewrite (bank_issue_ready b cmd clk _ b') by done. simpl.
  by rewrite bool_decide_eq_true_2.
Qed.

(** From a closed bank: activate, then the request. *)
Lemma bank_serve_closed n b cmd clk :
  bank_wf b → (∀ u, u ≠ SIZE → earliest b u ≤ clk) → is_rw (cmd_type cmd) = true →
  state_ b = CLOSED →
  ∃ b', bank_serve (S (S n)) b cmd clk = Ok ([ACTIVATE; cmd_type cmd], b').
Proof.
  intros Hwf He Hrw Hs.
  set (b1 := mkBank OPEN (cmd_timing_ b) (Row cmd) (row_hit_count_ b)).
  assert (BankState_UpdateState b (mkCommand ACTIVATE (addr cmd) (hex_addr cmd)) = Ok b1) as Hb.
  { unfold BankState_UpdateState. by rewrite Hs. }
  assert (row_hit_count_ b = 0) as H0 by (apply (bw_closed b Hwf); by rewrite Hs).
  destruct (bank_serve_open n b1 cmd clk) as [b' Hb'];
    [by eapply UpdateState_wf | | done | done | done | simpl; lia |].
  { intros u Hu. rewrite (UpdateState_timing _ _ _ _ Hb). auto. }
  exists b'. apply (bank_serve_step _ b cmd clk ACTIVATE b1); try done.
  - unfold required_type. rewrite Hs. by destruct (cmd_type cmd).
  - by destruct (cmd_type cmd).
Qed.

#[export] Hint Resolve new_BankState_wf UpdateState_wf UpdateTiming_wf : sim.

(** ** Properties *)

(** The command chooser and the transition function agree: whatever
    command [GetReadyCommand] hands out, in any reachable bank and at any
    time, [UpdateState] accepts it (no [AbruptExit]), the bank stays
    well-formed, and the command is not issued before its earliest time. *)
Theorem bank_ready_command_legal b cmd clk r :
  bank_wf b → row_hit_count_ b < 2 ^ 31 - 1 →
  BankState_GetReadyCommand b cmd clk = Ok r → IsValid r = true →
  earliest b (cmd_type r) ≤ clk ∧
  ∃ b', BankState_UpdateState b r = Ok b' ∧ bank_wf b'.
Proof.
  intros Hwf Hh Hg Hv.
  destruct (GetReadyCommand_inv _ _ _ _ Hg Hv) as (Ht & _ & _ & Htime).
  split; [by apply Htime|].
  destruct (GetReadyCommand_legal _ _ _ _ Hwf Hh Hg Hv) as [b' Hb'].
  exists b'. split; [done|]. by eapply UpdateState_wf.
Qed.

Lemma bank_ready_command_legal_witness :
  bank_wf new_BankState ∧
  ∃ r, BankState_GetReadyCommand new_BankState
         (mkCommand READ (mkAddress 0 0 0 0 7 3) 64) 5 = Ok r ∧ IsValid r = true ∧
       earliest new_BankState (cmd_type r) ≤ 5 ∧
       ∃ b', BankState_UpdateState new_BankState r = Ok b' ∧ bank_wf b'.
Proof.
  split; [apply new_BankState_wf|]. eexists. split; [vm_compute; reflexivity|].
  split; [reflexivity|].
  apply (bank_ready_command_legal new_BankState
           (mkCommand READ (mkAddress 0 0 0 0 7 3) 64));
    [apply new_BankState_wf | vm_compute; reflexivity | vm_compute; reflexivity | reflexivity].
Defined.

(** C28: a read or write reaches its row from every reachable bank state:
    once the timing constraints have elapsed, the bank serves it in at most
    three commands, and the commands are exactly the ones the state calls
    for: the access alone on a row hit, precharge, activate and access on a row
    conflict, activate and access on a closed bank, and a self-refresh exit
    before that in self-refresh. *)
Theorem bank_serves_request b cmd clk :
  bank_wf b → is_rw (cmd_type cmd) = true → row_hit_count_ b < 2 ^ 31 - 1 →
  (∀ u, u ≠ SIZE → earliest b u ≤ clk) →
  ∃ b', bank_serve 3 b cmd clk =
    Ok (match state_ b with
        | OPEN => if Row cmd =? open_row_ b then [cmd_type cmd]
                  else [PRECHARGE; ACTIVATE; cmd_type cmd]
        | SREF => [SREF_EXIT; ACTIVATE; cmd_type cmd]
        | _ => [ACTIVATE; cmd_type cmd]
        end, b').
Proof.
  intros Hwf Hrw Hh He.
  assert (∀ t b1, BankState_UpdateState b (mkCommand t (addr cmd) (hex_addr cmd)) = Ok b1 →
    required_type b cmd = Ok t → t ≠ cmd_type cmd → state_ b1 = CLOSED →
    ∃ b', bank_serve 3 b cmd clk = Ok ([t; ACTIVATE; cmd_type cmd], b')) as Hstep.
  { intros t b1 Hb Ht Hne Hs1.
    destruct (bank_serve_closed 0 b1 cmd clk) as [b' Hb']; [by eapply UpdateState_wf| |done|done|].
    - intros u Hu. rewrite (UpdateState_timing _ _ _ _ Hb). auto.
    - exists b'. by apply (bank_serve_step _ b cmd clk t b1). }
  pose proof (bw_state b Hwf) as [? ?]. destruct (state_ b) eqn:Hs; try done.
  - destruct (Z.eqb_spec (Row cmd) (open_row_ b)) as [Hr|Hr].
    + by apply bank_serve_open.
    + apply (Hstep PRECHARGE (mkBank CLOSED (cmd_timing_ b) (-1) 0)); try done.
      * unfold BankState_UpdateState. by rewrite Hs.
      * unfold required_type. rewrite Hs. destruct (Z.eqb_spec (Row cmd) (open_row_ b)); [done|].
        by destruct (cmd_type cmd).
      * by destruct (cmd_type cmd).
  - by apply bank_serve_closed.
  - eapply Hstep; try done.
    + unfold BankState_UpdateState. by rewrite Hs.
    + unfold required_type. rewrite Hs. by destruct (cmd_type cmd).
    + by destruct (cmd_type cmd).
    + done.
Qed.

(** A row conflict: row 9 is open and row 7 is asked for. *)
Definition ex_open_bank : BankState := mkBank OPEN (replicate 10 4) 9 2.

Lemma bank_serves_request_witness :
  bank_wf ex_open_bank ∧
  ∃ b', bank_serve 3 ex_open_bank (mkCommand WRITE (mkAddress 0 0 0 0 7 3) 64) 12 =
        Ok ([PRECHARGE; ACTIVATE; WRITE], b').
Proof.
  assert (bank_wf ex_open_bank) as Hwf by (split; simpl; done || lia).
  split; [done|].
  apply (bank_serves_request ex_open_bank (mkCommand WRITE (mkAddress 0 0 0 0 7 3) 64) 12);
    [done | reflexivity | vm_compute; reflexivity |].
  intros u Hu. destruct u; vm_compute; done.
Defined.
