(* ===== verification/Timing.v ===== *)
(** * Command-to-command timing (DRAMsim3/src/timing.h, timing.cc)

    The table of delays that the issue of a command imposes on later
    commands: to the same bank, to the other banks of its bank group, to the
    other bank groups of its rank, to other ranks, and, for rank-level
    commands, to the whole rank.  The C++ constructor fills five vectors
    indexed by the command; here each command has one record with its five
    rows (a row the constructor does not assign is empty). *)

From S2P Require Import Prelude DramCommon DramConfig.

Open Scope Z_scope.

Definition delay_list : Type := list (CommandType * Z).

Record CmdTiming := mkCmdTiming {
  same_bank : delay_list;
  other_banks_same_bankgroup : delay_list;
  other_bankgroups_same_rank : delay_list;
  other_ranks : delay_list;
  same_rank : delay_list }.

(** The local variables of [Timing::Timing] (small [int] sums, computed in
    [Z]). *)
Record Delays := mkDelays {
  read_to_read_l : Z; read_to_read_s : Z; read_to_read_o : Z;
  read_to_write : Z; read_to_write_o : Z; read_to_precharge : Z; readp_to_act : Z;
  write_to_read_l : Z; write_to_read_s : Z; write_to_read_o : Z;
  write_to_write_l : Z; write_to_write_s : Z; write_to_write_o : Z;
  write_to_precharge : Z; precharge_to_activate : Z; precharge_to_precharge : Z;
  read_to_activate : Z; write_to_activate : Z;
  activate_to_activate : Z; activate_to_activate_l : Z; activate_to_activate_s : Z;
  activate_to_precharge : Z; activate_to_read : Z; activate_to_write : Z;
  activate_to_refresh : Z; refresh_to_refresh : Z; refresh_to_activate : Z;
  refresh_to_activate_bank : Z; self_refresh_entry_to_exit : Z; self_refresh_exit : Z }.

Definition delays (c : Config) : Delays :=
  let t := timp c in
  let burst := burst_cycle (dramp c) in
  let one_bg := bankgroups (dramp c) =? 1 in
  let rcd_split := IsGDDR (dramp c) || IsHBM (dramp c) in
  let r2p := AL t + tRTP t in
  let w2p := WL t + burst + tWR t in
  {| read_to_read_l := Z.max burst (if one_bg then tCCD_S t else tCCD_L t);
     read_to_read_s := Z.max burst (tCCD_S t);
     read_to_read_o := burst + tRTRS t;
     read_to_write := RL t + burst - WL t + tRTRS t;
     read_to_write_o := read_delay t + burst + tRTRS t - write_delay t;
     read_to_precharge := r2p;
     readp_to_act := AL t + burst + tRTP t + tRP t;
     write_to_read_l := write_delay t + (if one_bg then tWTR_S t else tWTR_L t);
     write_to_read_s := write_delay t + tWTR_S t;
     write_to_read_o := write_delay t + burst + tRTRS t - read_delay t;
     write_to_write_l := Z.max burst (if one_bg then tCCD_S t else tCCD_L t);
     write_to_write_s := Z.max burst (tCCD_S t);
     write_to_write_o := burst;
     write_to_precharge := w2p;
     precharge_to_activate := tRP t;
     precharge_to_precharge := tPPD t;
     read_to_activate := r2p + tRP t;
     write_to_activate := w2p + tRP t;
     activate_to_activate := tRC t;
     activate_to_activate_l := if one_bg then tRRD_S t else tRRD_L t;
     activate_to_activate_s := tRRD_S t;
     activate_to_precharge := tRAS t;
     activate_to_read := if rcd_split then tRCDRD t else tRCD t - AL t;
     activate_to_write := if rcd_split then tRCDWR t else tRCD t - AL t;
     activate_to_refresh := tRC t;
     refresh_to_refresh := tREFI t;
     refresh_to_activate := tRFC t;
     refresh_to_activate_bank := tRFCb t;
     self_refresh_entry_to_exit := tCKESR t;
     self_refresh_exit := tXS t |}.

(** The row shared by the column commands: [r] to reads, [w] to writes. *)
Definition rw_row (r w : Z) : delay_list :=
  [(READ, r); (WRITE, w); (READ_PRECHARGE, r); (WRITE_PRECHARGE, w)].

(** command READ *)
Definition timing_READ (d : Delays) : CmdTiming :=
  mkCmdTiming
    (rw_row (read_to_read_l d) (read_to_write d) ++ [(PRECHARGE, read_to_precharge d)])
    (rw_row (read_to_read_l d) (read_to_write d))
    (rw_row (read_to_read_s d) (read_to_write d))
    (rw_row (read_to_read_o d) (read_to_write_o d)) [].

(** command WRITE *)
Definition timing_WRITE (d : Delays) : CmdTiming :=
  mkCmdTiming
    (rw_row (write_to_read_l d) (write_to_write_l d) ++ [(PRECHARGE, write_to_precharge d)])
    (rw_row (write_to_read_l d) (write_to_write_l d))
    (rw_row (write_to_read_s d) (write_to_write_s d))
    (rw_row (write_to_read_o d) (write_to_write_o d)) [].

(** command READ_PRECHARGE *)
Definition timing_READ_PRECHARGE (d : Delays) : CmdTiming :=
  mkCmdTiming
    [(ACTIVATE, readp_to_act d); (REFRESH, read_to_activate d);
     (REFRESH_BANK, read_to_activate d); (SREF_ENTER, read_to_activate d)]
    (rw_row (read_to_read_l d) (read_to_write d))
    (rw_row (read_to_read_s d) (read_to_write d))
    (rw_row (read_to_read_o d) (read_to_write_o d)) [].

(** command WRITE_PRECHARGE *)
Definition timing_WRITE_PRECHARGE (d : Delays) : CmdTiming :=
  mkCmdTiming
    [(ACTIVATE, write_to_activate d); (REFRESH, write_to_activate d);
     (REFRESH_BANK, write_to_activate d); (SREF_ENTER, write_to_activate d)]
    (rw_row (write_to_read_l d) (write_to_write_l d))
    (rw_row (write_to_read_s d) (write_to_write_s d))
    (rw_row (write_to_read_o d) (write_to_write_o d)) [].

(** command ACTIVATE *)
Definition timing_ACTIVATE (d : Delays) : CmdTiming :=
  mkCmdTiming
    [(ACTIVATE, activate_to_activate d); (READ, activate_to_read d);
     (WRITE, activate_to_write d); (READ_PRECHARGE, activate_to_read d);
     (WRITE_PRECHARGE, activate_to_write d); (PRECHARGE, activate_to_precharge d)]
    [(ACTIVATE, activate_to_activate_l d); (REFRESH_BANK, activate_to_refresh d)]
    [(ACTIVATE, activate_to_activate_s d); (REFRESH_BANK, activate_to_refresh d)]
    [] [].

(** command PRECHARGE; the inter-bank rows only "for those who need tPPD" *)
Definition timing_PRECHARGE (c : Config) (d : Delays) : CmdTiming :=
  let ppd := if IsGDDR (dramp c) || bool_decide (protocol (dramp c) = LPDDR4)
             then [(PRECHARGE, precharge_to_precharge d)] else [] in
  mkCmdTiming
    [(ACTIVATE, precharge_to_activate d); (REFRESH, precharge_to_activate d);
     (REFRESH_BANK, precharge_to_activate d); (SREF_ENTER, precharge_to_activate d)]
    ppd ppd [] [].

(** command REFRESH_BANK; note that the row for the bank itself is stored in
    [same_rank], not in [same_bank] *)
Definition timing_REFRESH_BANK (d : Delays) : CmdTiming :=
  mkCmdTiming []
    [(ACTIVATE, refresh_to_activate d); (REFRESH_BANK, refresh_to_refresh d)]
    [(ACTIVATE, refresh_to_activate d); (REFRESH_BANK, refresh_to_refresh d)]
    []
    [(ACTIVATE, refresh_to_activate_bank d); (REFRESH, refresh_to_activate_bank d);
     (REFRESH_BANK, refresh_to_activate_bank d); (SREF_ENTER, refresh_to_activate_bank d)].

(** command REFRESH *)
Definition timing_REFRESH (d : Delays) : CmdTiming :=
  mkCmdTiming [] [] [] []
    [(ACTIVATE, refresh_to_activate d); (REFRESH, refresh_to_activate d);
     (SREF_ENTER, refresh_to_activate d)].

(** commands SREF_ENTER and SREF_EXIT *)
Definition timing_SREF_ENTER (d : Delays) : CmdTiming :=
  mkCmdTiming [] [] [] [] [(SREF_EXIT, self_refresh_entry_to_exit d)].
Definition timing_SREF_EXIT (d : Delays) : CmdTiming :=
  mkCmdTiming [] [] [] []
    [(ACTIVATE, self_refresh_exit d); (REFRESH, self_refresh_exit d);
     (REFRESH_BANK, self_refresh_exit d); (SREF_ENTER, self_refresh_exit d)].

(** The rows of [Timing] for a command. *)
Definition timing_ (c : Config) (t : CommandType) : CmdTiming :=
  let d := delays c in
  match t with
  | READ => timing_READ d
  | WRITE => timing_WRITE d
  | READ_PRECHARGE => timing_READ_PRECHARGE d
  | WRITE_PRECHARGE => timing_WRITE_PRECHARGE d
  | ACTIVATE => timing_ACTIVATE d
  | PRECHARGE => timing_PRECHARGE c d
  | REFRESH_BANK => timing_REFRESH_BANK d
  | REFRESH => timing_REFRESH d
  | SREF_ENTER => timing_SREF_ENTER d
  | SREF_EXIT => timing_SREF_EXIT d
  | SIZE => mkCmdTiming [] [] [] [] []
  end.

(** Every row only names real commands. *)
Definition row_valid (l : delay_list) : Prop := Forall (λ p, p.1 ≠ SIZE) l.

Lemma timing_rows_valid c t :
  row_valid (same_bank (timing_ c t)) ∧
  row_valid (other_banks_same_bankgroup (timing_ c t)) ∧
  row_valid (other_bankgroups_same_rank (timing_ c t)) ∧
  row_valid (other_ranks (timing_ c t)) ∧ row_valid (same_rank (timing_ c t)).
Proof.
  unfold row_valid. destruct t; simpl; repeat case_match;
    repeat split; repeat (apply Forall_cons; split; [done|]); apply Forall_nil; done.
Qed.
