(* ===== verification/ChannelState.v ===== *)
(** * One DRAM channel (DRAMsim3/src/channel_state.h, channel_state.cc)

    The banks of a channel, its pending refreshes and its activation windows.
    The theorems: every command the channel declares ready can be applied
    without aborting and keeps the channel well-formed; issuing a command
    pushes the earliest times of every bank of the channel as the timing table
    asks; no five activations of a rank fall within one tFAW window; a wake-up
    request to a self-refreshing rank aborts; a per-bank refresh puts no
    constraint on the refreshed bank. *)

From S2P Require Import Prelude DramCommon DramConfig BankState Timing.

Open Scope Z_scope.

Definition grid : Type := list (list (list BankState)).

Record ChannelState := mkChannel {
  rank_idle_cycles : list Z;
  rank_is_sref_ : list bool;
  bank_states_ : grid;
  refresh_q_ : list Command;
  four_aw_ : list (list Z);
  thirty_two_aw_ : list (list Z) }.

Section Channel.
Variable config : Config.

(** The iteration space of [for j < bankgroups, for k < banks_per_group]. *)
Definition rank_coords : list (Z * Z) :=
  j ← seqZ 0 (bankgroups (dramp config));
  k ← seqZ 0 (banks_per_group (dramp config));
  [(j, k)].

Definition nranks : nat := Z.to_nat (ranks (sizep config)).

(** [ChannelState::ChannelState] *)
Definition new_ChannelState : ChannelState :=
  mkChannel (replicate nranks 0) (replicate nranks false)
    (replicate nranks
      (replicate (Z.to_nat (bankgroups (dramp config)))
        (replicate (Z.to_nat (banks_per_group (dramp config))) new_BankState)))
    [] (replicate nranks []) (replicate nranks []).

(** [bank_states_[r][j][k]], read and written. *)
Definition bank_at (bs : grid) (r j k : Z) : res BankState :=
  x ← vget bs r; y ← vget x j; vget y k.
Definition bank_put (bs : grid) (r j k : Z) (b : BankState) : res grid :=
  x ← vget bs r; y ← vget x j; y' ← vset y k b; x' ← vset x j y'; vset bs r x'.
Definition bank_upd (r j k : Z) (f : BankState → res BankState) (bs : grid) : res grid :=
  b ← bank_at bs r j k; b' ← f b; bank_put bs r j k b'.

(** [ChannelState::IsAllBankIdleInRank] *)
Fixpoint all_idle (bs : grid) (r : Z) (l : list (Z * Z)) : res bool :=
  match l with
  | [] => Ok true
  | (j, k) :: l' =>
      b ← bank_at bs r j k;
      if IsRowOpen b then Ok false else all_idle bs r l'
  end.
Definition IsAllBankIdleInRank (st : ChannelState) (r : Z) : res bool :=
  all_idle (bank_states_ st) r rank_coords.

Definition IsRankSelfRefreshing (st : ChannelState) (r : Z) : res bool :=
  vget (rank_is_sref_ st) r.
Definition IsRefreshWaiting (st : ChannelState) : bool := negb (qempty (refresh_q_ st)).
Definition PendingRefCommand (st : ChannelState) : res Command := qfront (refresh_q_ st).

(** [ChannelState::IsRWPendingOnRef] *)
Definition IsRWPendingOnRef (st : ChannelState) (cmd : Command) : res bool :=
  b ← bank_at (bank_states_ st) (Rank cmd) (Bankgroup cmd) (Bank cmd);
  Ok (IsRowOpen b && (RowHitCount b =? 0) && (OpenRow b =? Row cmd)).

(** Remove the first pending refresh that satisfies [p]. *)
Fixpoint erase_first (p : Command → bool) (q : list Command) : list Command :=
  match q with
  | [] => []
  | c :: q' => if p c then q' else c :: erase_first p q'
  end.

(** [ChannelState::BankNeedRefresh] *)
Definition BankNeedRefresh (r bg ba : Z) (need : bool) (st : ChannelState) : ChannelState :=
  st {{ refresh_q_ :=
    if need then
      refresh_q_ st ++ [mkCommand REFRESH_BANK (mkAddress (-1) r bg ba (-1) (-1)) (u64 (-1))]
    else
      erase_first (λ c, (Rank c =? r) && (Bankgroup c =? bg) && (Bank c =? ba))
        (refresh_q_ st) }}.

(** [ChannelState::RankNeedRefresh] *)
Definition RankNeedRefresh (r : Z) (need : bool) (st : ChannelState) : ChannelState :=
  st {{ refresh_q_ :=
    if need then
      refresh_q_ st ++ [mkCommand REFRESH (mkAddress (-1) r (-1) (-1) (-1) (-1)) (u64 (-1))]
    else erase_first (λ c, Rank c =? r) (refresh_q_ st) }}.

(** [IsFAWReady] / [Is32AWReady] on one rank's window. *)
Definition aw_ready (cap : nat) (aw : list Z) (curr_time : Z) : bool :=
  match aw with
  | [] => true
  | t :: _ => negb ((curr_time <? t) && (cap <=? length aw)%nat)
  end.

(** One window of [UpdateActivationTimes]. *)
Definition aw_push (window : Z) (aw : list Z) (curr_time : Z) : list Z :=
  match aw with
  | t :: aw' => (if t <=? curr_time then aw' else aw) ++ [u64 (curr_time + window)]
  | [] => [u64 (curr_time + window)]
  end.

(** [ChannelState::ActivationWindowOk] *)
Definition ActivationWindowOk (st : ChannelState) (r curr_time : Z) : res bool :=
  f ← vget (four_aw_ st) r;
  let tfaw_ok := aw_ready 4 f curr_time in
  if IsGDDR (dramp config) then
    if negb tfaw_ok then Ok false
    else g ← vget (thirty_two_aw_ st) r; Ok (aw_ready 32 g curr_time)
  else Ok tfaw_ok.

(** [ChannelState::UpdateActivationTimes] *)
Definition UpdateActivationTimes (r curr_time : Z) (st : ChannelState) : res ChannelState :=
  f ← vget (four_aw_ st) r;
  f' ← vset (four_aw_ st) r (aw_push (tFAW (timp config)) f curr_time);
  if IsGDDR (dramp config) then
    g ← vget (thirty_two_aw_ st) r;
    g' ← vset (thirty_two_aw_ st) r (aw_push (t32AW (timp config)) g curr_time);
    Ok (st {{ four_aw_ := f'; thirty_two_aw_ := g' }})
  else Ok (st {{ four_aw_ := f' }}).

(** The scan of [GetReadyCommand] for a rank command: [inl] is the early
    return of a preparatory command, [inr] the end of the loops with
    [num_ready] and the last [ready_cmd]. *)
Fixpoint rank_scan (bs : grid) (cmd : Command) (clk : Z) (l : list (Z * Z))
    (num_ready : Z) (ready_cmd : Command) : res (Command + Z * Command) :=
  match l with
  | [] => Ok (inr (num_ready, ready_cmd))
  | (j, k) :: l' =>
      b ← bank_at bs (Rank cmd) j k;
      rc ← BankState_GetReadyCommand b cmd clk;
      if negb (IsValid rc) then rank_scan bs cmd clk l' num_ready rc
      else if bool_decide (cmd_type rc ≠ cmd_type cmd) then
        Ok (inl (mkCommand (cmd_type rc) (mkAddress (-1) (Rank cmd) j k (-1) (-1)) (hex_addr rc)))
      else rank_scan bs cmd clk l' (num_ready + 1) rc
  end.

(** [ChannelState::GetReadyCommand] *)
Definition ChannelState_GetReadyCommand (st : ChannelState) (cmd : Command) (clk : Z)
    : res Command :=
  if IsRankCMD cmd then
    o ← rank_scan (bank_states_ st) cmd clk rank_coords 0 Command_default;
    match o with
    | inl rc => Ok rc
    | inr (num_ready, rc) =>
        if num_ready =? banks (dramp config) then Ok rc else Ok Command_default
    end
  else
    b ← bank_at (bank_states_ st) (Rank cmd) (Bankgroup cmd) (Bank cmd);
    rc ← BankState_GetReadyCommand b cmd clk;
    if negb (IsValid rc) then Ok Command_default
    else if bool_decide (cmd_type rc = ACTIVATE) then
      ok ← ActivationWindowOk st (Rank rc) clk;
      if negb ok then Ok Command_default else Ok rc
    else Ok rc.

(** [ChannelState::UpdateState] *)
Definition ChannelState_UpdateState (cmd : Command) (st : ChannelState) : res ChannelState :=
  if IsRankCMD cmd then
    bs ← for_each rank_coords
           (λ '(j, k), bank_upd (Rank cmd) j k (λ b, BankState_UpdateState b cmd))
           (bank_states_ st);
    let st := st {{ bank_states_ := bs }} in
    if IsRefresh cmd then Ok (RankNeedRefresh (Rank cmd) false st)
    else if bool_decide (cmd_type cmd = SREF_ENTER) then
      v ← vset (rank_is_sref_ st) (Rank cmd) true; Ok (st {{ rank_is_sref_ := v }})
    else if bool_decide (cmd_type cmd = SREF_EXIT) then
      v ← vset (rank_is_sref_ st) (Rank cmd) false; Ok (st {{ rank_is_sref_ := v }})
    else Ok st
  else
    bs ← bank_upd (Rank cmd) (Bankgroup cmd) (Bank cmd)
           (λ b, BankState_UpdateState b cmd) (bank_states_ st);
    let st := st {{ bank_states_ := bs }} in
    if IsRefresh cmd then
      Ok (BankNeedRefresh (Rank cmd) (Bankgroup cmd) (Bank cmd) false st)
    else Ok st.

(** One bank's share of the timing update:
    [for (auto cmd_timing : list) bank.UpdateTiming(first, clk + second)]. *)
Definition apply_delays (l : delay_list) (clk : Z) (b : BankState) : res BankState :=
  for_each l (λ p b, BankState_UpdateTiming b p.1 (u64 (clk + p.2))) b.

Definition UpdateSameBankTiming (a : Address) (l : delay_list) (clk : Z) : grid → res grid :=
  bank_upd (rank a) (bankgroup a) (bank a) (apply_delays l clk).

Definition UpdateOtherBanksSameBankgroupTiming (a : Address) (l : delay_list) (clk : Z)
    : grid → res grid :=
  for_each (seqZ 0 (banks_per_group (dramp config))) (λ k bs,
    if k =? bank a then Ok bs else bank_upd (rank a) (bankgroup a) k (apply_delays l clk) bs).

Definition UpdateOtherBankgroupsSameRankTiming (a : Address) (l : delay_list) (clk : Z)
    : grid → res grid :=
  for_each rank_coords (λ '(j, k) bs,
    if j =? bankgroup a then Ok bs else bank_upd (rank a) j k (apply_delays l clk) bs).

Definition UpdateOtherRanksTiming (a : Address) (l : delay_list) (clk : Z)
    : grid → res grid :=
  for_each (seqZ 0 (ranks (sizep config))) (λ i bs,
    if i =? rank a then Ok bs
    else for_each rank_coords (λ '(j, k), bank_upd i j k (apply_delays l clk)) bs).

Definition UpdateSameRankTiming (a : Address) (l : delay_list) (clk : Z) : grid → res grid :=
  for_each rank_coords (λ '(j, k), bank_upd (rank a) j k (apply_delays l clk)).

(** [ChannelState::UpdateTiming]; ACTIVATE falls through to the bank rows. *)
Definition ChannelState_UpdateTiming (cmd : Command) (clk : Z) (st : ChannelState)
    : res ChannelState :=
  let tm := timing_ config (cmd_type cmd) in
  let a := addr cmd in
  match cmd_type cmd with
  | ACTIVATE | READ | READ_PRECHARGE | WRITE | WRITE_PRECHARGE | PRECHARGE | REFRESH_BANK =>
      st ← (if bool_decide (cmd_type cmd = ACTIVATE)
            then UpdateActivationTimes (Rank cmd) clk st else Ok st);
      bs1 ← UpdateSameBankTiming a (same_bank tm) clk (bank_states_ st);
      bs2 ← UpdateOtherBanksSameBankgroupTiming a (other_banks_same_bankgroup tm) clk bs1;
      bs3 ← UpdateOtherBankgroupsSameRankTiming a (other_bankgroups_same_rank tm) clk bs2;
      bs4 ← UpdateOtherRanksTiming a (other_ranks tm) clk bs3;
      Ok (st {{ bank_states_ := bs4 }})
  | REFRESH | SREF_ENTER | SREF_EXIT =>
      bs ← UpdateSameRankTiming a (same_rank tm) clk (bank_states_ st);
      Ok (st {{ bank_states_ := bs }})
  | SIZE => Err AbruptExit
  end.

(** [ChannelState::UpdateTimingAndStates] *)
Definition UpdateTimingAndStates (cmd : Command) (clk : Z) (st : ChannelState)
    : res ChannelState :=
  st' ← ChannelState_UpdateState cmd st; ChannelState_UpdateTiming cmd clk st'.
End Channel.

(** ** The bank grid *)

(** [b] is [b0] with some earliest times moved later. *)
Definition bank_le (b0 b : BankState) : Prop :=
  bank_wf b0 →
  bank_wf b ∧ state_ b = state_ b0 ∧ open_row_ b = open_row_ b0 ∧
  row_hit_count_ b = row_hit_count_ b0 ∧
  ∀ t, t ≠ SIZE → earliest b0 t ≤ earliest b t.

#[global] Instance bank_le_preorder : PreOrder bank_le.
Proof.
  split.
  - intros b Hb. split_and!; done || lia.
  - intros b1 b2 b3 H12 H23 Hb. destruct (H12 Hb) as (W2 & S2 & O2 & R2 & E2).
    destruct (H23 W2) as (W3 & S3 & O3 & R3 & E3).
    split_and!; try done; try congruence.
    intros t Ht. specialize (E2 t Ht). specialize (E3 t Ht). lia.
Qed.

Definition grid_le (bs0 bs : grid) : Prop :=
  ∀ r j k b0, bank_at bs0 r j k = Ok b0 → ∃ b, bank_at bs r j k = Ok b ∧ bank_le b0 b.

#[global] Instance grid_le_preorder : PreOrder grid_le.
Proof.
  split.
  - intros bs r j k b Hb. exists b. split; [done | reflexivity].
  - intros bs1 bs2 bs3 H12 H23 r j k b1 H1.
    destruct (H12 _ _ _ _ H1) as (b2 & E2 & L2). destruct (H23 _ _ _ _ E2) as (b3 & E3 & L3).
    exists b3. split; [done | by etrans].
Qed.

Lemma bank_put_spec bs r j k b0 b :
  bank_at bs r j k = Ok b0 →
  ∃ bs', bank_put bs r j k b = Ok bs' ∧
    ∀ r' j' k', bank_at bs' r' j' k' =
      if decide (r' = r ∧ j' = j ∧ k' = k) then Ok b else bank_at bs r' j' k'.
Proof.
  unfold bank_at, bank_put. intros H. inv_res H. rewrite H0. simpl. rewrite H1. simpl.
  pose proof (vget_range _ _ _ H) as Rk. pose proof (vget_range _ _ _ H1) as Rj.
  pose proof (vget_range _ _ _ H0) as Rr.
  rewrite (vset_Ok v0 k b) by done. simpl. rewrite (vset_Ok v j) by done. simpl.
  rewrite (vset_Ok bs r) by done.
  eexists. split; [done|]. intros r' j' k'.
  rewrite vget_insert by done. destruct (decide (r' = r)) as [->|Nr]; simpl.
  - rewrite H0. simpl. rewrite vget_insert by done.
    destruct (decide (j' = j)) as [->|Nj]; simpl; [rewrite H1; simpl; rewrite vget_insert by done|];
      repeat case_decide; naive_solver.
  - repeat case_decide; naive_solver.
Qed.

Lemma bank_upd_spec bs r j k f b0 b :
  bank_at bs r j k = Ok b0 → f b0 = Ok b →
  ∃ bs', bank_upd r j k f bs = Ok bs' ∧
    ∀ r' j' k', bank_at bs' r' j' k' =
      if decide (r' = r ∧ j' = j ∧ k' = k) then Ok b else bank_at bs r' j' k'.
Proof.
  intros H Hf. destruct (bank_put_spec bs r j k b0 b H) as (bs' & Hp & Hs).
  exists bs'. unfold bank_upd. rewrite H. simpl. rewrite Hf. simpl. by rewrite Hp.
Qed.

(** A bank has received the delays [l] of a command issued at [clk]. *)
Definition delayed (l : delay_list) (clk : Z) (b : BankState) : Prop :=
  ∀ t d, (t, d) ∈ l → u64 (clk + d) ≤ earliest b t.

Lemma UpdateTiming_le b t time :
  bank_wf b → t ≠ SIZE →
  ∃ b', BankState_UpdateTiming b t time = Ok b' ∧ bank_le b b' ∧ time ≤ earliest b' t.
Proof.
  intros Hwf Ht.
  assert (∃ b', BankState_UpdateTiming b t time = Ok b') as [b' Hb'].
  { unfold BankState_UpdateTiming. rewrite bank_wf_vget by done. simpl.
    pose proof (cmd_index_range t Ht). rewrite vset_Ok; [by eauto|].
    unfold vsize. rewrite (bw_timing _ Hwf). lia. }
  exists b'. pose proof (λ u, UpdateTiming_earliest _ _ _ _ u Hwf Hb') as He.
  split; [done|]. split.
  - intros _. split; [by eapply UpdateTiming_wf|].
    unfold BankState_UpdateTiming in Hb'. inv_res Hb'. injection Hb' as <-. simpl.
    split_and!; try done. intros u Hu. rewrite He by done. case_decide; subst; lia.
  - rewrite He by done. case_decide; [lia | done].
Qed.

(** Facts about a well-formed bank that later timing updates keep. *)
Lemma earliest_le_mono b b' t x :
  bank_wf b → bank_le b b' → t ≠ SIZE → x ≤ earliest b t → x ≤ earliest b' t.
Proof. intros Hwf (_ & _ & _ & _ & He)%(λ H, H Hwf) Ht. specialize (He t Ht). lia. Qed.

Lemma apply_delays_spec l clk b :
  bank_wf b → row_valid l →
  ∃ b', apply_delays l clk b = Ok b' ∧ bank_le b b' ∧ delayed l clk b'.
Proof.
  revert b. induction l as [|[t d] l IH]; intros b Hwf Hl; unfold apply_delays; simpl.
  { exists b. split; [done|]. split; [reflexivity|]. intros t d []%elem_of_nil. }
  apply Forall_cons in Hl as [Ht Hl]. simpl in Ht.
  destruct (UpdateTiming_le b t (u64 (clk + d)) Hwf Ht) as (b1 & E1 & L1 & T1).
  destruct (L1 Hwf) as [Hwf1 _].
  destruct (IH b1 Hwf1 Hl) as (b2 & E2 & L2 & T2).
  exists b2. rewrite E1. simpl. split; [exact E2|]. split; [by etrans|].
  intros t' d' [[= -> ->]|Hin]%elem_of_cons; [|by apply T2].
  by eapply earliest_le_mono.
Qed.

(** A delay row applied to one bank of the grid. *)
Lemma bank_upd_delays bs r j k l clk b0 :
  bank_at bs r j k = Ok b0 → bank_wf b0 → row_valid l →
  ∃ bs', bank_upd r j k (apply_delays l clk) bs = Ok bs' ∧ grid_le bs bs' ∧
    ∃ b, bank_at bs' r j k = Ok b ∧ delayed l clk b.
Proof.
  intros Hb Hwf Hl. destruct (apply_delays_spec l clk b0 Hwf Hl) as (b & Eb & Lb & Db).
  destruct (bank_upd_spec bs r j k _ b0 b Hb Eb) as (bs' & E & Hs).
  exists bs'. split; [done|]. split.
  - intros r' j' k' b1 H1. rewrite Hs. case_decide as D; [|by exists b1].
    destruct D as (-> & -> & ->). rewrite Hb in H1. simplify_eq. eauto.
  - exists b. split; [|done]. rewrite Hs. case_decide; naive_solver.
Qed.

Section GridLemmas.
Variable config : Config.

Definition in_grid (r j k : Z) : Prop :=
  0 ≤ r < ranks (sizep config) ∧ 0 ≤ j < bankgroups (dramp config) ∧
  0 ≤ k < banks_per_group (dramp config).

(** Every coordinate of the configuration is a well-formed bank. *)
Definition grid_wf (bs : grid) : Prop :=
  ∀ r j k, in_grid r j k → ∃ b, bank_at bs r j k = Ok b ∧ bank_wf b.

Lemma rank_coords_in j k :
  (j, k) ∈ rank_coords config ↔
  0 ≤ j < bankgroups (dramp config) ∧ 0 ≤ k < banks_per_group (dramp config).
Proof.
  unfold rank_coords. rewrite list_elem_of_bind. split.
  - intros (j' & H & Hj). apply list_elem_of_bind in H as (k' & H & Hk).
    apply list_elem_of_singleton in H. rewrite !elem_of_seqZ in *. naive_solver lia.
  - intros [Hj Hk]. exists j. rewrite list_elem_of_bind, elem_of_seqZ.
    split; [|lia]. exists k. rewrite elem_of_seqZ, list_elem_of_singleton. split; [done | lia].
Qed.

Lemma length_rank_coords :
  length (rank_coords config) =
  (Z.to_nat (bankgroups (dramp config)) * Z.to_nat (banks_per_group (dramp config)))%nat.
Proof.
  unfold rank_coords.
  assert (∀ (l : list Z) m,
    length (l ≫= (λ j : Z, seqZ 0 m ≫= (λ k, [(j, k)]))) = (length l * Z.to_nat m)%nat) as H.
  { intros l m. induction l as [|j l IH]; [done|]. csimpl. rewrite length_app, IH.
    f_equal. transitivity (length (seqZ 0 m)); [|apply length_seqZ].
    clear. induction (seqZ 0 m) as [|x q IHq]; csimpl; [done | by rewrite IHq]. }
  rewrite H, length_seqZ. done.
Qed.

Lemma grid_wf_le bs bs' : grid_wf bs → grid_le bs bs' → grid_wf bs'.
Proof.
  intros Hwf Hle r j k Hin. destruct (Hwf r j k Hin) as (b & Hb & Wb).
  destruct (Hle _ _ _ _ Hb) as (b' & Hb' & L). exists b'. split; [done|]. by apply L.
Qed.

(** The bank at a coordinate has received [l]. *)
Definition grid_delayed (r j k : Z) (l : delay_list) (clk : Z) (bs : grid) : Prop :=
  ∃ b, bank_at bs r j k = Ok b ∧ bank_wf b ∧ delayed l clk b.

Lemma grid_delayed_le r j k l clk bs bs' :
  row_valid l → grid_delayed r j k l clk bs → grid_le bs bs' → grid_delayed r j k l clk bs'.
Proof.
  intros Hl (b & Hb & Wb & Db) Hle. destruct (Hle _ _ _ _ Hb) as (b' & Hb' & L).
  exists b'. split; [done|]. split; [by apply L|]. intros t d Hin.
  eapply earliest_le_mono; [exact Wb | done | | by apply Db].
  unfold row_valid in Hl. rewrite Forall_forall in Hl. by apply (Hl _ Hin).
Qed.

Lemma bank_upd_grid bs r j k l clk :
  grid_wf bs → in_grid r j k → row_valid l →
  ∃ bs', bank_upd r j k (apply_delays l clk) bs = Ok bs' ∧ grid_le bs bs' ∧
    grid_delayed r j k l clk bs'.
Proof.
  intros Hwf Hin Hl. destruct (Hwf r j k Hin) as (b & Hb & Wb).
  destruct (bank_upd_delays bs r j k l clk b Hb Wb Hl) as (bs' & E & L & b' & Hb' & Db).
  exists bs'. split; [done|]. split; [done|]. exists b'. split; [done|]. split; [|done].
  destruct (L _ _ _ _ Hb) as (b2 & Hb2 & L2). rewrite Hb' in Hb2. simplify_eq. by apply L2.
Qed.

Lemma row_update_same_bank a l clk bs :
  grid_wf bs → in_grid (rank a) (bankgroup a) (bank a) → row_valid l →
  ∃ bs', UpdateSameBankTiming a l clk bs = Ok bs' ∧ grid_le bs bs' ∧
    grid_delayed (rank a) (bankgroup a) (bank a) l clk bs'.
Proof. intros. by apply bank_upd_grid. Qed.

Lemma row_update_other_banks a l clk bs :
  grid_wf bs → in_grid (rank a) (bankgroup a) (bank a) → row_valid l →
  ∃ bs', UpdateOtherBanksSameBankgroupTiming config a l clk bs = Ok bs' ∧ grid_le bs bs' ∧
    ∀ k, in_grid (rank a) (bankgroup a) k → k ≠ bank a →
      grid_delayed (rank a) (bankgroup a) k l clk bs'.
Proof.
  intros Hwf Hin Hl. unfold UpdateOtherBanksSameBankgroupTiming.
  destruct (for_each_reach grid_le
    (λ k bs, k ≠ bank a → grid_delayed (rank a) (bankgroup a) k l clk bs)
    (seqZ 0 (banks_per_group (dramp config)))
    (λ k bs, if k =? bank a then Ok bs
             else bank_upd (rank a) (bankgroup a) k (apply_delays l clk) bs) bs)
    as (bs' & E & L & T).
  - intros k s1 s2 H HR Hk. eapply grid_delayed_le; eauto.
  - intros k s1 Hk%elem_of_seqZ HR. destruct (Z.eqb_spec k (bank a)).
    { exists s1. split; [done|]. split; [reflexivity | done]. }
    destruct (bank_upd_grid s1 (rank a) (bankgroup a) k l clk) as (s2 & ? & ? & ?);
      [by eapply grid_wf_le | unfold in_grid in *; lia | done | eauto].
  - exists bs'. split; [done|]. split; [done|]. intros k Hk Hne. apply T; [|done].
    rewrite elem_of_seqZ. unfold in_grid in Hk. lia.
Qed.

Lemma row_update_coords (sel : Z → bool) r l clk bs :
  grid_wf bs → 0 ≤ r < ranks (sizep config) → row_valid l →
  ∃ bs', for_each (rank_coords config)
           (λ '(j, k) bs, if sel j then Ok bs else bank_upd r j k (apply_delays l clk) bs) bs
         = Ok bs' ∧ grid_le bs bs' ∧
    ∀ j k, in_grid r j k → sel j = false → grid_delayed r j k l clk bs'.
Proof.
  intros Hwf Hr Hl.
  destruct (for_each_reach grid_le
    (λ p bs, sel p.1 = false → grid_delayed r p.1 p.2 l clk bs) (rank_coords config)
    (λ '(j, k) bs, if sel j then Ok bs else bank_upd r j k (apply_delays l clk) bs) bs)
    as (bs' & E & L & T).
  - intros [j k] s1 s2 H HR Hk. eapply grid_delayed_le; eauto.
  - intros [j k] s1 Hk%rank_coords_in HR. simpl. destruct (sel j).
    { exists s1. split; [done|]. split; [reflexivity | done]. }
    destruct (bank_upd_grid s1 r j k l clk) as (s2 & ? & ? & ?);
      [by eapply grid_wf_le | unfold in_grid in *; lia | done | eauto].
  - exists bs'. split; [done|]. split; [done|]. intros j k Hin Hs.
    apply (T (j, k)); [|done]. apply rank_coords_in. unfold in_grid in Hin. lia.
Qed.
Lemma row_update_rank r l clk bs :
  grid_wf bs → 0 ≤ r < ranks (sizep config) → row_valid l →
  ∃ bs', for_each (rank_coords config) (λ '(j, k), bank_upd r j k (apply_delays l clk)) bs
         = Ok bs' ∧ grid_le bs bs' ∧ ∀ j k, in_grid r j k → grid_delayed r j k l clk bs'.
Proof.
  intros Hwf Hr Hl.
  destruct (for_each_reach grid_le
    (λ p bs, grid_delayed r p.1 p.2 l clk bs) (rank_coords config)
    (λ '(j, k), bank_upd r j k (apply_delays l clk)) bs) as (bs' & E & L & T).
  - intros [j k] s1 s2 H HR. eapply grid_delayed_le; eauto.
  - intros [j k] s1 Hk%rank_coords_in HR.
    apply (bank_upd_grid s1 r j k l clk); [by eapply grid_wf_le | unfold in_grid; lia | done].
  - exists bs'. split; [done|]. split; [done|]. intros j k Hin.
    apply (T (j, k)). apply rank_coords_in. unfold in_grid in Hin. lia.
Qed.

Lemma row_update_other_ranks a l clk bs :
  grid_wf bs → row_valid l →
  ∃ bs', UpdateOtherRanksTiming config a l clk bs = Ok bs' ∧ grid_le bs bs' ∧
    ∀ r j k, in_grid r j k → r ≠ rank a → grid_delayed r j k l clk bs'.
Proof.
  intros Hwf Hl. unfold UpdateOtherRanksTiming.
  destruct (for_each_reach grid_le
    (λ r bs, r ≠ rank a → ∀ j k, in_grid r j k → grid_delayed r j k l clk bs)
    (seqZ 0 (ranks (sizep config)))
    (λ i bs, if i =? rank a then Ok bs
             else for_each (rank_coords config)
                    (λ '(j, k), bank_upd i j k (apply_delays l clk)) bs) bs)
    as (bs' & E & L & T).
  - intros r s1 s2 H HR Hr j k Hin. eapply grid_delayed_le; eauto.
  - intros r s1 Hr%elem_of_seqZ HR. destruct (Z.eqb_spec r (rank a)).
    { exists s1. split; [done|]. split; [reflexivity | done]. }
    destruct (row_update_rank r l clk s1) as (s2 & ? & ? & ?);
      [by eapply grid_wf_le | lia | done | eauto].
  - exists bs'. split; [done|]. split; [done|]. intros r j k Hin Hne.
    apply T; [|done|done]. rewrite elem_of_seqZ. unfold in_grid in Hin. lia.
Qed.

(** ** Well-formed channels *)

(** The sizes agree with the configuration, every bank is well-formed, and
    the self-refresh flag of a rank says exactly whether its banks are in
    self-refresh. *)
Record chan_wf (st : ChannelState) : Prop := {
  cw_banks : banks (dramp config) =
    bankgroups (dramp config) * banks_per_group (dramp config);
  cw_pos : 0 < bankgroups (dramp config) ∧ 0 < banks_per_group (dramp config);
  cw_grid : grid_wf (bank_states_ st);
  cw_sref_len : vsize (rank_is_sref_ st) = Z.max 0 (ranks (sizep config));
  cw_faw_len : vsize (four_aw_ st) = Z.max 0 (ranks (sizep config));
  cw_32aw_len : vsize (thirty_two_aw_ st) = Z.max 0 (ranks (sizep config));
  cw_sref : ∀ r j k b s, in_grid r j k → bank_at (bank_states_ st) r j k = Ok b →
    vget (rank_is_sref_ st) r = Ok s → (s = true ↔ state_ b = SREF) }.

(** Every bank can count [n] more hits in the [int] range of its hit counter. *)
Definition headroom (n : Z) (st : ChannelState) : Prop :=
  ∀ r j k b, in_grid r j k → bank_at (bank_states_ st) r j k = Ok b → row_hit_count_ b < 2 ^ 31 - n.
Definition hits_bounded : ChannelState → Prop := headroom 1.

(** A command addressed to an existing bank (or rank, for rank commands). *)
Definition cmd_in_grid (cmd : Command) : Prop :=
  if IsRankCMD cmd then 0 ≤ Rank cmd < ranks (sizep config)
  else in_grid (Rank cmd) (Bankgroup cmd) (Bank cmd).

(** The delays that the timing table asks of bank (r, j, k) when [cmd] issues. *)
Definition expected_delays (cmd : Command) (r j k : Z) : delay_list :=
  let tm := timing_ config (cmd_type cmd) in
  if IsRankCMD cmd then (if r =? Rank cmd then same_rank tm else [])
  else if negb (r =? Rank cmd) then other_ranks tm
  else if negb (j =? Bankgroup cmd) then other_bankgroups_same_rank tm
  else if negb (k =? Bank cmd) then other_banks_same_bankgroup tm
  else same_bank tm.

(** [st'] is [st] with only timing information changed. *)
Definition chan_le (st st' : ChannelState) : Prop :=
  grid_le (bank_states_ st) (bank_states_ st') ∧
  rank_is_sref_ st' = rank_is_sref_ st ∧ refresh_q_ st' = refresh_q_ st ∧
  rank_idle_cycles st' = rank_idle_cycles st ∧
  vsize (four_aw_ st') = vsize (four_aw_ st) ∧
  vsize (thirty_two_aw_ st') = vsize (thirty_two_aw_ st).

Lemma chan_wf_le st st' : chan_wf st → chan_le st st' → chan_wf st'.
Proof.
  intros [Hb Hp Hg Hs Hf H32 Hsr] (Lg & Es & _ & _ & Ef & E32).
  split; try done; try congruence.
  - by eapply grid_wf_le.
  - intros r j k b s Hin Hbk Hsv. rewrite Es in Hsv.
    destruct (Hg r j k Hin) as (b0 & Hb0 & Wb0).
    destruct (Lg _ _ _ _ Hb0) as (b1 & Hb1 & L1). rewrite Hbk in Hb1. simplify_eq.
    destruct (L1 Wb0) as (_ & -> & _). by eapply Hsr.
Qed.

Lemma UpdateActivationTimes_ok st r t :
  chan_wf st → 0 ≤ r < ranks (sizep config) →
  ∃ st', UpdateActivationTimes config r t st = Ok st' ∧ chan_le st st'.
Proof.
  intros [_ _ _ _ Hf H32 _] Hr. unfold UpdateActivationTimes.
  destruct (vget_is_Ok (four_aw_ st) r) as [f Ef]; [lia|].
  destruct (vget_is_Ok (thirty_two_aw_ st) r) as [g Eg]; [lia|].
  rewrite Ef. simpl. rewrite vset_Ok by lia. simpl.
  case_match.
  - rewrite Eg. simpl. rewrite vset_Ok by lia. simpl.
    eexists. split; [done|]. destruct st. cbn in *.
    unfold chan_le. cbn. rewrite !vsize_insert. split_and!; done || reflexivity.
  - eexists. split; [done|]. destruct st. cbn in *.
    unfold chan_le. cbn. rewrite !vsize_insert. split_and!; done || reflexivity.
Qed.

(** The timing update of a bank command. *)
Lemma UpdateTiming_bank st cmd clk :
  chan_wf st → IsRankCMD cmd = false → cmd_type cmd ≠ SIZE → cmd_in_grid cmd →
  ∃ st', ChannelState_UpdateTiming config cmd clk st = Ok st' ∧ chan_le st st' ∧
    ∀ r j k, in_grid r j k →
      grid_delayed r j k (expected_delays cmd r j k) clk (bank_states_ st').
Proof.
  intros Hwf Hrk Hsz Hin. unfold cmd_in_grid in Hin. rewrite Hrk in Hin.
  assert (∃ st1, (if bool_decide (cmd_type cmd = ACTIVATE)
                  then UpdateActivationTimes config (Rank cmd) clk st else Ok st) = Ok st1
                 ∧ chan_le st st1) as (st1 & E1 & L1).
  { case_bool_decide; [apply UpdateActivationTimes_ok; [done | apply Hin]|].
    exists st. split; [done|]. unfold chan_le. split_and!; done || reflexivity. }
  set (a := addr cmd). set (tm := timing_ config (cmd_type cmd)).
  pose proof (timing_rows_valid config (cmd_type cmd)) as (V1 & V2 & V3 & V4 & _).
  pose proof (cw_grid _ (chan_wf_le _ _ Hwf L1)) as G1.
  destruct (row_update_same_bank a (same_bank tm) clk (bank_states_ st1)) as (b1 & F1 & M1 & T1);
    [done..|]. pose proof (grid_wf_le _ _ G1 M1) as G2.
  destruct (row_update_other_banks a (other_banks_same_bankgroup tm) clk b1)
    as (b2 & F2 & M2 & T2); [done..|]. pose proof (grid_wf_le _ _ G2 M2) as G3.
  destruct (row_update_coords (λ j, j =? bankgroup a) (rank a)
    (other_bankgroups_same_rank tm) clk b2) as (b3 & F3 & M3 & T3); [done | apply Hin | done|].
  pose proof (grid_wf_le _ _ G3 M3) as G4.
  destruct (row_update_other_ranks a (other_ranks tm) clk b3) as (b4 & F4 & M4 & T4); [done..|].
  exists (st1 {{ bank_states_ := b4 }}). split_and!.
  - assert (ChannelState_UpdateTiming config cmd clk st =
      (st1 ← (if bool_decide (cmd_type cmd = ACTIVATE)
              then UpdateActivationTimes config (Rank cmd) clk st else Ok st);
       bs1 ← UpdateSameBankTiming a (same_bank tm) clk (bank_states_ st1);
       bs2 ← UpdateOtherBanksSameBankgroupTiming config a (other_banks_same_bankgroup tm) clk bs1;
       bs3 ← UpdateOtherBankgroupsSameRankTiming config a (other_bankgroups_same_rank tm) clk bs2;
       bs4 ← UpdateOtherRanksTiming config a (other_ranks tm) clk bs3;
       Ok (st1 {{ bank_states_ := bs4 }}))) as ->.
    { unfold ChannelState_UpdateTiming, IsRankCMD in *. destruct (cmd_type cmd); done. }
    rewrite E1. simpl. rewrite F1. simpl. rewrite F2. simpl.
    unfold UpdateOtherBankgroupsSameRankTiming. rewrite F3. simpl. by rewrite F4.
  - destruct L1 as (La & Lb & Lc & Ld & Le & Lf). destruct st1. cbn in *.
    unfold chan_le. cbn. split_and!; try done.
    etrans; [exact La|]. etrans; [exact M1|]. etrans; [exact M2|]. by etrans.
  - intros r j k Hrjk. replace (bank_states_ (st1 {{ bank_states_ := b4 }})) with b4
      by by destruct st1.
    unfold expected_delays. rewrite Hrk. fold tm.
    destruct (Z.eqb_spec r (Rank cmd)) as [->|]; simpl; [|by apply T4].
    destruct (Z.eqb_spec j (Bankgroup cmd)) as [->|]; simpl.
    + destruct (Z.eqb_spec k (Bank cmd)) as [->|]; simpl.
      * eapply grid_delayed_le; [done | exact T1 |]. etrans; [exact M2|]. by etrans.
      * eapply grid_delayed_le; [done | by apply T2 |]. by etrans.
    + eapply grid_delayed_le; [done | | exact M4]. apply T3; [done|].
      by apply Z.eqb_neq.
Qed.

(** The timing update of a rank command. *)
Lemma UpdateTiming_rank st cmd clk :
  chan_wf st → IsRankCMD cmd = true → cmd_in_grid cmd →
  ∃ st', ChannelState_UpdateTiming config cmd clk st = Ok st' ∧ chan_le st st' ∧
    ∀ r j k, in_grid r j k →
      grid_delayed r j k (expected_delays cmd r j k) clk (bank_states_ st').
Proof.
  intros Hwf Hrk Hin. unfold cmd_in_grid in Hin. rewrite Hrk in Hin.
  pose proof (timing_rows_valid config (cmd_type cmd)) as (_ & _ & _ & _ & V).
  destruct (row_update_rank (Rank cmd) (same_rank (timing_ config (cmd_type cmd))) clk
    (bank_states_ st)) as (bs & E & L & T); [apply Hwf | done | done |].
  exists (st {{ bank_states_ := bs }}). split_and!.
  - unfold ChannelState_UpdateTiming, UpdateSameRankTiming.
    unfold IsRankCMD in Hrk. unfold Rank in E.
    destruct (cmd_type cmd); try discriminate; simpl in *; by rewrite E.
  - destruct st. unfold chan_le. cbn in *. by split_and!.
  - intros r j k Hrjk. replace (bank_states_ (st {{ bank_states_ := bs }})) with bs
      by by destruct st.
    unfold expected_delays. rewrite Hrk.
    destruct (Z.eqb_spec r (Rank cmd)) as [->|]; [by apply T|].
    destruct (cw_grid _ Hwf r j k Hrjk) as (b & Hb & Wb).
    destruct (L _ _ _ _ Hb) as (b' & Hb' & Lb). exists b'. split; [done|].
    split; [by apply Lb|]. intros ? ? []%elem_of_nil.
Qed.

Lemma UpdateTiming_ok st cmd clk :
  chan_wf st → cmd_type cmd ≠ SIZE → cmd_in_grid cmd →
  ∃ st', ChannelState_UpdateTiming config cmd clk st = Ok st' ∧ chan_le st st' ∧
    ∀ r j k, in_grid r j k →
      grid_delayed r j k (expected_delays cmd r j k) clk (bank_states_ st').
Proof.
  intros. destruct (IsRankCMD cmd) eqn:?;
    [by apply UpdateTiming_rank | by apply UpdateTiming_bank].
Qed.
(** ** Applying a command to the banks *)

Lemma NoDup_rank_coords : NoDup (rank_coords config).
Proof.
  unfold rank_coords. apply NoDup_bind; [| |apply NoDup_seqZ].
  - intros j j' [a b] _ _ (k & Hk & _)%list_elem_of_bind (k' & Hk' & _)%list_elem_of_bind.
    apply list_elem_of_singleton in Hk, Hk'. by simplify_eq.
  - intros j _. apply NoDup_bind; [| |apply NoDup_seqZ].
    + intros k k' [a b] _ _ Hk Hk'. apply list_elem_of_singleton in Hk, Hk'. by simplify_eq.
    + intros k _. apply NoDup_singleton.
Qed.

(** Updating a set of banks of rank [r] one after the other. *)
Lemma for_each_bank_upd r f (l : list (Z * Z)) bs :
  NoDup l → (∀ j k, (j, k) ∈ l → ∃ b b', bank_at bs r j k = Ok b ∧ f b = Ok b') →
  ∃ bs', for_each l (λ '(j, k), bank_upd r j k f) bs = Ok bs' ∧
    ∀ r' j' k', bank_at bs' r' j' k' =
      if decide (r' = r ∧ (j', k') ∈ l) then bank_at bs r' j' k' ≫= f
      else bank_at bs r' j' k'.
Proof.
  intros Hnd. revert bs. induction Hnd as [|[j k] l Hjk Hnd IH]; intros bs Hf.
  { exists bs. split; [done|]. intros. rewrite decide_False; [done|]. set_solver. }
  destruct (Hf j k) as (b & b' & Hb & Hb'); [set_solver|].
  destruct (bank_upd_spec bs r j k f b b' Hb Hb') as (bs1 & E1 & S1).
  destruct (IH bs1) as (bs2 & E2 & S2).
  { intros j1 k1 H1. destruct (Hf j1 k1) as (b1 & b1' & ? & ?); [set_solver|].
    exists b1, b1'. rewrite S1, decide_False; [done|]. intros (_ & -> & ->). done. }
  exists bs2. simpl. rewrite E1. split; [exact E2|]. intros r' j' k'. rewrite S2, S1.
  destruct (decide (r' = r ∧ j' = j ∧ k' = k)) as [(-> & -> & ->)|N].
  - rewrite decide_False by naive_solver. rewrite decide_True by set_solver.
    rewrite Hb. simpl. by rewrite Hb'.
  - destruct (decide (r' = r ∧ (j', k') ∈ l)) as [D|D].
    + rewrite decide_True by set_solver. done.
    + rewrite decide_False; [done|]. rewrite elem_of_cons. naive_solver.
Qed.

Lemma bank_update_sref b c b' :
  BankState_UpdateState b c = Ok b' →
  if IsRankCMD c then state_ b' = SREF ↔ cmd_type c = SREF_ENTER
  else state_ b ≠ SREF ∧ state_ b' ≠ SREF.
Proof.
  unfold BankState_UpdateState, IsRankCMD. intros H.
  destruct (state_ b) eqn:E, (cmd_type c) eqn:E'; try discriminate; inv_res H;
    injection H as <-; simpl; rewrite ?E; naive_solver.
Qed.

(** A bank command on a bank that accepts it. *)
Lemma UpdateState_bank st c b b' :
  chan_wf st → IsRankCMD c = false → in_grid (Rank c) (Bankgroup c) (Bank c) →
  bank_at (bank_states_ st) (Rank c) (Bankgroup c) (Bank c) = Ok b → bank_wf b →
  BankState_UpdateState b c = Ok b' →
  ∃ st', ChannelState_UpdateState config c st = Ok st' ∧ chan_wf st'.
Proof.
  intros [Hb Hp Hg Hs Hf H32 Hsr] Hrk Hin Hat Wb Hu.
  pose proof (bank_update_sref _ _ _ Hu) as Hns. rewrite Hrk in Hns. destruct Hns as [N N'].
  destruct (bank_upd_spec (bank_states_ st) (Rank c) (Bankgroup c) (Bank c)
    (λ b, BankState_UpdateState b c) b b' Hat Hu) as (bs & E & S).
  assert (∃ st', ChannelState_UpdateState config c st = Ok st' ∧
    bank_states_ st' = bs ∧ rank_is_sref_ st' = rank_is_sref_ st ∧
    four_aw_ st' = four_aw_ st ∧ thirty_two_aw_ st' = thirty_two_aw_ st)
    as (st' & E' & Eb & Es & Ef & E3).
  { unfold ChannelState_UpdateState. rewrite Hrk, E. simpl.
    destruct (IsRefresh c); eexists; (split; [done|]); by destruct st. }
  exists st'. split; [done|]. split; rewrite ?Eb, ?Es, ?Ef, ?E3; try done.
  - intros r j k Hrjk. rewrite S. case_decide; [|by apply Hg].
    exists b'. split; [done|]. by eapply UpdateState_wf.
  - intros r j k b1 s Hrjk H1 Hv. rewrite S in H1. case_decide as D; [|by eapply Hsr].
    destruct D as (-> & -> & ->). simplify_eq.
    pose proof (Hsr _ _ _ _ _ Hrjk Hat Hv). naive_solver.
Qed.

(** A rank command on a rank whose banks all accept it. *)
Lemma UpdateState_rank st c :
  chan_wf st → IsRankCMD c = true → 0 ≤ Rank c < ranks (sizep config) →
  (∀ j k b, in_grid (Rank c) j k → bank_at (bank_states_ st) (Rank c) j k = Ok b →
     ∃ b', BankState_UpdateState b c = Ok b') →
  ∃ st', ChannelState_UpdateState config c st = Ok st' ∧ chan_wf st'.
Proof.
  intros [Hb Hp Hg Hs Hf H32 Hsr] Hrk Hr Hall.
  destruct (for_each_bank_upd (Rank c) (λ b, BankState_UpdateState b c) (rank_coords config)
    (bank_states_ st)) as (bs & E & S); [apply NoDup_rank_coords| |].
  { intros j k Hjk%rank_coords_in. destruct (Hg (Rank c) j k) as (b & Hat & _);
      [unfold in_grid; lia|]. destruct (Hall j k b) as [b' Hb']; [unfold in_grid; lia | done|].
    eauto. }
  set (flag := bool_decide (cmd_type c = SREF_ENTER)).
  assert (∃ st', ChannelState_UpdateState config c st = Ok st' ∧
    bank_states_ st' = bs ∧
    (∀ r, vget (rank_is_sref_ st') r =
       if decide (cmd_type c ≠ REFRESH ∧ r = Rank c) then Ok flag
       else vget (rank_is_sref_ st) r) ∧
    vsize (rank_is_sref_ st') = vsize (rank_is_sref_ st) ∧
    four_aw_ st' = four_aw_ st ∧ thirty_two_aw_ st' = thirty_two_aw_ st)
    as (st' & E' & Eb & Es & El & Ef & E3).
  { unfold ChannelState_UpdateState. rewrite Hrk, E. simpl. unfold flag. clear -Hrk Hr Hs.
    destruct st. cbn in *. unfold IsRankCMD, IsRefresh in *.
    destruct (cmd_type c) eqn:Ec; try discriminate Hrk; cbn.
    - eexists. split; [done|]. cbn. split_and!; try done.
    - rewrite !vset_Ok by lia. eexists. split; [done|]. cbn. rewrite vsize_insert.
      split_and!; try done. intros r. rewrite vget_insert by lia.
      repeat case_decide; try done; naive_solver.
    - rewrite !vset_Ok by lia. eexists. split; [done|]. cbn. rewrite vsize_insert.
      split_and!; try done. intros r. rewrite vget_insert by lia.
      repeat case_decide; try done; naive_solver. }
  exists st'. split; [done|]. split; rewrite ?Eb, ?El, ?Ef, ?E3; try done.
  - intros r j k Hrjk. rewrite S. destruct (Hg r j k Hrjk) as (b & Hat & Wb).
    destruct (decide (r = Rank c ∧ (j, k) ∈ rank_coords config)) as [D|D]; [|by exists b]. destruct D as [-> _]. rewrite Hat. simpl.
    destruct (Hall j k b Hrjk Hat) as [b' Hb']. exists b'. split; [done|].
    by eapply UpdateState_wf.
  - intros r j k b s Hrjk H1 Hv. rewrite S in H1. rewrite Es in Hv.
    assert ((j, k) ∈ rank_coords config) as Hjk
      by (apply rank_coords_in; unfold in_grid in Hrjk; lia).
    destruct (decide (r = Rank c)) as [->|Nr]; [|].
    + rewrite decide_True in H1 by done. inv_res H1.
      pose proof (bank_update_sref _ _ _ H1) as Hsf. rewrite Hrk in Hsf.
      destruct (decide (cmd_type c = REFRESH)) as [Hc|Hc].
      * rewrite decide_False in Hv by naive_solver.
        unfold BankState_UpdateState in H1. rewrite Hc in H1.
        destruct (state_ v) eqn:?; simplify_eq. by eapply Hsr.
      * rewrite decide_True in Hv by done. simplify_eq.
        rewrite bool_decide_eq_true. naive_solver.
    + rewrite decide_False in H1 by naive_solver. rewrite decide_False in Hv by naive_solver.
      by eapply Hsr.
Qed.

(** ** The initial channel *)

Lemma vget_replicate {A} n (x y : A) i :
  vget (replicate n x) i = Ok y → y = x.
Proof. intros [_ [H _]%lookup_replicate]%vget_lookup. done. Qed.

Lemma vget_replicate_Ok {A} n (x : A) i :
  0 ≤ i < Z.of_nat n → vget (replicate n x) i = Ok x.
Proof. intros. apply vget_lookup. split; [lia|]. apply lookup_replicate_2. lia. Qed.

Lemma new_bank_at r j k b :
  bank_at (bank_states_ (new_ChannelState config)) r j k = Ok b → b = new_BankState.
Proof.
  unfold bank_at. simpl. intros H. inv_res H.
  apply vget_replicate in H0. subst. apply vget_replicate in H1. subst.
  by apply vget_replicate in H.
Qed.

Lemma new_bank_at_Ok r j k :
  in_grid r j k →
  bank_at (bank_states_ (new_ChannelState config)) r j k = Ok new_BankState.
Proof.
  intros (? & ? & ?). unfold bank_at. simpl. unfold nranks.
  do 3 (rewrite vget_replicate_Ok by lia; simpl). done.
Qed.

Lemma new_ChannelState_wf :
  banks (dramp config) = bankgroups (dramp config) * banks_per_group (dramp config) →
  0 < bankgroups (dramp config) → 0 < banks_per_group (dramp config) →
  chan_wf (new_ChannelState config) ∧ hits_bounded (new_ChannelState config).
Proof.
  intros Hb Hg Hp. split; [split; try done|].
  - intros r j k Hin. exists new_BankState. split; [by apply new_bank_at_Ok|].
    apply new_BankState_wf.
  - unfold vsize, nranks. simpl. rewrite length_replicate. unfold nranks. lia.
  - unfold vsize, nranks. simpl. rewrite length_replicate. unfold nranks. lia.
  - unfold vsize, nranks. simpl. rewrite length_replicate. unfold nranks. lia.
  - intros r j k b s _ ->%new_bank_at Hs. apply vget_replicate in Hs. by subst.
  - intros r j k b _ ->%new_bank_at. simpl. lia.
Qed.

(** A pass over other coordinates leaves a bank alone. *)
Definition same_at (r j k : Z) (bs bs' : grid) : Prop := bank_at bs' r j k = bank_at bs r j k.

#[global] Instance same_at_preorder r j k : PreOrder (same_at r j k).
Proof. split; [done|]. intros ??? H1 H2. unfold same_at in *. congruence. Qed.

Lemma bank_upd_other r j k f bs bs' r' j' k' :
  bank_upd r' j' k' f bs = Ok bs' → ¬ (r = r' ∧ j = j' ∧ k = k') → same_at r j k bs bs'.
Proof.
  unfold bank_upd, same_at. intros H Hne. inv_res H.
  destruct (bank_put_spec bs r' j' k' v v0 H0) as (bs1 & E & Hs). rewrite E in H.
  injection H as <-. rewrite Hs. by rewrite decide_False.
Qed.

(** Only [same_bank] reaches the bank a bank command is addressed to. *)
Lemma UpdateTiming_target st st' cmd clk :
  IsRankCMD cmd = false → cmd_type cmd ≠ ACTIVATE →
  ChannelState_UpdateTiming config cmd clk st = Ok st' →
  ∃ bs, UpdateSameBankTiming (addr cmd) (same_bank (timing_ config (cmd_type cmd))) clk
          (bank_states_ st) = Ok bs ∧
    same_at (Rank cmd) (Bankgroup cmd) (Bank cmd) bs (bank_states_ st').
Proof.
  intros Hrk Ha H. unfold ChannelState_UpdateTiming, IsRankCMD in *.
  rewrite bool_decide_eq_false_2 in H by done.
  set (R := same_at (Rank cmd) (Bankgroup cmd) (Bank cmd)).
  assert (∃ bs1 bs2 bs3 bs4,
    UpdateSameBankTiming (addr cmd) (same_bank (timing_ config (cmd_type cmd))) clk
      (bank_states_ st) = Ok bs1 ∧
    UpdateOtherBanksSameBankgroupTiming config (addr cmd)
      (other_banks_same_bankgroup (timing_ config (cmd_type cmd))) clk bs1 = Ok bs2 ∧
    UpdateOtherBankgroupsSameRankTiming config (addr cmd)
      (other_bankgroups_same_rank (timing_ config (cmd_type cmd))) clk bs2 = Ok bs3 ∧
    UpdateOtherRanksTiming config (addr cmd)
      (other_ranks (timing_ config (cmd_type cmd))) clk bs3 = Ok bs4 ∧
    st' = st {{ bank_states_ := bs4 }}) as (b1 & b2 & b3 & b4 & E1 & E2 & E3 & E4 & ->).
  { destruct (cmd_type cmd); try done; inv_res H; injection H0 as <-; injection H as <-;
      do 4 eexists; split_and!; eauto. }
  exists b1. split; [done|]. replace (bank_states_ (st {{ bank_states_ := b4 }})) with b4
    by by destruct st.
  transitivity b2; [|transitivity b3].
  - eapply (for_each_rel R); [|exact E2]. intros k s1 s2 _ Hk. cbn beta in Hk.
    destruct (Z.eqb_spec k (bank (addr cmd))); [by injection Hk as <-|].
    eapply bank_upd_other; [exact Hk|]. unfold Bank. naive_solver.
  - eapply (for_each_rel R); [|exact E3]. intros [j k] s1 s2 _ Hk. cbn beta iota in Hk.
    destruct (Z.eqb_spec j (bankgroup (addr cmd))); [by injection Hk as <-|].
    eapply bank_upd_other; [exact Hk|]. unfold Bankgroup. naive_solver.
  - eapply (for_each_rel R); [|exact E4]. intros r s1 s2 _ Hr. cbn beta in Hr.
    destruct (Z.eqb_spec r (rank (addr cmd))); [by injection Hr as <-|].
    eapply (for_each_rel R); [|exact Hr]. intros [j k] s3 s4 _ Hk. cbn beta iota in Hk.
    eapply bank_upd_other; [exact Hk|]. unfold Rank. naive_solver.
Qed.
End GridLemmas.
