(* ===== verification/ChannelProps.v ===== *)
(** * Properties of a DRAM channel (DRAMsim3/src/channel_state.cc)

    The command protocol of [ChannelState]: [GetReadyCommand] followed by
    [UpdateTimingAndStates].  The theorems: a ready command is always
    accepted, keeps the channel well-formed and leaves on every bank the
    delays of the timing table, but for those of a per-bank refresh within its
    rank, which are not imposed; in any run that serves requests no rank sees
    five activations in a tFAW window, nor, for GDDR, thirty-three in a t32AW
    window; a wake-up request to a rank aborts; a per-bank refresh puts no
    delay on the bank it refreshes. *)

From Stdlib Require Import Sorted.
From S2P Require Import Prelude DramCommon DramConfig BankState Timing ChannelState.

Open Scope Z_scope.

(** The channel at work: it is asked for a ready command for each request, at its time,
    and the command it returns, when it is valid, is applied.  The result has the commands
    issued, each with its time. *)
Fixpoint serve (config : Config) (l : list (Command * Z)) (st : ChannelState)
    : res (list (Command * Z) * ChannelState) :=
  match l with
  | [] => Ok ([], st)
  | (cmd, clk) :: l' =>
      r ← ChannelState_GetReadyCommand config st cmd clk;
      if IsValid r then
        st ← UpdateTimingAndStates config r clk st;
        '(log, st) ← serve config l' st;
        Ok ((r, clk) :: log, st)
      else serve config l' st
  end.

(** The activations among the commands issued: pairs of a rank and a time. *)
Definition acts (log : list (Command * Z)) : list (Z * Z) :=
  omap (λ p, if bool_decide (cmd_type p.1 = ACTIVATE) then Some (Rank p.1, p.2) else None) log.

(** The activation times of one rank. *)
Definition times_of (r : Z) (l : list (Z * Z)) : list Z := (filter (λ p, p.1 = r) l).*2.

(** Times never decrease and stay away from the wrap-around. *)
Definition monotone_times (l : list Z) (w : Z) : Prop :=
  StronglySorted Z.le l ∧ Forall (λ t, 0 ≤ t ∧ t + w < 2 ^ 64) l.

(** Any [n + 1] successive times span at least [w]. *)
Definition spaced (n : nat) (w : Z) (h : list Z) : Prop :=
  ∀ i a b, h !! i = Some a → h !! (i + n)%nat = Some b → a + w ≤ b.

Section Props.
Variable config : Config.

(** ** The scan over the banks of a rank *)

Lemma rank_scan_inr bs cmd clk l n rc0 m rc :
  rank_scan bs cmd clk l n rc0 = Ok (inr (m, rc)) →
  m ≤ n + Z.of_nat (length l) ∧
  (m = n + Z.of_nat (length l) →
   (∀ j k, (j, k) ∈ l → ∃ b rc', bank_at bs (Rank cmd) j k = Ok b ∧
      BankState_GetReadyCommand b cmd clk = Ok rc' ∧ IsValid rc' = true ∧
      cmd_type rc' = cmd_type cmd) ∧
   (l ≠ [] → cmd_type rc = cmd_type cmd ∧ addr rc = addr cmd)).
Proof.
  revert n rc0. induction l as [|[j k] l IH]; intros n rc0 H; simpl in H.
  { simplify_eq. simpl. split; [lia|]. intros _. split; [set_solver | done]. }
  inv_res H. destruct (IsValid v0) eqn:Hv; simpl in H.
  - case_bool_decide as Hne; [done|].
    destruct (IH _ _ H) as [Hm Hall]. simpl. split; [lia|]. intros Em.
    destruct Hall as [Hin Hl]; [lia|]. split.
    + intros j' k' [[= -> ->]|Hjk]%elem_of_cons; [by exists v, v0 | by apply Hin].
    + intros _. destruct l as [|p l]; [|by apply Hl].
      simpl in H. simplify_eq.
      destruct (GetReadyCommand_inv _ _ _ _ H1 Hv) as (_ & Ha & _). by rewrite Ha.
  - destruct (IH _ _ H) as [Hm _]. simpl. split; lia.
Qed.

Lemma rank_scan_inl bs cmd clk l n rc0 rc :
  rank_scan bs cmd clk l n rc0 = Ok (inl rc) →
  ∃ j k b rc', (j, k) ∈ l ∧ bank_at bs (Rank cmd) j k = Ok b ∧
    BankState_GetReadyCommand b cmd clk = Ok rc' ∧ IsValid rc' = true ∧
    cmd_type rc' ≠ cmd_type cmd ∧
    cmd_type rc = cmd_type rc' ∧ addr rc = mkAddress (-1) (Rank cmd) j k (-1) (-1).
Proof.
  revert n rc0. induction l as [|[j k] l IH]; intros n rc0 H; simpl in H; [done|].
  inv_res H. destruct (IsValid v0) eqn:Hv; simpl in H.
  - case_bool_decide as Hne.
    + simplify_eq/=. exists j, k, v, v0. split_and!; done || set_solver.
    + destruct (IH _ _ H) as (j' & k' & b & rc' & Hin & ?). exists j', k', b, rc'.
      split; [set_solver | done].
  - destruct (IH _ _ H) as (j' & k' & b & rc' & Hin & ?). exists j', k', b, rc'.
    split; [set_solver | done].
Qed.

(** The legality of an applied command only depends on its type, except for
    the row of an activation. *)
Lemma UpdateState_type b c c' :
  cmd_type c' = cmd_type c → (∃ b', BankState_UpdateState b c = Ok b') →
  ∃ b', BankState_UpdateState b c' = Ok b'.
Proof.
  intros Ht [b' H]. unfold BankState_UpdateState in *. rewrite Ht.
  destruct (state_ b), (cmd_type c); try discriminate; inv_res H; rewrite ?H0; simpl; eauto.
Qed.

(** What the chooser can ask for, by request. *)
Lemma required_type_rank b cmd t :
  IsRankCMD cmd = true → required_type b cmd = Ok t → t = cmd_type cmd ∨ t = PRECHARGE.
Proof.
  unfold required_type, IsRankCMD.
  destruct (state_ b), (cmd_type cmd); naive_solver.
Qed.

Lemma required_type_bank b cmd t :
  IsRankCMD cmd = false → required_type b cmd = Ok t →
  t ≠ SIZE ∧
  ((∀ a h, IsRankCMD (mkCommand t a h) = false) ∨ (t = SREF_EXIT ∧ state_ b = SREF)).
Proof.
  unfold required_type, IsRankCMD.
  destruct (state_ b), (cmd_type cmd); try case_match; naive_solver.
Qed.

(** A valid bank command can be applied. *)
Lemma apply_bank_command st c b rc clk :
  chan_wf config st → hits_bounded config st → IsRankCMD c = false →
  in_grid config (Rank c) (Bankgroup c) (Bank c) →
  bank_at (bank_states_ st) (Rank c) (Bankgroup c) (Bank c) = Ok b →
  BankState_GetReadyCommand b rc clk = Ok c ∨
    (∃ c', BankState_GetReadyCommand b rc clk = Ok c' ∧ cmd_type c = cmd_type c') →
  IsValid c = true →
  ∃ st', ChannelState_UpdateState config c st = Ok st' ∧ chan_wf config st'.
Proof.
  intros Hwf Hh Hrk Hin Hat Hg Hv.
  destruct (cw_grid _ _ Hwf _ _ _ Hin) as (b1 & Hb1 & Wb). rewrite Hat in Hb1. simplify_eq.
  assert (∃ c', BankState_GetReadyCommand b1 rc clk = Ok c' ∧ cmd_type c = cmd_type c')
    as (c' & Hg' & Hc') by naive_solver.
  assert (IsValid c' = true) as Hv' by (unfold IsValid in *; by rewrite <- Hc').
  destruct (GetReadyCommand_legal b1 rc clk c' Wb (Hh _ _ _ _ Hin Hat) Hg' Hv') as [b' Hb'].
  destruct (UpdateState_type b1 c' c Hc' (ex_intro _ b' Hb')) as [b2 Hb2].
  by eapply UpdateState_bank.
Qed.

(** A ready rank command: either a precharge of one bank, or the command
    itself, and then every bank of the rank takes it. *)
Lemma apply_rank_scan st cmd clk r :
  chan_wf config st → hits_bounded config st → IsRankCMD cmd = true →
  0 ≤ Rank cmd < ranks (sizep config) →
  ChannelState_GetReadyCommand config st cmd clk = Ok r → IsValid r = true →
  cmd_in_grid config r ∧
  ∃ st', ChannelState_UpdateState config r st = Ok st' ∧ chan_wf config st'.
Proof.
  intros Hwf Hh Hrk Hr Hg Hv. unfold ChannelState_GetReadyCommand in Hg. rewrite Hrk in Hg.
  inv_res Hg. destruct v as [rc|[m rc]].
  - injection Hg as <-. apply rank_scan_inl in Hg0
      as (j & k & b & rc' & Hin & Hat & Hrc & Hv' & Hne & Ht & Ha).
    apply rank_coords_in in Hin.
    destruct (GetReadyCommand_inv _ _ _ _ Hrc Hv') as (Hq & _).
    destruct (required_type_rank b cmd _ Hrk Hq) as [?|Hp]; [done|].
    assert (IsRankCMD rc = false) as Hrk' by (unfold IsRankCMD; by rewrite Ht, Hp).
    assert (in_grid config (Rank rc) (Bankgroup rc) (Bank rc)) as Hin'
      by (unfold in_grid, Rank, Bankgroup, Bank; rewrite Ha; simpl; fold (Rank cmd); lia).
    split; [unfold cmd_in_grid; by rewrite Hrk'|].
    apply (apply_bank_command st rc b cmd clk); try done; [|by eauto].
    unfold Rank, Bankgroup, Bank. by rewrite Ha.
  - destruct (Z.eqb_spec m (banks (dramp config))) as [Em|];
      [injection Hg as <- | by simplify_eq].
    apply rank_scan_inr in Hg0 as [Hle Hall].
    rewrite length_rank_coords in Hall. destruct (cw_pos _ _ Hwf).
    destruct Hall as [Hall Hrc]; [rewrite Em, (cw_banks _ _ Hwf); lia|].
    destruct Hrc as [Ht Ha].
    { intros Hnil. pose proof length_rank_coords config as Hl. rewrite Hnil in Hl. simpl in Hl. lia. }
    assert (IsRankCMD rc = true) as Hrk' by (unfold IsRankCMD in *; by rewrite Ht).
    assert (Rank rc = Rank cmd) as Er by (unfold Rank; by rewrite Ha).
    split; [unfold cmd_in_grid; rewrite Hrk'; lia|].
    apply UpdateState_rank; [done..|lia|]. rewrite Er. intros j k b Hin Hat.
    destruct (Hall j k) as (b1 & rc' & Hat' & Hg' & Hv' & Ht');
      [apply rank_coords_in; unfold in_grid in Hin; lia|].
    rewrite Hat in Hat'. simplify_eq.
    destruct (cw_grid _ _ Hwf _ _ _ Hin) as (b2 & Hb2 & Wb). rewrite Hat in Hb2. simplify_eq.
    apply (UpdateState_type b2 rc'); [congruence|].
    eapply GetReadyCommand_legal; eauto.
Qed.

(** A ready bank command: a command to the bank, or the wake-up of its rank. *)
Lemma apply_bank_ready st cmd clk r :
  chan_wf config st → hits_bounded config st → IsRankCMD cmd = false →
  in_grid config (Rank cmd) (Bankgroup cmd) (Bank cmd) →
  ChannelState_GetReadyCommand config st cmd clk = Ok r → IsValid r = true →
  cmd_in_grid config r ∧
  ∃ st', ChannelState_UpdateState config r st = Ok st' ∧ chan_wf config st'.
Proof.
  intros Hwf Hh Hrk Hin Hg Hv. unfold ChannelState_GetReadyCommand in Hg. rewrite Hrk in Hg.
  inv_res Hg.
  assert (v0 = r ∧ IsValid v0 = true) as [-> _].
  { destruct (IsValid v0) eqn:Hv0; simpl in Hg; [|by simplify_eq].
    case_bool_decide; [|by simplify_eq]. inv_res Hg. simpl in Hg; by destruct v1; simplify_eq/=. }
  destruct (GetReadyCommand_inv _ _ _ _ Hg1 Hv) as (Hq & Ha & Hx & _).
  assert (Rank r = Rank cmd ∧ Bankgroup r = Bankgroup cmd ∧ Bank r = Bank cmd)
    as (Er & Eg & Eb) by (unfold Rank, Bankgroup, Bank; by rewrite Ha).
  destruct (required_type_bank _ _ _ Hrk Hq) as [_ [Hbank|[Hx1 Hs]]].
  - assert (IsRankCMD r = false) as Hrk' by (destruct r; apply Hbank).
    split; [unfold cmd_in_grid; by rewrite Hrk', Er, Eg, Eb|].
    apply (apply_bank_command st r v cmd clk); rewrite ?Er, ?Eg, ?Eb; try done. by left.
  - assert (IsRankCMD r = true) as Hrk' by (unfold IsRankCMD; by rewrite Hx1).
    assert (0 ≤ Rank r < ranks (sizep config)) as Hr by (rewrite Er; apply Hin).
    split; [unfold cmd_in_grid; by rewrite Hrk'|].
    apply UpdateState_rank; [done..|]. rewrite Er. intros j k b Hjk Hat.
    destruct (vget_is_Ok (rank_is_sref_ st) (Rank cmd)) as [s Hsv];
      [rewrite (cw_sref_len _ _ Hwf); lia|].
    pose proof (cw_sref _ _ Hwf _ _ _ _ _ Hin Hg0 Hsv) as [_ Hs1].
    pose proof (cw_sref _ _ Hwf _ _ _ _ _ Hjk Hat Hsv) as [Hs2 _].
    unfold BankState_UpdateState. rewrite Hs2 by auto. rewrite Hx1. eauto.
Qed.

Lemma apply_ready st cmd clk r :
  chan_wf config st → hits_bounded config st → cmd_in_grid config cmd →
  ChannelState_GetReadyCommand config st cmd clk = Ok r → IsValid r = true →
  cmd_in_grid config r ∧
  ∃ st', ChannelState_UpdateState config r st = Ok st' ∧ chan_wf config st'.
Proof.
  unfold cmd_in_grid at 1. intros Hwf Hh Hin. destruct (IsRankCMD cmd) eqn:Hrk.
  - by apply apply_rank_scan.
  - by apply apply_bank_ready.
Qed.

Lemma IsValid_type c : IsValid c = true → cmd_type c ≠ SIZE.
Proof. unfold IsValid. by intros H%bool_decide_eq_true. Qed.

(** ** The activation windows *)

(** What a window holds after the activations [h] of its rank. *)
Definition window_inv (n : nat) (w : Z) (h aw : list Z) : Prop :=
  ∃ d s, h = d ++ s ∧ aw = (λ t, t + w) <$> s ∧ (length s ≤ n)%nat ∧
    ∀ x y, x ∈ d → last h = Some y → x + w ≤ y.

Lemma window_step n w h aw t :
  (0 < n)%nat → window_inv n w h aw → spaced n w h → 0 ≤ t + w < 2 ^ 64 →
  (∀ x, x ∈ h → x ≤ t) → aw_ready n aw t = true →
  window_inv n w (h ++ [t]) (aw_push w aw t) ∧ spaced n w (h ++ [t]).
Proof.
  intros Hn (d & s & Eh & Ea & Hl & Hd) Hsp Ht Hle Hr.
  assert (∀ x, x ∈ d → x + w ≤ t) as Hdt.
  { intros x Hx. destruct (last h) as [y|] eqn:Hy.
    - specialize (Hd x y Hx eq_refl). pose proof (Hle y (last_Some_elem_of _ _ Hy)). lia.
    - apply last_None in Hy. subst h. destruct d; set_solver. }
  assert (∀ t0 s', s = t0 :: s' → length s = n → t0 + w ≤ t) as Hfull.
  { intros t0 s' -> Hlen. subst aw. simpl in Hr. rewrite length_fmap in Hr.
    destruct (Z.ltb_spec t (t0 + w)); [|done]. simpl in Hr.
    destruct (Nat.leb_spec n (S (length s'))); simpl in *; [done | lia]. }
  split.
  - destruct s as [|t0 s'].
    + exists d, [t]. subst. simpl. rewrite u64_small by done. rewrite app_nil_r in *.
      do 3 (split; [done || lia|]). intros x y Hx. rewrite last_snoc. intros [= <-]. auto.
    + subst aw. simpl. rewrite u64_small by done. destruct (Z.leb_spec (t0 + w) t).
      * exists (d ++ [t0]), (s' ++ [t]). subst h. rewrite <- !app_assoc. simpl.
        rewrite fmap_app, length_app. simpl in *. do 3 (split; [done || lia|]).
        intros x y Hx. rewrite app_comm_cons, app_assoc, last_snoc. intros [= <-].
        apply elem_of_app in Hx as [?| ->%list_elem_of_singleton]; auto.
      * exists d, ((t0 :: s') ++ [t]). subst h. rewrite <- app_assoc. rewrite fmap_app.
        rewrite length_app. simpl in *. do 2 (split; [done|]). split.
        { destruct (decide (S (length s') = n)) as [E|]; [|lia].
          specialize (Hfull _ _ eq_refl E). lia. }
        intros x y Hx. rewrite app_comm_cons, app_assoc, last_snoc. intros [= <-]. auto.
  - intros i a b Ha Hb. destruct (decide ((i + n < length h)%nat)) as [Hi|Hi].
    { rewrite lookup_app_l in Ha, Hb by lia. by eapply Hsp. }
    assert (i + n = length h)%nat as Ei.
    { apply lookup_lt_Some in Hb. rewrite length_app in Hb. simpl in Hb. lia. }
    rewrite Ei, lookup_app_r, Nat.sub_diag in Hb by lia. injection Hb as <-.
    rewrite lookup_app_l in Ha by lia. subst h. rewrite length_app in Ei.
    destruct (decide ((i < length d)%nat)) as [Hid|Hid].
    + rewrite lookup_app_l in Ha by done. apply Hdt. by eapply list_elem_of_lookup_2.
    + rewrite lookup_app_r in Ha by lia. assert (length s = n) as El by lia.
      replace (i - length d)%nat with 0%nat in Ha by lia.
      destruct s as [|t0 s']; [done|]. injection Ha as <-. by eapply Hfull.
Qed.

Lemma times_of_snoc r l r' t :
  times_of r (l ++ [(r', t)]) = if decide (r' = r) then times_of r l ++ [t] else times_of r l.
Proof.
  unfold times_of. rewrite filter_app, fmap_app. rewrite filter_cons, filter_nil. simpl.
  case_decide; simpl; [done | by rewrite app_nil_r].
Qed.

Lemma times_of_in r l t : t ∈ times_of r l → t ∈ l.*2.
Proof.
  unfold times_of. rewrite !list_elem_of_fmap. intros ([r' t'] & -> & H).
  apply list_elem_of_filter in H as [_ H]. by exists (r', t').
Qed.

(** One rank's window after a run of activations. *)
Definition windows_ok (sel : ChannelState → list (list Z)) (n : nat) (w : Z)
    (st : ChannelState) (l : list (Z * Z)) : Prop :=
  ∀ r, 0 ≤ r < ranks (sizep config) →
    ∃ aw, vget (sel st) r = Ok aw ∧ window_inv n w (times_of r l) aw ∧ spaced n w (times_of r l).

Lemma monotone_sublist k l w : sublist k l → monotone_times l w → monotone_times k w.
Proof.
  induction 1 as [|x k l Hs IH|x k l Hs IH]; [done|..]; intros [H1 H2]; apply StronglySorted_inv in H1 as [H1 Hx];
    apply Forall_cons in H2 as [Hb H2]; destruct (IH (conj H1 H2)) as [I1 I2]; [|done].
  split; [|by apply Forall_cons]. apply SSorted_cons; [done|].
  rewrite Forall_forall in *. intros y Hy. apply Hx. by eapply elem_of_sublist.
Qed.

Lemma monotone_times_snoc l (r t : Z) w x :
  monotone_times (l ++ [(r, t)]).*2 w →
  0 ≤ t ∧ t + w < 2 ^ 64 ∧ (x ∈ times_of r l → x ≤ t).
Proof.
  rewrite fmap_app. intros [H1 H2]. apply Forall_app in H2 as [_ H2]. apply Forall_cons in H2 as [[H0 H2] _]. cbn in H0, H2.
  split; [done|]. split; [done|]. intros Hx%times_of_in. cbn in H1. clear -H1 Hx.
  induction (l.*2) as [|y q IH]; [set_solver|]. cbn in H1.
  apply StronglySorted_inv in H1 as [H Hy]. rewrite Forall_forall in Hy.
  apply elem_of_cons in Hx as [->|Hx]; [apply Hy; set_solver | auto].
Qed.

Lemma windows_new sel n w :
  sel (new_ChannelState config) = replicate (nranks config) [] → windows_ok sel n w (new_ChannelState config) [].
Proof.
  intros E r Hr. exists []. rewrite E. split_and!.
  - apply vget_lookup. split; [lia|]. apply lookup_replicate_2. unfold nranks. lia.
  - exists [], []. do 3 (split; [done || (simpl; lia)|]). set_solver.
  - intros i a b Ha. done.
Qed.

(** One guarded activation. *)
Lemma windows_step sel n w st st' l r t aw :
  (0 < n)%nat → 0 ≤ w → windows_ok sel n w st l → monotone_times (l ++ [(r, t)]).*2 w →
  vget (sel st) r = Ok aw → aw_ready n aw t = true →
  vset (sel st) r (aw_push w aw t) = Ok (sel st') →
  windows_ok sel n w st' (l ++ [(r, t)]).
Proof.
  intros Hn Hw Hok Hm Haw Hr Hs r' Hr'. apply vset_inv in Hs as [Hb Es].
  destruct (Hok r' Hr') as (aw' & Haw' & Hi & Hsp). rewrite Es, vget_insert by done.
  rewrite times_of_snoc. destruct (decide (r' = r)) as [->|Hne].
  - rewrite decide_True by done. rewrite Haw in Haw'. simplify_eq.
    exists (aw_push w aw' t). split; [done|].
    destruct (monotone_times_snoc _ _ _ _ 0 Hm) as (? & ? & _).
    apply window_step; try done; [lia|]. intros x Hx. by apply (monotone_times_snoc _ _ _ _ x Hm).
  - rewrite decide_False by done. eauto.
Qed.

(** The windows of both kinds. *)
Definition both_windows (st : ChannelState) (h : list (Z * Z)) : Prop :=
  windows_ok four_aw_ 4 (tFAW (timp config)) st h ∧
  (IsGDDR (dramp config) = true → windows_ok thirty_two_aw_ 32 (t32AW (timp config)) st h).

(** Nothing but activations touches the windows. *)
Definition same_windows (st st' : ChannelState) : Prop :=
  four_aw_ st' = four_aw_ st ∧ thirty_two_aw_ st' = thirty_two_aw_ st.

Lemma both_windows_same st st' h : same_windows st st' → both_windows st h → both_windows st' h.
Proof.
  intros [E1 E2] [H1 H2]. split; [|intros Hg]; intros r Hr; [rewrite E1; by apply H1 | rewrite E2; by apply (H2 Hg)].
Qed.

Lemma UpdateState_windows cmd st st' : ChannelState_UpdateState config cmd st = Ok st' → same_windows st st'.
Proof.
  unfold ChannelState_UpdateState, same_windows. intros E.
  destruct (IsRankCMD cmd); apply bind_Ok_inv in E as (bs & _ & E); destruct (IsRefresh cmd).
  - injection E as <-. by destruct st.
  - repeat case_bool_decide; try (apply bind_Ok_inv in E as (v & _ & E)); injection E as <-; by destruct st.
  - injection E as <-. by destruct st.
  - injection E as <-. by destruct st.
Qed.

Lemma UpdateTiming_windows cmd clk st st' :
  ChannelState_UpdateTiming config cmd clk st = Ok st' →
  ∃ st1, (if bool_decide (cmd_type cmd = ACTIVATE) then UpdateActivationTimes config (Rank cmd) clk st else Ok st) = Ok st1 ∧
    same_windows st1 st'.
Proof.
  unfold ChannelState_UpdateTiming. intros E. destruct (cmd_type cmd) eqn:Ht; try done;
    try (apply bind_Ok_inv in E as (st1 & E1 & E); exists st1; split; [exact E1|]; inv_res E; injection E as <-; by destruct st1).
  all: exists st; rewrite bool_decide_eq_false_2 by done; split; [done|]; inv_res E; injection E as <-; by destruct st.
Qed.

Lemma activation_step st st' h r t :
  0 ≤ tFAW (timp config) → 0 ≤ t32AW (timp config) →
  monotone_times (h ++ [(r, t)]).*2 (tFAW (timp config)) → monotone_times (h ++ [(r, t)]).*2 (t32AW (timp config)) →
  both_windows st h → ActivationWindowOk config st r t = Ok true → UpdateActivationTimes config r t st = Ok st' →
  both_windows st' (h ++ [(r, t)]).
Proof.
  intros Hw Hw32 Hm Hm32 [I4 I32] Hok Hup.
  unfold ActivationWindowOk in Hok. unfold UpdateActivationTimes in Hup.
  inv_res Hok. inv_res Hup. rewrite Hok0 in Hup0. simplify_eq. unfold both_windows.
  destruct (IsGDDR (dramp config)) eqn:Hgd.
  - destruct (aw_ready 4 _ t) eqn:Hr4; simpl in Hok; [|done]. inv_res Hok. inv_res Hup.
    rewrite Hok1 in Hup0. injection Hup0 as <-. injection Hok as Hr32.
    injection Hup as <-. split.
    + apply (windows_step four_aw_ 4 _ st _ _ _ _ v0); [lia|by auto..|].
      rewrite Hup1. by destruct st.
    + intros _. apply (windows_step thirty_two_aw_ 32 _ st _ _ _ _ v); [lia|by auto..|].
      rewrite Hup2. by destruct st.
  - injection Hok as Hok. injection Hup as <-. split; [|done].
    apply (windows_step four_aw_ 4 _ st _ _ _ _ v0); [lia|by auto..|]. rewrite Hup1. by destruct st.
Qed.

(** A rank command never becomes an activation, and a bank command does so only with its
    window open. *)
Lemma rank_scan_type bs cmd clk l n rc0 o :
  IsRankCMD cmd = true → cmd_type rc0 ≠ ACTIVATE → rank_scan bs cmd clk l n rc0 = Ok o →
  match o with inl rc => cmd_type rc ≠ ACTIVATE | inr (_, rc) => cmd_type rc ≠ ACTIVATE end.
Proof.
  intros Hr. revert n rc0. induction l as [|[j k] l IH]; intros n rc0 H0 E; cbn [rank_scan] in E; [by injection E as <-|].
  apply bind_Ok_inv in E as (b & _ & E). apply bind_Ok_inv in E as (rc & Erc & E).
  assert (cmd_type rc ≠ ACTIVATE) as Hrc.
  { unfold BankState_GetReadyCommand in Erc. apply bind_Ok_inv in Erc as (t & Et & Erc).
    assert (t ≠ ACTIVATE) as Hta.
    { destruct (required_type_rank b cmd t Hr Et) as [->| ->]; [|done]. unfold IsRankCMD in Hr. by destruct (cmd_type cmd). }
    destruct (bool_decide (t ≠ SIZE)); [|by injection Erc as <-]. apply bind_Ok_inv in Erc as (e & _ & Erc).
    destruct (_ <=? _); by injection Erc as <-. }
  destruct (IsValid rc); cbn [negb] in E; [|by eapply IH]. case_bool_decide; [by injection E as <- | by eapply IH].
Qed.

Lemma ready_activation st cmd clk r :
  ChannelState_GetReadyCommand config st cmd clk = Ok r → cmd_type r = ACTIVATE →
  ActivationWindowOk config st (Rank r) clk = Ok true.
Proof.
  unfold ChannelState_GetReadyCommand. intros E Ht. destruct (IsRankCMD cmd) eqn:Hr.
  - apply bind_Ok_inv in E as (o & Eo & E). apply (rank_scan_type _ _ _ _ _ _ _ Hr) in Eo; [|done].
    destruct o as [rc|[m rc]]; [by injection E as <-|]. destruct (_ =? _); by injection E as <-.
  - apply bind_Ok_inv in E as (b & _ & E). apply bind_Ok_inv in E as (rc & _ & E).
    destruct (IsValid rc); cbn [negb] in E; [|by injection E as <-].
    case_bool_decide; [|by injection E as <-]. apply bind_Ok_inv in E as (ok & Eok & E).
    destruct ok; cbn [negb] in E; by injection E as <-.
Qed.

(** A command that the channel returns keeps the windows, its activation added. *)
Lemma issue_windows st cmd clk r st' h :
  0 ≤ tFAW (timp config) → 0 ≤ t32AW (timp config) →
  monotone_times (h.*2 ++ [clk]) (tFAW (timp config)) → monotone_times (h.*2 ++ [clk]) (t32AW (timp config)) →
  both_windows st h → ChannelState_GetReadyCommand config st cmd clk = Ok r →
  UpdateTimingAndStates config r clk st = Ok st' → both_windows st' (h ++ acts [(r, clk)]).
Proof.
  intros Hw Hw32 Hm Hm32 Hb Er Eu. unfold UpdateTimingAndStates in Eu. apply bind_Ok_inv in Eu as (st1 & E1 & Eu).
  apply UpdateState_windows in E1. destruct (UpdateTiming_windows _ _ _ _ Eu) as (st2 & E2 & Hs).
  apply (both_windows_same _ _ _ Hs). unfold acts. cbn. case_bool_decide as Ht; cbn [omap list_omap]; cycle 1.
  { injection E2 as <-. rewrite app_nil_r. by apply (both_windows_same _ _ _ E1). }
  apply (activation_step st1); try done; rewrite ?fmap_app; try done; [by apply (both_windows_same _ _ _ E1)|].
  pose proof (ready_activation st cmd clk r Er Ht) as Hok. destruct E1 as [F1 F2].
  unfold ActivationWindowOk in *. by rewrite F1, F2.
Qed.

(** A run of the channel keeps the windows. *)
Lemma serve_windows l st log st' h :
  0 ≤ tFAW (timp config) → 0 ≤ t32AW (timp config) →
  monotone_times (h.*2 ++ l.*2) (tFAW (timp config)) → monotone_times (h.*2 ++ l.*2) (t32AW (timp config)) →
  both_windows st h → serve config l st = Ok (log, st') → both_windows st' (h ++ acts log).
Proof.
  intros Hw Hw32. revert st log h. induction l as [|[cmd clk] l IH]; intros st log h Hm Hm32 Hb E; cbn [serve] in E.
  { injection E as <- <-. by rewrite app_nil_r. }
  cbn [fmap list_fmap snd] in Hm, Hm32. apply bind_Ok_inv in E as (r & Er & E).
  assert (sublist (h.*2 ++ l.*2) (h.*2 ++ clk :: l.*2)) as S1 by (apply sublist_app; [done | by apply sublist_cons]).
  assert (sublist (h.*2 ++ [clk]) (h.*2 ++ clk :: l.*2)) as S2 by (apply sublist_app; [done | apply sublist_skip, sublist_nil_l]).
  destruct (IsValid r); [|by eapply (IH st); [eapply monotone_sublist|eapply monotone_sublist|..]].
  apply bind_Ok_inv in E as (st1 & Eu & E). apply bind_Ok_inv in E as ([log1 st2] & El & E). injection E as <- <-.
  assert (both_windows st1 (h ++ acts [(r, clk)])) as Hb1 by (eapply issue_windows; eauto using monotone_sublist).
  change ((r, clk) :: log1) with ([(r, clk)] ++ log1). unfold acts at 1. rewrite omap_app, app_assoc. apply (IH st1); try done.
  all: eapply monotone_sublist; [|done]; rewrite fmap_app, <- app_assoc; apply sublist_app; [done|];
    unfold acts; cbn; case_bool_decide; cbn; [done | by apply sublist_cons].
Qed.

(** A per-bank refresh leaves the bank it refreshes as it was. *)
Lemma refresh_bank_same st cmd clk st' b :
  cmd_type cmd = REFRESH_BANK →
  bank_at (bank_states_ st) (Rank cmd) (Bankgroup cmd) (Bank cmd) = Ok b →
  UpdateTimingAndStates config cmd clk st = Ok st' →
  bank_at (bank_states_ st') (Rank cmd) (Bankgroup cmd) (Bank cmd) = Ok b.
Proof.
  intros Ht Hb H.
  unfold UpdateTimingAndStates in H. inv_res H.
  assert (IsRankCMD cmd = false) as Hrk by (unfold IsRankCMD; by rewrite Ht).
  assert (bank_at (bank_states_ v) (Rank cmd) (Bankgroup cmd) (Bank cmd) = Ok b) as Hv.
  { unfold ChannelState_UpdateState in H0. rewrite Hrk in H0. inv_res H0.
    assert (BankState_UpdateState b cmd = Ok b) as Hu.
    { unfold bank_upd in H1. rewrite Hb in H1. simpl in H1. inv_res H1.
      unfold BankState_UpdateState in *. rewrite Ht in *. by destruct (state_ b). }
    destruct (bank_upd_spec _ _ _ _ (λ b, BankState_UpdateState b cmd) _ _ Hb Hu)
      as (bs1 & E & Hs). rewrite E in H1. injection H1 as <-.
    unfold IsRefresh in H0. rewrite Ht in H0. injection H0 as <-.
    destruct st. cbn. by rewrite Hs, decide_True. }
  destruct (UpdateTiming_target config v st' cmd clk Hrk) as (bs & E & S);
    [by rewrite Ht | done |].
  unfold same_at in S. rewrite S. rewrite Ht in E. simpl in E.
  unfold UpdateSameBankTiming in E.
  destruct (bank_upd_spec (bank_states_ v) _ _ _ (apply_delays [] clk) b b Hv) as (bs1 & E1 & Hs);
    [done|]. unfold Rank, Bankgroup, Bank in *. rewrite E1 in E. injection E as <-.
  by rewrite Hs, decide_True.
Qed.
(** The delays that the rows of the timing table ask of bank (r, j, k) when [cmd] issues:
    the row for its place with respect to the command's bank, and the row for the whole
    rank. *)
Definition place_row (cmd : Command) (r j k : Z) : delay_list :=
  let tm := timing_ config (cmd_type cmd) in
  if negb (r =? Rank cmd) then other_ranks tm
  else if negb (j =? Bankgroup cmd) then other_bankgroups_same_rank tm
  else if negb (k =? Bank cmd) then other_banks_same_bankgroup tm
  else same_bank tm.
Definition rank_row (cmd : Command) (r : Z) : delay_list :=
  if r =? Rank cmd then same_rank (timing_ config (cmd_type cmd)) else [].

Lemma grid_delayed_app r j k l1 l2 clk bs :
  grid_delayed r j k (l1 ++ l2) clk bs → grid_delayed r j k l1 clk bs ∧ grid_delayed r j k l2 clk bs.
Proof.
  intros (b & Hb & Wb & Hd). split; exists b; (split; [done|]; split; [done|]); intros t d Hin; apply Hd;
    apply elem_of_app; auto.
Qed.

(** What [UpdateTiming] applies is the whole table, but for the rank row of a per-bank
    refresh. *)
Lemma expected_table cmd r j k :
  cmd_type cmd ≠ SIZE →
  expected_delays config cmd r j k =
    place_row cmd r j k ++ (if decide (cmd_type cmd = REFRESH_BANK) then [] else rank_row cmd r).
Proof.
  intros Ht. unfold expected_delays, place_row, rank_row, IsRankCMD.
  destruct (cmd_type cmd); try done; cbn [timing_ timing_READ timing_WRITE]; cbn -[delays];
    destruct (r =? Rank cmd); cbn [negb]; rewrite ?app_nil_r; try done;
    destruct (j =? Bankgroup cmd); cbn [negb]; rewrite ?app_nil_r; try done;
    by destruct (k =? Bank cmd); cbn [negb]; rewrite ?app_nil_r.
Qed.

(** ** Properties *)

(** C7: The command protocol of a channel is consistent.  Whatever command
    [GetReadyCommand] returns for a request, [UpdateTimingAndStates] applies it without
    reaching an [AbruptExit] and the channel stays well-formed, so the argument repeats.
    Every bank of the channel then holds back each later command at least as long as the
    timing table asks for it, by the row for the bank's place and by the row for the rank,
    with one exception: of a per-bank refresh only the rows for the place are applied, and
    the refreshed bank itself is exactly as it was. *)
Theorem channel_ready_command_legal st cmd clk r :
  chan_wf config st → hits_bounded config st → cmd_in_grid config cmd →
  ChannelState_GetReadyCommand config st cmd clk = Ok r → IsValid r = true →
  ∃ st', UpdateTimingAndStates config r clk st = Ok st' ∧ chan_wf config st' ∧
    (∀ i j k, in_grid config i j k →
      grid_delayed i j k (place_row r i j k) clk (bank_states_ st') ∧
      (cmd_type r ≠ REFRESH_BANK → grid_delayed i j k (rank_row r i) clk (bank_states_ st'))) ∧
    (cmd_type r = REFRESH_BANK →
      bank_at (bank_states_ st') (Rank r) (Bankgroup r) (Bank r) =
      bank_at (bank_states_ st) (Rank r) (Bankgroup r) (Bank r)).
Proof.
  intros Hwf Hh Hin Hg Hv.
  destruct (apply_ready st cmd clk r Hwf Hh Hin Hg Hv) as (Hin' & st1 & E1 & W1).
  destruct (UpdateTiming_ok config st1 r clk W1 (IsValid_type _ Hv) Hin')
    as (st2 & E2 & L2 & D2).
  assert (UpdateTimingAndStates config r clk st = Ok st2) as E by (unfold UpdateTimingAndStates; by rewrite E1).
  exists st2. split; [done|]. split; [by eapply chan_wf_le|]. split.
  - intros i j k Hijk. specialize (D2 i j k Hijk). rewrite expected_table in D2 by by apply IsValid_type.
    apply grid_delayed_app in D2 as [D3 D4]. split; [done|]. intros Hne. by rewrite decide_False in D4.
  - intros Ht. unfold cmd_in_grid in Hin'.
    assert (IsRankCMD r = false) as Hrk by (unfold IsRankCMD; by rewrite Ht). rewrite Hrk in Hin'.
    destruct (cw_grid _ _ Hwf _ _ _ Hin') as (b & Hb & _). rewrite Hb. by eapply refresh_bank_same.
Qed.

(** C8: The activation windows do what tFAW and t32AW stand for.  Ask a fresh channel for
    the ready command of any sequence of requests, of every type and for every rank and
    bank, at non-decreasing times, and apply each command that [GetReadyCommand] returns:
    then any five activations of one rank among the commands issued span at least tFAW,
    and, on a GDDR device, any thirty-three span at least t32AW. *)
Theorem activation_windows l log st :
  0 ≤ tFAW (timp config) → 0 ≤ t32AW (timp config) →
  monotone_times l.*2 (tFAW (timp config)) → monotone_times l.*2 (t32AW (timp config)) →
  serve config l (new_ChannelState config) = Ok (log, st) →
  ∀ r, 0 ≤ r < ranks (sizep config) →
    spaced 4 (tFAW (timp config)) (times_of r (acts log)) ∧
    (IsGDDR (dramp config) = true → spaced 32 (t32AW (timp config)) (times_of r (acts log))).
Proof.
  intros Hw Hw32 Hm Hm32 E r Hr.
  destruct (serve_windows l (new_ChannelState config) log st [] Hw Hw32 Hm Hm32) as [H4 H32]; [|done|].
  { split; [|intros _]; by apply windows_new. }
  destruct (H4 r Hr) as (? & _ & _ & ?). split; [done|]. intros Hg. by destruct (H32 Hg r Hr) as (? & _ & _ & ?).
Qed.

(** A self-refresh wake-up cannot be requested.  [Controller::ClockTick]
    asks a self-refreshing rank for SREF_EXIT, and in every channel state
    that request ends in the [AbruptExit] of [BankState::GetReadyCommand]. *)
Theorem sref_wakeup_aborts st cmd clk :
  chan_wf config st → cmd_type cmd = SREF_EXIT → 0 ≤ Rank cmd < ranks (sizep config) →
  ChannelState_GetReadyCommand config st cmd clk = Err AbruptExit.
Proof.
  intros Hwf Ht Hr. unfold ChannelState_GetReadyCommand.
  assert (IsRankCMD cmd = true) as -> by (unfold IsRankCMD; by rewrite Ht).
  destruct (cw_pos _ _ Hwf).
  destruct (rank_coords config) as [|[j k] l] eqn:El.
  { pose proof (length_rank_coords config) as Hl. rewrite El in Hl. simpl in Hl. lia. }
  assert (in_grid config (Rank cmd) j k) as Hin.
  { split; [done|]. apply rank_coords_in. rewrite El. set_solver. }
  destruct (cw_grid _ _ Hwf _ _ _ Hin) as (b & Hb & Wb). simpl. rewrite Hb. simpl.
  unfold BankState_GetReadyCommand, required_type. rewrite Ht. by destruct (state_ b).
Qed.

(** A per-bank refresh does not hold back the bank it refreshes: the
    delays meant for it (tRFCb to its next activation) sit in the [same_rank]
    row of the table, which [ChannelState::UpdateTiming] reads only for rank
    commands, so the bank is exactly as it was and may be activated in the
    very next cycle. *)
Theorem refresh_bank_unconstrained st cmd clk st' b :
  cmd_type cmd = REFRESH_BANK →
  bank_at (bank_states_ st) (Rank cmd) (Bankgroup cmd) (Bank cmd) = Ok b →
  UpdateTimingAndStates config cmd clk st = Ok st' →
  (ACTIVATE, tRFCb (timp config)) ∈ same_rank (timing_ config (cmd_type cmd)) ∧
  bank_at (bank_states_ st') (Rank cmd) (Bankgroup cmd) (Bank cmd) = Ok b.
Proof. intros Ht Hb H. split; [rewrite Ht; simpl; set_solver | by eapply refresh_bank_same]. Qed.
End Props.

(** ** Concrete runs *)

Definition ex_read : Command := mkCommand READ (mkAddress 0 1 1 0 7 3) 64.

Lemma ex_chan_wf :
  chan_wf ex_config (new_ChannelState ex_config) ∧ hits_bounded ex_config (new_ChannelState ex_config).
Proof. by apply new_ChannelState_wf. Qed.

Lemma channel_ready_command_legal_witness :
  let r := mkCommand ACTIVATE (addr ex_read) 64 in
  ChannelState_GetReadyCommand ex_config (new_ChannelState ex_config) ex_read 9 = Ok r ∧
  ∃ st', UpdateTimingAndStates ex_config r 9 (new_ChannelState ex_config) = Ok st' ∧
    chan_wf ex_config st' ∧
    (∀ i j k, in_grid ex_config i j k →
      grid_delayed i j k (place_row ex_config r i j k) 9 (bank_states_ st') ∧
      (cmd_type r ≠ REFRESH_BANK → grid_delayed i j k (rank_row ex_config r i) 9 (bank_states_ st'))) ∧
    (cmd_type r = REFRESH_BANK →
      bank_at (bank_states_ st') (Rank r) (Bankgroup r) (Bank r) =
      bank_at (bank_states_ (new_ChannelState ex_config)) (Rank r) (Bankgroup r) (Bank r)).
Proof.
  split; [vm_compute; reflexivity|].
  apply (channel_ready_command_legal ex_config (new_ChannelState ex_config) ex_read 9).
  - apply ex_chan_wf.
  - apply ex_chan_wf.
  - vm_compute. split_and!; congruence.
  - vm_compute. reflexivity.
  - reflexivity.
Defined.

(** A GDDR5 channel of sixteen banks with windows that fill: four activations in 60
    cycles, thirty-two in 520. *)
Definition ex_gddr : Config :=
  mkConfig ex_sys (mkDRAM GDDR5 16 4 4 65536 1024 8 8 1 false 4 4 16 15000 64 16) ex_size ex_map
    (ex_tim {{ tFAW := 60; t32AW := 520 }}) 100000.

(** A read of rank 0 each cycle, bank after bank, to another row every 240 cycles. *)
Definition ex_requests : list (Command * Z) :=
  (λ t, (mkCommand READ (mkAddress 0 0 (t mod 16 / 4) (t mod 4) (t / 240) 0) t, t)) <$> seqZ 0 524.

Definition ex_log : list (Command * Z) :=
  match serve ex_gddr ex_requests (new_ChannelState ex_gddr) with Ok (log, _) => log | Err _ => [] end.

Lemma ex_times_monotone : monotone_times ex_requests.*2 60 ∧ monotone_times ex_requests.*2 520.
Proof.
  assert (∀ n a, monotone_times (seqZ a (Z.of_nat n)) 520 ∨ a < 0 ∨ 2 ^ 64 ≤ a + Z.of_nat n + 520) as Hs.
  { induction n as [|n IH]; intros a; [left; split; [apply SSorted_nil | apply Forall_nil; done]|].
    destruct (IH (a + 1)) as [[H1 H2]|[?|?]]; [|lia..]. destruct (decide (a < 0 ∨ 2 ^ 64 ≤ a + Z.of_nat (S n) + 520)); [lia|].
    left. rewrite seqZ_cons by lia. replace (Z.succ a) with (a + 1) by lia. replace (Z.pred (Z.of_nat (S n))) with (Z.of_nat n) by lia.
    split; [|apply Forall_cons; split; [lia | done]]. apply SSorted_cons; [done|].
    apply Forall_forall. intros x Hx%elem_of_seqZ. lia. }
  assert (ex_requests.*2 = seqZ 0 524) as -> by (unfold ex_requests; rewrite <- list_fmap_compose; apply list_fmap_id).
  destruct (Hs 524%nat 0) as [[H1 H2]|[?|?]]; [|lia..]. split; [|by split]. split; [exact H1|].
  eapply Forall_impl; [exact H2|]. cbn. lia.
Qed.

(** The times of the thirty-three activations of rank 0 in that run: the fifth waits for
    the window of four, and the last, which that window would let through at 500, for the
    window of thirty-two. *)
Definition ex_times : list Z :=
  [0; 4; 8; 12; 61; 65; 69; 73; 122; 126; 130; 134; 183; 187; 191; 195; 256; 260; 264; 268; 317; 321; 325; 329;
   378; 382; 386; 390; 439; 443; 447; 451; 520].

Lemma activation_windows_witness :
  ∃ st, serve ex_gddr ex_requests (new_ChannelState ex_gddr) = Ok (ex_log, st) ∧
    times_of 0 (acts ex_log) = ex_times ∧ spaced 4 60 ex_times ∧ spaced 32 520 ex_times.
Proof.
  assert (∃ st, serve ex_gddr ex_requests (new_ChannelState ex_gddr) = Ok (ex_log, st)) as [st E].
  { assert (∀ r : res (list (Command * Z) * ChannelState), match r with Ok _ => true | Err _ => false end = true →
      ∃ st, r = Ok (match r with Ok (log, _) => log | Err _ => [] end, st)) as Hr.
    { intros [[log st]|e] Hc; [by exists st | done]. }
    apply Hr. vm_compute. reflexivity. }
  assert (times_of 0 (acts ex_log) = ex_times) as Et by (vm_compute; reflexivity).
  exists st. split; [exact E|]. split; [exact Et|]. rewrite <- Et.
  assert (tFAW (timp ex_gddr) = 60 ∧ t32AW (timp ex_gddr) = 520 ∧ ranks (sizep ex_gddr) = 2 ∧ IsGDDR (dramp ex_gddr) = true)
    as (E4 & E32 & Er & Eg) by (split_and!; vm_compute; reflexivity).
  pose proof (activation_windows ex_gddr ex_requests ex_log st) as Hw. rewrite E4, E32, Er, Eg in Hw.
  destruct (Hw ltac:(lia) ltac:(lia) (proj1 ex_times_monotone) (proj2 ex_times_monotone) E 0 ltac:(lia)) as [H4 H32].
  split; [exact H4 | exact (H32 eq_refl)].
Defined.

Lemma sref_wakeup_aborts_witness :
  ChannelState_GetReadyCommand ex_config (new_ChannelState ex_config)
    (mkCommand SREF_EXIT (mkAddress 0 1 (-1) (-1) (-1) (-1)) 0) 100 = Err AbruptExit.
Proof.
  apply (sref_wakeup_aborts ex_config _ (mkCommand SREF_EXIT (mkAddress 0 1 (-1) (-1) (-1) (-1)) 0));
    [apply ex_chan_wf | reflexivity | vm_compute; done].
Defined.

Definition ex_refresh_bank : Command := mkCommand REFRESH_BANK (mkAddress (-1) 1 0 1 (-1) (-1)) 0.

Lemma refresh_bank_unconstrained_witness :
  ∃ st', UpdateTimingAndStates ex_config ex_refresh_bank 50 (new_ChannelState ex_config) = Ok st' ∧
    (ACTIVATE, tRFCb (timp ex_config)) ∈ same_rank (timing_ ex_config REFRESH_BANK) ∧
    bank_at (bank_states_ st') 1 0 1 = Ok new_BankState.
Proof.
  eexists. split; [vm_compute; reflexivity|].
  apply (refresh_bank_unconstrained ex_config (new_ChannelState ex_config) ex_refresh_bank 50);
    vm_compute; reflexivity.
Defined.
