(* ===== verification/Refresh.v ===== *)
(** * The refresh counter of a channel (DRAMsim3/src/refresh.h, refresh.cc)

    Every [refresh_interval_] cycles one refresh is asked of the channel.  The
    theorems: with the two staggered policies the refreshes go round all ranks (all
    banks), one per interval and each exactly once in a round; the policy named
    simultaneous asks for a refresh of one rank only. *)

From S2P Require Import Prelude DramCommon DramConfig BankState Timing ChannelState.

Open Scope Z_scope.

Record Refresh := mkRefresh {
  rf_clk : Z; refresh_interval_ : Z; refresh_policy_ : RefreshPolicy;
  next_rank_ : Z; next_bg_ : Z; next_bank_ : Z }.

Section Refreshing.
Variable config : Config.

(** [Refresh::Refresh] *)
Definition new_Refresh : res Refresh :=
  let p := refresh_policy (sysp config) in
  i ← (match p with
       | RANK_LEVEL_SIMULTANEOUS => Ok (tREFI (timp config))
       | BANK_LEVEL_STAGGERED => Ok (tREFIb (timp config))
       | _ => int_div (tREFI (timp config)) (ranks (sizep config))
       end);
  Ok (mkRefresh 0 i p 0 0 0).

(** [(x + 1) % n] on [int]. *)
Definition next_mod (x n : Z) : res Z :=
  x' ← int_chk (x + 1); if n =? 0 then Err DivByZero else Ok (Z.rem x' n).

(** [Refresh::IterateNext] *)
Definition IterateNext (rf : Refresh) : res Refresh :=
  match refresh_policy_ rf with
  | RANK_LEVEL_STAGGERED =>
      r ← next_mod (next_rank_ rf) (ranks (sizep config)); Ok (rf {{ next_rank_ := r }})
  | BANK_LEVEL_STAGGERED =>
      g ← next_mod (next_bg_ rf) (bankgroups (dramp config));
      let rf := rf {{ next_bg_ := g }} in
      if g =? 0 then
        b ← next_mod (next_bank_ rf) (banks_per_group (dramp config));
        let rf := rf {{ next_bank_ := b }} in
        if b =? 0 then
          r ← next_mod (next_rank_ rf) (ranks (sizep config)); Ok (rf {{ next_rank_ := r }})
        else Ok rf
      else Ok rf
  | _ => Err AbruptExit
  end.

(** The loop of the simultaneous policy: it breaks at the first rank that is not in
    self-refresh. *)
Fixpoint refresh_first (l : list Z) (st : ChannelState) : res ChannelState :=
  match l with
  | [] => Ok st
  | i :: l' =>
      s ← IsRankSelfRefreshing st i;
      if negb s then Ok (RankNeedRefresh i true st) else refresh_first l' st
  end.

(** [Refresh::InsertRefresh] *)
Definition InsertRefresh (rf : Refresh) (st : ChannelState) : res (Refresh * ChannelState) :=
  match refresh_policy_ rf with
  | RANK_LEVEL_SIMULTANEOUS =>
      st ← refresh_first (seqZ 0 (ranks (sizep config))) st; Ok (rf, st)
  | RANK_LEVEL_STAGGERED =>
      s ← IsRankSelfRefreshing st (next_rank_ rf);
      let st := if negb s then RankNeedRefresh (next_rank_ rf) true st else st in
      rf ← IterateNext rf; Ok (rf, st)
  | BANK_LEVEL_STAGGERED =>
      s ← IsRankSelfRefreshing st (next_rank_ rf);
      let st := if negb s then BankNeedRefresh (next_rank_ rf) (next_bg_ rf) (next_bank_ rf) true st
                else st in
      rf ← IterateNext rf; Ok (rf, st)
  | POLICY_SIZE => Err AbruptExit
  end.

(** [Refresh::ClockTick] *)
Definition Refresh_ClockTick (rf : Refresh) (st : ChannelState) : res (Refresh * ChannelState) :=
  m ← umod (rf_clk rf) (u64 (refresh_interval_ rf));
  '(rf, st) ← (if (m =? 0) && (0 <? rf_clk rf) then InsertRefresh rf st else Ok (rf, st));
  Ok (rf {{ rf_clk := u64 (rf_clk rf + 1) }}, st).

(** ** Rounds *)

(** What the [i]-th refresh of a staggered policy addresses. *)
Definition refresh_coords (i : Z) : Z * Z * Z :=
  let g := bankgroups (dramp config) in
  let b := banks_per_group (dramp config) in
  ((i / (g * b)) mod ranks (sizep config), i mod g, (i / g) mod b).

Definition nth_refresh (p : RefreshPolicy) (i : Z) : Command :=
  match p with
  | BANK_LEVEL_STAGGERED =>
      let '(r, g, b) := refresh_coords i in
      mkCommand REFRESH_BANK (mkAddress (-1) r g b (-1) (-1)) (u64 (-1))
  | _ => mkCommand REFRESH (mkAddress (-1) (i mod ranks (sizep config)) (-1) (-1) (-1) (-1)) (u64 (-1))
  end.

(** The number of refreshes in a round. *)
Definition round_length (p : RefreshPolicy) : Z :=
  match p with
  | BANK_LEVEL_STAGGERED =>
      bankgroups (dramp config) * banks_per_group (dramp config) * ranks (sizep config)
  | _ => ranks (sizep config)
  end.

Definition staggered (p : RefreshPolicy) : bool :=
  match p with RANK_LEVEL_STAGGERED | BANK_LEVEL_STAGGERED => true | _ => false end.

(** Sizes an organisation has. *)
Record org_ok : Prop := {
  oo_ranks : 0 < ranks (sizep config) < 2 ^ 31;
  oo_groups : 0 < bankgroups (dramp config) < 2 ^ 31;
  oo_banks : 0 < banks_per_group (dramp config) < 2 ^ 31 }.

(** [n] cycles. *)
Fixpoint refresh_run (n : nat) (s : Refresh * ChannelState) : res (Refresh * ChannelState) :=
  match n with
  | O => Ok s
  | S n' => s' ← refresh_run n' s; Refresh_ClockTick s'.1 s'.2
  end.

Lemma next_mod_ok x n : 0 ≤ x < n → n < 2 ^ 31 → next_mod x n = Ok ((x + 1) mod n).
Proof.
  intros. unfold next_mod. rewrite int_chk_Ok by lia. cbn [mbind res_bind].
  destruct (Z.eqb_spec n 0); [lia|]. by rewrite Z.rem_mod_nonneg by lia.
Qed.

(** Counting up in a mixed-radix system. *)
Lemma succ_mod n i : 0 < n → (i mod n + 1) mod n = (i + 1) mod n.
Proof. intros. by rewrite Zplus_mod_idemp_l. Qed.

Lemma succ_div_carry n i : 0 < n → (i + 1) mod n = 0 → (i + 1) / n = i / n + 1.
Proof.
  intros Hn Hm. pose proof (Z.div_mod (i + 1) n ltac:(lia)) as H. rewrite Hm in H.
  assert (i / n = (i + 1) / n - 1) by (symmetry; apply (Z.div_unique i n _ (n - 1)); lia). lia.
Qed.

Lemma succ_div_same n i : 0 < n → (i + 1) mod n ≠ 0 → (i + 1) / n = i / n.
Proof.
  intros Hn Hm. pose proof (Z.div_mod (i + 1) n ltac:(lia)) as H.
  pose proof (Z.mod_pos_bound (i + 1) n Hn).
  apply (Z.div_unique i n _ ((i + 1) mod n - 1)); lia.
Qed.

(** The counters of [rf] stand at the [i]-th refresh. *)
Definition at_refresh (i : Z) (rf : Refresh) : Prop :=
  match refresh_policy_ rf with
  | RANK_LEVEL_STAGGERED => next_rank_ rf = i mod ranks (sizep config)
  | BANK_LEVEL_STAGGERED => (next_rank_ rf, next_bg_ rf, next_bank_ rf) = refresh_coords i
  | _ => False
  end.

Lemma IterateNext_ok i rf :
  org_ok → at_refresh i rf →
  ∃ rf', IterateNext rf = Ok rf' ∧ at_refresh (i + 1) rf' ∧
    refresh_policy_ rf' = refresh_policy_ rf ∧ rf_clk rf' = rf_clk rf ∧
    refresh_interval_ rf' = refresh_interval_ rf.
Proof.
  intros [Hr Hg Hb] Ha. destruct rf as [c v p r g b].
  unfold IterateNext, at_refresh, refresh_coords in *. cbn in *. destruct p; try done; cbn in *.
  - subst r. rewrite next_mod_ok by (first [apply Z.mod_pos_bound; lia | lia]).
    cbn. eexists. split; [done|]. cbn. by rewrite succ_mod by lia.
  - injection Ha as -> -> ->. rewrite <- !Z.div_div by lia.
    set (G := bankgroups (dramp config)) in *. set (B := banks_per_group (dramp config)) in *.
    set (R := ranks (sizep config)) in *.
    assert (∀ x n, 0 < n < 2 ^ 31 → next_mod (x mod n) n = Ok ((x + 1) mod n)) as Hnext.
    { intros x n Hn. pose proof (Z.mod_pos_bound x n). by rewrite next_mod_ok, succ_mod by lia. }
    rewrite !Hnext by done. cbn [mbind res_bind].
    destruct (Z.eqb_spec ((i + 1) mod G) 0) as [E|E].
    + rewrite (succ_div_carry G) by (done || lia).
      destruct (Z.eqb_spec ((i / G + 1) mod B) 0) as [E'|E'].
      * rewrite (succ_div_carry B) by (done || lia). eexists. split; [done|]. done.
      * rewrite (succ_div_same B) by (done || lia). eexists. split; [done|]. done.
    + rewrite (succ_div_same G) by (done || lia). eexists. split; [done|]. done.
Qed.

(** No rank is in self-refresh. *)
Definition awake (st : ChannelState) : Prop :=
  ∀ r, 0 ≤ r < ranks (sizep config) → IsRankSelfRefreshing st r = Ok false.

Lemma InsertRefresh_ok i rf st :
  org_ok → at_refresh i rf → awake st →
  ∃ rf', InsertRefresh rf st =
      Ok (rf', st {{ refresh_q_ := refresh_q_ st ++ [nth_refresh (refresh_policy_ rf) i] }}) ∧
    at_refresh (i + 1) rf' ∧ refresh_policy_ rf' = refresh_policy_ rf ∧ rf_clk rf' = rf_clk rf ∧
    refresh_interval_ rf' = refresh_interval_ rf.
Proof.
  intros Ho Ha Hst. destruct (IterateNext_ok i rf Ho Ha) as (rf' & E & H). exists rf'. split; [|done].
  unfold InsertRefresh, nth_refresh. unfold at_refresh, refresh_coords in *. destruct Ho as [Hr _ _].
  destruct (refresh_policy_ rf); try done.
  - rewrite Hst by (rewrite Ha; apply Z.mod_pos_bound; lia). cbn. by rewrite E, Ha.
  - injection Ha as E1 E2 E3. rewrite Hst by (rewrite E1; apply Z.mod_pos_bound; lia).
    cbn. by rewrite E, E1, E2, E3.
Qed.

Definition refreshes_after (v n : Z) : Z := if n =? 0 then 0 else (n - 1) / v.

Lemma refresh_run_ok n rf0 st :
  org_ok → new_Refresh = Ok rf0 → staggered (refresh_policy (sysp config)) = true →
  0 < refresh_interval_ rf0 < 2 ^ 31 → awake st → Z.of_nat n < 2 ^ 64 →
  let p := refresh_policy (sysp config) in
  let k := refreshes_after (refresh_interval_ rf0) (Z.of_nat n) in
  0 ≤ k ∧ ∃ rf, refresh_run n (rf0, st) =
      Ok (rf, st {{ refresh_q_ := refresh_q_ st ++ (nth_refresh p <$> seqZ 0 k) }}) ∧
    at_refresh k rf ∧ refresh_policy_ rf = p ∧ rf_clk rf = Z.of_nat n ∧
    refresh_interval_ rf = refresh_interval_ rf0.
Proof.
  intros Ho Hnew Hs Hv Hst Hn. assert (rf_clk rf0 = 0 ∧ refresh_policy_ rf0 = refresh_policy (sysp config)
    ∧ at_refresh 0 rf0) as (Hc0 & Hp0 & Ha0).
  { unfold new_Refresh in Hnew. inv_res Hnew. injection Hnew as <-. split_and!; try done.
    unfold at_refresh, refresh_coords. cbn. destruct (refresh_policy (sysp config)); try done; by rewrite !Zdiv_0_l, !Zmod_0_l. }
  cbv zeta. revert Hn. induction n as [|n IH]; intros Hn.
  { split; [done|]. exists rf0. cbn. rewrite app_nil_r. by destruct st. }
  destruct IH as (Hk & rf & E & Ha & Hp & Hc & Hi); [lia|]. cbn [refresh_run]. rewrite E.
  set (k := refreshes_after _ (Z.of_nat n)) in *. set (v := refresh_interval_ rf0) in *.
  set (st1 := st {{ refresh_q_ := _ }}). cbn [mbind res_bind fst snd]. unfold Refresh_ClockTick.
  rewrite Hi, Hc, (u64_small v), umod_Ok by lia. cbn [mbind res_bind].
  assert (refreshes_after v (Z.of_nat (S n)) = Z.of_nat n / v) as Ek.
  { unfold refreshes_after. destruct (Z.eqb_spec (Z.of_nat (S n)) 0); [lia|]. f_equal. lia. }
  rewrite Ek. destruct (Z.eqb_spec (Z.of_nat n mod v) 0) as [Em|Em], (Z.ltb_spec 0 (Z.of_nat n)) as [Hpos|Hpos];
    cbn [andb].
  - assert (Z.of_nat n / v = k + 1) as ->.
    { unfold k, refreshes_after. destruct (Z.eqb_spec (Z.of_nat n) 0); [lia|].
      rewrite <- (succ_div_carry v) by (try lia; by rewrite Z.sub_add). by rewrite Z.sub_add. }
    destruct (InsertRefresh_ok k rf st1 Ho Ha) as (rf' & E' & Ha' & Hp' & Hc' & Hi'); [by destruct st|].
    rewrite E'. cbn [mbind res_bind]. split; [lia|]. eexists. split; [|split_and!].
    + f_equal. f_equal. unfold st1. rewrite Hp, seqZ_app, fmap_app, app_assoc by lia. by destruct st.
    + by destruct rf'.
    + destruct rf'; cbn in *; congruence.
    + destruct rf'; cbn in *. rewrite Hc', Hc, (u64_small (Z.of_nat n + 1)) by lia. lia.
    + destruct rf'; cbn in *; congruence.
  - assert (n = 0%nat) as -> by lia. assert (k = 0) as -> by done. rewrite Zdiv_0_l. split; [lia|].
    eexists. split; [done|]. destruct rf; cbn in *. split_and!; try done; by rewrite Hc.
  - assert (Z.of_nat n / v = k) as ->.
    { unfold k, refreshes_after. destruct (Z.eqb_spec (Z.of_nat n) 0); [lia|].
      rewrite <- (succ_div_same v (Z.of_nat n - 1)) by (try lia; by rewrite Z.sub_add). by rewrite Z.sub_add. }
    split; [done|]. eexists. split; [done|]. destruct rf; cbn in *. split_and!; try done.
    rewrite Hc, (u64_small (Z.of_nat n + 1)) by lia. lia.
  - assert (n = 0%nat) as -> by lia. by rewrite Zmod_0_l in Em.
Qed.

(** A window of [round_length] successive numbers meets every coordinate. *)
Lemma mod_hits n m x : 0 < n → 0 ≤ x < n → ∃ i, m ≤ i < m + n ∧ i mod n = x.
Proof.
  intros Hn Hx. exists (m + (x - m) mod n). pose proof (Z.mod_pos_bound (x - m) n Hn). split; [lia|].
  rewrite Zplus_mod_idemp_r. replace (m + (x - m)) with x by lia. by apply Z.mod_small.
Qed.

Lemma coords_hit m r g b :
  org_ok → in_grid config r g b →
  ∃ i, m ≤ i < m + round_length BANK_LEVEL_STAGGERED ∧ refresh_coords i = (r, g, b).
Proof.
  intros [HR HG HB] (Hr & Hg & Hb). unfold round_length, refresh_coords.
  set (G := bankgroups (dramp config)) in *. set (B := banks_per_group (dramp config)) in *.
  set (R := ranks (sizep config)) in *.
  assert (0 ≤ b + B * r < B * R) as H1 by nia. assert (0 < B * R) as H2 by nia.
  assert (0 ≤ g + G * (b + B * r) < G * (B * R)) as H3 by nia.
  destruct (mod_hits (G * B * R) m (g + G * (b + B * r))) as (i & Hi & E);
    [rewrite <- Z.mul_assoc; nia | by rewrite <- Z.mul_assoc |].
  exists i. split; [done|].
  assert (i = (g + G * (b + B * r)) + G * B * R * (i / (G * B * R))) as Ei
    by (pose proof (Z.div_mod i (G * B * R) ltac:(rewrite <- Z.mul_assoc; nia)); lia).
  set (q := i / (G * B * R)) in *. clearbody q.
  assert (i / G = b + B * (r + R * q)) as E1 by (symmetry; apply (Z.div_unique i G _ g); [lia|]; rewrite Ei; ring).
  assert (i mod G = g) as E2 by (symmetry; apply (Z.mod_unique i G (b + B * (r + R * q)) g); [lia|]; rewrite Ei; ring).
  rewrite <- Z.div_div, E1, E2 by lia.
  assert ((b + B * (r + R * q)) / B = r + R * q) as -> by (symmetry; apply (Z.div_unique _ B _ b); lia).
  assert ((b + B * (r + R * q)) mod B = b) as -> by (symmetry; apply (Z.mod_unique _ B (r + R * q) b); lia).
  assert ((r + R * q) mod R = r) as -> by (symmetry; apply (Z.mod_unique _ R q r); lia). done.
Qed.

(** ** Properties *)

(** C31: the staggered policies refresh everything.  While no rank is in self-refresh,
    after [n] cycles exactly [(n - 1) / refresh_interval_] refreshes have been queued,
    one per interval, the [i]-th of them for the [i]-th rank (bank) in turn; and any
    round of successive refreshes contains every rank (every bank of the channel). *)
Theorem staggered_refreshes_all n rf0 st :
  org_ok → new_Refresh = Ok rf0 → staggered (refresh_policy (sysp config)) = true →
  0 < refresh_interval_ rf0 < 2 ^ 31 → awake st → 1 ≤ Z.of_nat n < 2 ^ 64 →
  let p := refresh_policy (sysp config) in
  (∃ rf, refresh_run n (rf0, st) = Ok (rf, st {{ refresh_q_ := refresh_q_ st ++
     (nth_refresh p <$> seqZ 0 ((Z.of_nat n - 1) / refresh_interval_ rf0)) }})) ∧
  ∀ m r g b, in_grid config r g b →
    ∃ i, m ≤ i < m + round_length p ∧
      match p with
      | BANK_LEVEL_STAGGERED => addr (nth_refresh p i) = mkAddress (-1) r g b (-1) (-1)
      | _ => Rank (nth_refresh p i) = r
      end.
Proof.
  intros Ho Hnew Hs Hv Hst Hn p. split.
  - destruct (refresh_run_ok n rf0 st Ho Hnew Hs Hv Hst) as (_ & rf & E & _); [lia|].
    exists rf. rewrite E. unfold refreshes_after. by destruct (Z.eqb_spec (Z.of_nat n) 0); [lia|].
  - intros m r g b Hin. unfold p in *. destruct (refresh_policy (sysp config)); try done.
    + destruct (mod_hits (ranks (sizep config)) m r) as (i & Hi & E); [apply Ho | apply Hin |].
      exists i. split; [done|]. done.
    + destruct (coords_hit m r g b Ho Hin) as (i & Hi & E). exists i. split; [done|].
      unfold nth_refresh. by rewrite E.
Qed.

(** The policy named simultaneous asks for one refresh, of rank 0, and never touches
    the other ranks. *)
Theorem simultaneous_refreshes_rank_0 rf st :
  refresh_policy_ rf = RANK_LEVEL_SIMULTANEOUS → org_ok → awake st →
  InsertRefresh rf st = Ok (rf, RankNeedRefresh 0 true st).
Proof.
  intros Hp [Hr _ _] Hst. unfold InsertRefresh. rewrite Hp, seqZ_cons by lia.
  cbn [refresh_first]. by rewrite Hst by lia.
Qed.
End Refreshing.

(** ** Concrete runs *)

Lemma ex_org_ok : org_ok ex_config.
Proof. split; vm_compute; split; congruence. Qed.

Lemma ex_awake : awake ex_config (new_ChannelState ex_config).
Proof.
  intros r Hr. change (ranks (sizep ex_config)) with 2 in Hr.
  assert (r = 0 ∨ r = 1) as [-> | ->] by lia; reflexivity.
Qed.

(** 20000 cycles, 4680 cycles between two refreshes, two ranks. *)
Lemma staggered_refreshes_all_witness :
  ∃ rf, refresh_run ex_config (Z.to_nat 20000) (mkRefresh 0 4680 RANK_LEVEL_STAGGERED 0 0 0, new_ChannelState ex_config)
    = Ok (rf, (new_ChannelState ex_config) {{ refresh_q_ :=
        nth_refresh ex_config RANK_LEVEL_STAGGERED <$> [0; 1; 2; 3] }}).
Proof.
  destruct (staggered_refreshes_all ex_config (Z.to_nat 20000) (mkRefresh 0 4680 RANK_LEVEL_STAGGERED 0 0 0)
    (new_ChannelState ex_config)) as [[rf E] _].
  - exact ex_org_ok.
  - reflexivity.
  - reflexivity.
  - split; reflexivity.
  - exact ex_awake.
  - lia.
  - exists rf. exact E.
Defined.

Lemma simultaneous_refreshes_rank_0_witness :
  let rf := mkRefresh 9360 9360 RANK_LEVEL_SIMULTANEOUS 0 0 0 in
  InsertRefresh ex_config rf (new_ChannelState ex_config) =
    Ok (rf, RankNeedRefresh 0 true (new_ChannelState ex_config)).
Proof. by apply (simultaneous_refreshes_rank_0 ex_config); [| exact ex_org_ok | exact ex_awake]. Defined.
