(* ===== verification/CommandQueue.v ===== *)
(** * The command queues of a channel (DRAMsim3/src/command_queue.h, command_queue.cc)

    Commands wait in one queue per rank or per bank.  The queues are visited round
    robin; within one, the first command whose next step is ready is issued, unless it
    would close a row that is still wanted or is a write behind a read of the same
    column.  The reference to the channel state is an argument here, the one to the
    statistics a state that is passed along.  The theorems: a round always ends
    without abort, issues a command only for a queued request whose step is ready,
    removes exactly a served request, and serves no write before an older read of its
    column; and it issues nothing exactly when every request that no refresh blocks is
    held back. *)

From S2P Require Import Prelude DramCommon DramConfig Stats BankState Timing ChannelState ChannelProps.

Open Scope Z_scope.

Inductive QueueStructure := PER_RANK | PER_BANK | QS_SIZE.

#[global] Instance QueueStructure_eq_dec : EqDecision QueueStructure.
Proof. solve_decision. Defined.

Record CommandQueue := mkCmdQueue {
  rank_q_empty : list bool; queue_structure_ : QueueStructure; queues_ : list (list Command);
  ref_q_indices_ : gset Z; is_in_ref_ : bool; num_queues_ : Z; queue_size_ : Z;
  queue_idx_ : Z; cq_clk : Z }.

Section Queues.
Variable config : Config.

(** [CommandQueue::CommandQueue]; [reserve] of a negative size throws. *)
Definition new_CommandQueue : res CommandQueue :=
  let s := queue_structure (sysp config) in
  '(qs, n) ← (if bool_decide (s = "PER_BANK") then
                n ← int_chk (banks (dramp config) * ranks (sizep config)); Ok (PER_BANK, n)
              else if bool_decide (s = "PER_RANK") then Ok (PER_RANK, ranks (sizep config))
              else Err AbruptExit);
  if (n <? 0) || (cmd_queue_size (sysp config) <? 0) then Err RangeError
  else
    Ok (mkCmdQueue (replicate (Z.to_nat (ranks (sizep config))) true) qs
          (replicate (Z.to_nat n) []) ∅ false n (u64 (cmd_queue_size (sysp config))) 0 0).

Definition CommandQueue_ClockTick (cq : CommandQueue) : CommandQueue :=
  cq {{ cq_clk := u64 (cq_clk cq + 1) }}.

(** [CommandQueue::GetQueueIndex] *)
Definition GetQueueIndex (qs : QueueStructure) (r bg ba : Z) : res Z :=
  if bool_decide (qs = PER_RANK) then Ok r
  else
    x ← int_chk (r * banks (dramp config));
    y ← int_chk (bg * banks_per_group (dramp config));
    z ← int_chk (x + y); int_chk (z + ba).

Definition cmd_queue_index (cq : CommandQueue) (c : Command) : res Z :=
  GetQueueIndex (queue_structure_ cq) (Rank c) (Bankgroup c) (Bank c).

(** [WillAcceptCommand], [QueueEmpty], [QueueUsage] *)
Definition WillAcceptCommand (cq : CommandQueue) (r bg ba : Z) : res bool :=
  i ← GetQueueIndex (queue_structure_ cq) r bg ba;
  q ← vget (queues_ cq) i;
  Ok (vsize q <? queue_size_ cq).
Definition QueueEmpty (cq : CommandQueue) : bool := forallb qempty (queues_ cq).
Definition QueueUsage (cq : CommandQueue) : Z :=
  foldl (λ usage q, i32 (usage + vsize q)) 0 (queues_ cq).

(** [AddCommand] *)
Definition AddCommand (c : Command) (cq : CommandQueue) : res (bool * CommandQueue) :=
  i ← cmd_queue_index cq c;
  q ← vget (queues_ cq) i;
  if vsize q <? queue_size_ cq then
    qs ← vset (queues_ cq) i (q ++ [c]);
    e ← vset (rank_q_empty cq) (Rank c) false;
    Ok (true, cq {{ queues_ := qs; rank_q_empty := e }})
  else Ok (false, cq).

(** [GetNextQueue] moves the index; the queue is [queues_[queue_idx_]]. *)
Definition next_queue_idx (cq : CommandQueue) : Z :=
  let i := queue_idx_ cq + 1 in if i =? num_queues_ cq then 0 else i.

Definition same_bank_cmd (c d : Command) : bool :=
  (Rank c =? Rank d) && (Bankgroup c =? Bankgroup d) && (Bank c =? Bank d).

(** [ArbitratePrecharge] of [c], with [prev] before it and [rest] after it. *)
Definition ArbitratePrecharge (ch : ChannelState) (prev : list Command) (c : Command)
    (rest : list Command) (st : SimpleStats) : res (bool * SimpleStats) :=
  if existsb (λ p, same_bank_cmd p c) prev then Ok (false, st)
  else
    b ← bank_at (bank_states_ ch) (Rank c) (Bankgroup c) (Bank c);
    let pending_row_hits_exist :=
      existsb (λ p, (Row p =? OpenRow b) && same_bank_cmd p c) (c :: rest) in
    let rowhit_limit_reached := 4 <=? RowHitCount b in
    if negb pending_row_hits_exist || rowhit_limit_reached
    then Ok (true, Increment "num_ondemand_pres" st)
    else Ok (false, st).

(** [HasRWDependency] *)
Definition rw_dependency (c p : Command) : bool :=
  IsRead p && (Row p =? Row c) && (Column p =? Column c) && (Bank p =? Bank c)
  && (Bankgroup p =? Bankgroup c).
Definition HasRWDependency (prev : list Command) (c : Command) : bool :=
  existsb (rw_dependency c) prev.

(** [GetFirstReadyInQueue] from the position after [prev]. *)
Fixpoint first_ready (ch : ChannelState) (clk : Z) (prev rest : list Command) (st : SimpleStats)
    : res (Command * SimpleStats) :=
  match rest with
  | [] => Ok (Command_default, st)
  | c :: rest' =>
      cmd ← ChannelState_GetReadyCommand config ch c clk;
      if negb (IsValid cmd) then first_ready ch clk (prev ++ [c]) rest' st
      else if bool_decide (cmd_type cmd = PRECHARGE) then
        '(ok, st) ← ArbitratePrecharge ch prev c rest' st;
        if (ok : bool) then Ok (cmd, st) else first_ready ch clk (prev ++ [c]) rest' st
      else if IsWrite cmd && HasRWDependency prev c then first_ready ch clk (prev ++ [c]) rest' st
      else Ok (cmd, st)
  end.
Definition GetFirstReadyInQueue (ch : ChannelState) (cq : CommandQueue) (q : list Command)
    (st : SimpleStats) : res (Command * SimpleStats) :=
  first_ready ch (cq_clk cq) [] q st.

(** The loop of [EraseRWCommand]; [None] is its [exit(1)]. *)
Definition same_request (c d : Command) : bool :=
  (hex_addr c =? hex_addr d) && bool_decide (cmd_type c = cmd_type d).
Fixpoint erase_cmd (c : Command) (q : list Command) : option (list Command) :=
  match q with
  | [] => None
  | d :: q' => if same_request c d then Some q' else cons d <$> erase_cmd c q'
  end.
Definition EraseRWCommand (c : Command) (cq : CommandQueue) : res CommandQueue :=
  i ← cmd_queue_index cq c;
  qs ← vmod (queues_ cq) i (λ q, of_option AbruptExit (erase_cmd c q));
  Ok (cq {{ queues_ := qs }}).

(** [GetCommandToIssue], [n] queues still to visit. *)
Fixpoint issue_loop (n : nat) (ch : ChannelState) (cq : CommandQueue) (st : SimpleStats)
    : res (Command * CommandQueue * SimpleStats) :=
  match n with
  | O => Ok (Command_default, cq, st)
  | S n' =>
      let cq := cq {{ queue_idx_ := next_queue_idx cq }} in
      q ← vget (queues_ cq) (queue_idx_ cq);
      if is_in_ref_ cq && bool_decide (queue_idx_ cq ∈ ref_q_indices_ cq)
      then issue_loop n' ch cq st
      else
        '(cmd, st) ← GetFirstReadyInQueue ch cq q st;
        if IsValid cmd then
          if IsReadWrite cmd then cq ← EraseRWCommand cmd cq; Ok (cmd, cq, st)
          else Ok (cmd, cq, st)
        else issue_loop n' ch cq st
  end.
Definition GetCommandToIssue (ch : ChannelState) (cq : CommandQueue) (st : SimpleStats)
    : res (Command * CommandQueue * SimpleStats) :=
  issue_loop (Z.to_nat (num_queues_ cq)) ch cq st.

(** [GetRefQIndices]: the queues a pending refresh blocks. *)
Definition GetRefQIndices (ref : Command) (cq : CommandQueue) : res (gset Z) :=
  if bool_decide (cmd_type ref = REFRESH) then
    if bool_decide (queue_structure_ cq = PER_BANK) then
      for_each (seqZ 0 (num_queues_ cq)) (λ i s,
        x ← int_div i (banks (dramp config));
        Ok (if x =? Rank ref then {[i]} ∪ s else s)) (ref_q_indices_ cq)
    else Ok ({[Rank ref]} ∪ ref_q_indices_ cq)
  else
    i ← cmd_queue_index cq ref; Ok ({[i]} ∪ ref_q_indices_ cq).

(** [FinishRefresh] *)
Definition FinishRefresh (ch : ChannelState) (cq : CommandQueue) : res (Command * CommandQueue) :=
  ref ← PendingRefCommand ch;
  cq ← (if negb (is_in_ref_ cq) then
          s ← GetRefQIndices ref cq; Ok (cq {{ ref_q_indices_ := s; is_in_ref_ := true }})
        else Ok cq);
  cmd ← ChannelState_GetReadyCommand config ch ref (cq_clk cq);
  if IsRefresh cmd then Ok (cmd, cq {{ ref_q_indices_ := ∅; is_in_ref_ := false }})
  else Ok (cmd, cq).

(** ** Well-formed queues *)

(** A command as [Controller::TransToCommand] makes them: a request for data whose
    coordinates are those of its address, to an existing bank. *)
Record request_ok (c : Command) : Prop := {
  rq_rw : is_rw (cmd_type c) = true;
  rq_addr : addr c = AddressMapping (amap config) (hex_addr c);
  rq_grid : in_grid config (Rank c) (Bankgroup c) (Bank c) }.

Record queues_ok (cq : CommandQueue) : Prop := {
  qo_shape : (queue_structure_ cq = PER_RANK ∧ num_queues_ cq = ranks (sizep config)) ∨
    (queue_structure_ cq = PER_BANK ∧ num_queues_ cq = banks (dramp config) * ranks (sizep config) ∧
     num_queues_ cq < 2 ^ 31);
  qo_num : vsize (queues_ cq) = num_queues_ cq;
  qo_idx : 0 ≤ queue_idx_ cq < num_queues_ cq;
  qo_ranks : vsize (rank_q_empty cq) = ranks (sizep config);
  qo_cap : ∀ i q, vget (queues_ cq) i = Ok q → vsize q ≤ queue_size_ cq;
  qo_cmds : ∀ i q c, vget (queues_ cq) i = Ok q → c ∈ q → request_ok c ∧ cmd_queue_index cq c = Ok i }.

Lemma queue_index_ok cq ch r j k :
  queues_ok cq → chan_wf config ch → in_grid config r j k →
  ∃ i, GetQueueIndex (queue_structure_ cq) r j k = Ok i ∧ 0 ≤ i < num_queues_ cq.
Proof.
  intros [[[-> Hn]|(-> & Hn & Hlt)] _ _ _ _ _] W (Hr & Hj & Hk); unfold GetQueueIndex.
  { exists r. split; [done | lia]. }
  rewrite bool_decide_eq_false_2 by done. rewrite (cw_banks _ _ W) in *.
  set (G := bankgroups (dramp config)) in *. set (B := banks_per_group (dramp config)) in *.
  set (R := ranks (sizep config)) in *. assert (0 ≤ j * B + k < G * B) as H1 by nia.
  assert (0 ≤ r * (G * B) + (j * B + k) < G * B * R) as H2 by nia.
  assert (0 ≤ r * (G * B)) by nia. assert (0 ≤ j * B) by nia.
  rewrite (int_chk_Ok (r * (G * B))) by lia. cbn [mbind res_bind].
  rewrite (int_chk_Ok (j * B)) by lia. cbn [mbind res_bind].
  rewrite (int_chk_Ok (r * (G * B) + j * B)) by lia. cbn [mbind res_bind].
  rewrite int_chk_Ok by lia. eexists. split; [done | lia].
Qed.

(** What a request can need next, and that asking never aborts. *)
Lemma ready_total ch c clk :
  chan_wf config ch → is_rw (cmd_type c) = true → in_grid config (Rank c) (Bankgroup c) (Bank c) →
  ∃ r, ChannelState_GetReadyCommand config ch c clk = Ok r ∧
    (IsValid r = true → addr r = addr c ∧ hex_addr r = hex_addr c ∧ (IsReadWrite r = true → r = c)).
Proof.
  intros W Hrw Hin. unfold ChannelState_GetReadyCommand.
  assert (IsRankCMD c = false) as -> by (unfold IsRankCMD; by destruct (cmd_type c)).
  destruct (cw_grid _ _ W _ _ _ Hin) as (b & Hb & Wb). rewrite Hb. cbn [mbind res_bind].
  destruct (GetReadyCommand_total b c clk Wb) as [r Hr]; [by destruct (cmd_type c) | done |].
  rewrite Hr. cbn [mbind res_bind].
  assert (IsValid r = true → addr r = addr c ∧ hex_addr r = hex_addr c ∧ (IsReadWrite r = true → r = c))
    as Hres.
  { intros Hv. destruct (GetReadyCommand_inv _ _ _ _ Hr Hv) as (Hq & Ha & Hh & _).
    split; [done|]. split; [done|]. intros Hx. destruct r as [t a h], c as [t' a' h']. cbn in *. subst a h.
    f_equal. unfold required_type in Hq. cbn in Hq. unfold IsReadWrite, IsRead, IsWrite in Hx. cbn in Hx.
    destruct (state_ b), t'; try discriminate; try destruct (_ =? _) in Hq; by simplify_eq/=. }
  assert (∃ r0, Ok Command_default = Ok r0 ∧ (IsValid r0 = true →
    addr r0 = addr c ∧ hex_addr r0 = hex_addr c ∧ (IsReadWrite r0 = true → r0 = c))) as Hdef
    by (exists Command_default; split; [done | discriminate]).
  assert (∃ r0, Ok r = Ok r0 ∧ (IsValid r0 = true →
    addr r0 = addr c ∧ hex_addr r0 = hex_addr c ∧ (IsReadWrite r0 = true → r0 = c))) as Hr1 by by exists r.
  destruct (IsValid r) eqn:Hv; cbn [negb]; [|done].
  case_bool_decide as Ht; [|done].
  destruct (Hres eq_refl) as (Ha & _). assert (0 ≤ Rank r < ranks (sizep config)) as Hrk
    by (unfold Rank; rewrite Ha; apply Hin).
  destruct (vget_is_Ok (four_aw_ ch) (Rank r)) as [f Hf]; [rewrite (cw_faw_len _ _ W); lia|].
  destruct (vget_is_Ok (thirty_two_aw_ ch) (Rank r)) as [g Hg]; [rewrite (cw_32aw_len _ _ W); lia|].
  unfold ActivationWindowOk. rewrite Hf. cbn [mbind res_bind].
  destruct (IsGDDR _); [destruct (negb _); [|rewrite Hg]|]; cbn [mbind res_bind];
    try destruct (aw_ready _ _ _); cbn [negb]; done.
Qed.

Lemma arbitrate_total ch prev c rest st :
  chan_wf config ch → in_grid config (Rank c) (Bankgroup c) (Bank c) →
  ∃ b st', ArbitratePrecharge ch prev c rest st = Ok (b, st').
Proof.
  intros W Hin. unfold ArbitratePrecharge. case_match; [eauto|].
  destruct (cw_grid _ _ W _ _ _ Hin) as (b & Hb & _). rewrite Hb. cbn [mbind res_bind].
  case_match; eauto.
Qed.

(** The command issued for the queue [q]: the next step of one of its requests, and,
    if it is a write, no older read of the same column is waiting. *)
Definition serves (ch : ChannelState) (clk : Z) (cmd : Command) (q : list Command) : Prop :=
  ∃ p c s, q = p ++ c :: s ∧ ChannelState_GetReadyCommand config ch c clk = Ok cmd ∧
    (IsReadWrite cmd = true → cmd = c) ∧ (IsWrite cmd = true → HasRWDependency p c = false).

Lemma first_ready_spec ch clk prev rest st :
  chan_wf config ch → Forall request_ok rest →
  ∃ cmd st', first_ready ch clk prev rest st = Ok (cmd, st') ∧
    (IsValid cmd = true → ∃ p c s, rest = p ++ c :: s ∧
       ChannelState_GetReadyCommand config ch c clk = Ok cmd ∧ (IsReadWrite cmd = true → cmd = c) ∧
       (IsWrite cmd = true → HasRWDependency (prev ++ p) c = false)).
Proof.
  intros W. revert prev st. induction rest as [|c rest IH]; intros prev st Hall; cbn [first_ready].
  { by exists Command_default, st. }
  apply Forall_cons in Hall as [[Hrw _ Hin] Hall].
  destruct (ready_total ch c clk W Hrw Hin) as (cmd & Hc & Hcv). rewrite Hc. cbn [mbind res_bind].
  assert (∀ st, ∃ cmd st', first_ready ch clk (prev ++ [c]) rest st = Ok (cmd, st') ∧
    (IsValid cmd = true → ∃ p c0 s, c :: rest = p ++ c0 :: s ∧
       ChannelState_GetReadyCommand config ch c0 clk = Ok cmd ∧ (IsReadWrite cmd = true → cmd = c0) ∧
       (IsWrite cmd = true → HasRWDependency (prev ++ p) c0 = false))) as Hnext.
  { intros st0. destruct (IH (prev ++ [c]) st0 Hall) as (cmd' & st' & E & H). exists cmd', st'.
    split; [done|]. intros Hv. destruct (H Hv) as (p & c0 & s & -> & Hr & Hq & Hd).
    exists (c :: p), c0, s. rewrite <- app_assoc in Hd. by split_and!. }
  destruct (IsValid cmd) eqn:Hv; cbn [negb]; [|apply Hnext].
  destruct (Hcv eq_refl) as (_ & _ & Heq).
  case_bool_decide as Ht.
  - destruct (arbitrate_total ch prev c rest st W Hin) as (b & st' & E). rewrite E. cbn [mbind res_bind].
    destruct b; [|apply Hnext]. exists cmd, st'. split; [done|]. intros _. exists [], c, rest.
    split_and!; try done. intros Hw. unfold IsWrite in Hw. by rewrite Ht in Hw.
  - destruct (IsWrite cmd && HasRWDependency prev c) eqn:Hd; [apply Hnext|].
    exists cmd, st. split; [done|]. intros _. exists [], c, rest. rewrite app_nil_r.
    split_and!; try done. intros Hw. by rewrite Hw in Hd.
Qed.

(** Erasing the command that is served. *)
Lemma erase_cmd_spec c q :
  Forall request_ok q → c ∈ q →
  ∃ l1 l2, q = l1 ++ c :: l2 ∧ erase_cmd c q = Some (l1 ++ l2).
Proof.
  intros Hall Hin. assert (request_ok c) as Hc by (by eapply Forall_forall).
  induction q as [|d q IH]; [by apply elem_of_nil in Hin|]. apply Forall_cons in Hall as [Hd Hall].
  cbn [erase_cmd]. destruct (same_request c d) eqn:E.
  - unfold same_request in E. apply andb_prop in E as [E1 E2].
    apply Z.eqb_eq in E1. apply bool_decide_eq_true in E2.
    assert (c = d) as ->; [|by exists [], q].
    destruct Hc as [_ Ha _], Hd as [_ Hb _]. destruct c, d; cbn in *. congruence.
  - apply elem_of_cons in Hin as [->|Hin].
    { unfold same_request in E. rewrite Z.eqb_refl, bool_decide_eq_true_2 in E by done. done. }
    destruct (IH Hall Hin) as (l1 & l2 & -> & E'). exists (d :: l1), l2. by rewrite E'.
Qed.

(** One pass of the round robin. *)
Record issued (ch : ChannelState) (cq : CommandQueue) (cmd : Command) (cq' : CommandQueue) : Prop := {
  is_served : IsValid cmd = true → ∃ i q, vget (queues_ cq) i = Ok q ∧
    (is_in_ref_ cq = true → i ∉ ref_q_indices_ cq) ∧ serves ch (cq_clk cq) cmd q ∧
    (IsReadWrite cmd = true → ∃ l1 l2, q = l1 ++ cmd :: l2 ∧
      queues_ cq' = <[Z.to_nat i := l1 ++ l2]> (queues_ cq));
  is_kept : IsValid cmd && IsReadWrite cmd = false → queues_ cq' = queues_ cq;
  is_frame : rank_q_empty cq' = rank_q_empty cq ∧ queue_structure_ cq' = queue_structure_ cq ∧
    ref_q_indices_ cq' = ref_q_indices_ cq ∧ is_in_ref_ cq' = is_in_ref_ cq ∧
    num_queues_ cq' = num_queues_ cq ∧ queue_size_ cq' = queue_size_ cq ∧ cq_clk cq' = cq_clk cq;
  is_idx : 0 ≤ queue_idx_ cq' < num_queues_ cq }.

(** Erasing commands keeps the queues well-formed. *)
Lemma queues_ok_erase cq cq' i l1 c l2 :
  queues_ok cq → vget (queues_ cq) i = Ok (l1 ++ c :: l2) →
  queues_ cq' = <[Z.to_nat i := l1 ++ l2]> (queues_ cq) →
  rank_q_empty cq' = rank_q_empty cq → queue_structure_ cq' = queue_structure_ cq →
  num_queues_ cq' = num_queues_ cq → queue_size_ cq' = queue_size_ cq →
  0 ≤ queue_idx_ cq' < num_queues_ cq → queues_ok cq'.
Proof.
  intros [H1 H2 H3 H4 H5 H6] Hg E1 E2 E3 E4 E5 Hi. pose proof (vget_range _ _ _ Hg) as Hr.
  split; rewrite ?E1, ?E2, ?E3, ?E4, ?E5, ?vsize_insert; try done.
  - intros j q. rewrite vget_insert by done. case_decide as Ej; [|apply H5].
    intros [= <-]. apply H5 in Hg. rewrite vsize_app, vsize_cons in Hg. rewrite vsize_app. lia.
  - intros j q d. rewrite vget_insert by done. unfold cmd_queue_index. rewrite E3.
    case_decide as Ej; [|apply H6]. intros [= <-] Hd. subst j. apply (H6 i (l1 ++ c :: l2) d Hg). set_solver.
Qed.

Lemma queues_ok_frame cq cq' :
  queues_ok cq → queues_ cq' = queues_ cq → rank_q_empty cq' = rank_q_empty cq →
  queue_structure_ cq' = queue_structure_ cq → num_queues_ cq' = num_queues_ cq →
  queue_size_ cq' = queue_size_ cq → 0 ≤ queue_idx_ cq' < num_queues_ cq → queues_ok cq'.
Proof.
  intros [H1 H2 H3 H4 H5 H6] E1 E2 E3 E4 E5 Hi.
  split; rewrite ?E1, ?E2, ?E3, ?E4, ?E5; try done. intros i q c. unfold cmd_queue_index. rewrite E3. apply H6.
Qed.

Lemma issued_ok ch cq cmd cq' : queues_ok cq → issued ch cq cmd cq' → queues_ok cq'.
Proof.
  intros Hq [Hs Hk (F1 & F2 & F3 & F4 & F5 & F6 & F7) Hi].
  destruct (IsValid cmd && IsReadWrite cmd) eqn:E.
  - apply andb_prop in E as [Hv Hrw]. destruct (Hs Hv) as (i & q & Hg & _ & _ & Hr).
    destruct (Hr Hrw) as (l1 & l2 & -> & E'). by eapply queues_ok_erase.
  - by apply (queues_ok_frame cq); [| apply Hk |..].
Qed.

Lemma next_idx_ok cq : queues_ok cq → 0 ≤ next_queue_idx cq < num_queues_ cq.
Proof.
  intros Hq. pose proof (qo_idx _ Hq). unfold next_queue_idx.
  destruct (Z.eqb_spec (queue_idx_ cq + 1) (num_queues_ cq)); lia.
Qed.

Lemma queue_requests cq i q :
  queues_ok cq → vget (queues_ cq) i = Ok q → Forall request_ok q.
Proof. intros Hq Hg. apply Forall_forall. intros c Hc. by destruct (qo_cmds _ Hq i q c Hg Hc). Qed.

Lemma issue_loop_ok n ch cq st :
  chan_wf config ch → queues_ok cq →
  ∃ cmd cq' st', issue_loop n ch cq st = Ok (cmd, cq', st') ∧ issued ch cq cmd cq'.
Proof.
  intros W. revert cq st. induction n as [|n IH]; intros cq st Hq; cbn [issue_loop].
  { exists Command_default, cq, st. split; [done|]. split; try done. apply Hq. }
  set (cq1 := cq {{ queue_idx_ := next_queue_idx cq }}). pose proof (next_idx_ok cq Hq) as Hi.
  assert (queues_ok cq1) as Hq1 by (apply (queues_ok_frame cq); by destruct cq).
  assert (queues_ cq1 = queues_ cq ∧ queue_idx_ cq1 = next_queue_idx cq ∧ is_in_ref_ cq1 = is_in_ref_ cq
    ∧ ref_q_indices_ cq1 = ref_q_indices_ cq ∧ cq_clk cq1 = cq_clk cq ∧ num_queues_ cq1 = num_queues_ cq ∧
    queue_structure_ cq1 = queue_structure_ cq ∧ rank_q_empty cq1 = rank_q_empty cq ∧
    queue_size_ cq1 = queue_size_ cq)
    as (F1 & F2 & F3 & F4 & F5 & F6 & F7 & F8 & F9) by by destruct cq.
  destruct (vget_is_Ok (queues_ cq1) (queue_idx_ cq1)) as [q Hg];
    [rewrite F2, (qo_num _ Hq1), F6; lia|]. rewrite Hg. cbn [mbind res_bind].
  assert (∀ st, ∃ cmd cq' st', issue_loop n ch cq1 st = Ok (cmd, cq', st') ∧ issued ch cq cmd cq') as Hnext.
  { intros st0. destruct (IH cq1 st0 Hq1) as (cmd & cq' & st' & E & [I1 I2 I3 I4]).
    exists cmd, cq', st'. split; [done|]. rewrite ?F1, ?F3, ?F4, ?F5, ?F6, ?F7, ?F8, ?F9 in *. by split. }
  destruct (is_in_ref_ cq1 && bool_decide (queue_idx_ cq1 ∈ ref_q_indices_ cq1)) eqn:Hb; [apply Hnext|].
  destruct (first_ready_spec ch (cq_clk cq1) [] q st W (queue_requests _ _ _ Hq1 Hg)) as (cmd & st' & E & Hs).
  unfold GetFirstReadyInQueue. rewrite E. cbn [mbind res_bind]. destruct (IsValid cmd) eqn:Hv; [|apply Hnext].
  destruct (Hs eq_refl) as (p & c & s & Eq & Hr & Hrw & Hd).
  assert (is_in_ref_ cq = true → queue_idx_ cq1 ∉ ref_q_indices_ cq) as Hnb.
  { intros Hx. rewrite F3, Hx, F4 in Hb. cbn [andb] in Hb. by apply bool_decide_eq_false in Hb. }
  assert (serves ch (cq_clk cq) cmd q) as Hserve by (exists p, c, s; by rewrite <- F5).
  rewrite F1 in Hg. destruct (IsReadWrite cmd) eqn:Hx.
  - rewrite (Hrw eq_refl) in *. assert (c ∈ q) as Hc by (rewrite Eq; set_solver).
    destruct (erase_cmd_spec c q (queue_requests _ _ _ Hq Hg) Hc) as (l1 & l2 & Eq' & Ee).
    unfold EraseRWCommand. rewrite <- F1 in Hg. destruct (qo_cmds _ Hq1 _ _ _ Hg Hc) as [_ ->]. cbn [mbind res_bind].
    rewrite (vmod_Ok (queues_ cq1) _ _ q (l1 ++ l2)) by (done || by rewrite Ee). cbn [mbind res_bind].
    eexists c, _, st'. split; [done|]. rewrite F1 in Hg. split.
    + intros _. exists (queue_idx_ cq1), q. split_and!; try done. intros _. exists l1, l2. split; [done|].
      by destruct cq.
    + by rewrite Hv, Hx.
    + by destruct cq.
    + by destruct cq.
  - exists cmd, cq1, st'. split; [done|]. split.
    + intros _. exists (queue_idx_ cq1), q. split_and!; try done. by rewrite Hx.
    + intros _. by rewrite F1.
    + by destruct cq.
    + by rewrite F2.
Qed.

(** Adding a request, in place of a queue that has room. *)
Lemma AddCommand_ok ch cq c :
  chan_wf config ch → queues_ok cq → request_ok c →
  ∃ i q, cmd_queue_index cq c = Ok i ∧ vget (queues_ cq) i = Ok q ∧
    WillAcceptCommand cq (Rank c) (Bankgroup c) (Bank c) = Ok (vsize q <? queue_size_ cq) ∧
    (vsize q < queue_size_ cq → ∃ cq', AddCommand c cq = Ok (true, cq') ∧ queues_ok cq' ∧
       queues_ cq' = <[Z.to_nat i := q ++ [c]]> (queues_ cq) ∧ is_in_ref_ cq' = is_in_ref_ cq ∧
       ref_q_indices_ cq' = ref_q_indices_ cq ∧ cq_clk cq' = cq_clk cq).
Proof.
  intros W Hq Hc. destruct (queue_index_ok cq ch _ _ _ Hq W (rq_grid _ Hc)) as (i & Ei & Hi).
  destruct (vget_is_Ok (queues_ cq) i) as [q Hg]; [by rewrite (qo_num _ Hq)|].
  exists i, q. split; [done|]. split; [done|]. unfold WillAcceptCommand, AddCommand, cmd_queue_index.
  rewrite Ei. cbn [mbind res_bind]. rewrite Hg. cbn [mbind res_bind]. split; [done|]. intros Hlt.
  destruct (Z.ltb_spec (vsize q) (queue_size_ cq)); [|lia].
  rewrite (vset_Ok (queues_ cq)) by (by rewrite (qo_num _ Hq)). cbn [mbind res_bind].
  assert (0 ≤ Rank c < ranks (sizep config)) as Hr by apply Hc.
  rewrite (vset_Ok (rank_q_empty cq)) by (by rewrite (qo_ranks _ Hq)). cbn [mbind res_bind].
  eexists. split; [done|]. split; [|by destruct cq].
  pose proof (vget_range _ _ _ Hg) as Hr'. destruct Hq as [H1 H2 H3 H4 H5 H6].
  destruct cq as [e s qs ri ir n z x k]. cbn in *. split; cbn; rewrite ?vsize_insert; try done.
  - intros j r. rewrite vget_insert by done. case_decide as Ej; [|apply H5].
    intros [= <-]. rewrite vsize_app, vsize_cons. change (vsize (@nil Command)) with 0. lia.
  - intros j r d. rewrite vget_insert by done. case_decide as Ej; [|apply H6].
    intros [= <-] [Hd|Hd]%elem_of_app; [subst j; by apply (H6 i q)|].
    apply list_elem_of_singleton in Hd as ->. by subst j.
Qed.

Lemma for_each_total {A S} (l : list A) (body : A → S → res S) s :
  (∀ x s, x ∈ l → ∃ s', body x s = Ok s') → ∃ s', for_each l body s = Ok s'.
Proof.
  revert s. induction l as [|x l IH]; intros s Hb; [by exists s|]. cbn [for_each].
  destruct (Hb x s) as [s' ->]; [set_solver|]. apply IH. set_solver.
Qed.

Lemma new_queues_ok cq :
  new_CommandQueue = Ok cq → 0 < ranks (sizep config) → 0 < num_queues_ cq → queues_ok cq.
Proof.
  unfold new_CommandQueue. intros E Hr Hn. apply bind_Ok_inv in E as ([qs n] & En & E).
  destruct ((n <? 0) || (cmd_queue_size (sysp config) <? 0)) eqn:Hneg; [done|]. injection E as <-.
  apply orb_false_elim in Hneg as [Hn0%Z.ltb_ge _]. cbn in Hn.
  assert (∀ A (x : A) m, 0 ≤ m → vsize (replicate (Z.to_nat m) x) = m) as Hsz
    by (intros; unfold vsize; rewrite length_replicate; lia).
  assert (∀ i q, vget (replicate (Z.to_nat n) ([] : list Command)) i = Ok q → q = []) as Hg.
  { intros i q [_ Hq]%vget_lookup. apply lookup_replicate in Hq. by destruct Hq. }
  split; cbn; try (apply Hsz; lia); try lia.
  - case_bool_decide; [|case_bool_decide; [|done]].
    + apply bind_Ok_inv in En as (m & Hm & En). injection En as <- <-. apply int_chk_inv in Hm as [-> Hm].
      right. split_and!; [done..|lia].
    + injection En as <- <-. by left.
  - intros i q ->%Hg. apply u64_range.
  - intros i q c ->%Hg Hc. by apply elem_of_nil in Hc.
Qed.

(** A pending refresh addresses existing banks. *)
Definition refresh_ok (c : Command) : Prop :=
  (cmd_type c = REFRESH ∧ 0 ≤ Rank c < ranks (sizep config)) ∨
  (cmd_type c = REFRESH_BANK ∧ in_grid config (Rank c) (Bankgroup c) (Bank c)).

Lemma ref_indices_ok ch cq ref :
  chan_wf config ch → queues_ok cq → refresh_ok ref → ∃ s, GetRefQIndices ref cq = Ok s.
Proof.
  intros W Hq [[Ht Hr]|[Ht Hin]]; unfold GetRefQIndices; rewrite Ht.
  - rewrite bool_decide_eq_true_2 by done. case_bool_decide as Hb; [|by eexists].
    assert (0 < banks (dramp config)) as Hpos.
    { rewrite (cw_banks _ _ W). destruct (cw_pos _ _ W). by apply Z.mul_pos_pos. }
    assert (num_queues_ cq < 2 ^ 31) as Hlt.
    { destruct (qo_shape _ Hq) as [[E _]|(_ & _ & H)]; [by rewrite E in Hb | done]. }
    apply for_each_total. intros x s Hx%elem_of_seqZ. unfold int_div.
    destruct (Z.eqb_spec (banks (dramp config)) 0); [lia|].
    rewrite int_chk_Ok; [by eexists|]. rewrite Z.quot_div_nonneg by lia.
    pose proof (Z.div_le_upper_bound x (banks (dramp config)) x).
    pose proof (Z.div_pos x (banks (dramp config))). nia.
  - rewrite bool_decide_eq_false_2 by done.
    destruct (queue_index_ok cq ch _ _ _ Hq W Hin) as (i & Ei & _). unfold cmd_queue_index.
    rewrite Ei. by eexists.
Qed.

(** ** Idle cycles *)

(** Why a request [c], with [p] before it in its queue and [q] after it, is passed over:
    its next step is not ready; or it would close a row, and an earlier request addresses
    the bank, or the row has served fewer than four hits and is wanted by a request from
    here on; or it is a write, and an earlier read of its column waits. *)
Definition held_back (ch : ChannelState) (clk : Z) (p : list Command) (c : Command) (q : list Command) : Prop :=
  ∃ r, ChannelState_GetReadyCommand config ch c clk = Ok r ∧
  (IsValid r = false ∨
   cmd_type r = PRECHARGE ∧
     ((∃ x, x ∈ p ∧ same_bank_cmd x c = true) ∨
      ∃ b x, bank_at (bank_states_ ch) (Rank c) (Bankgroup c) (Bank c) = Ok b ∧ RowHitCount b < 4 ∧
        x ∈ c :: q ∧ same_bank_cmd x c = true ∧ Row x = OpenRow b) ∨
   IsWrite r = true ∧ ∃ x, x ∈ p ∧ IsRead x = true ∧
     (Row x, Column x, Bank x, Bankgroup x) = (Row c, Column c, Bank c, Bankgroup c)).

(** Every request of a queue is passed over. *)
Definition stalled (ch : ChannelState) (clk : Z) (q : list Command) : Prop :=
  ∀ p c s, q = p ++ c :: s → held_back ch clk p c s.

Definition blocked (cq : CommandQueue) (i : Z) : Prop :=
  is_in_ref_ cq = true ∧ i ∈ ref_q_indices_ cq.

Lemma next_idx_mod cq k :
  queues_ok cq → 0 ≤ k → (next_queue_idx cq + k) mod num_queues_ cq = (queue_idx_ cq + 1 + k) mod num_queues_ cq.
Proof.
  intros Hq Hk. unfold next_queue_idx. destruct (Z.eqb_spec (queue_idx_ cq + 1) (num_queues_ cq)) as [->|]; [|done].
  replace (num_queues_ cq + k) with (0 + k + 1 * num_queues_ cq) by lia.
  by rewrite Z.mod_add by (pose proof (qo_idx _ Hq); lia).
Qed.

Lemma existsb_iff {A} (f : A → bool) l : existsb f l = true ↔ ∃ x, x ∈ l ∧ f x = true.
Proof. rewrite existsb_exists. by setoid_rewrite list_elem_of_In. Qed.

Lemma arbitrate_iff ch prev c rest st ok st' :
  ArbitratePrecharge ch prev c rest st = Ok (ok, st') →
  ok = false ↔ (∃ x, x ∈ prev ∧ same_bank_cmd x c = true) ∨
    ∃ b x, bank_at (bank_states_ ch) (Rank c) (Bankgroup c) (Bank c) = Ok b ∧ RowHitCount b < 4 ∧
      x ∈ c :: rest ∧ same_bank_cmd x c = true ∧ Row x = OpenRow b.
Proof.
  unfold ArbitratePrecharge. destruct (existsb (λ p, same_bank_cmd p c) prev) eqn:Hp.
  { intros [= <- _]. apply existsb_iff in Hp. split; [by left | done]. }
  assert (¬ ∃ x, x ∈ prev ∧ same_bank_cmd x c = true) as Hn by (intros H%(existsb_iff (λ p, same_bank_cmd p c)); congruence).
  intros (b & Hb & E)%bind_Ok_inv. assert (existsb (λ p, (Row p =? OpenRow b) && same_bank_cmd p c) (c :: rest) = true ↔
    ∃ x, x ∈ c :: rest ∧ same_bank_cmd x c = true ∧ Row x = OpenRow b) as Hh.
  { rewrite existsb_iff. split.
    - intros (x & H1 & [H2%Z.eqb_eq H3]%andb_prop). by exists x.
    - intros (x & H1 & H2 & H3). exists x. split; [done|]. by rewrite H2, H3, Z.eqb_refl. }
  assert (ok = false ↔ (∃ x, x ∈ c :: rest ∧ same_bank_cmd x c = true ∧ Row x = OpenRow b) ∧ RowHitCount b < 4) as ->.
  { rewrite <- Hh. destruct (existsb (λ p, (Row p =? OpenRow b) && same_bank_cmd p c) (c :: rest)), (Z.leb_spec 4 (RowHitCount b));
      cbn [negb orb] in E; injection E as <- _; split; try done; [lia..|by intros []]. }
  split.
  - intros [(x & Hx) H4]. right. exists b, x. tauto.
  - intros [?|(b' & x & Hb' & H4 & Hx)]; [done|]. rewrite Hb in Hb'. injection Hb' as <-. split; [by exists x | done].
Qed.

Lemma dependency_iff prev c :
  HasRWDependency prev c = true ↔ ∃ x, x ∈ prev ∧ IsRead x = true ∧
    (Row x, Column x, Bank x, Bankgroup x) = (Row c, Column c, Bank c, Bankgroup c).
Proof.
  unfold HasRWDependency. rewrite existsb_iff. unfold rw_dependency.
  split; intros (x & Hx & H); exists x; (split; [done|]).
  - rewrite !andb_true_iff, !Z.eqb_eq in H. destruct H as ((((H1 & H2) & H3) & H4) & H5). split; [done | congruence].
  - rewrite !andb_true_iff, !Z.eqb_eq. destruct H as [H1 [= H2 H3 H4 H5]]. by split_and!.
Qed.

(** A request is passed over for one of these reasons, and else its step is taken. *)
Lemma first_ready_cons ch clk prev c rest st cmd st' :
  first_ready ch clk prev (c :: rest) st = Ok (cmd, st') →
  (held_back ch clk prev c rest ∧ ∃ st1, first_ready ch clk (prev ++ [c]) rest st1 = Ok (cmd, st')) ∨
  (¬ held_back ch clk prev c rest ∧ IsValid cmd = true).
Proof.
  cbn [first_ready]. intros (r & Hr & E)%bind_Ok_inv. unfold held_back.
  destruct (IsValid r) eqn:Hv; cbn [negb] in E; [|left; split; [by exists r; auto | by eexists]].
  assert (∀ Q, (∃ r', ChannelState_GetReadyCommand config ch c clk = Ok r' ∧ Q r') → Q r) as Huniq
    by (intros Q (r' & Hr' & HQ); rewrite Hr in Hr'; by injection Hr' as ->).
  case_bool_decide as Ht.
  - apply bind_Ok_inv in E as ([ok st1] & Ea & E). pose proof (arbitrate_iff _ _ _ _ _ _ _ Ea) as Hok.
    destruct ok; [right | left].
    + injection E as <- <-. split; [|done]. intros H%Huniq. destruct H as [H|[[_ H]|[H _]]]; [congruence | by apply Hok in H |].
      unfold IsWrite in H. by rewrite Ht in H.
    + split; [|by eexists]. exists r. split; [done|]. right. left. split; [done|]. by apply Hok.
  - pose proof (dependency_iff prev c) as Hd. destruct (IsWrite r) eqn:Hw, (HasRWDependency prev c) eqn:Hdep; cbn [andb] in E.
    { left. split; [|by eexists]. exists r. split; [done|]. right. right. split; [done|]. by apply Hd. }
    all: right; injection E as <- <-; split; [|done]; intros H%Huniq; destruct H as [H|[[H _]|[H H']]]; try congruence.
    apply Hd in H'. congruence.
Qed.

Lemma first_ready_idle ch clk prev rest st cmd st' :
  first_ready ch clk prev rest st = Ok (cmd, st') →
  IsValid cmd = false ↔ ∀ p c s, rest = p ++ c :: s → held_back ch clk (prev ++ p) c s.
Proof.
  revert prev st. induction rest as [|c rest IH]; intros prev st E.
  { cbn in E. injection E as <- _. split; [|done]. by intros _ [] ? ?. }
  destruct (first_ready_cons _ _ _ _ _ _ _ _ E) as [[Hh [st1 E1]]|[Hh Hv]].
  - rewrite (IH _ _ E1). split.
    + intros H [|x p] c' s [= <- ->]; [by rewrite app_nil_r|]. specialize (H p c' s eq_refl). by rewrite <- app_assoc in H.
    + intros H p c' s ->. rewrite <- app_assoc. by apply (H (c :: p)).
  - split; [congruence|]. intros H. destruct Hh. specialize (H [] c rest eq_refl). by rewrite app_nil_r in H.
Qed.

(** The [n] queues after the current one were visited in vain. *)
Lemma issue_loop_idle n ch cq st cmd cq' st' :
  queues_ok cq → issue_loop n ch cq st = Ok (cmd, cq', st') →
  IsValid cmd = false ↔
  ∀ k, 0 ≤ k < Z.of_nat n → let i := (queue_idx_ cq + 1 + k) mod num_queues_ cq in
  blocked cq i ∨ ∃ q, vget (queues_ cq) i = Ok q ∧ stalled ch (cq_clk cq) q.
Proof.
  revert cq st. induction n as [|n IH]; intros cq st Hq E; cbn [issue_loop] in E.
  { injection E as <- _ _. split; [lia | done]. }
  set (cq1 := cq {{ queue_idx_ := next_queue_idx cq }}) in E. pose proof (next_idx_ok cq Hq) as Hi.
  assert (queues_ok cq1) as Hq1 by (apply (queues_ok_frame cq); by destruct cq).
  set (idle := λ k, let i := (queue_idx_ cq + 1 + k) mod num_queues_ cq in
    blocked cq i ∨ ∃ q, vget (queues_ cq) i = Ok q ∧ stalled ch (cq_clk cq) q).
  change (IsValid cmd = false ↔ ∀ k, 0 ≤ k < Z.of_nat (S n) → idle k).
  assert (∀ st, issue_loop n ch cq1 st = Ok (cmd, cq', st') → idle 0 →
    IsValid cmd = false ↔ ∀ k, 0 ≤ k < Z.of_nat (S n) → idle k) as Hrest.
  { intros st0 E0 H0. rewrite (IH cq1 st0 Hq1 E0).
    assert (∀ j, 0 ≤ j → (queue_idx_ cq1 + 1 + j) mod num_queues_ cq1 = (queue_idx_ cq + 1 + (j + 1)) mod num_queues_ cq) as Hj.
    { intros j Hj. rewrite <- (next_idx_mod cq (j + 1) Hq) by lia. destruct cq. cbn. f_equal. lia. }
    split; intros H k Hk.
    - destruct (decide (k = 0)) as [->|]; [done|]. specialize (H (k - 1) ltac:(lia)). cbv zeta in H.
      rewrite Hj, Z.sub_add in H by lia. by destruct cq.
    - cbv zeta. rewrite Hj by lia. specialize (H (k + 1) ltac:(lia)). by destruct cq. }
  assert ((queue_idx_ cq + 1 + 0) mod num_queues_ cq = next_queue_idx cq) as E0.
  { rewrite <- (next_idx_mod cq 0 Hq), Z.add_0_r by lia. by apply Z.mod_small. }
  apply bind_Ok_inv in E as (q & Hg & E). assert (vget (queues_ cq) (next_queue_idx cq) = Ok q) as Hg' by by destruct cq.
  assert (is_in_ref_ cq1 = is_in_ref_ cq ∧ ref_q_indices_ cq1 = ref_q_indices_ cq ∧ queue_idx_ cq1 = next_queue_idx cq ∧
    cq_clk cq1 = cq_clk cq) as (F1 & F2 & F3 & F4) by by destruct cq. rewrite F1, F2, F3 in E.
  destruct (is_in_ref_ cq && bool_decide (next_queue_idx cq ∈ ref_q_indices_ cq)) eqn:Hb.
  - apply (Hrest _ E). left. rewrite E0. apply andb_prop in Hb as [H1 H2%bool_decide_eq_true]. by split.
  - apply bind_Ok_inv in E as ([c st1] & Ef & E). unfold GetFirstReadyInQueue in Ef. rewrite F4 in Ef.
    assert (IsValid c = false ↔ stalled ch (cq_clk cq) q) as Hst by exact (first_ready_idle _ _ _ _ _ _ _ Ef). destruct (IsValid c) eqn:Hc.
    + assert (cmd = c) as -> by (destruct (IsReadWrite c); [apply bind_Ok_inv in E as (? & _ & E)|]; by injection E as <- _ _).
      split; [congruence|]. intros H. specialize (H 0 ltac:(lia)). unfold idle in H. rewrite E0 in H. destruct H as [[H1 H2]|(q' & Hq' & H)].
      * rewrite H1, bool_decide_eq_true_2 in Hb by done. done.
      * rewrite Hg' in Hq'. injection Hq' as <-. discriminate (proj2 Hst H).
    + apply (Hrest _ E). right. rewrite E0. exists q. split; [done|]. exact (proj1 Hst eq_refl).
Qed.

(** ** Properties *)

(** C11: one round of the command queues.  On well-formed queues the round ends, without
    abort, and keeps them well-formed; it issues only the next step of a request that
    waits in a queue no refresh blocks and whose step the channel declares ready; a
    read or write that is issued is exactly that request, is removed from its queue
    and is the only one removed; and no write is issued before an older read of its
    column. *)
Theorem issue_serves_requests ch cq st :
  chan_wf config ch → queues_ok cq →
  ∃ cmd cq' st', GetCommandToIssue ch cq st = Ok (cmd, cq', st') ∧ queues_ok cq' ∧ issued ch cq cmd cq'.
Proof.
  intros W Hq. destruct (issue_loop_ok (Z.to_nat (num_queues_ cq)) ch cq st W Hq) as (cmd & cq' & st' & E & H).
  exists cmd, cq', st'. split; [done|]. split; [by eapply issued_ok | done].
Qed.

(** C30: the queues idle only when nothing can go, and only then.  A round that ends
    issues nothing exactly when every request of every queue that no refresh blocks is
    held back: the channel does not declare its next step ready; or that step would close
    its bank's row, and an earlier request of the queue addresses the bank, or the row has
    served fewer than four hits and is wanted by this request or a later one; or it is a
    write, and an earlier read of its column waits. *)
Theorem idle_round_justified ch cq st cmd cq' st' :
  queues_ok cq → GetCommandToIssue ch cq st = Ok (cmd, cq', st') →
  IsValid cmd = false ↔
  ∀ i p c q, vget (queues_ cq) i = Ok (p ++ c :: q) → ¬ blocked cq i → held_back ch (cq_clk cq) p c q.
Proof.
  intros Hq E. pose proof (qo_idx _ Hq) as Hx. unfold GetCommandToIssue in E. rewrite (issue_loop_idle _ _ _ _ _ _ _ Hq E).
  rewrite Z2Nat.id by lia. split.
  - intros H i p c q Hg Hnb. pose proof (vget_range _ _ _ Hg) as Hi. rewrite (qo_num _ Hq) in Hi.
    specialize (H ((i - queue_idx_ cq - 1) mod num_queues_ cq) ltac:(apply Z.mod_pos_bound; lia)). cbv zeta in H.
    rewrite Zplus_mod_idemp_r in H. replace (queue_idx_ cq + 1 + (i - queue_idx_ cq - 1)) with i in H by lia.
    rewrite Z.mod_small in H by done. destruct H as [H|(q' & Hq' & H)]; [done|].
    rewrite Hg in Hq'. injection Hq' as <-. by apply H.
  - intros H k Hk. cbv zeta. set (i := (queue_idx_ cq + 1 + k) mod num_queues_ cq).
    assert (0 ≤ i < num_queues_ cq) by (apply Z.mod_pos_bound; lia).
    destruct (decide (is_in_ref_ cq = true ∧ i ∈ ref_q_indices_ cq)) as [Hb|Hb]; [by left | right].
    destruct (vget_is_Ok (queues_ cq) i) as (q & Hg); [by rewrite (qo_num _ Hq)|].
    exists q. split; [done|]. intros p c s ->. by eapply H.
Qed.
End Queues.

(** ** Concrete runs *)

Definition ex_request (h : Z) : Command := mkCommand READ (AddressMapping ex_map h) h.

Definition ex_empty_queue : CommandQueue :=
  mkCmdQueue [true; true] PER_BANK (replicate 8 []) ∅ false 8 8 0 30.

Definition ex_cmd_queue : CommandQueue :=
  match AddCommand ex_config (ex_request 64) ex_empty_queue with Ok (_, cq) => cq | Err _ => ex_empty_queue end.

Lemma ex_request_ok : request_ok ex_config (ex_request 64).
Proof. split; [done | done | vm_compute; split_and!; congruence]. Qed.

Lemma ex_empty_queue_ok : queues_ok ex_config ex_empty_queue.
Proof.
  assert (∃ cq, new_CommandQueue ex_config = Ok cq) as [cq E] by (by eexists; vm_compute).
  assert (queues_ok ex_config cq) as H.
  { apply new_queues_ok; [done|done|]. vm_compute in E. injection E as <-. reflexivity. }
  vm_compute in E. injection E as <-. by apply (queues_ok_frame ex_config _ ex_empty_queue H).
Qed.

Lemma ex_cmd_queue_ok : queues_ok ex_config ex_cmd_queue.
Proof.
  destruct (AddCommand_ok ex_config (new_ChannelState ex_config) ex_empty_queue (ex_request 64))
    as (i & q & Ei & Hg & _ & H); [apply ex_chan_wf | apply ex_empty_queue_ok | apply ex_request_ok |].
  assert (cmd_queue_index ex_config ex_empty_queue (ex_request 64) = Ok 0) as E0 by (vm_compute; reflexivity).
  rewrite Ei in E0. injection E0 as ->. injection Hg as <-.
  destruct (H ltac:(done)) as (cq' & E & Hq & _). unfold ex_cmd_queue. by rewrite E.
Qed.

Lemma issue_serves_requests_witness :
  ∃ cmd cq' st', GetCommandToIssue ex_config (new_ChannelState ex_config) ex_cmd_queue (new_SimpleStats 2)
    = Ok (cmd, cq', st') ∧ cmd_type cmd = ACTIVATE ∧ queues_ok ex_config cq'.
Proof.
  destruct (issue_serves_requests ex_config (new_ChannelState ex_config) ex_cmd_queue (new_SimpleStats 2))
    as (cmd & cq' & st' & E & H & _); [apply ex_chan_wf | apply ex_cmd_queue_ok |].
  exists cmd, cq', st'. split; [exact E|]. split; [|exact H].
  destruct (ok_field (λ r, cmd_type r.1.1) (GetCommandToIssue ex_config (new_ChannelState ex_config) ex_cmd_queue
    (new_SimpleStats 2)) ACTIVATE) as (r & Er & Hr); [vm_compute; reflexivity|].
  rewrite E in Er. injection Er as <-. exact Hr.
Defined.

(** Four cycles after an activation the read of the same row has to wait. *)
Definition ex_activated : ChannelState :=
  match UpdateTimingAndStates ex_config (mkCommand ACTIVATE (AddressMapping ex_map 64) 64) 26
          (new_ChannelState ex_config) with Ok ch => ch | Err _ => new_ChannelState ex_config end.

Lemma ex_activated_wf : chan_wf ex_config ex_activated.
Proof.
  destruct ex_chan_wf as [W Hh]. destruct (rq_grid _ _ ex_request_ok) as (H1 & H2 & H3).
  destruct (apply_ready ex_config (new_ChannelState ex_config) (ex_request 64) 26
    (mkCommand ACTIVATE (AddressMapping ex_map 64) 64) W Hh) as (Hin & st1 & E1 & W1);
    [by split_and! | by vm_compute | done |].
  destruct (UpdateTiming_ok ex_config st1 (mkCommand ACTIVATE (AddressMapping ex_map 64) 64) 26 W1)
    as (st2 & E2 & L2 & _); [done | done |].
  assert (ex_activated = st2) as -> by (unfold ex_activated, UpdateTimingAndStates; by rewrite E1; cbn [mbind res_bind]; rewrite E2).
  by eapply chan_wf_le.
Qed.

Lemma idle_round_justified_witness :
  ∃ cmd cq' st', GetCommandToIssue ex_config ex_activated ex_cmd_queue (new_SimpleStats 2)
    = Ok (cmd, cq', st') ∧ IsValid cmd = false ∧ held_back ex_config ex_activated 30 [] (ex_request 64) [].
Proof.
  destruct (ok_field (λ r, IsValid r.1.1) (GetCommandToIssue ex_config ex_activated ex_cmd_queue (new_SimpleStats 2)) false)
    as ([[cmd cq'] st'] & E & Hv); [vm_compute; reflexivity|].
  exists cmd, cq', st'. split; [exact E|]. split; [exact Hv|].
  destruct (idle_round_justified ex_config ex_activated ex_cmd_queue (new_SimpleStats 2) cmd cq' st' ex_cmd_queue_ok E) as [H _].
  apply (H Hv 0 [] (ex_request 64) []); [vm_compute; reflexivity|]. intros [Hb _]. vm_compute in Hb. discriminate.
Defined.
