(* ===== verification/ChannelRun.v ===== *)
(** * Commands on a channel that is awake (DRAMsim3/src/channel_state.cc)

    What the controller needs of its channel, with no rank in self-refresh: asking for
    the next step of a request or of a pending refresh never aborts, and the step it
    answers with can be applied, keeps every rank awake and raises each hit counter by
    at most one. *)

From S2P Require Import Prelude DramCommon DramConfig BankState Timing ChannelState ChannelProps.
From S2P Require Import Refresh CommandQueue.

Open Scope Z_scope.

Section Run.
Variable config : Config.

(** ** Hit counters *)

(** The banks of [bs'] are those of [bs], with at most [n] more hits. *)
Definition hits_grow (n : Z) (bs bs' : grid) : Prop :=
  ∀ r j k b', bank_at bs' r j k = Ok b' →
  ∃ b, bank_at bs r j k = Ok b ∧ row_hit_count_ b' ≤ Z.max 0 (row_hit_count_ b) + n.

#[global] Instance hits_grow_preorder : PreOrder (hits_grow 0).
Proof.
  split.
  - intros bs r j k b Hb. exists b. split; [done | lia].
  - intros b1 b2 b3 H12 H23 r j k b Hb. destruct (H23 _ _ _ _ Hb) as (b' & Hb' & ?).
    destruct (H12 _ _ _ _ Hb') as (b'' & Hb'' & ?). exists b''. split; [done | lia].
Qed.

Lemma hits_grow_trans n bs1 bs2 bs3 :
  0 ≤ n → hits_grow n bs1 bs2 → hits_grow 0 bs2 bs3 → hits_grow n bs1 bs3.
Proof.
  intros Hn H12 H23 r j k b Hb. destruct (H23 _ _ _ _ Hb) as (b' & Hb' & ?).
  destruct (H12 _ _ _ _ Hb') as (b'' & Hb'' & ?). exists b''. split; [done | lia].
Qed.

Lemma bank_upd_grow n r j k f bs bs' :
  0 ≤ n → (∀ b b', f b = Ok b' → row_hit_count_ b' ≤ Z.max 0 (row_hit_count_ b) + n) →
  bank_upd r j k f bs = Ok bs' → hits_grow n bs bs'.
Proof.
  intros Hn Hf E. unfold bank_upd in E. apply bind_Ok_inv in E as (b & Hb & E).
  apply bind_Ok_inv in E as (b1 & Hb1 & E).
  destruct (bank_put_spec bs r j k b b1 Hb) as (bs1 & E1 & S). rewrite E in E1. injection E1 as <-.
  intros r' j' k' b' Hb'. rewrite S in Hb'. case_decide as D; [|exists b'; split; [done | lia]].
  destruct D as (-> & -> & ->). injection Hb' as <-. exists b. split; [done | by apply Hf].
Qed.

Lemma update_state_hits b c b' :
  BankState_UpdateState b c = Ok b' →
  row_hit_count_ b' ≤ Z.max 0 (row_hit_count_ b) + (if IsReadWrite c then 1 else 0).
Proof.
  unfold BankState_UpdateState, IsReadWrite, IsRead, IsWrite. intros H.
  destruct (state_ b), (cmd_type c); try discriminate; inv_res H; injection H as <-; cbn;
    try lia; apply int_chk_inv in H0; lia.
Qed.

Lemma apply_delays_hits l clk b b' : apply_delays l clk b = Ok b' → row_hit_count_ b' = row_hit_count_ b.
Proof.
  unfold apply_delays. revert b. induction l as [|[t d] l IH]; intros b H; cbn in H; [by injection H as ->|].
  apply bind_Ok_inv in H as (b1 & H1 & H). rewrite (IH _ H). unfold BankState_UpdateTiming in H1.
  inv_res H1. by injection H1 as <-.
Qed.

Lemma delays_grow l clk r j k bs bs' :
  bank_upd r j k (apply_delays l clk) bs = Ok bs' → hits_grow 0 bs bs'.
Proof. apply bank_upd_grow; [lia|]. intros b b' H. apply apply_delays_hits in H. lia. Qed.

(** The timing update touches neither the counters nor the other fields. *)
Lemma timing_frame cmd clk st st' :
  ChannelState_UpdateTiming config cmd clk st = Ok st' →
  hits_grow 0 (bank_states_ st) (bank_states_ st') ∧ rank_is_sref_ st' = rank_is_sref_ st ∧
  refresh_q_ st' = refresh_q_ st ∧ rank_idle_cycles st' = rank_idle_cycles st.
Proof.
  assert (∀ r l bs bs', for_each (rank_coords config) (λ '(j, k), bank_upd r j k (apply_delays l clk)) bs
    = Ok bs' → hits_grow 0 bs bs') as Hrank.
  { intros r l bs bs' H. eapply for_each_rel, H; [apply _|]. intros [j k] s1 s2 _. apply delays_grow. }
  assert (∀ a l bs bs', UpdateOtherBanksSameBankgroupTiming config a l clk bs = Ok bs' → hits_grow 0 bs bs') as H2.
  { intros a l bs bs' H. eapply for_each_rel, H; [apply _|]. intros k s1 s2 _.
    cbv beta iota. case_match; [by intros [= <-] | apply delays_grow]. }
  assert (∀ a l bs bs', UpdateOtherBankgroupsSameRankTiming config a l clk bs = Ok bs' → hits_grow 0 bs bs') as H3.
  { intros a l bs bs' H. eapply for_each_rel, H; [apply _|]. intros [j k] s1 s2 _.
    cbv beta iota. case_match; [by intros [= <-] | apply delays_grow]. }
  assert (∀ a l bs bs', UpdateOtherRanksTiming config a l clk bs = Ok bs' → hits_grow 0 bs bs') as H4.
  { intros a l bs bs' H. eapply for_each_rel, H; [apply _|]. intros i s1 s2 _.
    cbv beta iota. case_match; [by intros [= <-] | apply Hrank]. }
  unfold ChannelState_UpdateTiming. intros E.
  destruct (cmd_type cmd); try done; try (apply bind_Ok_inv in E as (bs & Eb & E); injection E as <-;
    apply Hrank in Eb; by destruct st).
  all: apply bind_Ok_inv in E as (s1 & E1 & E); apply bind_Ok_inv in E as (b1 & B1 & E);
    apply bind_Ok_inv in E as (b2 & B2 & E); apply bind_Ok_inv in E as (b3 & B3 & E);
    apply bind_Ok_inv in E as (b4 & B4 & E); injection E as <-;
    apply delays_grow in B1; apply H2 in B2; apply H3 in B3; apply H4 in B4.
  all: assert (hits_grow 0 (bank_states_ s1) b4) as Hg by (do 3 (etrans; [eassumption|]); assumption).
  all: assert (bank_states_ s1 = bank_states_ st ∧ rank_is_sref_ s1 = rank_is_sref_ st ∧
    refresh_q_ s1 = refresh_q_ st ∧ rank_idle_cycles s1 = rank_idle_cycles st) as (F1 & F2 & F3 & F4);
    [cbn in E1; first [by injection E1 as <- | unfold UpdateActivationTimes in E1;
       apply bind_Ok_inv in E1 as (f & _ & E1); apply bind_Ok_inv in E1 as (f' & _ & E1);
       destruct (IsGDDR _); [apply bind_Ok_inv in E1 as (g & _ & E1);
         apply bind_Ok_inv in E1 as (g' & _ & E1)|]; injection E1 as <-; by destruct st]
    | rewrite F1 in Hg; by destruct s1].
Qed.

Lemma erase_first_sub p q c : c ∈ erase_first p q → c ∈ q.
Proof.
  induction q as [|d q IH]; cbn [erase_first]; [done|]. destruct (p d); [set_solver|].
  intros [->|H]%elem_of_cons; set_solver.
Qed.

Definition not_sref (c : Command) : Prop := cmd_type c ≠ SREF_ENTER ∧ cmd_type c ≠ SREF_EXIT.

Lemma state_frame c st st' :
  ChannelState_UpdateState config c st = Ok st' → not_sref c →
  hits_grow 1 (bank_states_ st) (bank_states_ st') ∧ rank_is_sref_ st' = rank_is_sref_ st ∧
  (∀ d, d ∈ refresh_q_ st' → d ∈ refresh_q_ st) ∧ rank_idle_cycles st' = rank_idle_cycles st.
Proof.
  intros E [N1 N2]. unfold ChannelState_UpdateState in E. destruct (IsRankCMD c) eqn:Hrk.
  - apply bind_Ok_inv in E as (bs & Eb & E).
    assert (hits_grow 0 (bank_states_ st) bs) as Hg.
    { eapply for_each_rel, Eb; [apply _|]. intros [j k] s1 s2 _. apply bank_upd_grow; [lia|].
      intros b b' H. apply update_state_hits in H. unfold IsReadWrite, IsRead, IsWrite, IsRankCMD in *.
      by destruct (cmd_type c). }
    assert (hits_grow 1 (bank_states_ st) bs) as Hg1.
    { intros r j k b Hb. destruct (Hg _ _ _ _ Hb) as (b' & ? & ?). exists b'. split; [done | lia]. }
    rewrite !bool_decide_eq_false_2 in E by done.
    destruct (IsRefresh c); injection E as <-; destruct st; cbn; split_and!; try done.
    intros d. apply erase_first_sub.
  - apply bind_Ok_inv in E as (bs & Eb & E).
    assert (hits_grow 1 (bank_states_ st) bs) as Hg1.
    { eapply bank_upd_grow, Eb; [lia|]. intros b b' H. apply update_state_hits in H.
      destruct (IsReadWrite c); lia. }
    destruct (IsRefresh c); injection E as <-; destruct st; cbn; split_and!; try done.
    intros d. apply erase_first_sub.
Qed.

(** ** Steps on an awake channel *)

Lemma awake_bank st r j k b :
  chan_wf config st → awake config st → in_grid config r j k →
  bank_at (bank_states_ st) r j k = Ok b → state_ b ≠ SREF.
Proof.
  intros W Ha Hin Hb Hs. pose proof (Ha r ltac:(apply Hin)) as Hr. unfold IsRankSelfRefreshing in Hr.
  by apply (cw_sref _ _ W _ _ _ _ _ Hin Hb Hr) in Hs.
Qed.

(** A command that can be applied to the channel, one hit at most. *)
Lemma step_applies st c r clk clk' n :
  chan_wf config st → headroom config (n + 1) st → 0 ≤ n < 2 ^ 31 - 1 → cmd_in_grid config c →
  ChannelState_GetReadyCommand config st c clk = Ok r → IsValid r = true → not_sref r →
  cmd_in_grid config r ∧
  ∃ st', UpdateTimingAndStates config r clk' st = Ok st' ∧ chan_wf config st' ∧ headroom config n st' ∧
    rank_is_sref_ st' = rank_is_sref_ st ∧ (∀ d, d ∈ refresh_q_ st' → d ∈ refresh_q_ st) ∧
    rank_idle_cycles st' = rank_idle_cycles st.
Proof.
  intros W Hh Hn Hin Hg Hv Hs.
  assert (hits_bounded config st) as Hh1.
  { intros i j k b Hi Hb. specialize (Hh i j k b Hi Hb). lia. }
  destruct (apply_ready config st c clk r W Hh1 Hin Hg Hv) as (Hin' & st1 & E1 & W1).
  destruct (UpdateTiming_ok config st1 r clk' W1 (IsValid_type _ Hv) Hin') as (st2 & E2 & L2 & _).
  destruct (state_frame _ _ _ E1 Hs) as (G1 & S1 & R1 & I1).
  destruct (timing_frame _ _ _ _ E2) as (G2 & S2 & R2 & I2).
  split; [done|]. exists st2. unfold UpdateTimingAndStates. rewrite E1. cbn [mbind res_bind].
  split; [done|]. split; [by eapply chan_wf_le|]. split.
  - intros i j k b Hi Hb. destruct (hits_grow_trans 1 _ _ _ ltac:(lia) G1 G2 _ _ _ _ Hb) as (b0 & Hb0 & Hle).
    specialize (Hh i j k b0 Hi Hb0). lia.
  - rewrite S2, R2, I2. by rewrite S1.
Qed.

(** The next step of a request. *)
Lemma request_step st c clk :
  chan_wf config st → awake config st → is_rw (cmd_type c) = true →
  in_grid config (Rank c) (Bankgroup c) (Bank c) → ∀ r,
  ChannelState_GetReadyCommand config st c clk = Ok r → IsValid r = true → not_sref r.
Proof.
  intros W Ha Hrw Hin r E Hv. unfold ChannelState_GetReadyCommand in E.
  assert (IsRankCMD c = false) as Hrk by (unfold IsRankCMD; by destruct (cmd_type c)).
  rewrite Hrk in E. apply bind_Ok_inv in E as (b & Hb & E). apply bind_Ok_inv in E as (r' & Hr & E).
  assert (r' = r) as ->.
  { destruct (IsValid r'); cbn [negb] in E; [|by injection E as <-].
    case_bool_decide; [|by injection E as ->]. apply bind_Ok_inv in E as (ok & _ & E).
    destruct ok; cbn [negb] in E; [by injection E as ->|]. by injection E as <-. }
  destruct (GetReadyCommand_inv _ _ _ _ Hr Hv) as (Hq & _).
  pose proof (awake_bank st _ _ _ b W Ha Hin Hb) as Hs.
  unfold required_type in Hq. unfold not_sref.
  destruct (state_ b), (cmd_type c); try done; try destruct (_ =? _) in Hq; injection Hq as <-; by split.
Qed.

Lemma rank_scan_total st c clk l n rc :
  chan_wf config st → awake config st → cmd_type c = REFRESH → 0 ≤ Rank c < ranks (sizep config) →
  (∀ j k, (j, k) ∈ l → in_grid config (Rank c) j k) →
  ∃ o, rank_scan (bank_states_ st) c clk l n rc = Ok o.
Proof.
  intros W Ha Ht Hr. revert n rc. induction l as [|[j k] l IH]; intros n rc Hin; cbn [rank_scan]; [eauto|].
  assert (in_grid config (Rank c) j k) as Hjk by (apply Hin; set_solver).
  destruct (cw_grid _ _ W _ _ _ Hjk) as (b & Hb & Wb). rewrite Hb. cbn [mbind res_bind].
  pose proof (awake_bank st _ _ _ b W Ha Hjk Hb) as Hs.
  destruct (GetReadyCommand_total b c clk Wb) as [r ->]; [by rewrite Ht | done |]. cbn [mbind res_bind].
  destruct (negb (IsValid r)); [|case_bool_decide; [eauto|]]; apply IH; set_solver.
Qed.

(** The next step of a pending refresh. *)
Lemma refresh_step st c clk :
  chan_wf config st → awake config st → refresh_ok config c →
  cmd_in_grid config c ∧ ∃ r, ChannelState_GetReadyCommand config st c clk = Ok r ∧
    (IsValid r = true → not_sref r ∧ IsReadWrite r = false).
Proof.
  intros W Ha [[Ht Hr]|[Ht Hin]]; unfold ChannelState_GetReadyCommand.
  - assert (IsRankCMD c = true) as Hrk by (unfold IsRankCMD; by rewrite Ht).
    split; [unfold cmd_in_grid; by rewrite Hrk|]. rewrite Hrk.
    destruct (rank_scan_total st c clk (rank_coords config) 0 Command_default W Ha Ht Hr) as [o E].
    { intros j k H%rank_coords_in. split; [done | lia]. }
    rewrite E. cbn [mbind res_bind]. destruct o as [r|[m r]].
    + exists r. split; [done|]. intros Hv. apply rank_scan_inl in E as (j & k & b & rc & _ & _ & Hrc & Hvc & Hne & Et & _).
      destruct (GetReadyCommand_inv _ _ _ _ Hrc Hvc) as (Hq & _).
      destruct (required_type_rank _ _ _ Hrk Hq) as [?|Hp]; [done|].
      unfold not_sref, IsReadWrite, IsRead, IsWrite. by rewrite Et, Hp.
    + destruct (Z.eqb_spec m (banks (dramp config))) as [Em|]; [|by exists Command_default].
      exists r. split; [done|]. intros _. apply rank_scan_inr in E as [_ Hall].
      rewrite length_rank_coords in Hall. destruct (cw_pos _ _ W).
      destruct Hall as [_ Hrc]; [rewrite Em, (cw_banks _ _ W); lia|].
      destruct Hrc as [Et _].
      { intros Hnil. pose proof (length_rank_coords config) as Hl. rewrite Hnil in Hl. cbn in Hl. lia. }
      unfold not_sref, IsReadWrite, IsRead, IsWrite. by rewrite Et, Ht.
  - assert (IsRankCMD c = false) as Hrk by (unfold IsRankCMD; by rewrite Ht).
    split; [unfold cmd_in_grid; by rewrite Hrk|]. rewrite Hrk.
    destruct (cw_grid _ _ W _ _ _ Hin) as (b & Hb & Wb). rewrite Hb. cbn [mbind res_bind].
    pose proof (awake_bank st _ _ _ b W Ha Hin Hb) as Hs.
    destruct (GetReadyCommand_total b c clk Wb) as [r Hr]; [by rewrite Ht | done |].
    rewrite Hr. cbn [mbind res_bind].
    destruct (IsValid r) eqn:Hv; cbn [negb]; [|by exists Command_default].
    destruct (GetReadyCommand_inv _ _ _ _ Hr Hv) as (Hq & _).
    assert (cmd_type r = PRECHARGE ∨ cmd_type r = REFRESH_BANK) as Hty.
    { unfold required_type in Hq. rewrite Ht in Hq. destruct (state_ b); try done; injection Hq as <-; auto. }
    rewrite bool_decide_eq_false_2 by (by destruct Hty as [-> | ->]).
    exists r. split; [done|]. intros _. unfold not_sref, IsReadWrite, IsRead, IsWrite.
    by destruct Hty as [-> | ->].
Qed.
End Run.
