(* ===== verification/Controller.v ===== *)
(** * The memory controller of a channel (DRAMsim3/src/controller.h, controller.cc)

    Transactions wait in a read queue and a write buffer (or one unified queue), become
    commands in the command queues, and are returned once their command is issued
    (reads) or one cycle after they are added (writes).  The multimaps are lists in
    insertion order, of which [find] returns the first entry of a key.  [capacity()] is
    what the constructor reserved: the callers check [WillAcceptTransaction] before they
    add.  The command trace and the thermal model are compiled out.  Here are the
    operations and their first lemmas; ControllerProps has the invariant and
    ControllerTick the cycle and the theorems. *)

From S2P Require Import Prelude DramCommon DramConfig Stats BankState Timing ChannelState ChannelProps.
From S2P Require Import Refresh CommandQueue.

Open Scope Z_scope.

Inductive RowBufPolicy := OPEN_PAGE | CLOSE_PAGE | POLICY_COUNT.

#[global] Instance RowBufPolicy_eq_dec : EqDecision RowBufPolicy.
Proof. solve_decision. Defined.

Record Controller := mkController {
  channel_id_ : Z; ct_clk : Z; simple_stats_ : SimpleStats; channel_state_ : ChannelState;
  cmd_queue_ : CommandQueue; refresh_ : Refresh; is_unified_queue_ : bool;
  unified_queue_ : list Transaction; read_queue_ : list Transaction;
  write_buffer_ : list Transaction;
  pending_rd_q_ : list (Z * Transaction); pending_wr_q_ : list (Z * Transaction);
  return_queue_ : list Transaction; row_buf_policy_ : RowBufPolicy;
  last_trans_clk_ : Z; write_draining_ : Z }.

(** [multimap::count], and [find] followed by [erase]. *)
Definition mm_count (k : Z) (m : list (Z * Transaction)) : Z :=
  vsize (filter (λ p, p.1 = k) m).
Fixpoint mm_take (k : Z) (m : list (Z * Transaction))
    : option (Transaction * list (Z * Transaction)) :=
  match m with
  | [] => None
  | (a, t) :: m' =>
      if a =? k then Some (t, m')
      else match mm_take k m' with Some (u, m'') => Some (u, (a, t) :: m'') | None => None end
  end.

Section Controlling.
Variable config : Config.

(** The [capacity()] of the transaction queues. *)
Definition queue_capacity : Z := u64 (trans_queue_size (sysp config)).

(** [Controller::Controller] *)
Definition new_Controller (channel : Z) : res Controller :=
  cq ← new_CommandQueue config;
  rf ← new_Refresh config;
  if trans_queue_size (sysp config) <? 0 then Err RangeError
  else
    Ok {| channel_id_ := channel; ct_clk := 0; simple_stats_ := new_SimpleStats (nranks config);
          channel_state_ := new_ChannelState config; cmd_queue_ := cq; refresh_ := rf;
          is_unified_queue_ := unified_queue (sysp config);
          unified_queue_ := []; read_queue_ := []; write_buffer_ := [];
          pending_rd_q_ := []; pending_wr_q_ := []; return_queue_ := [];
          row_buf_policy_ := if bool_decide (row_buf_policy (sysp config) = "CLOSE_PAGE")
                             then CLOSE_PAGE else OPEN_PAGE;
          last_trans_clk_ := 0; write_draining_ := 0 |}.

(** [ReturnDoneTrans]: the first completed transaction; [None] is the pair (-1, -1). *)
Fixpoint take_done (clk : Z) (q : list Transaction) : option (Transaction * list Transaction) :=
  match q with
  | [] => None
  | t :: q' =>
      if complete_cycle t <=? clk then Some (t, q')
      else match take_done clk q' with Some (u, q'') => Some (u, t :: q'') | None => None end
  end.
Definition ReturnDoneTrans (clk : Z) (s : Controller) : option (Z * bool) * Controller :=
  match take_done clk (return_queue_ s) with
  | Some (t, q) =>
      let st := simple_stats_ s in
      let st := if is_write t then Increment "num_writes_done" st
                else AddValue "read_latency" (u64 (ct_clk s - added_cycle t))
                       (Increment "num_reads_done" st) in
      (Some (tr_addr t, is_write t), s {{ simple_stats_ := st; return_queue_ := q }})
  | None => (None, s)
  end.

(** [WillAcceptTransaction], [IsQueueFill], [QueueUsage] *)
Definition Ctrl_WillAcceptTransaction (is_write : bool) (s : Controller) : bool :=
  vsize (if is_unified_queue_ s then unified_queue_ s
         else if is_write then write_buffer_ s else read_queue_ s) <? queue_capacity.
Definition Ctrl_IsQueueFill (s : Controller) : bool := 0 <? vsize (write_buffer_ s).
Definition Ctrl_QueueUsage (s : Controller) : Z := QueueUsage (cmd_queue_ s).

(** [push_back] on the queue of a transaction. *)
Definition enqueue (t : Transaction) (s : Controller) : Controller :=
  if is_unified_queue_ s then s {{ unified_queue_ := unified_queue_ s ++ [t] }}
  else if is_write t then s {{ write_buffer_ := write_buffer_ s ++ [t] }}
  else s {{ read_queue_ := read_queue_ s ++ [t] }}.

(** [AddTransaction]: a write is merged with a pending one, a read is answered by a
    pending write; [done_] is the transaction completed at the next cycle. *)
Definition accept (trans done_ : Transaction) (s : Controller) : Controller :=
  let a := tr_addr trans in
  if is_write trans then
    let s :=
      if mm_count a (pending_wr_q_ s) =? 0
      then enqueue trans (s {{ pending_wr_q_ := pending_wr_q_ s ++ [(a, trans)] }}) else s in
    s {{ return_queue_ := return_queue_ s ++ [done_] }}
  else if 0 <? mm_count a (pending_wr_q_ s) then
    s {{ return_queue_ := return_queue_ s ++ [done_] }}
  else
    let s := s {{ pending_rd_q_ := pending_rd_q_ s ++ [(a, trans)] }} in
    if mm_count a (pending_rd_q_ s) =? 1 then enqueue trans s else s.

Definition Ctrl_AddTransaction (trans : Transaction) (s : Controller) : Controller :=
  let trans := trans {{ added_cycle := ct_clk s }} in
  accept trans (trans {{ complete_cycle := u64 (ct_clk s + 1) }})
    (s {{ simple_stats_ := AddValue "interarrival_latency" (u64 (ct_clk s - last_trans_clk_ s))
                             (simple_stats_ s);
          last_trans_clk_ := ct_clk s }}).

(** [TransToCommand] *)
Definition TransToCommand (s : Controller) (t : Transaction) : Command :=
  let cmd_type :=
    if bool_decide (row_buf_policy_ s = OPEN_PAGE) then (if is_write t then WRITE else READ)
    else (if is_write t then WRITE_PRECHARGE else READ_PRECHARGE) in
  mkCommand cmd_type (AddressMapping (amap config) (tr_addr t)) (tr_addr t).

(** The scan of [ScheduleTransaction]: the first transaction whose queue has room. *)
Fixpoint schedule_scan (s : Controller) (prev q : list Transaction)
    : res (option (list Transaction * Transaction * list Transaction)) :=
  match q with
  | [] => Ok None
  | t :: q' =>
      let cmd := TransToCommand s t in
      ok ← WillAcceptCommand config (cmd_queue_ s) (Rank cmd) (Bankgroup cmd) (Bank cmd);
      if (ok : bool) then Ok (Some (prev, t, q')) else schedule_scan s (prev ++ [t]) q'
  end.

(** The queue the scan works on, written back. *)
Definition set_queue (q : list Transaction) (s : Controller) : Controller :=
  if is_unified_queue_ s then s {{ unified_queue_ := q }}
  else if 0 <? write_draining_ s then s {{ write_buffer_ := q }} else s {{ read_queue_ := q }}.

(** Whether to start draining the write buffer. *)
Definition start_draining (s : Controller) : Controller :=
  if (write_draining_ s =? 0) && negb (is_unified_queue_ s) then
    let n := vsize (write_buffer_ s) in
    if (queue_capacity <=? n) || ((8 <? n) && QueueEmpty (cmd_queue_ s))
    then s {{ write_draining_ := i32 n }} else s
  else s.

Definition scheduled_queue (s : Controller) : list Transaction :=
  if is_unified_queue_ s then unified_queue_ s
  else if 0 <? write_draining_ s then write_buffer_ s else read_queue_ s.

(** [ScheduleTransaction] *)
Definition ScheduleTransaction (s : Controller) : res Controller :=
  let s := start_draining s in
  o ← schedule_scan s [] (scheduled_queue s);
  match o with
  | None => Ok s
  | Some (prev, t, rest) =>
      let cmd := TransToCommand s t in
      let add (wd : Z) : res Controller :=
        '(_, cq) ← AddCommand config cmd (cmd_queue_ s);
        Ok ((set_queue (prev ++ rest) s) {{ cmd_queue_ := cq; write_draining_ := wd }}) in
      if negb (is_unified_queue_ s) && IsWrite cmd then
        if 0 <? mm_count (tr_addr t) (pending_rd_q_ s) then Ok (s {{ write_draining_ := 0 }})
        else wd ← int_chk (write_draining_ s - 1); add wd
      else add (write_draining_ s)
  end.

(** [UpdateCommandStats] *)
Definition UpdateCommandStats (cmd : Command) (ch : ChannelState) (st : SimpleStats) : res SimpleStats :=
  let with_hits (n1 n2 : string) :=
    b ← bank_at (bank_states_ ch) (Rank cmd) (Bankgroup cmd) (Bank cmd);
    let st := Increment n1 st in
    Ok (if negb (RowHitCount b =? 0) then Increment n2 st else st) in
  match cmd_type cmd with
  | READ | READ_PRECHARGE => with_hits "num_read_cmds" "num_read_row_hits"
  | WRITE | WRITE_PRECHARGE => with_hits "num_write_cmds" "num_write_row_hits"
  | ACTIVATE => Ok (Increment "num_act_cmds" st)
  | PRECHARGE => Ok (Increment "num_pre_cmds" st)
  | REFRESH => Ok (Increment "num_ref_cmds" st)
  | REFRESH_BANK => Ok (Increment "num_refb_cmds" st)
  | SREF_ENTER => Ok (Increment "num_srefe_cmds" st)
  | SREF_EXIT => Ok (Increment "num_srefx_cmds" st)
  | SIZE => Err AbruptExit
  end.

(** The loop of [IssueCommand] that returns the [n] pending reads of an address. *)
Fixpoint return_reads (n : nat) (k time : Z) (m : list (Z * Transaction)) (q : list Transaction)
    : res (list (Z * Transaction) * list Transaction) :=
  match n with
  | O => Ok (m, q)
  | S n' =>
      '(t, m') ← of_option OutOfRange (mm_take k m);
      return_reads n' k time m' (q ++ [t {{ complete_cycle := time }}])
  end.

(** [IssueCommand] *)
Definition IssueCommand (cmd : Command) (s : Controller) : res Controller :=
  s ← (if IsRead cmd then
         let num_reads := mm_count (hex_addr cmd) (pending_rd_q_ s) in
         if num_reads =? 0 then Err AbruptExit
         else
           '(m, q) ← return_reads (Z.to_nat num_reads) (hex_addr cmd)
                       (u64 (ct_clk s + read_delay (timp config))) (pending_rd_q_ s) (return_queue_ s);
           Ok (s {{ pending_rd_q_ := m; return_queue_ := q }})
       else if IsWrite cmd then
         '(t, m) ← of_option AbruptExit (mm_take (hex_addr cmd) (pending_wr_q_ s));
         let wr_lat := u64 (ct_clk s - added_cycle t + write_delay (timp config)) in
         Ok (s {{ simple_stats_ := AddValue "write_latency" wr_lat (simple_stats_ s);
                  pending_wr_q_ := m }})
       else Ok s);
  st ← UpdateCommandStats cmd (channel_state_ s) (simple_stats_ s);
  ch ← UpdateTimingAndStates config cmd (ct_clk s) (channel_state_ s);
  Ok (s {{ simple_stats_ := st; channel_state_ := ch }}).

(** Power updates, part 1: one rank. *)
Definition count_rank (i : Z) (s : Controller) : res Controller :=
  sref ← IsRankSelfRefreshing (channel_state_ s) i;
  if (sref : bool) then
    st ← IncrementVec "sref_cycles" i (simple_stats_ s); Ok (s {{ simple_stats_ := st }})
  else
    idle ← IsAllBankIdleInRank config (channel_state_ s) i;
    if (idle : bool) then
      st ← IncrementVec "all_bank_idle_cycles" i (simple_stats_ s);
      v ← vmod (rank_idle_cycles (channel_state_ s)) i (λ n, int_chk (n + 1));
      Ok (s {{ simple_stats_ := st;
               channel_state_ := (channel_state_ s) {{ rank_idle_cycles := v }} }})
    else
      st ← IncrementVec "rank_active_cycles" i (simple_stats_ s);
      v ← vset (rank_idle_cycles (channel_state_ s)) i 0;
      Ok (s {{ simple_stats_ := st;
               channel_state_ := (channel_state_ s) {{ rank_idle_cycles := v }} }}).

(** Power updates, part 2: the first rank that can wake up or go to sleep does. *)
Definition sref_command (t : CommandType) (i : Z) (s : Controller) : res Command :=
  ChannelState_GetReadyCommand config (channel_state_ s)
    (mkCommand t (Address_default {{ rank := i }}) (u64 (-1))) (ct_clk s).
Fixpoint sref_scan (l : list Z) (s : Controller) : res Controller :=
  match l with
  | [] => Ok s
  | i :: l' =>
      sref ← IsRankSelfRefreshing (channel_state_ s) i;
      empty ← vget (rank_q_empty (cmd_queue_ s)) i;
      if (sref : bool) then
        if negb empty then
          cmd ← sref_command SREF_EXIT i s;
          if IsValid cmd then IssueCommand cmd s else sref_scan l' s
        else sref_scan l' s
      else if negb empty then sref_scan l' s
      else
        idle ← vget (rank_idle_cycles (channel_state_ s)) i;
        if sref_threshold (sysp config) <=? idle then
          cmd ← sref_command SREF_ENTER i s;
          if IsValid cmd then IssueCommand cmd s else sref_scan l' s
        else sref_scan l' s
  end.

(** A round of the command queues, and what it issues. *)
Definition next_command (s : Controller) : res (Command * Controller) :=
  '(cmd, cq, st) ← GetCommandToIssue config (channel_state_ s) (cmd_queue_ s) (simple_stats_ s);
  Ok (cmd, s {{ cmd_queue_ := cq; simple_stats_ := st }}).

(** The second command of a cycle, which HBM may issue next to [cmd]. *)
Definition dual_issue (cmd : Command) (s : Controller) : res Controller :=
  if enable_hbm_dual_cmd (dramp config) then
    '(second_cmd, s) ← next_command s;
    if IsValid second_cmd && negb (eqb (IsReadWrite second_cmd) (IsReadWrite cmd)) then
      s ← IssueCommand second_cmd s;
      Ok (s {{ simple_stats_ := Increment "hbm_dual_cmds" (simple_stats_ s) }})
    else Ok s
  else Ok s.

(** The command part of [ClockTick]; the flag is [cmd_issued]. *)
Definition issue_phase (s : Controller) : res (bool * Controller) :=
  '(cmd, s) ← (if IsRefreshWaiting (channel_state_ s) then
                 '(cmd, cq) ← FinishRefresh config (channel_state_ s) (cmd_queue_ s);
                 Ok (cmd, s {{ cmd_queue_ := cq }})
               else Ok (Command_default, s));
  '(cmd, s) ← (if negb (IsValid cmd) then next_command s else Ok (cmd, s));
  if IsValid cmd then s ← IssueCommand cmd s; s ← dual_issue cmd s; Ok (true, s)
  else Ok (false, s).

(** [ClockTick] *)
Definition Ctrl_ClockTick (s : Controller) : res Controller :=
  '(rf, ch) ← Refresh_ClockTick config (refresh_ s) (channel_state_ s);
  '(cmd_issued, s) ← issue_phase (s {{ refresh_ := rf; channel_state_ := ch }});
  s ← for_each (seqZ 0 (ranks (sizep config))) count_rank s;
  s ← (if enable_self_refresh (sysp config) && negb (cmd_issued : bool)
       then sref_scan (seqZ 0 (ranks (sizep config))) s else Ok s);
  s ← ScheduleTransaction s;
  Ok (s {{ ct_clk := u64 (ct_clk s + 1); cmd_queue_ := CommandQueue_ClockTick (cmd_queue_ s);
           simple_stats_ := Increment "num_cycles" (simple_stats_ s) }}).

(** [PrintEpochStats], [PrintFinalStats] and [ResetStats] *)
Definition Ctrl_PrintEpochStats (s : Controller) : res Controller :=
  st ← UpdateEpochStats (Increment "epoch_num" (simple_stats_ s)); Ok (s {{ simple_stats_ := st }}).
Definition Ctrl_PrintFinalStats (s : Controller) : res Controller :=
  st ← UpdateFinalStats (simple_stats_ s); Ok (s {{ simple_stats_ := st }}).
Definition Ctrl_ResetStats (s : Controller) : Controller :=
  s {{ simple_stats_ := SimpleStats_Reset (simple_stats_ s) }}.
End Controlling.

(** ** The ledger of a controller *)

Definition txn (t : Transaction) : Z * bool := (tr_addr t, is_write t).

(** The transactions that were accepted and not returned. *)
Definition owed (s : Controller) : list (Z * bool) :=
  txn <$> (return_queue_ s ++ (pending_rd_q_ s).*2).

(** An operation that settles nothing. *)
Definition same_owed (s s' : Controller) : Prop := owed s' ≡ₚ owed s.

(** The queues that wait for the scheduler. *)
Definition front (s : Controller) :=
  (is_unified_queue_ s, unified_queue_ s, read_queue_ s, write_buffer_ s, write_draining_ s).

(** A phase of a cycle that settles nothing and schedules nothing. *)
Record phase_same (s s' : Controller) : Prop := { ps_owed : same_owed s s'; ps_front : front s' = front s }.

#[global] Instance same_owed_preorder : PreOrder same_owed.
Proof. split; unfold same_owed; [by intros s|]. intros s1 s2 s3 H1 H2. by rewrite H2. Qed.

#[global] Instance phase_same_preorder : PreOrder phase_same.
Proof.
  split; [by split|]. intros s1 s2 s3 [A1 A2] [B1 B2]. split; [by etrans | by rewrite B2].
Qed.

Lemma same_owed_frame s s' :
  return_queue_ s' = return_queue_ s → pending_rd_q_ s' = pending_rd_q_ s → same_owed s s'.
Proof. unfold same_owed, owed. by intros -> ->. Qed.

Lemma phase_same_frame s s' :
  return_queue_ s' = return_queue_ s → pending_rd_q_ s' = pending_rd_q_ s → front s' = front s → phase_same s s'.
Proof. intros E1 E2 E3. split; [by apply same_owed_frame | done]. Qed.

Lemma mm_take_perm k m t m' :
  mm_take k m = Some (t, m') → m ≡ₚ (k, t) :: m'.
Proof.
  revert m'. induction m as [|[a u] m IH]; intros m' H; cbn in H; [done|].
  destruct (Z.eqb_spec a k) as [->|]; [by injection H as -> ->|].
  destruct (mm_take k m) as [[v m'']|]; [|done]. injection H as -> <-.
  rewrite (IH m'' eq_refl). apply perm_swap.
Qed.

Lemma take_done_perm clk q t q' : take_done clk q = Some (t, q') → q ≡ₚ t :: q' ∧ complete_cycle t ≤ clk.
Proof.
  revert q'. induction q as [|u q IH]; intros q' H; cbn in H; [done|].
  destruct (Z.leb_spec (complete_cycle u) clk) as [Hle|]; [by injection H as -> ->|].
  destruct (take_done clk q) as [[v q'']|]; [|done]. injection H as -> <-.
  destruct (IH q'' eq_refl) as [Hp Hc]. split; [|done]. rewrite Hp. apply perm_swap.
Qed.

Lemma return_reads_perm n k time m q m' q' :
  return_reads n k time m q = Ok (m', q') → txn <$> (q ++ m.*2) ≡ₚ txn <$> (q' ++ m'.*2).
Proof.
  revert m q. induction n as [|n IH]; intros m q H; cbn [return_reads] in H; [by injection H as -> ->|].
  apply bind_Ok_inv in H as ([t m1] & Ht & H). apply of_option_Ok in Ht.
  rewrite <- (IH _ _ H). apply mm_take_perm in Ht.
  assert (txn (t {{ complete_cycle := time }}) = txn t) as Et by by destruct t.
  rewrite !fmap_app, Ht, <- app_assoc. cbn [fmap list_fmap app fst snd]. by rewrite Et.
Qed.

Section Ledger.
Variable config : Config.

Lemma enqueue_owed t s : owed (enqueue t s) = owed s.
Proof. unfold enqueue, owed. repeat case_match; by destruct s. Qed.

Lemma accept_owed t d s : txn d = txn t → owed (accept t d s) ≡ₚ txn t :: owed s.
Proof.
  intros Hd. assert (∀ s, owed (s {{ return_queue_ := return_queue_ s ++ [d] }}) ≡ₚ txn t :: owed s) as Hret.
  { intros s0. unfold owed. destruct s0; cbn. rewrite <- app_assoc, !fmap_app. csimpl. rewrite Hd.
    by rewrite <- Permutation_middle. }
  assert (∀ s, owed (s {{ pending_rd_q_ := pending_rd_q_ s ++ [(tr_addr t, t)] }}) ≡ₚ txn t :: owed s) as Hrd.
  { intros s0. unfold owed. destruct s0; cbn. rewrite !fmap_app. csimpl.
    by rewrite app_assoc, (Permutation_app_comm _ [txn t]). }
  unfold accept. destruct (is_write t).
  - rewrite Hret. case_match; [|done]. rewrite enqueue_owed. unfold owed. by destruct s.
  - case_match; [apply Hret|]. case_match; [rewrite enqueue_owed|]; apply Hrd.
Qed.

Lemma add_owed t s : owed (Ctrl_AddTransaction t s) ≡ₚ txn t :: owed s.
Proof.
  unfold Ctrl_AddTransaction. rewrite accept_owed; destruct t; [|done]. unfold owed. by destruct s.
Qed.

Lemma return_owed clk s :
  match ReturnDoneTrans clk s with
  | (Some e, s') => owed s ≡ₚ e :: owed s'
  | (None, s') => s' = s
  end.
Proof.
  unfold ReturnDoneTrans. destruct (take_done clk (return_queue_ s)) as [[t q]|] eqn:E; [|done].
  apply take_done_perm in E as [E _]. unfold owed. destruct s; cbn in *. by rewrite E.
Qed.

Lemma issue_owed cmd s s' : IssueCommand config cmd s = Ok s' → phase_same s s'.
Proof.
  unfold IssueCommand. intros E. apply bind_Ok_inv in E as (s1 & E1 & E).
  apply bind_Ok_inv in E as (st & _ & E). apply bind_Ok_inv in E as (ch & _ & E). injection E as <-.
  trans s1; [|apply phase_same_frame; by destruct s1].
  destruct (IsRead cmd).
  - destruct (_ =? 0); [done|]. apply bind_Ok_inv in E1 as ([m q] & Er & E1). injection E1 as <-.
    apply return_reads_perm in Er. split; [|by destruct s]. unfold same_owed, owed. destruct s; cbn in *. by rewrite Er.
  - destruct (IsWrite cmd); [|by injection E1 as <-]. apply bind_Ok_inv in E1 as ([t m] & _ & E1).
    injection E1 as <-. apply phase_same_frame; by destruct s.
Qed.

Lemma next_command_owed s cmd s' : next_command config s = Ok (cmd, s') → phase_same s s'.
Proof.
  unfold next_command. intros E. apply bind_Ok_inv in E as ([[c cq] st] & _ & E). injection E as _ <-.
  apply phase_same_frame; by destruct s.
Qed.

Lemma dual_issue_owed cmd s s' : dual_issue config cmd s = Ok s' → phase_same s s'.
Proof.
  unfold dual_issue. intros E. destruct (enable_hbm_dual_cmd _); [|by injection E as <-].
  apply bind_Ok_inv in E as ([c s1] & E1 & E). apply next_command_owed in E1. trans s1; [done|].
  destruct (_ && _); [|by injection E as <-].
  apply bind_Ok_inv in E as (s2 & E2 & E). apply issue_owed in E2. injection E as <-.
  trans s2; [done|]. apply phase_same_frame; by destruct s2.
Qed.

Lemma issue_phase_owed s b s' : issue_phase config s = Ok (b, s') → phase_same s s'.
Proof.
  unfold issue_phase. intros E. apply bind_Ok_inv in E as ([c1 s1] & E1 & E).
  apply bind_Ok_inv in E as ([c2 s2] & E2 & E).
  trans s1.
  { destruct (IsRefreshWaiting _); [|by injection E1 as _ <-].
    apply bind_Ok_inv in E1 as ([c cq] & _ & E1). injection E1 as _ <-. apply phase_same_frame; by destruct s. }
  trans s2. { destruct (negb _); [by eapply next_command_owed | by injection E2 as _ <-]. }
  destruct (IsValid c2); [|by injection E as _ <-].
  apply bind_Ok_inv in E as (s3 & E3 & E). apply issue_owed in E3. trans s3; [done|].
  apply bind_Ok_inv in E as (s4 & E4 & E). apply dual_issue_owed in E4. by injection E as _ <-.
Qed.

Lemma count_rank_owed i s s' : count_rank config i s = Ok s' → phase_same s s'.
Proof.
  unfold count_rank. intros E. inv_res E. destruct v.
  - inv_res E. injection E as <-. apply phase_same_frame; by destruct s.
  - inv_res E. destruct v; inv_res E; injection E as <-; apply phase_same_frame; by destruct s.
Qed.

Lemma sref_scan_owed l s s' : sref_scan config l s = Ok s' → phase_same s s'.
Proof.
  induction l as [|i l IH]; cbn [sref_scan]; intros E; [by injection E as <-|].
  apply bind_Ok_inv in E as (sr & _ & E). apply bind_Ok_inv in E as (em & _ & E).
  destruct sr, em; cbn [negb] in E; try by apply IH.
  - apply bind_Ok_inv in E as (c & _ & E). destruct (IsValid c); [by eapply issue_owed | by apply IH].
  - apply bind_Ok_inv in E as (n & _ & E). destruct (_ <=? n); [|by apply IH].
    apply bind_Ok_inv in E as (c & _ & E). destruct (IsValid c); [by eapply issue_owed | by apply IH].
Qed.

Lemma schedule_owed s s' : ScheduleTransaction config s = Ok s' → same_owed s s'.
Proof.
  unfold ScheduleTransaction. intros E. trans (start_draining config s).
  { apply same_owed_frame; unfold start_draining; repeat case_match; by destruct s. }
  revert E. generalize (start_draining config s). clear. intros s E. apply bind_Ok_inv in E as (o & _ & E).
  destruct o as [[[p t] r]|]; [|by injection E as <-].
  assert (∀ (q : list Transaction) (cq : CommandQueue) (wd : Z), same_owed s ((set_queue q s) {{ cmd_queue_ := cq; write_draining_ := wd }})) as Hs.
  { intros. apply same_owed_frame; unfold set_queue; repeat case_match; by destruct s. }
  destruct (_ && _).
  - destruct (0 <? _); [injection E as <-; apply same_owed_frame; by destruct s|].
    apply bind_Ok_inv in E as (wd & _ & E). apply bind_Ok_inv in E as ([b cq] & _ & E). injection E as <-. apply Hs.
  - apply bind_Ok_inv in E as ([b cq] & _ & E). injection E as <-. apply Hs.
Qed.

(** The cycle up to the scheduler. *)
Lemma tick_phases s s' :
  Ctrl_ClockTick config s = Ok s' →
  ∃ s1 s2, phase_same s s1 ∧ ScheduleTransaction config s1 = Ok s2 ∧ phase_same s2 s'.
Proof.
  unfold Ctrl_ClockTick. intros E. apply bind_Ok_inv in E as ([rf ch] & _ & E).
  apply bind_Ok_inv in E as ([b s1] & E1 & E). apply issue_phase_owed in E1.
  apply bind_Ok_inv in E as (s2 & E2 & E).
  apply (for_each_rel phase_same) in E2; [|intros; by eapply count_rank_owed].
  apply bind_Ok_inv in E as (s3 & E3 & E). apply bind_Ok_inv in E as (s4 & E4 & E). injection E as <-.
  exists s3, s4. split; [|split; [done | apply phase_same_frame; by destruct s4]].
  trans s1; [etrans; [|exact E1]; apply phase_same_frame; by destruct s|]. trans s2; [done|].
  destruct (_ && _); [by eapply sref_scan_owed | by injection E3 as <-].
Qed.

Lemma tick_owed s s' : Ctrl_ClockTick config s = Ok s' → same_owed s s'.
Proof.
  intros E. apply tick_phases in E as (s1 & s2 & H1 & E & H2). apply schedule_owed in E.
  trans s1; [apply H1|]. trans s2; [done | apply H2].
Qed.

(** A write buffer that is too small to be drained stays as it is. *)
Lemma schedule_small s s' :
  is_unified_queue_ s = false → write_draining_ s = 0 → vsize (write_buffer_ s) ≤ 8 →
  vsize (write_buffer_ s) < queue_capacity config → Forall (λ t, is_write t = false) (read_queue_ s) →
  ScheduleTransaction config s = Ok s' →
  is_unified_queue_ s' = false ∧ write_draining_ s' = 0 ∧ write_buffer_ s' = write_buffer_ s ∧
  Forall (λ t, is_write t = false) (read_queue_ s').
Proof.
  intros Hu Hd H8 Hc Hr. unfold ScheduleTransaction.
  assert (start_draining config s = s) as ->.
  { unfold start_draining. rewrite Hd, Hu. cbn. destruct (Z.leb_spec (queue_capacity config) (vsize (write_buffer_ s))); [lia|].
    by destruct (Z.ltb_spec 8 (vsize (write_buffer_ s))); [lia|]. }
  unfold scheduled_queue. rewrite Hu, Hd. cbn [Z.ltb]. change (0 <? 0) with false. cbv iota.
  intros E. apply bind_Ok_inv in E as (o & Eo & E). destruct o as [[[p t] r]|]; [|by injection E as <-].
  assert (∀ q prev p t r, schedule_scan config s prev q = Ok (Some (p, t, r)) → prev ++ q = p ++ t :: r) as Hscan.
  { clear. induction q as [|u q IH]; intros prev p t r E; cbn [schedule_scan] in E; [done|].
    apply bind_Ok_inv in E as ([] & _ & E); [by injection E as -> -> ->|]. apply IH in E. by rewrite <- app_assoc in E. }
  apply Hscan in Eo. cbn [app] in Eo. rewrite Eo, Forall_app, Forall_cons in Hr. destruct Hr as (Hp & Ht & Hr).
  assert (IsWrite (TransToCommand config s t) = false) as Hw
    by (unfold TransToCommand, IsWrite; cbn; rewrite Ht; by case_bool_decide).
  rewrite Hw, andb_false_r in E. apply bind_Ok_inv in E as ([b cq] & _ & E). injection E as <-.
  unfold set_queue. rewrite Hu, Hd. cbn [Z.ltb]. change (0 <? 0) with false. cbv iota.
  destruct s; cbn in *. split_and!; try done. by apply Forall_app.
Qed.
End Ledger.
