(* ===== verification/ControllerProps.v ===== *)
(** * The controller of a channel does not abort (DRAMsim3/src/controller.cc)

    The invariant of a controller whose channel is never put in self-refresh, and that
    every operation keeps it without reaching one of the [exit]s and [AbruptExit]s of
    the sources: the channel is well-formed, and the transactions and commands that
    wait are known to the pending multimaps, each once.  Without dual command issue
    they are all that is pending, so no request is ever lost. *)

From S2P Require Import Prelude DramCommon DramConfig Stats BankState Timing ChannelState ChannelProps.
From S2P Require Import Refresh CommandQueue ChannelRun Controller.

Open Scope Z_scope.

(** ** The multimaps *)

Lemma mm_count_nonneg k m : 0 ≤ mm_count k m.
Proof. apply vsize_nonneg. Qed.

Lemma mm_count_cons k a t m :
  mm_count k ((a, t) :: m) = mm_count k m + (if decide (a = k) then 1 else 0).
Proof.
  unfold mm_count. rewrite filter_cons. cbn [fst]. case_decide; [by rewrite vsize_cons | lia].
Qed.

Lemma mm_count_snoc k a t m :
  mm_count k (m ++ [(a, t)]) = mm_count k m + (if decide (a = k) then 1 else 0).
Proof.
  induction m as [|[b u] m IH]; cbn [app]; rewrite !mm_count_cons; [done|]. rewrite IH. lia.
Qed.

Lemma mm_count_zero k m : mm_count k m = 0 ↔ k ∉ m.*1.
Proof.
  induction m as [|[a t] m IH]; [split; [set_solver | done]|].
  rewrite mm_count_cons. pose proof (mm_count_nonneg k m). csimpl. rewrite not_elem_of_cons, <- IH.
  case_decide; split; naive_solver lia.
Qed.

Lemma mm_take_spec k m :
  k ∈ m.*1 → ∃ t m', mm_take k m = Some (t, m') ∧ mm_count k m' = mm_count k m - 1 ∧
    filter (λ p, p.1 ≠ k) m' = filter (λ p, p.1 ≠ k) m.
Proof.
  induction m as [|[a t] m IH]; intros Hin; [by apply elem_of_nil in Hin|]. cbn [mm_take].
  rewrite mm_count_cons, filter_cons. cbn [fst]. destruct (Z.eqb_spec a k) as [->|Hne].
  - exists t, m. rewrite decide_True by done. rewrite decide_False by naive_solver. split_and!; [done | lia | done].
  - destruct IH as (u & m' & E & Hc & Hf); [csimpl in Hin; set_solver|]. rewrite E.
    exists u, ((a, t) :: m'). rewrite mm_count_cons, filter_cons. cbn [fst].
    rewrite !(decide_True (P := a ≠ k)), decide_False, Hf by done. split_and!; [done | lia | done].
Qed.

Lemma return_reads_all k time n m q :
  mm_count k m = Z.of_nat n → ∃ q', return_reads n k time m q = Ok (filter (λ p, p.1 ≠ k) m, q').
Proof.
  revert m q. induction n as [|n IH]; intros m q Hn; cbn [return_reads].
  - apply mm_count_zero in Hn. exists q. rewrite list_filter_all; [done|].
    intros i p Hp Hk. apply Hn. subst k. apply list_elem_of_fmap. exists p. split; [done|]. by eapply list_elem_of_lookup_2.
  - assert (k ∈ m.*1) as Hk.
    { destruct (decide (k ∈ m.*1)) as [|Hk]; [done|]. apply mm_count_zero in Hk. lia. }
    destruct (mm_take_spec k m Hk) as (t & m' & E & Hc & Hf). rewrite E. cbn [mbind res_bind of_option].
    destruct (IH m' (q ++ [t {{ complete_cycle := time }}])) as [q' E']; [lia|]. exists q'. by rewrite E', Hf.
Qed.

Section NoAbort.
Variable config : Config.

(** ** The books: what waits and what is pending *)

Definition waiting (s : Controller) : list (Z * bool) :=
  (txn <$> (unified_queue_ s ++ read_queue_ s ++ write_buffer_ s)) ++
  ((λ c, (hex_addr c, IsWrite c)) <$> concat (queues_ (cmd_queue_ s))).

Definition is_pending (s : Controller) (k : Z * bool) : Prop :=
  if k.2 then k.1 ∈ (pending_wr_q_ s).*1 else k.1 ∈ (pending_rd_q_ s).*1.

Record books (s : Controller) : Prop := {
  bk_nodup : NoDup (waiting s);
  bk_known : ∀ k, k ∈ waiting s → is_pending s k;
  bk_cover : enable_hbm_dual_cmd (dramp config) = false → ∀ k, is_pending s k → k ∈ waiting s;
  bk_writes : NoDup (pending_wr_q_ s).*1 }.

Lemma books_ext s s' :
  books s → waiting s' ≡ₚ waiting s → pending_rd_q_ s' = pending_rd_q_ s →
  pending_wr_q_ s' = pending_wr_q_ s → books s'.
Proof.
  intros [H1 H2 H3 H4] Hw E1 E2. split; unfold is_pending; rewrite ?E1, ?E2, ?Hw; try done.
  - intros k. rewrite Hw. apply H2.
  - intros Hd k Hk. rewrite Hw. by apply H3.
Qed.

(** A new request that waits and is pending. *)
Lemma books_new s s' k :
  books s → ¬ is_pending s k → waiting s' ≡ₚ k :: waiting s →
  (∀ k', is_pending s' k' ↔ k' = k ∨ is_pending s k') → NoDup (pending_wr_q_ s').*1 → books s'.
Proof.
  intros [H1 H2 H3 H4] Hn Hw Hp Hd. split; try done.
  - rewrite Hw. apply NoDup_cons. split; [|done]. intros Hk. by apply Hn, H2.
  - intros k'. rewrite Hw, Hp, elem_of_cons. naive_solver.
  - intros Hdual k'. rewrite Hw, Hp, elem_of_cons. naive_solver.
Qed.

(** A waiting request that is settled. *)
Lemma books_settled s s' k :
  books s → waiting s ≡ₚ k :: waiting s' →
  (∀ k', is_pending s' k' ↔ k' ≠ k ∧ is_pending s k') → NoDup (pending_wr_q_ s').*1 → books s'.
Proof.
  intros [H1 H2 H3 H4] Hw Hp Hd. rewrite Hw in H1. apply NoDup_cons in H1 as [Hk H1]. split; try done.
  - intros k' Hk'. apply Hp. split; [by intros ->|]. apply H2. rewrite Hw. by right.
  - intros Hdual k' [Hne Hk']%Hp. specialize (H3 Hdual k' Hk'). rewrite Hw in H3. set_solver.
Qed.

(** A waiting request that is dropped: only the dual issue can do that. *)
Lemma books_dropped s s' k :
  enable_hbm_dual_cmd (dramp config) = true → books s → waiting s ≡ₚ k :: waiting s' →
  pending_rd_q_ s' = pending_rd_q_ s → pending_wr_q_ s' = pending_wr_q_ s → books s'.
Proof.
  intros Hdual [H1 H2 _ H4] Hw E1 E2. rewrite Hw in H1. apply NoDup_cons in H1 as [Hk H1].
  split; unfold is_pending; rewrite ?E1, ?E2; try done; [|congruence].
  intros k' Hk'. apply H2. rewrite Hw. by right.
Qed.

(** ** The invariant *)

(** Every address is mapped to an existing bank. *)
Definition mapping_in_grid : Prop :=
  ∀ h, let a := AddressMapping (amap config) h in in_grid config (rank a) (bankgroup a) (bank a).

Definition rank_counters : list string :=
  ["all_bank_idle_cycles"; "rank_active_cycles"; "sref_cycles"]%string.

Record stats_ok (st : SimpleStats) : Prop := {
  so_wf : stats_wf st;
  so_ranks : ∀ n, n ∈ rank_counters →
    ∃ v, epoch_vec_counters_ st !! n = Some v ∧ vsize v = ranks (sizep config) }.

Record refresh_wf (rf : Refresh) : Prop := {
  rw_interval : u64 (refresh_interval_ rf) ≠ 0;
  rw_at : refresh_policy_ rf = RANK_LEVEL_SIMULTANEOUS ∨ ∃ i, at_refresh config i rf }.

Record ctrl_wf (s : Controller) : Prop := {
  ck_chan : chan_wf config (channel_state_ s);
  ck_awake : awake config (channel_state_ s);
  ck_refs : Forall (refresh_ok config) (refresh_q_ (channel_state_ s));
  ck_idle : vsize (rank_idle_cycles (channel_state_ s)) = ranks (sizep config);
  ck_refresh : refresh_wf (refresh_ s);
  ck_queues : queues_ok config (cmd_queue_ s);
  ck_stats : stats_ok (simple_stats_ s);
  ck_books : books s;
  ck_reads : is_unified_queue_ s = false → Forall (λ t, is_write t = false) (read_queue_ s);
  ck_writes : is_unified_queue_ s = false → Forall (λ t, is_write t = true) (write_buffer_ s);
  ck_drain : - 2 ^ 31 ≤ write_draining_ s < 2 ^ 31 }.

(** The counters can take another cycle: two hits of a bank and one idle cycle. *)
Record can_count (s : Controller) : Prop := {
  cc_hits : headroom config 2 (channel_state_ s);
  cc_idle : Forall (λ n, - 2 ^ 31 ≤ n < 2 ^ 31 - 1) (rank_idle_cycles (channel_state_ s)) }.

(** ** Adding a transaction *)

Lemma pending_snoc_rd s k a t : 
  is_pending (s {{ pending_rd_q_ := pending_rd_q_ s ++ [(a, t)] }}) k ↔ k = (a, false) ∨ is_pending s k.
Proof.
  unfold is_pending. destruct k as [b w], s; cbn. destruct w; [naive_solver|].
  rewrite fmap_app, elem_of_app. csimpl. rewrite list_elem_of_singleton. naive_solver.
Qed.

Lemma pending_snoc_wr s k a t :
  is_pending (s {{ pending_wr_q_ := pending_wr_q_ s ++ [(a, t)] }}) k ↔ k = (a, true) ∨ is_pending s k.
Proof.
  unfold is_pending. destruct k as [b w], s; cbn. destruct w; [|naive_solver].
  rewrite fmap_app, elem_of_app. csimpl. rewrite list_elem_of_singleton. naive_solver.
Qed.

Lemma enqueue_waiting t s : waiting (enqueue t s) ≡ₚ txn t :: waiting s.
Proof.
  unfold enqueue, waiting. destruct s as [f1 f2 f3 f4 f5 f6 u uq rq wb f11 f12 f13 f14 f15 f16].
  assert (∀ p q r : list Transaction, txn <$> (p ++ [t]) ++ q ≡ₚ txn t :: (txn <$> p ++ q)) as Hs.
  { intros p q _. rewrite <- app_assoc, !fmap_app. csimpl. by rewrite <- Permutation_middle. }
  destruct u; cbn; [|destruct (is_write t); cbn]; rewrite ?fmap_app; csimpl; perm_solve.
Qed.

Lemma enqueue_pending t s k : is_pending (enqueue t s) k ↔ is_pending s k.
Proof. unfold enqueue. repeat case_match; by destruct s. Qed.

(** The pieces of the invariant that the multimaps and the return queue do not touch. *)
Record front_same (s s' : Controller) : Prop := {
  fs_chan : channel_state_ s' = channel_state_ s; fs_cmdq : cmd_queue_ s' = cmd_queue_ s;
  fs_refresh : refresh_ s' = refresh_ s; fs_unified : is_unified_queue_ s' = is_unified_queue_ s;
  fs_drain : write_draining_ s' = write_draining_ s;
  fs_vec : stats_frame (simple_stats_ s') = stats_frame (simple_stats_ s) }.

Lemma stats_ok_vec st st' :
  stats_ok st → stats_frame st' = stats_frame st → stats_ok st'.
Proof.
  intros [H1 H2] E. split; [by eapply stats_wf_frame|]. injection E as _ E _ _ _ _. by rewrite E.
Qed.

Lemma ctrl_wf_front s s' :
  ctrl_wf s → front_same s s' → books s' →
  (is_unified_queue_ s = false → Forall (λ t, is_write t = false) (read_queue_ s')) →
  (is_unified_queue_ s = false → Forall (λ t, is_write t = true) (write_buffer_ s')) → ctrl_wf s'.
Proof.
  intros [] [E1 E2 E3 E4 E5 E6] Hb Hr Hw. split; rewrite ?E1, ?E2, ?E3, ?E4, ?E5; try done.
  by eapply stats_ok_vec.
Qed.

Lemma enqueue_front t s : front_same s (enqueue t s).
Proof. unfold enqueue. split; repeat case_match; by destruct s. Qed.

(** A new request, recorded as pending by [f] and put in its queue. *)
Lemma enqueue_wf t s s1 :
  ctrl_wf s → front_same s s1 → waiting s1 = waiting s → read_queue_ s1 = read_queue_ s →
  write_buffer_ s1 = write_buffer_ s → ¬ is_pending s (txn t) →
  (∀ k, is_pending s1 k ↔ k = txn t ∨ is_pending s k) → NoDup (pending_wr_q_ s1).*1 →
  ctrl_wf (enqueue t s1).
Proof.
  intros W F Hw Hr Hwb Hn Hp Hd.
  assert (∀ u, is_unified_queue_ s = u → is_unified_queue_ s1 = u) as Hu by (intros u <-; apply F).
  destruct (enqueue_front t s1) as [E1 E2 E3 E4 E5 E6], F as [G1 G2 G3 G4 G5 G6].
  eapply (ctrl_wf_front s); [done | split; congruence | | |].
  - apply (books_new s _ (txn t)); [apply W | done | by rewrite enqueue_waiting, Hw | |].
    + intros k. by rewrite enqueue_pending.
    + unfold enqueue. repeat case_match; by destruct s1.
  - intros Hf. pose proof (ck_reads _ W Hf) as H. unfold enqueue. rewrite (Hu _ Hf).
    destruct (is_write t) eqn:Ht; destruct s1; cbn in *; subst; [done|]. apply Forall_app. split; [done|].
    by apply Forall_singleton.
  - intros Hf. pose proof (ck_writes _ W Hf) as H. unfold enqueue. rewrite (Hu _ Hf).
    destruct (is_write t) eqn:Ht; destruct s1; cbn in *; subst; [|done]. apply Forall_app. split; [done|].
    by apply Forall_singleton.
Qed.

(** An operation that leaves the queues and the pending multimaps alone. *)
Lemma quiet_wf s s' :
  ctrl_wf s → front_same s s' → unified_queue_ s' = unified_queue_ s → read_queue_ s' = read_queue_ s →
  write_buffer_ s' = write_buffer_ s → pending_rd_q_ s' = pending_rd_q_ s →
  pending_wr_q_ s' = pending_wr_q_ s → ctrl_wf s'.
Proof.
  intros W F E1 E2 E3 E4 E5. eapply ctrl_wf_front; [done..| | |].
  - apply (books_ext s); [apply W | | done..]. unfold waiting. by rewrite E1, E2, E3, (fs_cmdq _ _ F).
  - rewrite E2. apply W.
  - rewrite E3. apply W.
Qed.

Lemma accept_wf t d s : ctrl_wf s → ctrl_wf (accept t d s).
Proof.
  intros W. assert (∀ s', ctrl_wf s' → ctrl_wf (s' {{ return_queue_ := return_queue_ s' ++ [d] }})) as Hret.
  { intros s' W'. apply (quiet_wf s'); [done | split | ..]; by destruct s'. }
  unfold accept. destruct (is_write t) eqn:Ht.
  - apply Hret. destruct (Z.eqb_spec (mm_count (tr_addr t) (pending_wr_q_ s)) 0) as [E%mm_count_zero|]; [|done].
    assert (txn t = (tr_addr t, true)) as Et by (unfold txn; by rewrite Ht).
    apply (enqueue_wf t s); [done | by split; destruct s | by destruct s ..| | |].
    + by rewrite Et.
    + intros k. rewrite Et. apply pending_snoc_wr.
    + destruct s; cbn in *. rewrite fmap_app. csimpl. apply NoDup_app. split; [apply (bk_writes _ (ck_books _ W))|].
      split; [set_solver | apply NoDup_singleton].
  - destruct (Z.ltb_spec 0 (mm_count (tr_addr t) (pending_wr_q_ s))); [by apply Hret|].
    set (s1 := s {{ pending_rd_q_ := _ }}).
    assert (txn t = (tr_addr t, false)) as Et by (unfold txn; by rewrite Ht).
    assert (mm_count (tr_addr t) (pending_rd_q_ s1) = mm_count (tr_addr t) (pending_rd_q_ s) + 1) as Ec.
    { unfold s1. destruct s; cbn. rewrite mm_count_snoc, decide_True; done. }
    pose proof (mm_count_nonneg (tr_addr t) (pending_rd_q_ s)).
    destruct (Z.eqb_spec (mm_count (tr_addr t) (pending_rd_q_ s1)) 1) as [E|E].
    + apply (enqueue_wf t s); [done | by split; destruct s | by destruct s ..| | |].
      * rewrite Et. unfold is_pending. cbn. apply mm_count_zero. lia.
      * intros k. rewrite Et. apply pending_snoc_rd.
      * destruct s; apply W.
    + assert (is_pending s (tr_addr t, false)) as Hin.
      { unfold is_pending. cbn. destruct (decide (tr_addr t ∈ (pending_rd_q_ s).*1)) as [|Hn]; [done|].
        apply mm_count_zero in Hn. lia. }
      eapply (ctrl_wf_front s); [done | by split; destruct s | | |].
      * destruct (ck_books _ W) as [B1 B2 B3 B4]. assert (waiting s1 = waiting s) as Ew by by destruct s.
        split; rewrite ?Ew; try done.
        -- intros k Hk. apply pending_snoc_rd. right. by apply B2.
        -- intros Hd k Hk. apply pending_snoc_rd in Hk as [->|Hk]; by apply B3.
      * destruct s; apply W.
      * destruct s; apply W.
Qed.

Lemma add_wf t s : ctrl_wf s → ctrl_wf (Ctrl_AddTransaction t s).
Proof.
  intros W. apply accept_wf. apply (quiet_wf s); [done | split | ..]; by destruct s.
Qed.

(** ** Statistics *)

Lemma first_ready_vec ch clk prev rest st cmd st' :
  first_ready config ch clk prev rest st = Ok (cmd, st') → stats_frame st' = stats_frame st.
Proof.
  revert prev st. induction rest as [|c rest IH]; intros prev st H; cbn [first_ready] in H; [by injection H as _ <-|].
  apply bind_Ok_inv in H as (r & _ & H). destruct (negb (IsValid r)); [by eapply IH|].
  case_bool_decide.
  - apply bind_Ok_inv in H as ([b st1] & Ha & H). assert (stats_frame st1 = stats_frame st) as <-.
    { unfold ArbitratePrecharge in Ha. destruct (existsb _ _); [by injection Ha as _ <-|].
      apply bind_Ok_inv in Ha as (x & _ & Ha). destruct (negb _ || _); by injection Ha as _ <-. }
    destruct b; [by injection H as _ <- | by eapply IH].
  - destruct (_ && _); [by eapply IH | by injection H as _ <-].
Qed.

Lemma issue_loop_vec n ch cq st cmd cq' st' :
  issue_loop config n ch cq st = Ok (cmd, cq', st') → stats_frame st' = stats_frame st.
Proof.
  revert cq st. induction n as [|n IH]; intros cq st H; cbn [issue_loop] in H; [by injection H as _ _ <-|].
  apply bind_Ok_inv in H as (q & _ & H). destruct (_ && _); [by eapply IH|].
  apply bind_Ok_inv in H as ([c st1] & Hf & H). apply first_ready_vec in Hf. rewrite <- Hf.
  destruct (IsValid c); [|by eapply IH]. destruct (IsReadWrite c); [apply bind_Ok_inv in H as (? & _ & H)|];
    by injection H as _ _ <-.
Qed.

Lemma command_stats_ok cmd ch st :
  chan_wf config ch → IsValid cmd = true → (IsReadWrite cmd = true → cmd_in_grid config cmd) →
  ∃ st', UpdateCommandStats cmd ch st = Ok st' ∧ stats_frame st' = stats_frame st.
Proof.
  intros W Hv Hin. unfold UpdateCommandStats. pose proof (IsValid_type _ Hv) as Ht.
  unfold IsReadWrite, IsRead, IsWrite, cmd_in_grid, IsRankCMD in Hin.
  destruct (cmd_type cmd) eqn:E; try done; try by eexists.
  all: destruct (cw_grid _ _ W _ _ _ (Hin eq_refl)) as (b & Hb & _); rewrite Hb; cbn [mbind res_bind];
    eexists; split; [done|]; by case_match.
Qed.

(** ** Issuing a command *)

(** [s'] differs from [s] in its channel, its command queues, its multimaps, its
    return queue and the unboxed statistics only. *)
Record stages_same (s s' : Controller) : Prop := {
  st_refresh : refresh_ s' = refresh_ s; st_unified : is_unified_queue_ s' = is_unified_queue_ s;
  st_uq : unified_queue_ s' = unified_queue_ s; st_rq : read_queue_ s' = read_queue_ s;
  st_wb : write_buffer_ s' = write_buffer_ s; st_drain : write_draining_ s' = write_draining_ s;
  st_vec : stats_frame (simple_stats_ s') = stats_frame (simple_stats_ s);
  st_clk : ct_clk s' = ct_clk s }.

#[global] Instance stages_same_preorder : PreOrder stages_same.
Proof. split; [by split|]. intros s1 s2 s3 [] []. split; congruence. Qed.

Lemma ctrl_wf_stages s s' :
  ctrl_wf s → stages_same s s' → books s' → queues_ok config (cmd_queue_ s') →
  chan_wf config (channel_state_ s') → awake config (channel_state_ s') →
  Forall (refresh_ok config) (refresh_q_ (channel_state_ s')) →
  vsize (rank_idle_cycles (channel_state_ s')) = ranks (sizep config) → ctrl_wf s'.
Proof.
  intros [] [E1 E2 E3 E4 E5 E6 E7] Hb Hq Hc Ha Hr Hi. split; rewrite ?E1, ?E2, ?E3, ?E4, ?E5, ?E6; try done.
  by eapply stats_ok_vec.
Qed.

(** A channel step keeps what the invariant says of the channel. *)
Lemma ctrl_wf_channel s s' ch' :
  ctrl_wf s → stages_same s s' → books s' → queues_ok config (cmd_queue_ s') → channel_state_ s' = ch' →
  chan_wf config ch' → rank_is_sref_ ch' = rank_is_sref_ (channel_state_ s) →
  (∀ d, d ∈ refresh_q_ ch' → d ∈ refresh_q_ (channel_state_ s)) →
  rank_idle_cycles ch' = rank_idle_cycles (channel_state_ s) → ctrl_wf s'.
Proof.
  intros W F Hb Hq <- Hc Hs Hr Hi. eapply ctrl_wf_stages; try done.
  - intros r Hin. unfold IsRankSelfRefreshing. rewrite Hs. by apply (ck_awake _ W).
  - apply Forall_forall. intros d Hd%Hr. by eapply Forall_forall in Hd; [|apply (ck_refs _ W)].
  - rewrite Hi. apply W.
Qed.

(** What a command settles. *)
Definition settles (cmd : Command) : Z * bool := (hex_addr cmd, IsWrite cmd).

Lemma filter_keys k (m : list (Z * Transaction)) a :
  a ∈ (filter (λ p, p.1 ≠ k) m).*1 ↔ a ≠ k ∧ a ∈ m.*1.
Proof.
  rewrite !list_elem_of_fmap. split.
  - intros (p & -> & Hp%list_elem_of_filter). naive_solver.
  - intros [Hne (p & -> & Hp)]. exists p. by rewrite list_elem_of_filter.
Qed.

(** The multimap part of [IssueCommand]. *)
Lemma take_keys k m t m' a :
  NoDup m.*1 → mm_take k m = Some (t, m') → NoDup m'.*1 ∧ (a ∈ m'.*1 ↔ a ≠ k ∧ a ∈ m.*1).
Proof.
  intros Hd E%mm_take_perm. rewrite E in Hd. csimpl in Hd. apply NoDup_cons in Hd as [Hk Hd].
  split; [done|]. rewrite E. csimpl. rewrite elem_of_cons. naive_solver.
Qed.

Lemma issue_ok s cmd ch' :
  chan_wf config (channel_state_ s) → IsValid cmd = true → cmd_in_grid config cmd →
  UpdateTimingAndStates config cmd (ct_clk s) (channel_state_ s) = Ok ch' →
  (IsReadWrite cmd = true → is_pending s (settles cmd)) → NoDup (pending_wr_q_ s).*1 →
  ∃ s', IssueCommand config cmd s = Ok s' ∧ channel_state_ s' = ch' ∧ cmd_queue_ s' = cmd_queue_ s ∧
    stages_same s s' ∧ NoDup (pending_wr_q_ s').*1 ∧
    ∀ k, is_pending s' k ↔ (IsReadWrite cmd = true → k ≠ settles cmd) ∧ is_pending s k.
Proof.
  intros W Hv Hin Hu Hp Hd.
  assert (∃ s1, (if IsRead cmd then
         let num_reads := mm_count (hex_addr cmd) (pending_rd_q_ s) in
         if num_reads =? 0 then Err AbruptExit
         else '(m, q) ← return_reads (Z.to_nat num_reads) (hex_addr cmd)
                       (u64 (ct_clk s + read_delay (timp config))) (pending_rd_q_ s) (return_queue_ s);
           Ok (s {{ pending_rd_q_ := m; return_queue_ := q }})
       else if IsWrite cmd then
         '(t, m) ← of_option AbruptExit (mm_take (hex_addr cmd) (pending_wr_q_ s));
         let wr_lat := u64 (ct_clk s - added_cycle t + write_delay (timp config)) in
         Ok (s {{ simple_stats_ := AddValue "write_latency" wr_lat (simple_stats_ s); pending_wr_q_ := m }})
       else Ok s) = Ok s1 ∧ channel_state_ s1 = channel_state_ s ∧ cmd_queue_ s1 = cmd_queue_ s ∧
     stages_same s s1 ∧ NoDup (pending_wr_q_ s1).*1 ∧
     ∀ k, is_pending s1 k ↔ (IsReadWrite cmd = true → k ≠ settles cmd) ∧ is_pending s k)
    as (s1 & E1 & Ec & Eq & F & Hd1 & Hp1).
  { cbv zeta. destruct (IsRead cmd) eqn:Hrd; [|destruct (IsWrite cmd) eqn:Hwr].
    - assert (IsWrite cmd = false) as Hw by (unfold IsRead, IsWrite in *; by destruct (cmd_type cmd)).
      assert (IsReadWrite cmd = true) as Hrw by (unfold IsReadWrite; by rewrite Hrd).
      specialize (Hp Hrw). unfold settles, is_pending in Hp. rewrite Hw in Hp. cbn in Hp.
      pose proof (mm_count_nonneg (hex_addr cmd) (pending_rd_q_ s)).
      destruct (Z.eqb_spec (mm_count (hex_addr cmd) (pending_rd_q_ s)) 0) as [Ez%mm_count_zero|]; [done|].
      destruct (return_reads_all (hex_addr cmd) (u64 (ct_clk s + read_delay (timp config)))
        (Z.to_nat (mm_count (hex_addr cmd) (pending_rd_q_ s))) (pending_rd_q_ s) (return_queue_ s)) as [q E]; [lia|].
      rewrite E. cbn [mbind res_bind]. eexists. split; [done|]. split; [by destruct s|]. split; [by destruct s|].
      split; [by split; destruct s|]. split; [by destruct s|]. intros [a w]. unfold settles, is_pending. rewrite Hw.
      destruct s; cbn. destruct w; [naive_solver|]. rewrite filter_keys. naive_solver.
    - assert (IsReadWrite cmd = true) as Hrw by (unfold IsReadWrite; by rewrite Hwr, orb_true_r).
      specialize (Hp Hrw). unfold settles, is_pending in Hp. rewrite Hwr in Hp. cbn in Hp.
      destruct (mm_take_spec _ _ Hp) as (t & m' & E & _). rewrite E. cbn [mbind res_bind of_option].
      eexists. split; [done|]. split; [by destruct s|]. split; [by destruct s|].
      split; [by split; destruct s|]. split; [destruct s; cbn in *; by eapply take_keys|].
      intros [a w]. unfold settles, is_pending. rewrite Hwr. destruct s; cbn in *. destruct w; [|naive_solver].
      rewrite (proj2 (take_keys _ _ _ _ a Hd E)). naive_solver.
    - exists s. assert (IsReadWrite cmd = false) as Hrw by (unfold IsReadWrite; by rewrite Hrd, Hwr).
      rewrite Hrw. split_and!; try done. intros k. naive_solver. }
  destruct (command_stats_ok cmd (channel_state_ s1) (simple_stats_ s1)) as (st & E2 & Hst);
    [by rewrite Ec | done | done |].
  unfold IssueCommand. cbv zeta in E1 |- *. rewrite E1. cbn [mbind res_bind]. rewrite E2. cbn [mbind res_bind].
  assert (ct_clk s1 = ct_clk s) as -> by apply F. rewrite Ec, Hu. cbn [mbind res_bind].
  eexists. split; [done|]. split; [by destruct s1|]. split; [by destruct s1|]. split; [|split].
  - etrans; [exact F|]. split; destruct s1; cbn in *; try done. 
  - by destruct s1.
  - intros k. rewrite <- Hp1. by destruct s1.
Qed.

(** ** A round of the command queues *)

(** The part of the state a round of the queues leaves alone. *)
Record mm_same (s s' : Controller) : Prop := {
  ms_chan : channel_state_ s' = channel_state_ s; ms_rd : pending_rd_q_ s' = pending_rd_q_ s;
  ms_wr : pending_wr_q_ s' = pending_wr_q_ s; ms_stages : stages_same s s' }.

Lemma mm_same_pending s s' k : mm_same s s' → is_pending s' k ↔ is_pending s k.
Proof. intros [_ E1 E2 _]. unfold is_pending. by rewrite E1, E2. Qed.

Lemma next_command_ok s :
  ctrl_wf s → ∃ cmd s', next_command config s = Ok (cmd, s') ∧ mm_same s s' ∧
    queues_ok config (cmd_queue_ s') ∧
    waiting s ≡ₚ (if IsValid cmd && IsReadWrite cmd then [settles cmd] else []) ++ waiting s' ∧
    (IsValid cmd = true → ∃ c, request_ok config c ∧
       ChannelState_GetReadyCommand config (channel_state_ s) c (cq_clk (cmd_queue_ s)) = Ok cmd).
Proof.
  intros W. destruct (issue_loop_ok config (Z.to_nat (num_queues_ (cmd_queue_ s))) (channel_state_ s)
    (cmd_queue_ s) (simple_stats_ s) (ck_chan _ W) (ck_queues _ W)) as (cmd & cq & st & E & Hi).
  pose proof (issue_loop_vec _ _ _ _ _ _ _ E) as Hv.
  exists cmd, (s {{ cmd_queue_ := cq; simple_stats_ := st }}). unfold next_command, GetCommandToIssue.
  assert (cmd_queue_ (s {{ cmd_queue_ := cq; simple_stats_ := st }}) = cq) as Ecq by by destruct s.
  rewrite E. cbn [mbind res_bind]. split; [done|]. split; [split; [by destruct s..|split; destruct s; cbn in *; done]|].
  split; [rewrite Ecq; eapply issued_ok; [apply W | done]|].
  split.
  - unfold waiting. rewrite Ecq. destruct (IsValid cmd && IsReadWrite cmd) eqn:Hb.
    + apply andb_prop in Hb as [Hval Hrw]. destruct (is_served _ _ _ _ _ Hi Hval) as (i & q & Hg & _ & _ & Hq).
      destruct (Hq Hrw) as (l1 & l2 & -> & ->).
      assert (concat (queues_ (cmd_queue_ s)) ≡ₚ
        cmd :: concat (<[Z.to_nat i := l1 ++ l2]> (queues_ (cmd_queue_ s)))) as Hp.
      { pose proof (concat_insert_perm (λ x : list Command, x) (queues_ (cmd_queue_ s)) (Z.to_nat i)
          (l1 ++ cmd :: l2) (l1 ++ l2) [cmd] []) as Hp. rewrite !list_fmap_id, !app_nil_r in Hp.
        rewrite <- Hp; [by rewrite Permutation_app_comm | by apply vget_lookup in Hg as [_ Hg] |].
        by rewrite <- app_assoc, (Permutation_app_comm l2). }
      rewrite Hp, fmap_cons. unfold settles. cbn [app]. destruct s; cbn in *. by rewrite <- Permutation_middle.
    + rewrite (is_kept _ _ _ _ _ Hi Hb). by destruct s.
  - intros Hval. destruct (is_served _ _ _ _ _ Hi Hval) as (i & q & Hg & _ & (p & c & r & -> & Hr & _) & _).
    exists c. split; [|done]. apply (qo_cmds _ _ (ck_queues _ W) _ _ _ Hg). set_solver.
Qed.

(** The command of a round, issued. *)
Lemma issue_next s cmd s1 n :
  ctrl_wf s → headroom config (n + 1) (channel_state_ s) → 0 ≤ n < 2 ^ 31 - 1 →
  next_command config s = Ok (cmd, s1) → IsValid cmd = true →
  ∃ s2, IssueCommand config cmd s1 = Ok s2 ∧ ctrl_wf s2 ∧ headroom config n (channel_state_ s2) ∧
    rank_idle_cycles (channel_state_ s2) = rank_idle_cycles (channel_state_ s) ∧ stages_same s s2.
Proof.
  intros W Hh Hn E Hv. destruct (next_command_ok s W) as (cmd' & s1' & E' & M & Hq & Hw & Hc).
  rewrite E in E'. injection E' as <- <-. destruct (Hc Hv) as (c & [Hrw Ha Hin] & Hg).
  assert (cmd_in_grid config c) as Hcin.
  { unfold cmd_in_grid, IsRankCMD. by destruct (cmd_type c). }
  pose proof (request_step config _ c _ (ck_chan _ W) (ck_awake _ W) Hrw Hin cmd Hg Hv) as Hns.
  destruct (step_applies config _ c cmd _ (ct_clk s1) n (ck_chan _ W) Hh Hn Hcin Hg Hv Hns)
    as (Hcg & ch & Eu & Wc & Hh' & Hs & Hr & Hi).
  pose proof (ms_chan _ _ M) as Echan. pose proof (bk_writes _ (ck_books _ W)) as Hdw.
  rewrite <- (ms_wr _ _ M) in Hdw. rewrite <- Echan in Eu.
  destruct (issue_ok s1 cmd ch) as (s2 & E2 & Ech & Ecq & F & Hd & Hp); try done.
  { rewrite Echan. apply W. }
  { intros Hx. rewrite (mm_same_pending _ _ _ M). apply (bk_known _ (ck_books _ W)). rewrite Hw, Hv, Hx. set_solver. }
  exists s2. split; [done|]. assert (stages_same s s2) as F2 by (etrans; [apply M | exact F]).
  assert (waiting s2 = waiting s1) as Ew.
  { unfold waiting. rewrite Ecq, (st_uq _ _ F), (st_rq _ _ F), (st_wb _ _ F). done. }
  split; [|by rewrite Ech]. apply (ctrl_wf_channel s s2 ch); try done; [|by rewrite Ecq].
  rewrite Hv in Hw. destruct (IsReadWrite cmd) eqn:Hx; cbn [andb app] in Hw.
  - apply (books_settled s s2 (settles cmd)); [apply W | by rewrite Ew | | done].
    intros k. rewrite Hp, (mm_same_pending _ _ _ M). naive_solver.
  - destruct (ck_books _ W) as [B1 B2 B3 B4].
    assert (∀ k, is_pending s2 k ↔ is_pending s k) as Hpk
      by (intros k; rewrite Hp, (mm_same_pending _ _ _ M); naive_solver).
    split; rewrite ?Ew, <- ?Hw; try done.
    + intros k. rewrite <- Hw, Hpk. apply B2.
    + intros Hdual k. rewrite <- Hw, Hpk. by apply B3.
Qed.

(** The command of a round, not issued: a request is lost only if it was a data
    command, which takes the dual issue. *)
Lemma skip_next s cmd s1 :
  ctrl_wf s → next_command config s = Ok (cmd, s1) →
  IsValid cmd && IsReadWrite cmd = false ∨ enable_hbm_dual_cmd (dramp config) = true →
  ctrl_wf s1 ∧ channel_state_ s1 = channel_state_ s ∧ stages_same s s1.
Proof.
  intros W E Hx. destruct (next_command_ok s W) as (cmd' & s1' & E' & M & Hq & Hw & _).
  rewrite E in E'. injection E' as <- <-. split; [|split; apply M].
  apply (ctrl_wf_channel s s1 (channel_state_ s)); try done; try apply M; [|apply W].
  destruct (IsValid cmd && IsReadWrite cmd).
  - destruct Hx as [?|Hd]; [done|]. eapply (books_dropped s); [done | apply W | exact Hw | apply M..].
  - apply (books_ext s); [apply W | by rewrite Hw | apply M..].
Qed.

(** ** Refreshes *)

Lemma nth_refresh_ok p i : org_ok config → refresh_ok config (nth_refresh config p i).
Proof.
  intros [H1 H2 H3]. unfold nth_refresh, refresh_ok, refresh_coords.
  destruct p; [left | left | right | left]; (split; [done|]);
    first [split_and!|idtac]; unfold Rank, Bankgroup, Bank; cbn; try (apply Z.mod_pos_bound; lia).
Qed.

(** The refresh counter asks for at most one refresh, of existing banks. *)
Lemma refresh_tick_ok rf ch :
  org_ok config → refresh_wf rf → awake config ch → Forall (refresh_ok config) (refresh_q_ ch) →
  ∃ rf' q, Refresh_ClockTick config rf ch = Ok (rf', ch {{ refresh_q_ := q }}) ∧ refresh_wf rf' ∧
    Forall (refresh_ok config) q.
Proof.
  intros Ho [Hi Hat] Ha Hr. unfold Refresh_ClockTick. rewrite umod_Ok by done. cbn [mbind res_bind].
  assert (∃ rf' q, InsertRefresh config rf ch = Ok (rf', ch {{ refresh_q_ := q }}) ∧ refresh_wf rf' ∧
    Forall (refresh_ok config) q) as (rf1 & q1 & E1 & W1 & R1).
  { destruct Hat as [Hp|[i Hi']].
    - exists rf, (refresh_q_ ch ++ [mkCommand REFRESH (mkAddress (-1) 0 (-1) (-1) (-1) (-1)) (u64 (-1))]).
      split; [|split; [by split; [|left]|]].
      + unfold InsertRefresh. rewrite Hp, seqZ_cons by apply Ho. cbn [refresh_first].
        rewrite Ha by (split; [done | apply Ho]). cbn [mbind res_bind negb]. by destruct ch.
      + apply Forall_app. split; [done|]. apply Forall_singleton. left. split; [done|]. split; [done | apply Ho].
    - destruct (InsertRefresh_ok config i rf ch Ho Hi' Ha) as (rf' & E & Hn & Hpol & _ & Hv).
      exists rf', (refresh_q_ ch ++ [nth_refresh config (refresh_policy_ rf) i]). split; [done|]. split.
      + split; [by rewrite Hv|]. right. by exists (i + 1).
      + apply Forall_app. split; [done|]. apply Forall_singleton. by apply nth_refresh_ok. }
  destruct (_ && _).
  - rewrite E1. cbn [mbind res_bind]. eexists _, q1. split; [done|]. split; [|done].
    destruct W1 as [V1 V2]. split; destruct rf1; [done|]. exact V2.
  - cbn [mbind res_bind]. eexists _, (refresh_q_ ch). split; [by destruct ch|]. split; [|done].
    split; destruct rf; [done|]. exact Hat.
Qed.

Lemma finish_refresh_ok s :
  ctrl_wf s → IsRefreshWaiting (channel_state_ s) = true →
  ∃ ref cmd cq, FinishRefresh config (channel_state_ s) (cmd_queue_ s) = Ok (cmd, cq) ∧
    queues_ok config cq ∧ queues_ cq = queues_ (cmd_queue_ s) ∧ refresh_ok config ref ∧
    ChannelState_GetReadyCommand config (channel_state_ s) ref (cq_clk (cmd_queue_ s)) = Ok cmd ∧
    cmd_in_grid config ref ∧ (IsValid cmd = true → not_sref cmd ∧ IsReadWrite cmd = false).
Proof.
  intros W Hw. pose proof (ck_queues _ W) as Hq. pose proof (ck_refs _ W) as Hall.
  unfold FinishRefresh, PendingRefCommand. unfold IsRefreshWaiting in Hw.
  destruct (refresh_q_ (channel_state_ s)) as [|ref q] eqn:Er; [done|]. apply Forall_cons in Hall as [Href _].
  cbn [qfront]. rewrite bind_Ok.
  destruct (refresh_step config _ ref (cq_clk (cmd_queue_ s)) (ck_chan _ W) (ck_awake _ W) Href)
    as (Hg & cmd & Hr & Hv).
  assert (∃ cq, (if negb (is_in_ref_ (cmd_queue_ s)) then
      z ← GetRefQIndices config ref (cmd_queue_ s);
      Ok ((cmd_queue_ s) {{ ref_q_indices_ := z; is_in_ref_ := true }}) else Ok (cmd_queue_ s)) = Ok cq ∧
      queues_ok config cq ∧ queues_ cq = queues_ (cmd_queue_ s) ∧ cq_clk cq = cq_clk (cmd_queue_ s))
    as (cq & Ecq & Hq1 & Eq1 & Ek).
  { destruct (negb (is_in_ref_ (cmd_queue_ s))); [|by exists (cmd_queue_ s)]. destruct (ref_indices_ok config _ _ ref (ck_chan _ W) Hq Href) as [z ->].
    cbn [mbind res_bind]. eexists. split; [done|]. pose proof (qo_idx _ _ Hq).
    split; [apply (queues_ok_frame config (cmd_queue_ s)); by destruct (cmd_queue_ s) | by destruct (cmd_queue_ s)]. }
  rewrite Ecq. cbn [mbind res_bind]. rewrite Ek, Hr. cbn [mbind res_bind].
  exists ref, cmd. destruct (IsRefresh cmd).
  - eexists. split; [done|]. pose proof (qo_idx _ _ Hq1).
    split; [apply (queues_ok_frame config cq); by destruct cq|]. split; [by destruct cq | done].
  - exists cq. done.
Qed.

(** The step of a pending refresh, issued. *)
Lemma issue_refresh s cq ref cmd n :
  ctrl_wf s → headroom config (n + 1) (channel_state_ s) → 0 ≤ n < 2 ^ 31 - 1 →
  queues_ok config cq → queues_ cq = queues_ (cmd_queue_ s) → cmd_in_grid config ref →
  ChannelState_GetReadyCommand config (channel_state_ s) ref (cq_clk (cmd_queue_ s)) = Ok cmd →
  IsValid cmd = true → not_sref cmd → IsReadWrite cmd = false →
  ∃ s2, IssueCommand config cmd (s {{ cmd_queue_ := cq }}) = Ok s2 ∧ ctrl_wf s2 ∧
    headroom config n (channel_state_ s2) ∧
    rank_idle_cycles (channel_state_ s2) = rank_idle_cycles (channel_state_ s) ∧ stages_same s s2.
Proof.
  intros W Hh Hn Hq Eq Hg Hr Hv Hns Hrw. set (s1 := s {{ cmd_queue_ := cq }}).
  destruct (step_applies config _ ref cmd _ (ct_clk s1) n (ck_chan _ W) Hh Hn Hg Hr Hv Hns)
    as (Hcg & ch & Eu & Wc & Hh' & Hs & Hrq & Hi).
  assert (channel_state_ s1 = channel_state_ s ∧ cmd_queue_ s1 = cq ∧ stages_same s s1 ∧
    pending_wr_q_ s1 = pending_wr_q_ s ∧ ∀ k, is_pending s1 k ↔ is_pending s k)
    as (Echan & Ecq & F1 & Ewr & Hp1)
    by (split_and!; [by destruct s..|split; by destruct s|by destruct s|intros k; by destruct s]).
  rewrite <- Echan in Eu.
  destruct (issue_ok s1 cmd ch) as (s2 & E2 & Ech & Ecq2 & F & Hd & Hp); try done.
  { rewrite Echan. apply W. } { by rewrite Hrw. } { rewrite Ewr. apply W. }
  exists s2. split; [done|]. assert (stages_same s s2) as F2 by by etrans.
  split; [|by rewrite Ech]. apply (ctrl_wf_channel s s2 ch); try done; [|by rewrite Ecq2, Ecq].
  assert (waiting s2 = waiting s) as Ew.
  { unfold waiting. by rewrite Ecq2, Ecq, Eq, (st_uq _ _ F2), (st_rq _ _ F2), (st_wb _ _ F2). }
  destruct (ck_books _ W) as [B1 B2 B3 B4]. split; rewrite ?Ew; try done.
  - intros k. rewrite Hp, Hp1. rewrite Hrw. split; [done | by apply B2].
  - intros Hdual k. rewrite Hp, Hp1. intros [_ Hk]. by apply B3.
Qed.
End NoAbort.
