(* ===== verification/ControllerTick.v ===== *)
(** * A cycle of the controller (DRAMsim3/src/controller.cc, ClockTick)

    The phases of [Controller::ClockTick] (refresh counter, command queues, power
    counters, scheduling), each shown to succeed on a well-formed controller and to
    keep it so.  [room n] says that the [int] counters of the channel can take [n]
    more cycles.  With them: a controller runs for as many cycles as its counters
    have room for, whatever is added and returned in between, and the ledger of the
    transactions it owes. *)

From S2P Require Import Prelude DramCommon DramConfig Stats BankState Timing ChannelState ChannelProps.
From S2P Require Import Refresh CommandQueue ChannelRun Controller ControllerProps.

Open Scope Z_scope.

Section Cycle.
Variable config : Config.

(** Room for [n] more cycles: two hits of a bank and one idle cycle of a rank each. *)
Definition room (n : Z) (s : Controller) : Prop :=
  headroom config (2 * n) (channel_state_ s) ∧
  Forall (λ v, - 2 ^ 31 ≤ v < 2 ^ 31 - n) (rank_idle_cycles (channel_state_ s)).

Lemma headroom_le n m ch : m ≤ n → headroom config n ch → headroom config m ch.
Proof. intros Hle H r j k b Hi Hb. specialize (H r j k b Hi Hb). lia. Qed.

Lemma room_le n m s : m ≤ n → room n s → room m s.
Proof.
  intros Hle [H1 H2]. split; [eapply headroom_le, H1; lia|].
  eapply Forall_impl; [exact H2|]. cbv beta. intros v Hv. lia.
Qed.

Lemma room_chan n s s' : channel_state_ s' = channel_state_ s → room n s → room n s'.
Proof. unfold room. by intros ->. Qed.

(** ** Issuing commands *)

(** What the rest of a cycle keeps. *)
Definition issue_result (s : Controller) (n : Z) (s' : Controller) : Prop :=
  ctrl_wf config s' ∧ headroom config n (channel_state_ s') ∧
  rank_idle_cycles (channel_state_ s') = rank_idle_cycles (channel_state_ s).

Lemma quiet_same s s' :
  front_same s s' → unified_queue_ s' = unified_queue_ s → read_queue_ s' = read_queue_ s →
  write_buffer_ s' = write_buffer_ s → pending_rd_q_ s' = pending_rd_q_ s →
  pending_wr_q_ s' = pending_wr_q_ s → ∀ s0 n, issue_result s0 n s → issue_result s0 n s'.
Proof.
  intros F E1 E2 E3 E4 E5 s0 n (W & H & I). unfold issue_result. rewrite (fs_chan _ _ F).
  split; [by apply (quiet_wf config s)|done].
Qed.

(** The second command of the cycle. *)
Lemma dual_issue_ok s0 s cmd n :
  issue_result s0 (n + 1) s → 0 ≤ n < 2 ^ 31 - 1 →
  ∃ s', dual_issue config cmd s = Ok s' ∧ issue_result s0 n s'.
Proof.
  intros (W & Hh & I) Hn. assert (headroom config n (channel_state_ s)) as Hh0 by (eapply headroom_le, Hh; lia).
  unfold dual_issue. destruct (enable_hbm_dual_cmd _) eqn:Hdual; [|by exists s].
  destruct (next_command_ok config s W) as (c2 & s1 & E & _). rewrite E. cbn [mbind res_bind].
  destruct (skip_next config s c2 s1 W E (or_intror Hdual)) as (W1 & Ec & _).
  assert (issue_result s0 n s1) as R1 by (unfold issue_result; by rewrite Ec).
  destruct (IsValid c2) eqn:Hv; cbn [andb]; [destruct (negb _) eqn:Hk|]; [|by exists s1..].
  destruct (issue_next config s c2 s1 n W Hh Hn E Hv) as (s2 & E2 & W2 & H2 & I2 & _).
  rewrite E2. cbn [mbind res_bind]. eexists. split; [done|].
  eapply (quiet_same s2); [split|..|split_and!; [done..|by rewrite I2]]; by destruct s2.
Qed.

(** A round without a refresh in its way. *)
Lemma round_ok s n :
  ctrl_wf config s → headroom config (n + 2) (channel_state_ s) → 0 ≤ n < 2 ^ 31 - 2 →
  ∃ cmd s1 b s', next_command config s = Ok (cmd, s1) ∧
    (if IsValid cmd then s ← IssueCommand config cmd s1; s ← dual_issue config cmd s; Ok (true, s)
     else Ok (false, s1)) = Ok (b, s') ∧ issue_result s n s'.
Proof.
  intros W Hh Hn. destruct (next_command_ok config s W) as (c & s1 & E & _).
  exists c, s1. destruct (IsValid c) eqn:Hv.
  - assert (headroom config ((n + 1) + 1) (channel_state_ s)) as Hh2 by (eapply headroom_le, Hh; lia).
    destruct (issue_next config s c s1 (n + 1) W Hh2 ltac:(lia) E Hv) as (s2 & E2 & W2 & H2 & I2 & _).
    destruct (dual_issue_ok s s2 c n) as (s' & E' & R); [done | lia |].
    exists true, s'. rewrite E2. cbn [mbind res_bind]. by rewrite E'.
  - destruct (skip_next config s c s1 W E) as (W1 & Ec & _); [by left; rewrite Hv|].
    exists false, s1. split; [done|]. split; [done|]. unfold issue_result. rewrite Ec.
    split; [done|]. split; [eapply headroom_le, Hh; lia | done].
Qed.

Lemma issue_phase_ok s n :
  ctrl_wf config s → headroom config (n + 2) (channel_state_ s) → 0 ≤ n < 2 ^ 31 - 2 →
  ∃ b s', issue_phase config s = Ok (b, s') ∧ issue_result s n s'.
Proof.
  intros W Hh Hn. unfold issue_phase. destruct (IsRefreshWaiting (channel_state_ s)) eqn:Hw.
  - destruct (finish_refresh_ok config s W Hw) as (ref & c & cq & E & Hq & Eq & Hr & Hg & Hin & Hv).
    rewrite E. cbn [mbind res_bind]. destruct (IsValid c) eqn:Hvc; cbn [negb mbind res_bind].
    + destruct (Hv eq_refl) as [Hns Hrw].
      assert (headroom config ((n + 1) + 1) (channel_state_ s)) as Hh2 by (eapply headroom_le, Hh; lia).
      destruct (issue_refresh config s cq ref c (n + 1) W Hh2 ltac:(lia) Hq Eq Hin Hg Hvc Hns Hrw)
        as (s2 & E2 & W2 & H2 & I2 & _).
      destruct (dual_issue_ok s s2 c n) as (s' & E' & R); [done | lia |].
      exists true, s'. rewrite Hvc, E2. cbn [mbind res_bind]. by rewrite E'.
    + assert (ctrl_wf config (s {{ cmd_queue_ := cq }})) as W1.
      { apply (ctrl_wf_channel config s _ (channel_state_ s)); try done; [|apply W].
        apply (books_ext config s); [apply W | | by destruct s..]. unfold waiting. destruct s; cbn in *. by rewrite Eq. }
      destruct (round_ok _ n W1) as (c2 & s1 & b & s' & E1 & E2 & R); [by destruct s | done |].
      exists b, s'. rewrite E1. cbn [mbind res_bind]. split; [exact E2|]. revert R. by destruct s.
  - cbn [mbind res_bind]. change (negb (IsValid Command_default)) with true.
    destruct (round_ok s n W Hh Hn) as (c2 & s1 & b & s' & E1 & E2 & R).
    exists b, s'. rewrite E1. cbn [mbind res_bind]. by split.
Qed.
(** ** Power counters *)

Lemma all_idle_total ch r l :
  chan_wf config ch → (∀ j k, (j, k) ∈ l → in_grid config r j k) →
  ∃ b, all_idle (bank_states_ ch) r l = Ok b.
Proof.
  intros W. induction l as [|[j k] l IH]; intros Hl; [by exists true|]. cbn [all_idle].
  destruct (cw_grid _ _ W r j k) as (b & -> & _); [apply Hl; set_solver|]. cbn [mbind res_bind].
  destruct (IsRowOpen b); [by exists false|]. apply IH. set_solver.
Qed.

Lemma increment_vec_ok n i st :
  stats_ok config st → n ∈ rank_counters →
  0 ≤ i < ranks (sizep config) → ∃ st', IncrementVec n i st = Ok st' ∧ stats_ok config st'.
Proof.
  intros [Hwf Hst] Hn Hi. destruct (Hst n Hn) as (v & Hv & Hs).
  destruct (increment_vec_wf n i v st Hwf Hv) as (st' & E & W & Sh); [lia|]. exists st'. split; [done|].
  split; [done|]. intros m Hm. destruct (Hst m Hm) as (u & Hu & Hsu). pose proof (ss_vecs _ _ Sh m) as H.
  rewrite Hu in H. destruct (epoch_vec_counters_ st' !! m) as [u'|]; [|done]. injection H as H.
  exists u'. split; [done|]. unfold vsize in *. lia.
Qed.

(** A power counter and the idle cycles of a rank, written. *)
Lemma count_wf s st v :
  ctrl_wf config s → stats_ok config st → vsize v = ranks (sizep config) →
  ctrl_wf config (s {{ simple_stats_ := st; channel_state_ := (channel_state_ s) {{ rank_idle_cycles := v }} }}).
Proof.
  intros W Hst Hv. set (s' := s {{ simple_stats_ := st; channel_state_ := _ }}).
  assert (books config s') as B by (apply (books_ext config s); [apply W | by destruct s..]).
  destruct W as [W1 W2 W3 W4 W5 W6 W7 W8 W9 W10 W11]. unfold s' in *.
  destruct s as [f1 f2 f3 ch f5 f6 f7 f8 f9 f10 f11 f12 f13 f14 f15 f16], ch as [c1 c2 c3 c4 c5 c6]; cbn in *.
  split; try done. destruct W1. by split.
Qed.

Lemma count_rank_ok i s n :
  ctrl_wf config s → 0 ≤ n < 2 ^ 31 → 0 ≤ i < ranks (sizep config) →
  Forall (λ v, - 2 ^ 31 ≤ v < 2 ^ 31 - n) (rank_idle_cycles (channel_state_ s)) →
  (∀ v, vget (rank_idle_cycles (channel_state_ s)) i = Ok v → v < 2 ^ 31 - (n + 1)) →
  ∃ s', count_rank config i s = Ok s' ∧ ctrl_wf config s' ∧
    bank_states_ (channel_state_ s') = bank_states_ (channel_state_ s) ∧
    Forall (λ v, - 2 ^ 31 ≤ v < 2 ^ 31 - n) (rank_idle_cycles (channel_state_ s')) ∧
    ∀ j, j ≠ i → vget (rank_idle_cycles (channel_state_ s')) j = vget (rank_idle_cycles (channel_state_ s)) j.
Proof.
  intros W Hn Hi Hall Hlt. unfold count_rank. rewrite (ck_awake _ _ W i Hi). cbn [mbind res_bind].
  destruct (all_idle_total (channel_state_ s) i (rank_coords config) (ck_chan _ _ W)) as [b Hb].
  { intros j k H%rank_coords_in. split; [done | lia]. }
  unfold IsAllBankIdleInRank. rewrite Hb. cbn [mbind res_bind].
  pose proof (ck_idle _ _ W) as Hsz. set (l := rank_idle_cycles (channel_state_ s)) in *.
  destruct (vget_is_Ok l i) as [x Hx]; [lia|]. specialize (Hlt x Hx).
  assert (- 2 ^ 31 ≤ x) as Hlo.
  { apply vget_lookup in Hx as [_ Hx]. apply (Forall_lookup_1 _ _ _ _ Hall Hx). }
  assert (∀ nm y, nm ∈ rank_counters → - 2 ^ 31 ≤ y < 2 ^ 31 - n →
    ∃ s', (st ← IncrementVec nm i (simple_stats_ s); v ← Ok (<[Z.to_nat i := y]> l);
      Ok (s {{ simple_stats_ := st; channel_state_ := (channel_state_ s) {{ rank_idle_cycles := v }} }})) = Ok s' ∧
    ctrl_wf config s' ∧ bank_states_ (channel_state_ s') = bank_states_ (channel_state_ s) ∧
    Forall (λ v, - 2 ^ 31 ≤ v < 2 ^ 31 - n) (rank_idle_cycles (channel_state_ s')) ∧
    ∀ j, j ≠ i → vget (rank_idle_cycles (channel_state_ s')) j = vget l j) as Hput.
  { intros nm y Hnm Hy. destruct (increment_vec_ok nm i _ (ck_stats _ _ W) Hnm Hi) as (st & E & Hst).
    rewrite E. cbn [mbind res_bind]. eexists. split; [done|].
    split; [apply count_wf; [done|done|by rewrite vsize_insert]|]. split; [clear; destruct s as [f1 f2 f3 ch f5 f6 f7 f8 f9 f10 f11 f12 f13 f14 f15 f16]; by destruct ch|].
    assert (∀ v, rank_idle_cycles (channel_state_ (s {{ simple_stats_ := st;
      channel_state_ := (channel_state_ s) {{ rank_idle_cycles := v }} }})) = v) as -> by done.
    split; [by apply Forall_insert|]. intros j Hj. rewrite vget_insert by lia. by rewrite decide_False. }
  destruct b.
  - rewrite (vmod_Ok l i (λ n, int_chk (n + 1)) x (x + 1)) by (done || apply int_chk_Ok; lia).
    apply Hput; [unfold rank_counters; set_solver | lia].
  - rewrite (vset_Ok l) by lia. apply Hput; [unfold rank_counters; set_solver | lia].
Qed.

Lemma count_ranks_ok l s n :
  ctrl_wf config s → 0 ≤ n < 2 ^ 31 → NoDup l → (∀ i, i ∈ l → 0 ≤ i < ranks (sizep config)) →
  Forall (λ v, - 2 ^ 31 ≤ v < 2 ^ 31 - n) (rank_idle_cycles (channel_state_ s)) →
  (∀ i v, i ∈ l → vget (rank_idle_cycles (channel_state_ s)) i = Ok v → v < 2 ^ 31 - (n + 1)) →
  ∃ s', for_each l (count_rank config) s = Ok s' ∧ ctrl_wf config s' ∧
    bank_states_ (channel_state_ s') = bank_states_ (channel_state_ s) ∧
    Forall (λ v, - 2 ^ 31 ≤ v < 2 ^ 31 - n) (rank_idle_cycles (channel_state_ s')).
Proof.
  revert s. induction l as [|i l IH]; intros s W Hn Hd Hl Hall Hlt; [by exists s|]. cbn [for_each].
  apply NoDup_cons in Hd as [Hi Hd].
  destruct (count_rank_ok i s n W Hn) as (s1 & E & W1 & B1 & A1 & O1); [apply Hl; set_solver | done | |].
  { intros v. apply Hlt. set_solver. }
  rewrite E. cbn [mbind res_bind]. destruct (IH s1 W1 Hn Hd) as (s2 & E2 & W2 & B2 & A2); [set_solver | done | |].
  - intros j v Hj. rewrite O1 by (intros ->; done). apply Hlt. set_solver.
  - exists s2. split; [done|]. by rewrite B2, B1.
Qed.
(** The end of an epoch. *)
Lemma set_stats_wf s st :
  ctrl_wf config s → stats_ok config st → ctrl_wf config (s {{ simple_stats_ := st }}).
Proof.
  intros W Hst. set (s' := s {{ simple_stats_ := st }}).
  assert (books config s') as B by (apply (books_ext config s); [apply W | by destruct s..]).
  destruct W. unfold s' in *. destruct s; cbn in *. by split.
Qed.

Lemma print_epoch_ok s :
  ctrl_wf config s → ∃ s', Ctrl_PrintEpochStats s = Ok s' ∧ ctrl_wf config s' ∧
    channel_state_ s' = channel_state_ s ∧ owed s' = owed s.
Proof.
  intros W. unfold Ctrl_PrintEpochStats. destruct (ck_stats _ _ W) as [Hwf Hr].
  destruct (epoch_ok (Increment "epoch_num" (simple_stats_ s))) as (st & E & Wst & _ & Sh);
    [by eapply stats_wf_frame|]. rewrite E. cbn [mbind res_bind]. eexists. split; [done|].
  split; [|by destruct s]. apply set_stats_wf; [done|]. split; [done|]. intros n Hn. destruct (Hr n Hn) as (v & Hv & Hs).
  pose proof (ss_vecs _ _ Sh n) as H. assert (epoch_vec_counters_ (Increment "epoch_num" (simple_stats_ s)) !! n = Some v)
    as Hv' by done. rewrite Hv' in H.
  destruct (epoch_vec_counters_ st !! n) as [u|]; [|done]. injection H as H. exists u. split; [done|].
  unfold vsize in *. lia.
Qed.

(** ** Scheduling *)

Hypothesis Hmap : mapping_in_grid config.

Lemma command_is_write s t : IsWrite (TransToCommand config s t) = is_write t.
Proof.
  unfold TransToCommand, IsWrite. cbn. case_bool_decide; by destruct (is_write t).
Qed.

Lemma command_request s t : request_ok config (TransToCommand config s t).
Proof.
  unfold TransToCommand. split; cbn; [|done|apply Hmap].
  case_bool_decide; by destruct (is_write t).
Qed.

Lemma schedule_scan_ok s prev q :
  ctrl_wf config s → ∃ o, schedule_scan config s prev q = Ok o ∧
    match o with
    | None => True
    | Some (p, t, r) => prev ++ q = p ++ t :: r ∧
        let c := TransToCommand config s t in
        WillAcceptCommand config (cmd_queue_ s) (Rank c) (Bankgroup c) (Bank c) = Ok true
    end.
Proof.
  intros W. revert prev. induction q as [|t q IH]; intros prev; [by exists None|]. cbn [schedule_scan].
  destruct (AddCommand_ok config _ _ _ (ck_chan _ _ W) (ck_queues _ _ W) (command_request s t))
    as (i & q' & _ & _ & E & _).
  rewrite E. cbn [mbind res_bind]. destruct (_ <? _) eqn:Hlt.
  - exists (Some (prev, t, q)). split; [done|]. split; [done|]. exact E.
  - destruct (IH (prev ++ [t])) as (o & Eo & Ho). exists o. split; [done|].
    destruct o as [[[p u] r]|]; [|done]. by rewrite <- app_assoc in Ho.
Qed.

Lemma start_draining_ok s :
  ctrl_wf config s → ctrl_wf config (start_draining config s) ∧
    channel_state_ (start_draining config s) = channel_state_ s.
Proof.
  intros W. unfold start_draining. destruct (_ && _); [|done]. cbv zeta. destruct (_ || _); [|done].
  split; [|by destruct s]. set (s' := s {{ write_draining_ := _ }}).
  assert (books config s') as B by (apply (books_ext config s); [apply W | by destruct s..]).
  pose proof (i32_range (vsize (write_buffer_ s))).
  destruct W. split; unfold s' in *; destruct s; cbn in *; done.
Qed.

(** The scheduled transaction moves from its queue to the command queues. *)
Lemma schedule_wf s p t r cq wd i q :
  ctrl_wf config s → scheduled_queue s = p ++ t :: r → queues_ok config cq →
  vget (queues_ (cmd_queue_ s)) i = Ok q →
  queues_ cq = <[Z.to_nat i := q ++ [TransToCommand config s t]]> (queues_ (cmd_queue_ s)) →
  - 2 ^ 31 ≤ wd < 2 ^ 31 →
  ctrl_wf config ((set_queue (p ++ r) s) {{ cmd_queue_ := cq; write_draining_ := wd }}).
Proof.
  intros W Hs Hq Hg Eq Hwd. set (s' := (set_queue (p ++ r) s) {{ cmd_queue_ := cq; write_draining_ := wd }}).
  assert (books config s') as B.
  { apply (books_ext config s); [apply W | | unfold s', set_queue; repeat case_match; by destruct s..].
    pose proof (concat_insert_perm (λ x : list Command, x) (queues_ (cmd_queue_ s)) (Z.to_nat i)
      q (q ++ [TransToCommand config s t]) [] [TransToCommand config s t]) as Hp.
    rewrite !list_fmap_id, !app_nil_r, <- Eq in Hp. apply vget_lookup in Hg as [_ Hg].
    specialize (Hp Hg ltac:(done)).
    assert ((hex_addr (TransToCommand config s t), IsWrite (TransToCommand config s t)) = txn t) as Et
      by (rewrite command_is_write; done).
    clear Eq. generalize dependent (TransToCommand config s t). intros c Hp Et.
    unfold scheduled_queue in Hs. unfold waiting, s', set_queue.
    destruct s as [f1 f2 f3 f4 f5 f6 u uq rq wb f11 f12 f13 f14 f15 wd0]; cbn in *.
    destruct u; [|destruct (0 <? wd0)]; cbn; subst; rewrite Hp, !fmap_app, !fmap_cons; cbn [fmap list_fmap]; rewrite Et;
      perm_solve. }
  assert (∀ P : Transaction → Prop, Forall P (p ++ t :: r) → Forall P (p ++ r)) as Hsub.
  { intros P. rewrite !Forall_app, Forall_cons. naive_solver. }
  destruct W as [W1 W2 W3 W4 W5 W6 W7 W8 W9 W10 W11]. unfold s', set_queue, scheduled_queue in *.
  destruct s as [f1 f2 f3 f4 f5 f6 u uq rq wb f11 f12 f13 f14 f15 wd0]; cbn in *.
  destruct u; [|destruct (0 <? wd0)]; cbn in *; subst; split; try done; cbn; intros _; apply Hsub; auto.
Qed.

Lemma schedule_ok s :
  ctrl_wf config s → ∃ s', ScheduleTransaction config s = Ok s' ∧ ctrl_wf config s' ∧
    channel_state_ s' = channel_state_ s.
Proof.
  intros W0. destruct (start_draining_ok s W0) as [W Ech]. unfold ScheduleTransaction.
  rewrite <- Ech. revert W. clear - Hmap. generalize (start_draining config s). intros s0 W. 
  destruct (schedule_scan_ok s0 [] (scheduled_queue s0) W) as (o & E & Ho). rewrite E. cbn [mbind res_bind].
  destruct o as [[[p t] r]|]; [|by exists s0]. destruct Ho as [Hs Hacc]. cbn [app] in Hs. cbv zeta in Hacc.
  destruct (AddCommand_ok config _ _ _ (ck_chan _ _ W) (ck_queues _ _ W) (command_request s0 t))
    as (i & q & _ & Hg & Ew & Hadd). rewrite Ew in Hacc. injection Hacc as Hlt%Z.ltb_lt.
  destruct (Hadd Hlt) as (cq & Ea & Hq & Eq & _). cbv zeta. rewrite Ea. cbn [mbind res_bind].
  assert (∀ wd, - 2 ^ 31 ≤ wd < 2 ^ 31 → ∃ s', Ok ((set_queue (p ++ r) s0) {{ cmd_queue_ := cq; write_draining_ := wd }}) = Ok s'
    ∧ ctrl_wf config s' ∧ channel_state_ s' = channel_state_ s0) as Hput.
  { intros wd Hwd. eexists. split; [done|]. split; [by eapply schedule_wf|].
    unfold set_queue. repeat case_match; by destruct s0. }
  destruct (negb (is_unified_queue_ s0) && _) eqn:Hb.
  - apply andb_prop in Hb as [Hu%negb_true_iff Hwr]. rewrite command_is_write in Hwr.
    destruct (0 <? mm_count _ _).
    + eexists. split; [done|]. split; [|by destruct s0].
      set (s' := s0 {{ write_draining_ := _ }}).
      assert (books config s') as B by (apply (books_ext config s0); [apply W | by destruct s0..]).
      destruct W. split; unfold s' in *; destruct s0; cbn in *; try done; lia.
    + assert (0 < write_draining_ s0) as Hd.
      { unfold scheduled_queue in Hs. rewrite Hu in Hs. destruct (Z.ltb_spec 0 (write_draining_ s0)); [done|].
        pose proof (ck_reads _ _ W Hu) as Hr. rewrite Hs, Forall_app, Forall_cons in Hr. 
        destruct Hr as (_ & Hr & _). congruence. }
      pose proof (ck_drain _ _ W). rewrite int_chk_Ok by lia. cbn [mbind res_bind]. apply Hput. lia.
  - apply Hput. apply W.
Qed.

(** ** The cycle *)

Hypothesis Horg : org_ok config.
Hypothesis Hsref : enable_self_refresh (sysp config) = false.

Lemma tick_ok s n :
  ctrl_wf config s → 0 ≤ n < 2 ^ 30 - 1 → room (n + 1) s →
  ∃ s', Ctrl_ClockTick config s = Ok s' ∧ ctrl_wf config s' ∧ room n s'.
Proof.
  intros W Hn [Hh Hi]. unfold Ctrl_ClockTick.
  destruct (refresh_tick_ok config _ _ Horg (ck_refresh _ _ W) (ck_awake _ _ W) (ck_refs _ _ W))
    as (rf & q & E & Wr & Hq). rewrite E. cbn [mbind res_bind].
  set (s1 := s {{ refresh_ := rf; channel_state_ := _ }}).
  assert (ctrl_wf config s1 ∧ bank_states_ (channel_state_ s1) = bank_states_ (channel_state_ s) ∧
    rank_idle_cycles (channel_state_ s1) = rank_idle_cycles (channel_state_ s)) as (W1 & B1 & I1).
  { assert (books config s1) as B by (apply (books_ext config s); [apply W | by destruct s..]).
    destruct W as [[] W2 W3 W4 W5 W6 W7 W8 W9 W10 W11]. unfold s1 in *.
    destruct s as [f1 f2 f3 ch f5 f6 f7 f8 f9 f10 f11 f12 f13 f14 f15 f16], ch as [c1 c2 c3 c4 c5 c6]; cbn in *.
    split; [|done]. by split. }
  destruct (issue_phase_ok s1 (2 * n) W1) as (b & s2 & E2 & W2 & H2 & I2); [|lia|].
  { unfold headroom. rewrite B1. eapply headroom_le, Hh. lia. }
  rewrite E2. cbn [mbind res_bind].
  destruct (count_ranks_ok (seqZ 0 (ranks (sizep config))) s2 n W2) as (s3 & E3 & W3 & B3 & I3);
    [lia | apply NoDup_seqZ | intros i; rewrite elem_of_seqZ; lia | rewrite I2, I1 | rewrite I2, I1 |].
  { eapply Forall_impl; [exact Hi|]. cbv beta. lia. }
  { intros i v _ [_ Hv]%vget_lookup. pose proof (Forall_lookup_1 _ _ _ _ Hi Hv). cbv beta in *. lia. }
  rewrite E3. cbn [mbind res_bind]. rewrite Hsref. cbn [andb mbind res_bind].
  destruct (schedule_ok s3 W3) as (s4 & E4 & W4 & C4). rewrite E4. cbn [mbind res_bind].
  eexists. split; [done|]. set (s5 := s4 {{ ct_clk := _; cmd_queue_ := _; simple_stats_ := _ }}).
  assert (channel_state_ s5 = channel_state_ s4) as C5 by by destruct s4.
  assert (queues_ (CommandQueue_ClockTick (cmd_queue_ s4)) = queues_ (cmd_queue_ s4)) as Eq
    by by destruct (cmd_queue_ s4).
  assert (queues_ok config (CommandQueue_ClockTick (cmd_queue_ s4))) as Hq5.
  { pose proof (qo_idx _ _ (ck_queues _ _ W4)).
    apply (queues_ok_frame config (cmd_queue_ s4)); [apply W4|..]; by destruct (cmd_queue_ s4). }
  assert (books config s5) as B5.
  { apply (books_ext config s4); [apply W4| |by destruct s4..]. unfold waiting, s5. destruct s4; cbn in *. by rewrite Eq. }
  split.
  - clear - W4 Hq5 B5. destruct W4. unfold s5 in *. split; destruct s4; cbn in *; first [done | by eapply stats_ok_vec].
  - apply (room_chan n s3 s5); [by rewrite C5, C4|]. split; [|exact I3]. unfold headroom. rewrite B3. exact H2.
Qed.
(** ** Runs *)

(** What happens to a controller: its client offers a transaction, which is added if
    the queue of its kind has room, or asks for a completed one; or a cycle passes. *)
Inductive ctrl_event := Offer (t : Transaction) | Collect (clk : Z) | Tick.

Definition ctrl_step (e : ctrl_event) (s : Controller)
    : res (list (Z * bool) * list (Z * bool) * Controller) :=
  match e with
  | Offer t =>
      if Ctrl_WillAcceptTransaction config (is_write t) s
      then Ok ([txn t], [], Ctrl_AddTransaction t s) else Ok ([], [], s)
  | Collect clk =>
      match ReturnDoneTrans clk s with
      | (Some e, s') => Ok ([], [e], s')
      | (None, s') => Ok ([], [], s')
      end
  | Tick => s' ← Ctrl_ClockTick config s; Ok ([], [], s')
  end.

(** A run: the transactions accepted and those returned, with the final state. *)
Fixpoint ctrl_run (evs : list ctrl_event) (s : Controller)
    : res (list (Z * bool) * list (Z * bool) * Controller) :=
  match evs with
  | [] => Ok ([], [], s)
  | e :: evs' =>
      '(a, d, s1) ← ctrl_step e s; '(a', d', s2) ← ctrl_run evs' s1;
      Ok (a ++ a', d ++ d', s2)
  end.

Fixpoint cycles (evs : list ctrl_event) : Z :=
  match evs with
  | [] => 0
  | Tick :: evs' => 1 + cycles evs'
  | _ :: evs' => cycles evs'
  end.

Lemma add_chan t s : channel_state_ (Ctrl_AddTransaction t s) = channel_state_ s.
Proof. unfold Ctrl_AddTransaction, accept, enqueue. repeat case_match; by destruct s. Qed.

Lemma return_wf clk s :
  ctrl_wf config s → ctrl_wf config (ReturnDoneTrans clk s).2 ∧
    channel_state_ (ReturnDoneTrans clk s).2 = channel_state_ s.
Proof.
  intros W. unfold ReturnDoneTrans. destruct (take_done clk _) as [[t q]|]; [|done]. cbn [snd].
  split; [|by destruct s]. apply (quiet_wf config s); [done|split|..]; destruct s; cbn; by destruct (is_write t).
Qed.

Lemma ctrl_step_ok e s n :
  ctrl_wf config s → 0 ≤ n → room (cycles [e] + n) s → cycles [e] + n < 2 ^ 30 →
  ∃ a d s', ctrl_step e s = Ok (a, d, s') ∧ ctrl_wf config s' ∧ room n s' ∧
    a ++ owed s ≡ₚ d ++ owed s'.
Proof.
  intros W Hn Hr Hlt. destruct e as [t|clk|]; cbn [ctrl_step].
  - change (cycles [Offer t]) with 0 in *. destruct (Ctrl_WillAcceptTransaction _ _ _).
    + eexists _, _, _. split; [done|]. split; [by apply add_wf|]. split; [|by rewrite add_owed].
      by apply (room_chan n s); [apply add_chan|].
    + by exists [], [], s.
  - change (cycles [Collect clk]) with 0 in *. pose proof (return_owed clk s) as Ho.
    destruct (return_wf clk s W) as [W' Hc].
    destruct (ReturnDoneTrans clk s) as [[e|] s1]; cbn [snd] in *;
      eexists _, _, _; (split; [done|]; split; [done|]; split; [by apply (room_chan n s)|]); cbn [app].
    + done.
    + by subst.
  - change (cycles [Tick]) with 1 in *. destruct (tick_ok s n W) as (s' & E & W' & R'); [lia | by rewrite Z.add_comm|].
    rewrite E. cbn [mbind res_bind]. eexists _, _, _. split; [done|]. split; [done|]. split; [done|].
    symmetry. exact (tick_owed _ _ _ E).
Qed.

Lemma cycles_cons e evs : cycles (e :: evs) = cycles [e] + cycles evs.
Proof. destruct e; cbn [cycles]; lia. Qed.

Lemma cycles_nonneg evs : 0 ≤ cycles evs.
Proof. induction evs as [|[] evs IH]; cbn [cycles]; lia. Qed.

Lemma ctrl_run_ok evs s :
  ctrl_wf config s → room (cycles evs) s → cycles evs < 2 ^ 30 →
  ∃ a d s', ctrl_run evs s = Ok (a, d, s') ∧ ctrl_wf config s' ∧ a ++ owed s ≡ₚ d ++ owed s'.
Proof.
  revert s. induction evs as [|e evs IH]; intros s W Hr Hlt; [by exists [], [], s|].
  rewrite cycles_cons in *. pose proof (cycles_nonneg evs). pose proof (cycles_nonneg [e]).
  destruct (ctrl_step_ok e s (cycles evs) W) as (a & d & s1 & E1 & W1 & R1 & P1); [lia | done | lia |].
  destruct (IH s1 W1 R1) as (a' & d' & s2 & E2 & W2 & P2); [lia|].
  exists (a ++ a'), (d ++ d'), s2. cbn [ctrl_run]. rewrite E1. cbn [mbind res_bind]. rewrite E2. cbn [mbind res_bind].
  split; [done|]. split; [done|].
  by rewrite <- (app_assoc d), <- P2, (app_assoc d), (Permutation_app_comm d a'), <- (app_assoc a' d), <- P1,
    (Permutation_app_comm a a'), <- (app_assoc a' a).
Qed.

(** ** Fresh controllers *)

Lemma new_Controller_ok ch s :
  new_Controller config ch = Ok s →
  banks (dramp config) = bankgroups (dramp config) * banks_per_group (dramp config) →
  u64 (refresh_interval_ (refresh_ s)) ≠ 0 → refresh_policy (sysp config) ≠ POLICY_SIZE →
  ctrl_wf config s ∧ room (2 ^ 30 - 1) s ∧ owed s = [].
Proof using Horg.
  clear Hmap Hsref. unfold new_Controller. intros E Hb Hi Hp. apply bind_Ok_inv in E as (cq & Ecq & E).
  apply bind_Ok_inv in E as (rf & Erf & E). destruct (_ <? 0); [done|]. injection E as <-. cbn in Hi.
  destruct Horg as [Hr Hg Hbk].
  assert (0 < num_queues_ cq) as Hn.
  { unfold new_CommandQueue in Ecq. apply bind_Ok_inv in Ecq as ([qs k] & Ek & Ecq).
    destruct (_ || _); [done|]. injection Ecq as <-. cbn. case_bool_decide; [|case_bool_decide; [|done]].
    - apply bind_Ok_inv in Ek as (m & [-> _]%int_chk_inv & Ek). injection Ek as _ <-. rewrite Hb.
      apply Z.mul_pos_pos; [apply Z.mul_pos_pos|]; lia.
    - injection Ek as _ <-. lia. }
  destruct (new_ChannelState_wf config Hb) as [W _]; [lia..|].
  assert (∀ A (x : A), vsize (replicate (nranks config) x) = ranks (sizep config)) as Hsz
    by (intros; unfold vsize, nranks; rewrite length_replicate; lia).
  split; [split; cbn|split; [split|done]].
  - done.
  - intros r Hin. unfold IsRankSelfRefreshing. cbn. apply vget_replicate_Ok. unfold nranks. lia.
  - by apply Forall_nil.
  - apply Hsz.
  - split; [done|]. unfold new_Refresh in Erf. apply bind_Ok_inv in Erf as (i & _ & Erf). injection Erf as <-. cbn.
    destruct (refresh_policy (sysp config)) eqn:Hpol; [by left|right; exists 0..|done];
      unfold at_refresh, refresh_coords; cbn; by rewrite ?Zdiv_0_l, ?Zmod_0_l.
  - apply (new_queues_ok config cq Ecq); lia.
  - split; [apply new_stats_ok|]. intros n Hin. exists (replicate (nranks config) 0).
    split; [by apply new_vec_counters | apply Hsz].
  - assert (concat (queues_ cq) = []) as Hq.
    { unfold new_CommandQueue in Ecq. apply bind_Ok_inv in Ecq as ([qs k] & _ & Ecq).
      destruct (_ || _); [done|]. injection Ecq as <-. cbn. clear. by induction (Z.to_nat k). }
    split; unfold waiting, is_pending; cbn; rewrite ?Hq; cbn.
    + apply NoDup_nil_2.
    + intros k Hk. by apply elem_of_nil in Hk.
    + intros _ [a w] Hk. destruct w; cbn in Hk; by apply elem_of_nil in Hk.
    + apply NoDup_nil_2.
  - intros _. by apply Forall_nil.
  - intros _. by apply Forall_nil.
  - lia.
  - intros r j k b _ Hbk'. apply new_bank_at in Hbk' as ->. cbn. lia.
  - cbn. apply Forall_replicate. lia.
Qed.
End Cycle.

(** ** Properties *)

(** The configurations the controllers run with: sizes that an [int] holds, the
    address mapping of [SetAddressMapping], a refresh policy and an interval, and no
    self-refresh. *)
Record usable (config : Config) : Prop := {
  us_org : org_ok config;
  us_banks : banks (dramp config) = bankgroups (dramp config) * banks_per_group (dramp config);
  us_rows : 1 ≤ rows (dramp config) < 2 ^ 31;
  us_channels : 1 ≤ channels (sysp config) < 2 ^ 31;
  us_map : SetAddressMapping (sysp config) (dramp config) (sizep config) = Ok (amap config);
  us_policy : refresh_policy (sysp config) ≠ POLICY_SIZE;
  us_interval : ∀ rf, new_Refresh config = Ok rf → u64 (refresh_interval_ rf) ≠ 0;
  us_awake : enable_self_refresh (sysp config) = false }.

Lemma usable_mapping config :
  usable config → mapping_in_grid config ∧
    ∀ h, 0 ≤ GetChannel (amap config) h < channels (sysp config).
Proof.
  intros [[H1 H2 H3] _ H4 H5 H6 _ _ _].
  assert (∀ h, coords_in_range (sysp config) (dramp config) (sizep config) (AddressMapping (amap config) h) ∧
    GetChannel (amap config) h = channel (AddressMapping (amap config) h)) as Hc
    by (intros h; apply mapping_in_range; done || lia).
  split; intros h; destruct (Hc h) as [C E].
  - unfold in_grid. by destruct C as (C1 & C2 & C3 & C4 & C5).
  - rewrite E. by destruct C.
Qed.

Lemma usable_Controller config ch s :
  usable config → new_Controller config ch = Ok s →
  ctrl_wf config s ∧ room config (2 ^ 30 - 1) s ∧ owed s = [].
Proof.
  intros U E. apply (new_Controller_ok config (us_org _ U) ch); [done|apply U| |apply U].
  unfold new_Controller in E. apply bind_Ok_inv in E as (cq & _ & E). apply bind_Ok_inv in E as (rf & Er & E).
  destruct (_ <? 0); [done|]. injection E as <-. by apply (us_interval _ U).
Qed.

Lemma usable_run config ch s0 evs :
  usable config → new_Controller config ch = Ok s0 → cycles evs < 2 ^ 30 →
  ∃ a d s, ctrl_run config evs s0 = Ok (a, d, s) ∧ ctrl_wf config s ∧ a ≡ₚ d ++ owed s.
Proof.
  intros U E Hlt. destruct (usable_Controller config ch s0 U E) as (W & R & Ho).
  destruct (ctrl_run_ok config (proj1 (usable_mapping config U)) (us_org _ U) (us_awake _ U) evs s0 W)
    as (a & d & s & Er & Ws & P); [eapply room_le, R; lia | done |].
  exists a, d, s. split; [done|]. split; [done|]. by rewrite Ho, app_nil_r in P.
Qed.

(** C5: A fresh controller runs for up to 2^30 - 1 cycles, with any transactions
    offered and completed ones collected in between, without reaching an abort, an
    out-of-range access or a signed overflow; at the end, the transactions it accepted
    are those it returned and those it still owes, each as many times as it was
    accepted. *)
Theorem controller_runs config ch s0 evs :
  usable config → new_Controller config ch = Ok s0 → cycles evs < 2 ^ 30 →
  ∃ accepted returned s, ctrl_run config evs s0 = Ok (accepted, returned, s) ∧
    accepted ≡ₚ returned ++ owed s.
Proof.
  intros U E Hlt. destruct (usable_run config ch s0 evs U E Hlt) as (a & d & s & Er & _ & P). by exists a, d, s.
Qed.

(** C27: In every state a controller reaches, a transaction or command that waits in
    one of its queues waits there once and is recorded as pending; without dual command
    issue every pending transaction waits in a queue, so that none can be forgotten. *)
Theorem pending_requests_wait config ch s0 evs accepted returned s :
  usable config → new_Controller config ch = Ok s0 → cycles evs < 2 ^ 30 →
  ctrl_run config evs s0 = Ok (accepted, returned, s) →
  NoDup (waiting s) ∧ (∀ k, k ∈ waiting s → is_pending s k) ∧
  (enable_hbm_dual_cmd (dramp config) = false → ∀ k, is_pending s k → k ∈ waiting s).
Proof.
  intros U E Hlt Er. destruct (usable_run config ch s0 evs U E Hlt) as (a & d & s' & Er' & W & _).
  rewrite Er in Er'. injection Er' as -> -> ->. destruct (ck_books _ _ W) as [B1 B2 B3 _]. done.
Qed.

Lemma tick_small config s s' :
  is_unified_queue_ s = false → write_draining_ s = 0 → vsize (write_buffer_ s) ≤ 8 →
  vsize (write_buffer_ s) < queue_capacity config → Forall (λ t, is_write t = false) (read_queue_ s) →
  Ctrl_ClockTick config s = Ok s' →
  is_unified_queue_ s' = false ∧ write_draining_ s' = 0 ∧ write_buffer_ s' = write_buffer_ s ∧
  Forall (λ t, is_write t = false) (read_queue_ s').
Proof.
  intros H1 H2 H3 H4 H5 E. apply tick_phases in E as (s1 & s2 & [_ F1] & E & [_ F2]).
  injection F1 as A1 _ A2 A3 A4. injection F2 as B1 _ B2 B3 B4.
  rewrite B1, B2, B3, B4, <- A3. rewrite <- A1 in H1. rewrite <- A2 in H5. rewrite <- A3 in H3, H4. rewrite <- A4 in H2.
  by apply (schedule_small config s1 s2).
Qed.

(** C26: A small write buffer waits for more writes.  With split queues, no write in the
    read queue and draining not begun, a write buffer that is not full and holds at most
    eight writes is not drained: however many cycles pass, as long as no transaction is
    added it keeps its writes and [IsQueueFill] its answer, so that a client that waits
    for it to become empty, as the main loop does, waits for ever. *)
Theorem small_write_buffer_stuck config n s accepted returned s' :
  is_unified_queue_ s = false → write_draining_ s = 0 → vsize (write_buffer_ s) ≤ 8 →
  vsize (write_buffer_ s) < queue_capacity config → Forall (λ t, is_write t = false) (read_queue_ s) →
  ctrl_run config (replicate n Tick) s = Ok (accepted, returned, s') →
  write_buffer_ s' = write_buffer_ s ∧ Ctrl_IsQueueFill s' = Ctrl_IsQueueFill s.
Proof.
  revert s accepted returned. induction n as [|n IH]; intros s a d H1 H2 H3 H4 H5 E; cbn [replicate ctrl_run] in E.
  { injection E as _ _ <-. done. }
  apply bind_Ok_inv in E as ([[a1 d1] s1] & E1 & E). apply bind_Ok_inv in E as ([[a2 d2] s2] & E2 & E). injection E as _ _ <-.
  cbn [ctrl_step] in E1. apply bind_Ok_inv in E1 as (s3 & E1 & E3). injection E3 as _ _ <-.
  destruct (tick_small config s s3 H1 H2 H3 H4 H5 E1) as (B1 & B2 & B3 & B4). rewrite <- B3 in H3, H4.
  destruct (IH s3 a2 d2 B1 B2 H3 H4 B4 E2) as [C1 C2]. rewrite C1, C2, B3. split; [done|].
  unfold Ctrl_IsQueueFill. by rewrite B3.
Qed.

(** ** Concrete runs *)

Lemma ex_usable : usable ex_config.
Proof.
  split; [exact ex_org_ok | reflexivity | cbn; lia | cbn; lia | by vm_compute | done | | reflexivity].
  intros rf E. injection E as <-. by vm_compute.
Qed.

Definition ex_controller : Controller :=
  match new_Controller ex_config 0 with Ok s => s | Err _ => mkController 0 0 (new_SimpleStats 0)
    (new_ChannelState ex_config) (mkCmdQueue [] PER_BANK [] ∅ false 0 0 0 0) (mkRefresh 0 0 POLICY_SIZE 0 0 0)
    false [] [] [] [] [] [] OPEN_PAGE 0 0 end.

(** Two reads of one address, one of another and a write, and forty cycles. *)
Definition ex_events : list ctrl_event :=
  [Offer (new_Transaction 64 false); Offer (new_Transaction 64 false); Offer (new_Transaction 4096 true);
   Offer (new_Transaction 128 false)] ++ replicate 40 Tick ++ replicate 3 (Collect 40).

Lemma ex_controller_new : new_Controller ex_config 0 = Ok ex_controller.
Proof. apply ok_or. vm_compute. reflexivity. Qed.

Lemma controller_runs_witness :
  ∃ accepted returned s, ctrl_run ex_config ex_events ex_controller = Ok (accepted, returned, s) ∧
    accepted ≡ₚ returned ++ owed s.
Proof.
  apply (controller_runs ex_config 0 ex_controller ex_events ex_usable ex_controller_new). reflexivity.
Defined.

(** The run, with its result. *)
Definition ex_run : list (Z * bool) * list (Z * bool) * Controller :=
  match ctrl_run ex_config ex_events ex_controller with Ok r => r | Err _ => ([], [], ex_controller) end.

Lemma ex_run_ok : ctrl_run ex_config ex_events ex_controller = Ok ex_run.
Proof.
  unfold ex_run. destruct (ctrl_run ex_config ex_events ex_controller) eqn:E; [done|].
  destruct (usable_run ex_config 0 ex_controller ex_events ex_usable ex_controller_new) as (a & d & s & E' & _);
    [reflexivity|]. congruence.
Qed.

Lemma pending_requests_wait_witness :
  NoDup (waiting ex_run.2) ∧ (∀ k, k ∈ waiting ex_run.2 → is_pending ex_run.2 k) ∧
  (enable_hbm_dual_cmd (dramp ex_config) = false → ∀ k, is_pending ex_run.2 k → k ∈ waiting ex_run.2).
Proof.
  apply (pending_requests_wait ex_config 0 ex_controller ex_events ex_run.1.1 ex_run.1.2 ex_run.2
    ex_usable ex_controller_new); [reflexivity|].
  rewrite ex_run_ok. by destruct ex_run as [[a d] s].
Defined.

(** A controller with one write in its buffer, a hundred cycles later. *)
Definition ex_stuck : Controller := Ctrl_AddTransaction (new_Transaction 4096 true) ex_controller.

Lemma small_write_buffer_stuck_witness :
  ∃ a d s', ctrl_run ex_config (replicate 100 Tick) ex_stuck = Ok (a, d, s') ∧
    write_buffer_ s' = write_buffer_ ex_stuck ∧ Ctrl_IsQueueFill s' = Ctrl_IsQueueFill ex_stuck.
Proof.
  destruct (ok_field (λ _, true) (ctrl_run ex_config (replicate 100 Tick) ex_stuck) true) as ([[a d] s'] & E & _);
    [vm_compute; reflexivity|].
  exists a, d, s'. split; [done|].
  apply (small_write_buffer_stuck ex_config 100 ex_stuck a d s'); [reflexivity | reflexivity | | | | exact E].
  - vm_compute. congruence.
  - vm_compute. congruence.
  - apply Forall_nil. exact I.
Defined.

Example ex_stuck_filled : Ctrl_IsQueueFill ex_stuck = true.
Proof. vm_compute. reflexivity. Qed.
