(* ===== verification/Replacement.v ===== *)
(** * Cache replacement: FIFO, LRU, RRIP, SHiP (CacheReplacement.h, CacheReplacement.cpp)

    The bookkeeping of four replacement policies.  The C++ classes keep their
    data in global vectors (one entry per cache set); their members [wayN] and
    [setN] are read by the constructors and by [clear] only, so an operation
    here is a function of the global vectors.  The theorems: LRU is
    move-to-front and FIFO is a queue, and both evict exactly what the
    abstract policy evicts; the victim search of RRIP ends on every set within
    four rounds and picks the first line of the largest counter; SHiP never
    decrements a counter; [clear] leaves the two parallel lists of FIFO out of
    step. *)

From S2P Require Import Prelude.

Open Scope Z_scope.

(** ** FIFO *)

Record FIFO := mkFIFO { fifoList : list (list Z); fifoWeightBlkIdx : list (list Z) }.

(** [FIFO::FIFO], on the (initially empty) global vectors. *)
Definition new_FIFO (setN : Z) : FIFO :=
  mkFIFO (replicate (Z.to_nat setN) []) (replicate (Z.to_nat setN) []).

Definition FIFO_access (setIdx data weightBlkIdx : Z) (s : FIFO) : res FIFO :=
  l ← vmod (fifoList s) setIdx (λ l, Ok (l ++ [data]));
  w ← vmod (fifoWeightBlkIdx s) setIdx (λ l, Ok (l ++ [weightBlkIdx]));
  Ok (mkFIFO l w).

Definition FIFO_replace (setIdx : Z) (s : FIFO) : res ((Z * Z) * FIFO) :=
  l ← vget (fifoList s) setIdx;
  w ← vget (fifoWeightBlkIdx s) setIdx;
  firstIn ← vget l 0;
  firstInBlkIdx ← vget w 0;
  l' ← verase l 0;
  w' ← verase w 0;
  fl ← vset (fifoList s) setIdx l';
  fw ← vset (fifoWeightBlkIdx s) setIdx w';
  Ok ((firstIn, firstInBlkIdx), mkFIFO fl fw).

(** [FIFO::clear] clears [fifoList] only. *)
Definition FIFO_clear (setN : Z) (s : FIFO) : FIFO :=
  mkFIFO (replicate (Z.to_nat setN) []) (fifoWeightBlkIdx s).

(** ** LRU *)

Record LRU := mkLRU { lruList : list (list Z); lruWeightBlkIdx : list (list Z) }.

Definition new_LRU (setN : Z) : LRU :=
  mkLRU (replicate (Z.to_nat setN) []) (replicate (Z.to_nat setN) []).

(** The loop of [LRU::access] on one set: [i] also advances after an erase.
    The length of the list bounds the number of iterations. *)
Fixpoint lru_scan (fuel : nat) (i data blk : Z) (l w : list Z) : res (list Z * list Z) :=
  if i <? vsize l then
    match fuel with
    | O => Err OutOfFuel
    | S f =>
        x ← vget l i;
        if x =? data then
          y ← vget w i;
          if y =? blk then
            l' ← verase l i; w' ← verase w i; lru_scan f (i + 1) data blk l' w'
          else lru_scan f (i + 1) data blk l w
        else lru_scan f (i + 1) data blk l w
    end
  else Ok (l, w).

Definition LRU_access (setIdx data weightBlkIdx : Z) (s : LRU) : res LRU :=
  l ← vget (lruList s) setIdx;
  w ← vget (lruWeightBlkIdx s) setIdx;
  '(l1, w1) ← lru_scan (length l) 0 data weightBlkIdx l w;
  ll ← vset (lruList s) setIdx (data :: l1);
  lw ← vset (lruWeightBlkIdx s) setIdx (weightBlkIdx :: w1);
  Ok (mkLRU ll lw).

(** [v[v.size() - 1]] and [pop_back]. *)
Definition take_back (l : list Z) : res (Z * list Z) :=
  x ← vget l (vsize l - 1); Ok (x, take (length l - 1) l).

Definition LRU_replace (setIdx : Z) (s : LRU) : res ((Z * Z) * LRU) :=
  l ← vget (lruList s) setIdx;
  '(target, l') ← take_back l;
  w ← vget (lruWeightBlkIdx s) setIdx;
  '(targetWeightBlkIdx, w') ← take_back w;
  ll ← vset (lruList s) setIdx l';
  lw ← vset (lruWeightBlkIdx s) setIdx w';
  Ok ((target, targetWeightBlkIdx), mkLRU ll lw).

Definition LRU_clear (setN : Z) (s : LRU) : LRU :=
  mkLRU (replicate (Z.to_nat setN) []) (lruWeightBlkIdx s).

(** ** RRIP *)

(** [rrpvList] after [RRIP::RRIP]. *)
Definition new_RRIP (wayN setN : Z) : list (list Z) :=
  replicate (Z.to_nat setN) (replicate (Z.to_nat wayN) 3).

Definition RRIP_access (setIdx wayIdx : Z) (rrpvList : list (list Z)) : res (list (list Z)) :=
  vmod rrpvList setIdx (λ l, vset l wayIdx 0).

(** The first way whose RRPV is 3. *)
Fixpoint find3 (l : list Z) (i : Z) : option Z :=
  match l with
  | [] => None
  | v :: l' => if v =? 3 then Some i else find3 l' (i + 1)
  end.

(** [rrpv++] on 0, 1 and 2; anything else is only reported. *)
Definition rrpv_age (v : Z) : Z :=
  if (v =? 0) || (v =? 1) || (v =? 2) then v + 1 else v.

(** [while (!isFound)] on one set. *)
Fixpoint rrip_search (fuel : nat) (l : list Z) : res (Z * list Z) :=
  match find3 l 0 with
  | Some i => Ok (i, l)
  | None =>
      match fuel with
      | O => Err OutOfFuel
      | S f => rrip_search f (rrpv_age <$> l)
      end
  end.

(** Three agings bring any counter to 3. *)
Definition rrip_fuel : nat := 3.

Definition RRIP_replace (setIdx : Z) (rrpvList : list (list Z))
    : res ((Z * Z) * list (list Z)) :=
  l ← vget rrpvList setIdx;
  '(wayIdx, l1) ← rrip_search rrip_fuel l;
  l2 ← vset l1 wayIdx 2;
  r ← vset rrpvList setIdx l2;
  Ok ((setIdx, wayIdx), r).

(** ** SHiP *)

Record SHiP := mkSHiP {
  ship_rrpv : list (list Z); lineOutcome : list bool; lineSignature : list Z;
  SHCT : gmap Z Z }.

Definition new_SHiP (wayN setN : Z) : SHiP :=
  mkSHiP (new_RRIP wayN setN) (replicate (Z.to_nat wayN) false)
    (replicate (Z.to_nat wayN) (-1)) ∅.

(** [address >> 16], converted to the [int] key of [SHCT]. *)
Definition ship_sig (address : Z) : Z := i32 (Z.shiftr address 16).

Definition SHiP_access (setIdx wayIdx address : Z) (s : SHiP) : res SHiP :=
  r ← vmod (ship_rrpv s) setIdx (λ l, vset l wayIdx 0);
  o ← vset (lineOutcome s) wayIdx true;
  let sig := ship_sig address in
  match SHCT s !! sig with
  | Some n => n' ← int_chk (n + 1); Ok (mkSHiP r o (lineSignature s) (<[sig := n']> (SHCT s)))
  | None => Ok (mkSHiP r o (lineSignature s) (SHCT s))
  end.

(** [if (lineOutcome[wayIdx] != true) if (lineSignature[wayIdx] != -1) ...] *)
Definition ship_decrement (wayIdx : Z) (s : SHiP) : res (gmap Z Z) :=
  out ← vget (lineOutcome s) wayIdx;
  if (out : bool) then Ok (SHCT s)
  else
    g ← vget (lineSignature s) wayIdx;
    if g =? -1 then Ok (SHCT s)
    else match SHCT s !! g with
         | Some n => n' ← int_chk (n - 1); Ok (<[g := n']> (SHCT s))
         | None => Ok (SHCT s)
         end.

Definition SHiP_replace (setIdx address : Z) (s : SHiP) : res ((Z * Z) * SHiP) :=
  l ← vget (ship_rrpv s) setIdx;
  '(wayIdx, l1) ← rrip_search rrip_fuel l;
  t1 ← ship_decrement wayIdx s;
  o ← vset (lineOutcome s) wayIdx true;
  g ← vget (lineSignature s) wayIdx;
  let sig := ship_sig address in
  gs ← vset (lineSignature s) wayIdx sig;
  (* insert keeps an existing entry; SHCT[sig] creates a missing one *)
  let t2 := match t1 !! sig with Some _ => t1 | None => <[sig := 0]> t1 end in
  let cnt := default 0 (t2 !! sig) in
  l2 ← vset l1 wayIdx (if cnt =? 0 then 3 else 2);
  r ← vset (ship_rrpv s) setIdx l2;
  Ok ((setIdx, wayIdx), mkSHiP r o gs t2).

Definition getSHCTSize (s : SHiP) : Z := Z.of_nat (size (SHCT s)).

(** ** Lists as sets of pairs *)

(** The resident lines of one set, newest last for FIFO, newest first for
    LRU. *)
Definition fifo_lines (s : FIFO) (setIdx : Z) : list (Z * Z) :=
  match vget (fifoList s) setIdx, vget (fifoWeightBlkIdx s) setIdx with
  | Ok l, Ok w => zip l w
  | _, _ => []
  end.
Definition lru_lines (s : LRU) (setIdx : Z) : list (Z * Z) :=
  match vget (lruList s) setIdx, vget (lruWeightBlkIdx s) setIdx with
  | Ok l, Ok w => zip l w
  | _, _ => []
  end.

(** The parallel lists of every set have the same length. *)
Definition parallel (l w : list (list Z)) : Prop :=
  vsize l = vsize w ∧
  ∀ i x y, vget l i = Ok x → vget w i = Ok y → length x = length y.

Lemma vget_both l w i :
  parallel l w → 0 ≤ i < vsize l →
  ∃ x y, vget l i = Ok x ∧ vget w i = Ok y ∧ length x = length y.
Proof.
  intros [Hl Hp] Hi. destruct (vget_is_Ok l i Hi) as [x Hx].
  destruct (vget_is_Ok w i) as [y Hy]; [lia|]. eauto 6.
Qed.

Lemma parallel_insert l w i x y :
  parallel l w → 0 ≤ i < vsize l → length x = length y →
  parallel (<[Z.to_nat i := x]> l) (<[Z.to_nat i := y]> w).
Proof.
  intros [Hl Hp] Hi Hxy. split; [by rewrite !vsize_insert|].
  intros j a b Ha Hb. rewrite vget_insert in Ha by lia. rewrite vget_insert in Hb by lia.
  case_decide; naive_solver.
Qed.

Lemma parallel_replicate n : parallel (replicate n []) (replicate n []).
Proof.
  split; [done|]. intros i x y Hx Hy. rewrite Hx in Hy. by simplify_eq.
Qed.

Lemma vget_0 {A} (x : A) l : vget (x :: l) 0 = Ok x.
Proof. done. Qed.

Lemma take_back_snoc l x : take_back (l ++ [x]) = Ok (x, l).
Proof.
  unfold take_back.
  assert (vget (l ++ [x]) (vsize (l ++ [x]) - 1) = Ok x) as ->.
  { apply vget_lookup. rewrite vsize_app, vsize_cons. unfold vsize. simpl. split; [lia|].
    rewrite lookup_app_r by lia. by replace (Z.to_nat _ - length l)%nat with 0%nat by lia. }
  simpl. rewrite length_app. simpl. rewrite Nat.add_sub. by rewrite take_app_length.
Qed.

(** The last pair of two parallel lists. *)
Lemma zip_snoc_inv (l w : list Z) q x y :
  length l = length w → zip l w = q ++ [(x, y)] →
  ∃ l1 w1, l = l1 ++ [x] ∧ w = w1 ++ [y] ∧ length l1 = length w1 ∧ q = zip l1 w1.
Proof.
  revert w q. induction l as [|a l IH]; intros [|b w] q Hl E; simpl in *; try done;
    try (by destruct q).
  destruct q as [|p q]; simpl in E.
  - injection E as -> -> E. destruct l, w; try done. by exists [], [].
  - injection E as <- E. destruct (IH w q) as (l1 & w1 & -> & -> & Hl1 & ->); [lia | done|].
    exists (a :: l1), (b :: w1). simpl. split_and!; try done. by f_equal.
Qed.

(** ** LRU *)

(** One erasure in two lists of the same length is one in their zip. *)
Lemma zip_delete (l w : list Z) n :
  length l = length w → zip (delete n l) (delete n w) = delete n (zip l w).
Proof.
  revert w n. induction l as [|x l IH]; intros [|y w] n H; simpl in *; try done.
  destruct n as [|n]; simpl; [done|]. f_equal. apply IH. lia.
Qed.

Lemma length_delete_Z (l : list Z) n : (n < length l)%nat → length (delete n l) = (length l - 1)%nat.
Proof.
  intros H. destruct (lookup_lt_is_Some_2 l n H) as [x Hx]. apply (length_delete l n). eauto.
Qed.

(** The remainder of the scan when the line is absent from position [i] on. *)
Lemma lru_scan_absent fuel i d b l w :
  0 ≤ i → length l = length w → vsize l - i ≤ Z.of_nat fuel →
  (∀ n, i ≤ Z.of_nat n → zip l w !! n ≠ Some (d, b)) →
  lru_scan fuel i d b l w = Ok (l, w).
Proof.
  intros Hi Hl Hf Hn. revert i Hi Hf Hn. induction fuel as [|f IH]; intros i Hi Hf Hn; simpl.
  { destruct (Z.ltb_spec i (vsize l)); [lia | done]. }
  destruct (Z.ltb_spec i (vsize l)) as [Hlt|]; [|done].
  destruct (vget_is_Ok l i) as [x Hx]; [lia|]. rewrite Hx. simpl.
  assert (∀ n, i + 1 ≤ Z.of_nat n → zip l w !! n ≠ Some (d, b)) as Hn'
    by (intros; apply Hn; lia).
  destruct (Z.eqb_spec x d) as [->|]; [|apply IH; [lia..|done]].
  destruct (vget_is_Ok w i) as [y Hy]; [unfold vsize in *; lia|]. rewrite Hy. simpl.
  destruct (Z.eqb_spec y b) as [->|]; [|apply IH; [lia..|done]].
  exfalso. apply (Hn (Z.to_nat i)); [lia|].
  apply vget_lookup in Hx as [_ Hx]. apply vget_lookup in Hy as [_ Hy].
  by apply lookup_zip_Some.
Qed.

(** On a set without duplicates the scan removes the line, and only it. *)
Lemma lru_scan_spec fuel i d b l w :
  0 ≤ i → length l = length w → vsize l - i ≤ Z.of_nat fuel → NoDup (zip l w) →
  (∀ n, Z.of_nat n < i → zip l w !! n ≠ Some (d, b)) →
  ∃ l' w', lru_scan fuel i d b l w = Ok (l', w') ∧ length l' = length w' ∧
    zip l' w' = filter (λ p, p ≠ (d, b)) (zip l w).
Proof.
  intros Hi Hl Hf Hnd. revert i Hi Hf. induction fuel as [|f IH]; intros i Hi Hf Hn.
  - exists l, w. simpl. destruct (Z.ltb_spec i (vsize l)); [lia|]. split; [done|]. split; [done|].
    symmetry. apply list_filter_all. intros n p Hp ->.
    apply (Hn n); [|done]. apply lookup_lt_Some in Hp. rewrite length_zip_with in Hp.
    unfold vsize in *. lia.
  - simpl. destruct (Z.ltb_spec i (vsize l)) as [Hlt|].
    + destruct (vget_is_Ok l i) as [x Hx]; [lia|]. rewrite Hx. simpl.
      destruct (vget_is_Ok w i) as [y Hy]; [unfold vsize in *; lia|].
      pose proof (proj2 (proj1 (vget_lookup _ _ _) Hx)) as Lx.
      pose proof (proj2 (proj1 (vget_lookup _ _ _) Hy)) as Ly.
      assert (zip l w !! Z.to_nat i = Some (x, y)) as Lz by by apply lookup_zip_Some.
      assert (x = d ∧ y = b ∨ ¬ (x = d ∧ y = b)) as [[-> ->]|Hne] by (destruct (decide (x = d)), (decide (y = b)); naive_solver).
      * rewrite Z.eqb_refl, Hy. simpl. rewrite Z.eqb_refl.
        pose proof (lookup_lt_Some _ _ _ Lx). pose proof (lookup_lt_Some _ _ _ Ly).
        assert (verase l i = Ok (delete (Z.to_nat i) l)) as ->.
        { unfold verase. destruct (Z.ltb_spec i 0), (Z.leb_spec (Z.of_nat (length l)) i); simpl; done || lia. }
        assert (verase w i = Ok (delete (Z.to_nat i) w)) as ->.
        { unfold verase. destruct (Z.ltb_spec i 0), (Z.leb_spec (Z.of_nat (length w)) i); simpl; done || lia. }
        simpl. exists (delete (Z.to_nat i) l), (delete (Z.to_nat i) w).
        assert (zip (delete (Z.to_nat i) l) (delete (Z.to_nat i) w) =
                filter (λ p, p ≠ (d, b)) (zip l w)) as Ez.
        { rewrite zip_delete by done. by apply delete_filter_NoDup. }
        split; [|split; [rewrite !length_delete_Z by lia; lia | done]].
        apply lru_scan_absent; [lia | rewrite !length_delete_Z by lia; lia | |].
        { unfold vsize in *. rewrite length_delete_Z by lia. lia. }
        intros n _. rewrite Ez. intros Hin%list_elem_of_lookup_2. apply list_elem_of_filter in Hin. naive_solver.
      * assert ((if x =? d then y0 ← vget w i; if y0 =? b then
                   l' ← verase l i; w' ← verase w i; lru_scan f (i + 1) d b l' w'
                 else lru_scan f (i + 1) d b l w else lru_scan f (i + 1) d b l w)
                = lru_scan f (i + 1) d b l w) as ->.
        { destruct (Z.eqb_spec x d); [|done]. rewrite Hy. simpl.
          destruct (Z.eqb_spec y b); [naive_solver | done]. }
        apply IH; [lia..|]. intros n Hn' Hz.
        destruct (decide (Z.of_nat n < i)); [by eapply Hn|].
        replace n with (Z.to_nat i) in Hz by lia. naive_solver.
    + exists l, w. split; [done|]. split; [done|]. symmetry. apply list_filter_all.
      intros n p Hp ->. apply (Hn n); [|done]. apply lookup_lt_Some in Hp.
      rewrite length_zip_with in Hp. unfold vsize in *. lia.
Qed.

(** The abstract policy: the most recently used line comes first. *)
Definition lru_touch (p : Z * Z) (q : list (Z * Z)) : list (Z * Z) :=
  p :: filter (λ x, x ≠ p) q.

Record lru_wf (s : LRU) : Prop := {
  lw_parallel : parallel (lruList s) (lruWeightBlkIdx s);
  lw_nodup : ∀ i, NoDup (lru_lines s i) }.

Lemma lru_lines_insert s i x y j :
  parallel (lruList s) (lruWeightBlkIdx s) → 0 ≤ i < vsize (lruList s) →
  lru_lines (mkLRU (<[Z.to_nat i := x]> (lruList s)) (<[Z.to_nat i := y]> (lruWeightBlkIdx s))) j =
  if decide (j = i) then zip x y else lru_lines s j.
Proof.
  intros [Hl _] Hi. unfold lru_lines. simpl. rewrite !vget_insert by lia. by case_decide.
Qed.

Lemma lru_wf_insert s i x y :
  lru_wf s → 0 ≤ i < vsize (lruList s) → length x = length y → NoDup (zip x y) →
  lru_wf (mkLRU (<[Z.to_nat i := x]> (lruList s)) (<[Z.to_nat i := y]> (lruWeightBlkIdx s))).
Proof.
  intros [Hp Hn] Hi Hxy Hnd. split; [by apply parallel_insert|].
  intros j. rewrite lru_lines_insert by done. by case_decide.
Qed.

Lemma new_LRU_wf setN : lru_wf (new_LRU setN).
Proof.
  split; [apply parallel_replicate|]. intros i. unfold lru_lines. simpl.
  destruct (vget _ i) as [x|] eqn:Hx; [|apply NoDup_nil; done].
  apply vget_lookup in Hx as [_ [-> _]%lookup_replicate]. constructor.
Qed.

(** ** RRIP *)

Definition rrpv_ok (l : list Z) : Prop := l ≠ [] ∧ Forall (λ v, 0 ≤ v ≤ 3) l.

Lemma find3_None l i : find3 l i = None ↔ 3 ∉ l.
Proof.
  revert i. induction l as [|v l IH]; intros i; simpl; [set_solver|].
  rewrite elem_of_cons. destruct (Z.eqb_spec v 3); [naive_solver|].
  rewrite IH. naive_solver.
Qed.

Lemma find3_Some l i j :
  find3 l i = Some j → i ≤ j < i + vsize l ∧ l !! Z.to_nat (j - i) = Some 3 ∧
  ∀ n, Z.of_nat n < j - i → l !! n ≠ Some 3.
Proof.
  revert i. induction l as [|v l IH]; intros i; simpl; [done|]. rewrite vsize_cons.
  pose proof (vsize_nonneg l). destruct (Z.eqb_spec v 3) as [->|].
  - intros [= <-]. rewrite Z.sub_diag. split; [lia|]. split; [done|]. lia.
  - intros Hj. destruct (IH _ Hj) as (Hb & Hs & Hn). split; [lia|].
    replace (Z.to_nat (j - i)) with (S (Z.to_nat (j - (i + 1)))) by lia. split; [done|].
    intros m Hlt. destruct m as [|m]; simpl; [congruence|]. apply Hn. lia.
Qed.

Lemma rrpv_age_small v : 0 ≤ v < 3 → rrpv_age v = v + 1.
Proof.
  intros. unfold rrpv_age.
  destruct (Z.eqb_spec v 0), (Z.eqb_spec v 1), (Z.eqb_spec v 2); simpl; lia.
Qed.

(** With the largest counter [m], [3 - m] rounds find the victim. *)
Lemma rrip_search_spec fuel l m :
  (∃ i, l !! i = Some m) → (∀ i v, l !! i = Some v → 0 ≤ v ≤ m) → m ≤ 3 →
  3 - m ≤ Z.of_nat fuel →
  ∃ j, rrip_search fuel l = Ok (j, (λ v, v + (3 - m)) <$> l) ∧ 0 ≤ j < vsize l ∧
    l !! Z.to_nat j = Some m ∧ ∀ n, Z.of_nat n < j → l !! n ≠ Some m.
Proof.
  revert l m. induction fuel as [|f IH]; intros l m [k Hk] Hle Hm Hf; simpl;
    destruct (find3 l 0) as [j|] eqn:Hj.
  1,3: destruct (find3_Some _ _ _ Hj) as (Hb & Hs & Hn); rewrite Z.sub_0_r in *;
    assert (m = 3) as -> by (pose proof (Hle _ _ Hs); lia);
    exists j; rewrite Z.sub_diag; split;
    [f_equal; f_equal; rewrite <- (list_fmap_id l) at 1; apply list_fmap_ext; intros; simpl; lia|];
    split; [lia | done].
  - apply find3_None in Hj. exfalso. assert (m = 3) as -> by lia.
    apply Hj. by eapply list_elem_of_lookup_2.
  - apply find3_None in Hj.
    assert (m < 3).
    { destruct (decide (m = 3)) as [->|]; [|lia]. exfalso. apply Hj. by eapply list_elem_of_lookup_2. }
    assert (rrpv_age <$> l = (λ v, v + 1) <$> l) as El.
    { apply list_fmap_ext. intros i v Hv. apply rrpv_age_small. specialize (Hle _ _ Hv). lia. }
    rewrite El. destruct (IH ((λ v, v + 1) <$> l) (m + 1)) as (j & E & Hb & Hs & Hn).
    + exists k. rewrite list_lookup_fmap, Hk. done.
    + intros i v. rewrite list_lookup_fmap. destruct (l !! i) eqn:Hi; simpl; [|done].
      intros [= <-]. specialize (Hle _ _ Hi). lia.
    + lia.
    + lia.
    + exists j. rewrite E. split.
      { f_equal. f_equal. rewrite <- list_fmap_compose. apply list_fmap_ext. intros; simpl; lia. }
      unfold vsize in *. rewrite length_fmap in Hb. split; [done|].
      rewrite list_lookup_fmap in Hs. split.
      { destruct (l !! Z.to_nat j) eqn:Hl; simpl in Hs; [|done]. injection Hs as Hs. f_equal. lia. }
      intros n Hlt Hn'. apply (Hn n Hlt). rewrite list_lookup_fmap, Hn'. done.
Qed.

(** The largest counter of a set. *)
Lemma rrpv_max l : rrpv_ok l → ∃ m, 0 ≤ m ≤ 3 ∧ (∃ i, l !! i = Some m) ∧ ∀ i v, l !! i = Some v → 0 ≤ v ≤ m.
Proof.
  intros [Hne Hall]. induction l as [|v l IH]; [done|].
  apply Forall_cons in Hall as [Hv Hall]. destruct l as [|v' l].
  { exists v. split; [lia|]. split; [by exists 0%nat|]. intros [|i] u; simpl; naive_solver lia. }
  destruct IH as (m & Hm & [i Hi] & Hle); [done..|].
  destruct (Z.le_ge_cases v m).
  - exists m. split; [done|]. split; [by exists (S i)|].
    intros [|k] u Hu; simpl in Hu; [naive_solver lia | by eapply Hle].
  - exists v. split; [lia|]. split; [by exists 0%nat|].
    intros [|k] u Hu; simpl in Hu; [naive_solver lia|]. specialize (Hle _ _ Hu). lia.
Qed.

(** ** SHiP *)

(** A way that has a signature has been marked as re-referenced. *)
Definition ship_inv (s : SHiP) : Prop :=
  ∀ w o g, vget (lineOutcome s) w = Ok o → vget (lineSignature s) w = Ok g →
    g ≠ -1 → o = true.

(** No counter of [t'] is below its value in [t]. *)
Definition shct_le (t t' : gmap Z Z) : Prop :=
  ∀ k n, t !! k = Some n → ∃ n', t' !! k = Some n' ∧ n ≤ n'.

#[global] Instance shct_le_preorder : PreOrder shct_le.
Proof.
  split; [intros t k n H; exists n; split; [done | lia]|].
  intros t1 t2 t3 H12 H23 k n H. destruct (H12 _ _ H) as (n2 & H2 & ?).
  destruct (H23 _ _ H2) as (n3 & H3 & ?). exists n3. split; [done | lia].
Qed.

Lemma shct_le_insert_new (t : gmap Z Z) k n : t !! k = None → shct_le t (<[k := n]> t).
Proof.
  intros Hk k' n' H. exists n'. split; [|lia]. rewrite lookup_insert_ne; congruence.
Qed.

Lemma shct_le_insert (t : gmap Z Z) k n n' :
  t !! k = Some n → n ≤ n' → shct_le t (<[k := n']> t).
Proof.
  intros Hk Hle k0 n0 H. destruct (decide (k0 = k)) as [->|].
  - exists n'. rewrite lookup_insert_eq. split; [done|]. by simplify_eq.
  - exists n0. rewrite lookup_insert_ne by congruence. split; [done | lia].
Qed.

Lemma new_SHiP_inv wayN setN : ship_inv (new_SHiP wayN setN).
Proof.
  intros w o g _ Hg Hne. apply vget_lookup in Hg as [_ Hg]. simpl in Hg.
  apply lookup_replicate in Hg as [-> _]. done.
Qed.

Lemma ship_decrement_dead w s t :
  ship_inv s → ship_decrement w s = Ok t → t = SHCT s.
Proof.
  intros Hi H. unfold ship_decrement in H. inv_res H. destruct v; [by simplify_eq|].
  inv_res H. destruct (Z.eqb_spec v (-1)) as [|Hne]; [by simplify_eq|].
  specialize (Hi _ _ _ H0 H1 Hne). done.
Qed.

Lemma LRU_access_ok s i d b :
  lru_wf s → 0 ≤ i < vsize (lruList s) →
  ∃ s', LRU_access i d b s = Ok s' ∧ lru_wf s' ∧ vsize (lruList s') = vsize (lruList s) ∧
    ∀ j, lru_lines s' j =
      if decide (j = i) then lru_touch (d, b) (lru_lines s i) else lru_lines s j.
Proof.
  intros Hwf Hi. pose proof (lw_parallel _ Hwf) as Hp. pose proof (lw_nodup _ Hwf i) as Hnd.
  destruct (vget_both _ _ _ Hp Hi) as (l & w & Hl & Hw & Hlw).
  assert (lru_lines s i = zip l w) as El by (unfold lru_lines; by rewrite Hl, Hw).
  rewrite El in *. assert (vsize (lruWeightBlkIdx s) = vsize (lruList s)) as Ev
    by (symmetry; apply Hp).
  destruct (lru_scan_spec (length l) 0 d b l w) as (l1 & w1 & E & Hlw1 & Ez);
    [lia | done | unfold vsize; lia | done | lia |].
  unfold LRU_access. rewrite Hl, Hw. simpl. rewrite E. simpl.
  rewrite !vset_Ok by lia. simpl. eexists. split; [done|].
  assert (zip (d :: l1) (b :: w1) = lru_touch (d, b) (zip l w)) as Et
    by (unfold lru_touch; simpl; by rewrite Ez).
  split; [|split; [apply vsize_insert|]].
  - apply lru_wf_insert; [done | done | by simpl; rewrite Hlw1 |]. rewrite Et.
    apply NoDup_cons. split; [|by apply NoDup_filter].
    intros Hin%list_elem_of_filter. naive_solver.
  - intros j. rewrite lru_lines_insert by done. by rewrite Et.
Qed.

Lemma LRU_replace_ok s i :
  lru_wf s → 0 ≤ i < vsize (lruList s) →
  ∀ q p, lru_lines s i = q ++ [p] →
  ∃ s', LRU_replace i s = Ok (p, s') ∧ lru_wf s' ∧ vsize (lruList s') = vsize (lruList s) ∧
    ∀ j, lru_lines s' j = if decide (j = i) then q else lru_lines s j.
Proof.
  intros Hwf Hi q [x y] Eq. pose proof (lw_parallel _ Hwf) as Hp. pose proof (lw_nodup _ Hwf i) as Hnd.
  destruct (vget_both _ _ _ Hp Hi) as (l & w & Hl & Hw & Hlw).
  assert (lru_lines s i = zip l w) as El by (unfold lru_lines; by rewrite Hl, Hw).
  rewrite El in *. assert (vsize (lruWeightBlkIdx s) = vsize (lruList s)) as Ev
    by (symmetry; apply Hp).
  destruct (zip_snoc_inv l w q x y Hlw Eq) as (l1 & w1 & -> & -> & Hlw1 & ->).
  unfold LRU_replace. rewrite Hl. simpl. rewrite take_back_snoc. simpl. rewrite Hw. simpl.
  rewrite take_back_snoc. simpl. rewrite !vset_Ok by lia. simpl.
  eexists. split; [done|]. split; [|split; [apply vsize_insert|]].
  - apply lru_wf_insert; try done. rewrite Eq in Hnd. apply NoDup_app in Hnd. apply Hnd.
  - intros j. by rewrite lru_lines_insert.
Qed.

(** ** Properties *)

(** C20: LRU refines move-to-front.  On well-formed lists, [LRU::access] ends
    without error for every set, moves exactly the accessed line to the front
    (removing its older occurrence, adding it if it is new), keeps the
    two parallel lists in step and free of duplicates, and leaves the other
    sets alone; [LRU::replace] on a non-empty set evicts the last line of that
    order, the least recently used one. *)
Theorem lru_refines_move_to_front s i d b :
  lru_wf s → 0 ≤ i < vsize (lruList s) →
  (∃ s', LRU_access i d b s = Ok s' ∧ lru_wf s' ∧ vsize (lruList s') = vsize (lruList s) ∧
     ∀ j, lru_lines s' j =
       if decide (j = i) then lru_touch (d, b) (lru_lines s i) else lru_lines s j) ∧
  (∀ q p, lru_lines s i = q ++ [p] →
     ∃ s', LRU_replace i s = Ok (p, s') ∧ lru_wf s' ∧ vsize (lruList s') = vsize (lruList s) ∧
       ∀ j, lru_lines s' j = if decide (j = i) then q else lru_lines s j).
Proof. intros Hwf Hi. split; [by apply LRU_access_ok | by apply LRU_replace_ok]. Qed.

(** FIFO is a queue: [FIFO::access] appends the line to its set, and
    [FIFO::replace] evicts and returns the oldest line, whatever the other sets
    hold. *)
Theorem fifo_is_a_queue s i d b :
  parallel (fifoList s) (fifoWeightBlkIdx s) → 0 ≤ i < vsize (fifoList s) →
  (∃ s', FIFO_access i d b s = Ok s' ∧ parallel (fifoList s') (fifoWeightBlkIdx s') ∧
     ∀ j, fifo_lines s' j =
       if decide (j = i) then fifo_lines s i ++ [(d, b)] else fifo_lines s j) ∧
  (∀ p q, fifo_lines s i = p :: q →
     ∃ s', FIFO_replace i s = Ok (p, s') ∧ parallel (fifoList s') (fifoWeightBlkIdx s') ∧
       ∀ j, fifo_lines s' j = if decide (j = i) then q else fifo_lines s j).
Proof.
  intros Hp Hi. assert (vsize (fifoWeightBlkIdx s) = vsize (fifoList s)) as Ev
    by (symmetry; apply Hp).
  destruct (vget_both _ _ _ Hp Hi) as (l & w & Hl & Hw & Hlw).
  assert (∀ x y j, fifo_lines (mkFIFO (<[Z.to_nat i := x]> (fifoList s))
            (<[Z.to_nat i := y]> (fifoWeightBlkIdx s))) j =
          if decide (j = i) then zip x y else fifo_lines s j) as Hins.
  { intros. unfold fifo_lines. simpl. rewrite !vget_insert by lia. by case_decide. }
  assert (fifo_lines s i = zip l w) as El by (unfold fifo_lines; by rewrite Hl, Hw).
  rewrite El. split.
  - unfold FIFO_access.
    rewrite (vmod_Ok (fifoList s) _ _ l (l ++ [d])) by done. simpl.
    rewrite (vmod_Ok (fifoWeightBlkIdx s) _ _ w (w ++ [b])) by done. simpl.
    eexists. split; [done|]. split; [apply parallel_insert; [done..|rewrite !length_app; simpl; lia]|].
    intros j. rewrite Hins. by rewrite zip_with_app.
  - intros p q Eq. destruct l as [|x l], w as [|y w]; try done. injection Eq as <- <-.
    unfold FIFO_replace. rewrite Hl, Hw. simpl. rewrite !vset_Ok by lia. simpl.
    eexists. split; [done|]. split; [|by intros j; rewrite Hins]. apply parallel_insert; [done..|]. simpl in *; lia.
Qed.

(** The victim search of RRIP (and of SHiP) ends on every non-empty set
    with 2-bit counters, within three agings, and it is exactly the policy:
    the victim is the first line whose counter is the largest of the set, all
    counters age by the same amount, and the victim gets counter 2. *)
Theorem rrip_replace_policy rr i l :
  vget rr i = Ok l → rrpv_ok l →
  ∃ way m rr' l', RRIP_replace i rr = Ok ((i, way), rr') ∧
    0 ≤ way < vsize l ∧ l !! Z.to_nat way = Some m ∧
    (∀ n v, l !! n = Some v → v ≤ m) ∧ (∀ n, Z.of_nat n < way → l !! n ≠ Some m) ∧
    vget rr' i = Ok l' ∧ rrpv_ok l' ∧
    l' = <[Z.to_nat way := 2]> ((λ v, v + (3 - m)) <$> l) ∧
    ∀ j, j ≠ i → vget rr' j = vget rr j.
Proof.
  intros Hl Hok. destruct (rrpv_max l Hok) as (m & Hm & Hex & Hle).
  destruct (rrip_search_spec rrip_fuel l m Hex Hle) as (j & E & Hj & Hs & Hf);
    [lia | unfold rrip_fuel; lia |].
  pose proof (vget_range _ _ _ Hl) as Hi.
  set (l1 := (λ v, v + (3 - m)) <$> l) in *.
  assert (vsize l1 = vsize l) as E1 by (unfold l1, vsize; by rewrite length_fmap).
  exists j, m, (<[Z.to_nat i := <[Z.to_nat j := 2]> l1]> rr), (<[Z.to_nat j := 2]> l1).
  split; [|split; [done|split; [done|split; [|split; [done|split; [|split; [|split; [done|]]]]]]]].
  - unfold RRIP_replace. rewrite Hl, bind_Ok, E, bind_Ok, vset_Ok, bind_Ok by lia.
    by rewrite vset_Ok by lia.
  - intros n v Hv. by apply (Hle n v).
  - by rewrite vget_insert, decide_True.
  - destruct Hok as [Hne Hall]. split.
    + intros Hnil%(f_equal vsize). rewrite vsize_insert, E1 in Hnil. unfold vsize in Hnil.
      destruct l; [done | simpl in Hnil; lia].
    + apply Forall_insert; [|lia]. apply Forall_fmap, Forall_lookup. intros n v Hv. simpl.
      specialize (Hle _ _ Hv). lia.
  - intros k Hk. by rewrite vget_insert, decide_False.
Qed.

(** SHiP never un-learns.  In every reachable state a way that has a
    signature also has its outcome bit set ([replace] sets both and nothing
    clears the bit), so the decrement in [SHiP::replace] is dead code: the
    counters of [SHCT] never go down, on hits and on misses. *)
Theorem ship_counters_never_decrease s i address :
  ship_inv s →
  (∀ w s', SHiP_access i w address s = Ok s' → ship_inv s' ∧ shct_le (SHCT s) (SHCT s')) ∧
  (∀ v s', SHiP_replace i address s = Ok (v, s') → ship_inv s' ∧ shct_le (SHCT s) (SHCT s')).
Proof.
  intros Hi. split.
  - intros w s' H. unfold SHiP_access in H. set (sig := ship_sig address) in *. clearbody sig.
    inv_res H. apply vset_inv in H1 as [Hw ->].
    assert (∀ t, ship_inv (mkSHiP v (<[Z.to_nat w := true]> (lineOutcome s)) (lineSignature s) t))
      as Hinv.
    { intros t u o g Ho Hg Hne. simpl in *. rewrite vget_insert in Ho by done.
      case_decide; [by simplify_eq | by eapply Hi]. }
    destruct (SHCT s !! sig) as [n|] eqn:Hn.
    + inv_res H. apply int_chk_inv in H1 as [-> _]. injection H as <-. split; [done|].
      simpl. apply (shct_le_insert _ _ n); [done | lia].
    + injection H as <-. split; [done | reflexivity].
  - intros v s' H. unfold SHiP_replace in H. set (sig := ship_sig address) in *. clearbody sig.
    inv_res H. destruct v1 as [way l1].
    inv_res H. injection H as <- <-. apply ship_decrement_dead in H2; [|done]. subst.
    apply vset_inv in H3 as [Hw ->]. apply vset_inv in H5 as [Hw' ->]. split.
    + intros u o g Ho Hg Hne. simpl in *. rewrite vget_insert in Ho by done.
      rewrite vget_insert in Hg by done. case_decide; [by simplify_eq | by eapply Hi].
    + simpl. destruct (SHCT s !! sig) eqn:Hn; [reflexivity|].
      by apply shct_le_insert_new.
Qed.

(** [FIFO::clear] empties only one of the two parallel lists, so a set
    that held a line before the clear evicts a pair that was never inserted:
    the new data with the stale block index. *)
Theorem fifo_clear_mismatch setN s i d b b0 w :
  0 ≤ i < setN → vsize (fifoWeightBlkIdx s) = setN →
  vget (fifoWeightBlkIdx s) i = Ok (b0 :: w) →
  ∃ s1 s2, FIFO_access i d b (FIFO_clear setN s) = Ok s1 ∧
    FIFO_replace i s1 = Ok ((d, b0), s2).
Proof.
  intros Hi Hv Hw. unfold FIFO_access, FIFO_clear. simpl.
  rewrite (vmod_Ok (replicate _ _) _ _ [] [d]) by first [done | apply vget_lookup; split; [lia|];
    apply lookup_replicate_2; lia]. simpl.
  rewrite (vmod_Ok (fifoWeightBlkIdx s) _ _ (b0 :: w) (b0 :: w ++ [b])) by done. simpl.
  assert (vsize (replicate (Z.to_nat setN) ([] : list Z)) = setN) as Hr
    by (unfold vsize; rewrite length_replicate; lia).
  eexists _, _. split; [done|]. unfold FIFO_replace. simpl.
  rewrite !vget_insert, !decide_True by (done || lia). simpl.
  rewrite !vset_Ok by (rewrite vsize_insert; lia). done.
Qed.

(** ** Concrete runs *)

Definition ex_lru : LRU := mkLRU [[]; [7; 5; 9]] [[]; [0; 0; 1]].

Lemma ex_lru_wf : lru_wf ex_lru.
Proof.
  split.
  - split; [done|]. intros i x y Hx Hy.
    pose proof (vget_range _ _ _ Hx) as Hr. unfold vsize in Hr. simpl in Hr.
    assert (i = 0 ∨ i = 1) as [-> | ->] by lia; vm_compute in Hx, Hy; by simplify_eq.
  - intros i. unfold lru_lines.
    destruct (vget (lruList ex_lru) i) as [x|] eqn:Hx; [|constructor].
    pose proof (vget_range _ _ _ Hx) as Hr. unfold vsize in Hr. simpl in Hr.
    assert (i = 0 ∨ i = 1) as [-> | ->] by lia; vm_compute in Hx; simplify_eq; [constructor|].
    by apply (bool_decide_unpack _); vm_compute.
Qed.

(** A hit on line (9, 1), then the eviction of (5, 0). *)
Lemma lru_refines_move_to_front_witness :
  ∃ s', LRU_access 1 9 1 ex_lru = Ok s' ∧ lru_lines s' 1 = [(9, 1); (7, 0); (5, 0)].
Proof.
  destruct (lru_refines_move_to_front ex_lru 1 9 1) as [(s' & E & _ & _ & H) _];
    [apply ex_lru_wf | by unfold vsize; simpl; lia |].
  exists s'. split; [exact E|]. rewrite (H 1). reflexivity.
Defined.

Lemma fifo_is_a_queue_witness :
  ∃ s', FIFO_replace 0 (mkFIFO [[4; 6]] [[0; 1]]) = Ok ((4, 0), s') ∧ fifo_lines s' 0 = [(6, 1)].
Proof.
  destruct (fifo_is_a_queue (mkFIFO [[4; 6]] [[0; 1]]) 0 8 2) as [_ H].
  - split; [done|]. intros i x y Hx Hy.
    pose proof (vget_range _ _ _ Hx) as Hr. unfold vsize in Hr. simpl in Hr.
    assert (i = 0) as -> by lia. vm_compute in Hx, Hy. by simplify_eq.
  - unfold vsize. simpl. lia.
  - destruct (H (4, 0) [(6, 1)] eq_refl) as (s' & E & _ & Hs). exists s'. split; [exact E|].
    rewrite (Hs 0). reflexivity.
Defined.

Lemma rrip_replace_policy_witness :
  ∃ rr', RRIP_replace 0 [[0; 2; 1; 2]] = Ok ((0, 1), rr') ∧ vget rr' 0 = Ok [1; 2; 2; 3].
Proof.
  destruct (rrip_replace_policy [[0; 2; 1; 2]] 0 [0; 2; 1; 2])
    as (way & m & rr' & l' & E & _ & _ & _ & _ & Hv & _ & _ & _).
  - reflexivity.
  - split; [done|]. repeat constructor; lia.
  - vm_compute in E. injection E as <- <-. eexists. split; vm_compute; reflexivity.
Defined.

Lemma ship_counters_never_decrease_witness :
  ∃ v s', SHiP_replace 0 131072 (new_SHiP 2 1) = Ok (v, s') ∧ ship_inv s' ∧
    shct_le (SHCT (new_SHiP 2 1)) (SHCT s').
Proof.
  eexists _, _. split; [vm_compute; reflexivity|].
  apply (proj2 (ship_counters_never_decrease (new_SHiP 2 1) 0 131072 (new_SHiP_inv 2 1)) (0, 0)).
  vm_compute. reflexivity.
Defined.

Lemma fifo_clear_mismatch_witness :
  ∃ s1 s2, FIFO_access 0 11 5 (FIFO_clear 1 (mkFIFO [[4]] [[2]])) = Ok s1 ∧
    FIFO_replace 0 s1 = Ok ((11, 2), s2).
Proof.
  apply (fifo_clear_mismatch 1 (mkFIFO [[4]] [[2]]) 0 11 5 2 []); [lia | done | done].
Defined.
