(* ===== verification/BloomFilter.v ===== *)
(** * Cache replacement: Bloom filters and moving median (CacheReplacement.cpp)

    The two replacement policies that learn during the first fold over the
    adjacency matrix.  The C++ classes keep their tables in global vectors;
    the member vectors serve the constructor only.  The theorems: the tables that
    assign a filter and an overlapped filter to every vertex cover exactly the
    vertices of the matrix, with indices that exist; the first-fold scan then
    never leaves a table, and every filter counter is the number of edges that
    hashed to it; the victim of [BloomFilter::replace] has the least count of
    its set. *)

From S2P Require Import Prelude CFloat.

Open Scope Z_scope.

(** ** Bloom filters *)

(** The counters, [bfList] and [olBfList]. *)
Record BfCounts := mkCounts { bfList : list (list Z); olBfList : list (list Z) }.

(** The per-vertex tables [bfIdx], [ovlBFIdx], [useOvlBF]. *)
Record BfTables := mkTables { bfIdx : list Z; ovlBFIdx : list Z; useOvlBF : list bool }.

Section Bloom.
(** The globals [a_h], [BLOOM_FILTER_NUM], [BF_LEN], [BF_OVERLAP]. *)
Variables a_h BLOOM_FILTER_NUM BF_LEN BF_OVERLAP : Z.

(** [blkIdxVector], [ovlBlkIdxVector], [ovlStartIdx] *)
Record BfBlocks := mkBlocks {
  blkIdxVector : list Z; ovlBlkIdxVector : list Z; ovlStartIdx : Z }.

Definition bf_blocks : res BfBlocks :=
  q ← udiv a_h BLOOM_FILTER_NUM;
  let blockVertexN := i32 q in
  let ovlStart := i32 (u64 (u64 (u64 blockVertexN * u64 (100 - BF_OVERLAP)) / 100 + 1)) in
  let rest := u64 (a_h - u64 (BLOOM_FILTER_NUM * u64 blockVertexN)) in
  blk ← for_loop (Z.to_nat rest) 0 (λ i v, vmod v i (λ x, int_chk (x + 1)))
          (replicate (Z.to_nat BLOOM_FILTER_NUM) blockVertexN);
  s1 ← int_chk (ovlStart - 1);
  let n1 := u64 (BLOOM_FILTER_NUM - 1) in
  let ovl := replicate (Z.to_nat n1) blockVertexN ++
             [i32 (u64 (a_h - u64 (n1 * u64 blockVertexN) - u64 s1))] in
  Ok (mkBlocks blk ovl ovlStart).

(** The two loops that store the filter index of every vertex. *)
Definition push_blocks (blk : list Z) (s : list Z) : res (list Z) :=
  for_loop (Z.to_nat BLOOM_FILTER_NUM) 0
    (λ i s, n ← vget blk i; Ok (s ++ replicate (Z.to_nat n) i)) s.

(** The loop that stores [useOvlBF]: [ovlStartIdx - 1] times false per block,
    then true for what remains of the block. *)
Definition push_use (blk : list Z) (ovlStart : Z) : res (list bool) :=
  for_loop (Z.to_nat BLOOM_FILTER_NUM) 0
    (λ i s, n ← vget blk i;
       let k := Z.max 0 (ovlStart - 1) in
       Ok (s ++ replicate (Z.to_nat k) false ++ replicate (Z.to_nat (n - k)) true)) [].

(** [BloomFilter::BloomFilter] *)
Definition new_BloomFilter : res (BfCounts * BfTables) :=
  let z := replicate (Z.to_nat BLOOM_FILTER_NUM) (replicate (Z.to_nat BF_LEN) 0) in
  b ← bf_blocks;
  bi ← push_blocks (blkIdxVector b) [];
  oi ← push_blocks (ovlBlkIdxVector b) (replicate (Z.to_nat (ovlStartIdx b - 1)) (-1));
  us ← push_use (blkIdxVector b) (ovlStartIdx b);
  Ok (mkCounts z z, mkTables bi oi us).

(** [list[idx][slot] += 1] *)
Definition bf_incr (l : list (list Z)) (idx slot : Z) : res (list (list Z)) :=
  vmod l idx (λ v, vmod v slot (λ x, int_chk (x + 1))).

(** [BloomFilter::firstCycleAccess] (declared [int], but it returns nothing) *)
Definition BloomFilter_firstCycleAccess (t : BfTables) (from to : Z) (c : BfCounts)
    : res BfCounts :=
  whichBF ← vget (bfIdx t) from;
  whichOvlBF ← vget (ovlBFIdx t) from;
  slot ← umod to BF_LEN;
  l ← bf_incr (bfList c) whichBF slot;
  if negb (whichOvlBF =? -1) then
    o ← bf_incr (olBfList c) whichOvlBF slot; Ok (mkCounts l o)
  else Ok (mkCounts l (olBfList c)).

(** The counts of the lines of one set. *)
Fixpoint bf_counts (l : list (list Z)) (blkIdx : Z) (setVector : list Z) : res (list Z) :=
  match setVector with
  | [] => Ok []
  | x :: s =>
      slot ← umod (u64 x) BF_LEN;
      row ← vget l blkIdx;
      c ← vget row (i32 slot);
      cs ← bf_counts l blkIdx s;
      Ok (c :: cs)
  end.

(** [std::min_element] as an index: the first of the smallest. *)
Fixpoint min_index (l : list Z) (i best_i best : Z) : Z :=
  match l with
  | [] => best_i
  | x :: l' => if x <? best then min_index l' (i + 1) i x else min_index l' (i + 1) best_i best
  end.
Definition min_element (l : list Z) : Z :=
  match l with [] => 0 | x :: l' => min_index l' 1 0 x end.

(** [BloomFilter::replace] *)
Definition BloomFilter_replace (c : BfCounts) (blkIdx : Z) (useOvl : bool)
    (setVector weightVector : list Z) : res (Z * Z) :=
  cnt ← bf_counts (if useOvl then olBfList c else bfList c) blkIdx setVector;
  let minIdx := min_element cnt in
  target ← vget setVector minIdx;
  weightIdx ← vget weightVector minIdx;
  Ok (target, weightIdx).
End Bloom.

(** ** Moving median *)

(** [mvmTmp], [medians] ([None] is the NaN of 0/0), [mvmBlkIdxVector], [mvmCurIdx] *)
Record MvmState := mkMvm {
  mvmTmp : list Z; medians : list (option dyadic); mvmBlkIdxVector : list Z; mvmCurIdx : Z }.

Section Mvm.
(** The globals [a_h] and [MOV_MED_BLOCK_NUM]. *)
Variables a_h MOV_MED_BLOCK_NUM : Z.

(** [MovingMedian::MovingMedian] *)
Definition new_MovingMedian : res MvmState :=
  q ← udiv a_h MOV_MED_BLOCK_NUM;
  let blockVertexN := i32 q in
  let rest := u64 (a_h - u64 (MOV_MED_BLOCK_NUM * u64 blockVertexN)) in
  blk ← for_loop (Z.to_nat rest) 0 (λ i v, vmod v i (λ x, int_chk (x + 1)))
          (replicate (Z.to_nat MOV_MED_BLOCK_NUM) blockVertexN);
  Ok (mkMvm [] [] blk 0).

(** The block scan of [firstCycleAccess]: the first block whose running sum
    reaches [from], 0 when there is none. *)
Fixpoint mvm_block (n : nat) (i sum from : Z) (blk : list Z) : res Z :=
  match n with
  | O => Ok 0
  | S n' =>
      x ← vget blk i;
      sum' ← int_chk (sum + x);
      if from <=? u64 sum' then Ok i else mvm_block n' (i + 1) sum' from blk
  end.

(** [(double)tmpSum/mvmTmp.size()] *)
Definition mvm_average (l : list Z) : option dyadic :=
  let tmpSum := foldl (λ s x, u64 (s + u64 x)) 0 l in
  if qempty l then None
  else Some (float_div 53 (float_of_uint 53 tmpSum) (float_of_uint 53 (vsize l))).

(** [MovingMedian::firstCycleAccess] (declared [int], but it returns nothing) *)
Definition MovingMedian_firstCycleAccess (from to : Z) (s : MvmState) : res MvmState :=
  idx ← mvm_block (Z.to_nat MOV_MED_BLOCK_NUM) 0 0 from (mvmBlkIdxVector s);
  if negb (mvmCurIdx s =? idx) then
    Ok (mkMvm [] (medians s ++ [mvm_average (mvmTmp s)]) (mvmBlkIdxVector s) idx)
  else Ok (mkMvm (mvmTmp s ++ [i32 to]) (medians s) (mvmBlkIdxVector s) (mvmCurIdx s)).

(** [std::max_element] as an index: the first of the largest. *)
Fixpoint max_index (l : list Z) (i best_i best : Z) : Z :=
  match l with
  | [] => best_i
  | x :: l' => if best <? x then max_index l' (i + 1) i x else max_index l' (i + 1) best_i best
  end.
Definition max_element (l : list Z) : Z :=
  match l with [] => 0 | x :: l' => max_index l' 1 0 x end.

(** [abs(median - to)] on [int] *)
Definition int_dist (median to : Z) : res Z :=
  d ← int_chk (median - to); int_chk (Z.abs d).

Fixpoint mvm_distances (median : Z) (setVector : list Z) : res (list Z) :=
  match setVector with
  | [] => Ok []
  | x :: s => d ← int_dist median x; ds ← mvm_distances median s; Ok (d :: ds)
  end.

(** [MovingMedian::replace] *)
Definition MovingMedian_replace (s : MvmState) (from : Z) (setVector weightVector : list Z)
    : res (Z * Z) :=
  m ← vget (medians s) from;
  d ← of_option FloatRange m;
  median ← (if in_i32 (trunc_dyadic d) then Ok (trunc_dyadic d) else Err FloatRange);
  ds ← mvm_distances median setVector;
  let maxIdx := max_element ds in
  target ← vget setVector maxIdx;
  weightIdx ← vget weightVector maxIdx;
  Ok (target, weightIdx).
End Mvm.

(** ** The tables *)

(** Incrementing the entries [i .. i + n - 1]. *)
Lemma incr_entries n i l :
  0 ≤ i → i + Z.of_nat n ≤ vsize l →
  (∀ j v, i ≤ j → vget l j = Ok v → - 2 ^ 31 ≤ v < 2 ^ 31 - 1) →
  ∃ l', for_loop n i (λ i v, vmod v i (λ x, int_chk (x + 1))) l = Ok l' ∧
    vsize l' = vsize l ∧
    ∀ j v, vget l j = Ok v →
      vget l' j = Ok (if decide (i ≤ j < i + Z.of_nat n) then v + 1 else v).
Proof.
  revert i l. induction n as [|n IH]; intros i l Hi Hn Hb; simpl.
  { exists l. split; [done|]. split; [done|]. intros j v ->. by rewrite decide_False by lia. }
  destruct (vget_is_Ok l i) as [x Hx]; [lia|].
  assert (- 2 ^ 31 ≤ x < 2 ^ 31 - 1) as Hxb by by apply (Hb i).
  rewrite (vmod_Ok l i _ x (x + 1)) by first [done | apply int_chk_Ok; lia]. simpl.
  destruct (IH (i + 1) (<[Z.to_nat i := x + 1]> l)) as (l' & E & Hs & Hv).
  - lia.
  - rewrite vsize_insert. lia.
  - intros j v Hj. rewrite vget_insert, decide_False by lia. apply Hb. lia.
  - exists l'. rewrite vsize_insert in Hs. split; [done|]. split; [done|]. intros j v Hj.
    destruct (decide (j = i)) as [->|Hne].
    + rewrite Hx in Hj. injection Hj as ->.
      rewrite (Hv i (v + 1)) by (rewrite vget_insert, decide_True by lia; done).
      by rewrite decide_False, decide_True by lia.
    + rewrite (Hv j v) by (rewrite vget_insert, decide_False by lia; done).
      destruct (decide (i ≤ j < i + Z.of_nat (S n))).
      * by rewrite decide_True by lia.
      * by rewrite decide_False by lia.
Qed.

Section BloomLemmas.
Variables A B L O : Z.
Hypothesis HB : 0 < B ≤ A.
Hypothesis HA : A < 2 ^ 31 - 1.
Hypothesis HO : 0 ≤ O ≤ 100.

Let bv := A / B.
Let rem := A mod B.

(** The number of vertices of block [i]. *)
Definition blk_size (i : Z) : Z := bv + (if i <? rem then 1 else 0).

Record blocks_ok (b : BfBlocks) : Prop := {
  bo_blk : ∀ i, 0 ≤ i < B → vget (blkIdxVector b) i = Ok (blk_size i);
  bo_ovl : ∀ i, 0 ≤ i < B - 1 → vget (ovlBlkIdxVector b) i = Ok bv;
  bo_last : vget (ovlBlkIdxVector b) (B - 1) = Ok (A - (B - 1) * bv - (ovlStartIdx b - 1));
  bo_start : 0 ≤ ovlStartIdx b - 1 ≤ bv }.

Lemma bv_bounds : 1 ≤ bv < 2 ^ 31 - 1 ∧ 0 ≤ rem < B ∧ A = B * bv + rem ∧ B * bv ≤ A.
Proof.
  unfold bv, rem. pose proof (Z.div_mod A B). pose proof (Z.mod_pos_bound A B).
  assert (1 ≤ A / B) by (apply Z.div_le_lower_bound; lia).
  assert (A / B ≤ A) by (apply Z.div_le_upper_bound; nia). lia.
Qed.

Lemma bf_blocks_ok : ∃ b, bf_blocks A B O = Ok b ∧ blocks_ok b.
Proof.
  destruct bv_bounds as (Hbv & Hrem & HAd & HBv). unfold bf_blocks.
  rewrite udiv_Ok by lia. fold bv. simpl. rewrite i32_small by lia.
  rewrite (u64_small bv), (u64_small (B * bv)) by lia.
  replace (A - B * bv) with rem by lia. rewrite (u64_small rem), (u64_small (100 - O)) by lia.
  assert (0 ≤ bv * (100 - O) ≤ bv * 100) as Hm by nia.
  rewrite (u64_small (bv * (100 - O))) by lia.
  set (k := bv * (100 - O) / 100).
  assert (0 ≤ k ≤ bv) as Hk.
  { unfold k. split; [apply Z.div_pos; lia|]. apply Z.div_le_upper_bound; lia. }
  rewrite (u64_small (k + 1)) by lia.
  destruct (incr_entries (Z.to_nat rem) 0 (replicate (Z.to_nat B) bv)) as (blk & E & Hs & Hv).
  { lia. } { unfold vsize. rewrite length_replicate. lia. }
  { intros j v _ Hj. apply vget_lookup in Hj as [_ [-> _]%lookup_replicate]. lia. }
  rewrite E. simpl. rewrite (i32_small (k + 1)) by lia. rewrite Z.add_simpl_r.
  rewrite int_chk_Ok by lia. simpl.
  assert (0 ≤ (B - 1) * bv ≤ A - bv) as Hlast by nia.
  rewrite (u64_small (B - 1)), (u64_small ((B - 1) * bv)), (u64_small k) by lia.
  rewrite (u64_small (A - (B - 1) * bv - k)), i32_small by lia.
  eexists. split; [done|]. split; simpl.
  - intros i Hi. rewrite (Hv i bv); unfold blk_size.
    + f_equal. destruct (Z.ltb_spec i rem).
      * rewrite decide_True by lia. done.
      * rewrite decide_False by lia. lia.
    + apply vget_lookup. split; [lia|]. apply lookup_replicate_2. lia.
  - intros i Hi. apply vget_lookup. split; [lia|].
    rewrite lookup_app_l by (rewrite length_replicate; lia). apply lookup_replicate_2. lia.
  - apply vget_lookup. split; [lia|].
    rewrite lookup_app_r by (rewrite length_replicate; lia). rewrite length_replicate.
    rewrite Nat.sub_diag. simpl. do 2 f_equal. lia.
  - lia.
Qed.

(** The total length of the blocks written by one of the loops. *)
Lemma concat_length_rec {T} (F : Z → list T) (G : Z → Z) (n : nat) :
  G 0 = 0 → (∀ i, 0 ≤ i < Z.of_nat n → G (i + 1) = G i + vsize (F i)) →
  vsize (concat (F <$> seqZ 0 (Z.of_nat n))) = G (Z.of_nat n).
Proof.
  intros G0. induction n as [|n IH]; intros HG; [change (Z.of_nat 0) with 0; by rewrite G0|].
  rewrite seqZ_S, fmap_app, concat_app, vsize_app, IH by (intros; apply HG; lia).
  cbn [fmap list_fmap concat]. rewrite app_nil_r, Z.add_0_l.
  replace (Z.of_nat (S n)) with (Z.of_nat n + 1) by lia. symmetry. apply HG. lia.
Qed.

Lemma concat_blocks_bound {T} (F : Z → list T) (P : T → Prop) (n : nat) x :
  (∀ i y, 0 ≤ i < Z.of_nat n → y ∈ F i → P y) →
  x ∈ concat (F <$> seqZ 0 (Z.of_nat n)) → P x.
Proof.
  intros HF Hx. rewrite list_elem_of_In, List.in_concat in Hx. destruct Hx as (l & Hl & Hx).
  apply list_elem_of_In in Hl, Hx. apply list_elem_of_fmap in Hl as (i & -> & Hi%elem_of_seqZ). apply (HF i); [lia | done].
Qed.

(** What the three tables promise to the rest of the program. *)
Record tables_ok (t : BfTables) : Prop := {
  to_bf : vsize (bfIdx t) = A ∧ Forall (λ k, 0 ≤ k < B) (bfIdx t);
  to_ovl : vsize (ovlBFIdx t) = A ∧ Forall (λ k, -1 ≤ k < B) (ovlBFIdx t);
  to_use : vsize (useOvlBF t) = A;
  to_use_ovl : ∀ v, vget (useOvlBF t) v = Ok true →
    ∃ k, vget (ovlBFIdx t) v = Ok k ∧ 0 ≤ k < B }.

Lemma push_blocks_ok (size : Z → Z) blk s :
  (∀ i, 0 ≤ i < B → vget blk i = Ok (size i)) →
  push_blocks B blk s =
  Ok (s ++ concat ((λ i, replicate (Z.to_nat (size i)) i) <$> seqZ 0 B)).
Proof.
  intros Hs. unfold push_blocks.
  rewrite (for_loop_append (λ i, replicate (Z.to_nat (size i)) i)).
  - by rewrite Z2Nat.id by lia.
  - intros i s' Hi. by rewrite Hs by lia.
Qed.

Lemma blocks_in_range (size : Z → Z) :
  Forall (λ k, 0 ≤ k < B) (concat ((λ i, replicate (Z.to_nat (size i)) i) <$> seqZ 0 B)).
Proof.
  apply Forall_forall. intros x Hx. rewrite <- (Z2Nat.id B) in Hx by lia.
  eapply (concat_blocks_bound _ (λ k, 0 ≤ k < B)); [|exact Hx].
  intros i y Hi Hy. apply elem_of_replicate_inv in Hy as ->. lia.
Qed.

Lemma push_use_ok b :
  blocks_ok b →
  ∃ us, push_use B (blkIdxVector b) (ovlStartIdx b) = Ok us ∧ vsize us = A ∧
    ∀ v, vget us v = Ok true → ovlStartIdx b - 1 ≤ v.
Proof.
  intros [Hblk _ _ Hst]. destruct bv_bounds as (Hbv & Hrem & HAd & HBv).
  set (k := ovlStartIdx b - 1) in *.
  set (F := λ i, replicate (Z.to_nat k) false ++ replicate (Z.to_nat (blk_size i - k)) true).
  exists (concat (F <$> seqZ 0 B)). unfold push_use. fold k.
  rewrite Z.max_r by lia. rewrite (for_loop_append F).
  2:{ intros i s Hi. by rewrite Hblk by lia. }
  rewrite Z2Nat.id by lia. split; [done|]. split.
  - rewrite <- (Z2Nat.id B) at 1 by lia.
    rewrite (concat_length_rec F (λ n, n * bv + Z.min n rem)); [lia | lia |].
    intros i Hi. unfold F, vsize. rewrite length_app, !length_replicate.
    unfold blk_size. destruct (Z.ltb_spec i rem); lia.
  - intros v [Hv0 Hv]%vget_lookup. destruct (decide (k ≤ v)); [done|]. exfalso.
    rewrite seqZ_cons in Hv by lia. cbn [fmap list_fmap concat] in Hv. unfold F in Hv at 1.
    rewrite <- app_assoc, lookup_app_l in Hv by (rewrite length_replicate; lia).
    by apply lookup_replicate in Hv as [? _].
Qed.

Lemma new_BloomFilter_ok :
  ∃ t, new_BloomFilter A B L O =
    Ok (mkCounts (replicate (Z.to_nat B) (replicate (Z.to_nat L) 0))
          (replicate (Z.to_nat B) (replicate (Z.to_nat L) 0)), t) ∧ tables_ok t.
Proof.
  destruct bv_bounds as (Hbv & Hrem & HAd & HBv).
  destruct bf_blocks_ok as (b & E & Hb). pose proof Hb as [Hblk Hovl Hlast Hst].
  destruct (push_use_ok b Hb) as (us & Eus & Hus & Huse).
  set (osize := λ i, if i =? B - 1 then A - (B - 1) * bv - (ovlStartIdx b - 1) else bv).
  set (pre := replicate (Z.to_nat (ovlStartIdx b - 1)) (-1)).
  set (rest := concat ((λ i, replicate (Z.to_nat (osize i)) i) <$> seqZ 0 B)).
  exists (mkTables (concat ((λ i, replicate (Z.to_nat (blk_size i)) i) <$> seqZ 0 B)) (pre ++ rest) us).
  unfold new_BloomFilter. rewrite E. simpl. rewrite (push_blocks_ok blk_size (blkIdxVector b)) by done. simpl.
  rewrite (push_blocks_ok osize).
  2:{ intros i Hi. unfold osize. destruct (Z.eqb_spec i (B - 1)) as [->|]; [done|]. apply Hovl. lia. }
  simpl. rewrite Eus. simpl. split; [done|].
  assert (vsize (pre ++ rest) = A) as Hov.
  { rewrite vsize_app. unfold pre, rest at 1. unfold vsize at 1. rewrite length_replicate.
    rewrite <- (Z2Nat.id B) at 1 by lia.
    rewrite (concat_length_rec _ (λ n, if n =? B then A - (ovlStartIdx b - 1) else n * bv)).
    - rewrite (Z2Nat.id B), Z.eqb_refl by lia. lia.
    - by destruct (Z.eqb_spec 0 B); [lia|].
    - intros i Hi. unfold vsize. rewrite length_replicate. unfold osize.
      destruct (Z.eqb_spec (i + 1) B), (Z.eqb_spec i B), (Z.eqb_spec i (B - 1)); nia. }
  split; simpl.
  - split; [|apply blocks_in_range]. rewrite <- (Z2Nat.id B) at 1 by lia.
    rewrite (concat_length_rec _ (λ n, n * bv + Z.min n rem)); [lia | lia |].
    intros i Hi. unfold vsize, blk_size. rewrite length_replicate. destruct (Z.ltb_spec i rem); lia.
  - split; [done|]. apply Forall_app. split.
    + apply Forall_replicate. lia.
    + eapply Forall_impl; [apply blocks_in_range|]. simpl. lia.
  - done.
  - intros v Hv. pose proof (Huse v Hv) as Hge. pose proof (vget_range _ _ _ Hv) as Hr.
    destruct (vget_is_Ok (pre ++ rest) v) as [k Hk]; [lia|]. exists k. split; [done|].
    apply vget_lookup in Hk as [_ Hk]. unfold pre in Hk.
    rewrite lookup_app_r in Hk by (rewrite length_replicate; lia).
    apply list_elem_of_lookup_2 in Hk. pose proof (blocks_in_range osize) as Hall.
    rewrite Forall_forall in Hall. by apply Hall.
Qed.
End BloomLemmas.

(** ** The first-fold scan *)

(** One counter. *)
Definition cell (l : list (list Z)) (k slot : Z) : res Z := row ← vget l k; vget row slot.

(** The whole scan: an edge is a pair (from, to). *)
Definition bf_scan (L : Z) (t : BfTables) (edges : list (Z * Z)) : BfCounts → res BfCounts :=
  for_each edges (λ e, BloomFilter_firstCycleAccess L t e.1 e.2).

(** The edges of filter [k] that hash to [slot], by the table [idx]. *)
Definition bf_hits (L : Z) (idx : list Z) (k slot : Z) (edges : list (Z * Z)) : Z :=
  vsize (filter (λ e, vget idx e.1 = Ok k ∧ e.2 mod L = slot) edges).

Lemma bf_incr_cell l k slot n :
  cell l k slot = Ok n → 0 ≤ n < 2 ^ 31 - 1 →
  ∃ l', bf_incr l k slot = Ok l' ∧
    ∀ k' slot', cell l' k' slot' =
      if decide (k' = k ∧ slot' = slot) then Ok (n + 1) else cell l k' slot'.
Proof.
  unfold cell, bf_incr. intros H Hn. inv_res H.
  assert (vmod v slot (λ x, int_chk (x + 1)) = Ok (<[Z.to_nat slot := n + 1]> v)) as Ev.
  { apply (vmod_Ok _ _ _ n); [done|]. apply int_chk_Ok. lia. }
  rewrite (vmod_Ok l k _ v _ H0 Ev). eexists. split; [done|]. intros k' s'.
  rewrite vget_insert by (by eapply vget_range). destruct (decide (k' = k)) as [->|]; simpl.
  - rewrite vget_insert by (by eapply vget_range). rewrite H0. simpl.
    destruct (decide (s' = slot)) as [->|].
    + by rewrite decide_True.
    + rewrite decide_False by naive_solver. done.
  - rewrite decide_False by naive_solver. done.
Qed.

Section Scan.
Variables A B L : Z.
Variable t : BfTables.
Hypothesis HL : 0 < L.
Hypothesis Ht : tables_ok A B t.

(** The counters hold the hits of the edges scanned so far. *)
Definition counted (c : BfCounts) (edges : list (Z * Z)) : Prop :=
  ∀ k slot, 0 ≤ k < B → 0 ≤ slot < L →
    cell (bfList c) k slot = Ok (bf_hits L (bfIdx t) k slot edges) ∧
    cell (olBfList c) k slot = Ok (bf_hits L (ovlBFIdx t) k slot edges).

Lemma bf_hits_snoc idx k slot edges e :
  bf_hits L idx k slot (edges ++ [e]) =
  bf_hits L idx k slot edges + (if decide (vget idx e.1 = Ok k ∧ e.2 mod L = slot) then 1 else 0).
Proof.
  unfold bf_hits. rewrite filter_app, vsize_app, filter_cons, filter_nil. by case_decide.
Qed.

Lemma bf_hits_bound idx k slot edges : 0 ≤ bf_hits L idx k slot edges ≤ vsize edges.
Proof.
  unfold bf_hits, vsize.
  pose proof (length_filter (λ e, vget idx e.1 = Ok k ∧ e.2 mod L = slot) edges). lia.
Qed.

(** A bumped table holds the hits of one more edge. *)
Lemma bump_counts idx l l' k pre from to k' s' :
  vget idx from = Ok k →
  (∀ k' s', cell l' k' s' =
     if decide (k' = k ∧ s' = to mod L) then Ok (bf_hits L idx k (to mod L) pre + 1)
     else cell l k' s') →
  cell l k' s' = Ok (bf_hits L idx k' s' pre) →
  cell l' k' s' = Ok (bf_hits L idx k' s' (pre ++ [(from, to)])).
Proof.
  intros Hk Hl' Hl. rewrite bf_hits_snoc, Hl'. simpl. rewrite Hk.
  destruct (decide (k' = k ∧ s' = to mod L)) as [[-> ->]|Hne].
  - by rewrite decide_True.
  - rewrite decide_False by naive_solver. by rewrite Z.add_0_r.
Qed.

(** An untouched table. *)
Lemma keep_counts idx l k pre from to k' s' :
  vget idx from = Ok k → k ≠ k' → cell l k' s' = Ok (bf_hits L idx k' s' pre) →
  cell l k' s' = Ok (bf_hits L idx k' s' (pre ++ [(from, to)])).
Proof.
  intros Hk Hne Hl. rewrite bf_hits_snoc, Hl. simpl. rewrite Hk, decide_False by naive_solver.
  by rewrite Z.add_0_r.
Qed.

(** One access, [from] being a vertex. *)
Lemma firstCycleAccess_counts c pre from to :
  counted c pre → 0 ≤ from < A → vsize pre < 2 ^ 31 - 1 →
  ∃ c', BloomFilter_firstCycleAccess L t from to c = Ok c' ∧ counted c' (pre ++ [(from, to)]).
Proof.
  intros Hc Hf Hlen. destruct Ht as [[Hbl Hb] [Hol Ho] _ _].
  destruct (vget_is_Ok (bfIdx t) from) as [k Hk]; [lia|].
  destruct (vget_is_Ok (ovlBFIdx t) from) as [ko Hko]; [lia|].
  assert (0 ≤ k < B) as Hkb.
  { pose proof (proj2 (proj1 (vget_lookup _ _ _) Hk)). rewrite Forall_lookup in Hb. by eapply Hb. }
  assert (-1 ≤ ko < B) as Hkob.
  { pose proof (proj2 (proj1 (vget_lookup _ _ _) Hko)). rewrite Forall_lookup in Ho. by eapply Ho. }
  pose proof (Z.mod_pos_bound to L HL) as Hs.
  destruct (Hc k (to mod L) Hkb Hs) as [Hcell _].
  pose proof (bf_hits_bound (bfIdx t) k (to mod L) pre).
  destruct (bf_incr_cell _ _ _ _ Hcell) as (l' & El & Sl); [lia|].
  unfold BloomFilter_firstCycleAccess. rewrite Hk, Hko. simpl. rewrite umod_Ok by lia. simpl.
  rewrite El. simpl. destruct (Z.eqb_spec ko (-1)) as [->|Hko1]; simpl.
  - eexists. split; [done|]. intros k' s' Hk' Hs'. destruct (Hc k' s' Hk' Hs') as [C1 C2]. split.
    + by eapply bump_counts.
    + eapply keep_counts; [done | lia | done].
  - destruct (Hc ko (to mod L) ltac:(lia) Hs) as [_ Hcell2].
    pose proof (bf_hits_bound (ovlBFIdx t) ko (to mod L) pre).
    destruct (bf_incr_cell _ _ _ _ Hcell2) as (o' & Eo & So); [lia|].
    rewrite Eo. simpl. eexists. split; [done|]. intros k' s' Hk' Hs'.
    destruct (Hc k' s' Hk' Hs') as [C1 C2]. split; by eapply bump_counts.
Qed.

Lemma bf_scan_counts edges c pre :
  counted c pre → Forall (λ e, 0 ≤ e.1 < A) edges →
  vsize pre + vsize edges < 2 ^ 31 →
  ∃ c', bf_scan L t edges c = Ok c' ∧ counted c' (pre ++ edges).
Proof.
  unfold bf_scan. revert c pre. induction edges as [|[from to] edges IH]; intros c pre Hc Hall Hlen; simpl.
  { exists c. by rewrite app_nil_r. }
  apply Forall_cons in Hall as [Hf Hall]. rewrite vsize_cons in Hlen. pose proof (vsize_nonneg edges).
  destruct (firstCycleAccess_counts c pre from to Hc Hf) as (c1 & E1 & H1); [lia|].
  rewrite E1. simpl. destruct (IH c1 (pre ++ [(from, to)]) H1 Hall) as (c2 & E2 & H2).
  { rewrite vsize_app. unfold vsize in *. simpl. lia. }
  exists c2. split; [done|]. by rewrite <- app_assoc in H2.
Qed.

Lemma counted_new : counted (mkCounts (replicate (Z.to_nat B) (replicate (Z.to_nat L) 0))
  (replicate (Z.to_nat B) (replicate (Z.to_nat L) 0))) [].
Proof.
  assert (∀ k slot, 0 ≤ k < B → 0 ≤ slot < L →
    cell (replicate (Z.to_nat B) (replicate (Z.to_nat L) 0)) k slot = Ok 0) as Hz.
  { intros k slot Hk Hs. unfold cell.
    assert (vget (replicate (Z.to_nat B) (replicate (Z.to_nat L) 0)) k
            = Ok (replicate (Z.to_nat L) 0)) as ->.
    { apply vget_lookup. split; [lia|]. apply lookup_replicate_2. lia. }
    simpl. apply vget_lookup. split; [lia|]. apply lookup_replicate_2. lia. }
  intros k slot Hk Hs. simpl. by rewrite Hz.
Qed.
End Scan.

(** The victim has the least count. *)
Lemma min_index_spec l i best_i best pre :
  pre !! Z.to_nat best_i = Some best → 0 ≤ best_i → i = vsize pre →
  (∀ n v, pre !! n = Some v → best ≤ v) →
  ∃ m, (pre ++ l) !! Z.to_nat (min_index l i best_i best) = Some m ∧
    0 ≤ min_index l i best_i best ∧ ∀ n v, (pre ++ l) !! n = Some v → m ≤ v.
Proof.
  revert i best_i best pre. induction l as [|x l IH]; intros i best_i best pre Hb H0 Hi Hle; simpl.
  { rewrite app_nil_r. eauto. }
  assert (∀ n v, (pre ++ [x]) !! n = Some v → Z.min best x ≤ v) as Hle'.
  { intros n v Hv. apply lookup_app_Some in Hv as [Hv|[_ Hv]].
    - specialize (Hle _ _ Hv). lia.
    - apply list_lookup_singleton_Some in Hv as [_ ->]. lia. }
  assert (pre ++ x :: l = (pre ++ [x]) ++ l) as -> by by rewrite <- app_assoc.
  pose proof (vsize_nonneg pre). subst i. destruct (Z.ltb_spec x best).
  - apply IH; [|lia|by rewrite vsize_app|intros n v Hv; specialize (Hle' n v Hv); lia].
    unfold vsize. rewrite Nat2Z.id, lookup_app_r, Nat.sub_diag by lia. done.
  - apply IH; [|lia|by rewrite vsize_app|intros n v Hv; specialize (Hle' n v Hv); lia].
    rewrite lookup_app_l; [done|]. by eapply lookup_lt_Some.
Qed.

Lemma min_element_spec l :
  l ≠ [] → ∃ m, vget l (min_element l) = Ok m ∧ ∀ n v, l !! n = Some v → m ≤ v.
Proof.
  destruct l as [|x l]; [done|]. intros _. simpl.
  destruct (min_index_spec l 1 0 x [x]) as (m & Hm & H0 & Hle); [done|lia|done| |].
  { intros n v Hv. apply list_lookup_singleton_Some in Hv as [_ ->]. lia. }
  exists m. split; [by apply vget_lookup | done].
Qed.

Lemma bf_counts_lookup L l k s cs :
  bf_counts L l k s = Ok cs →
  length cs = length s ∧
  ∀ n x c, s !! n = Some x → cs !! n = Some c → cell l k (i32 (u64 x mod L)) = Ok c.
Proof.
  revert cs. induction s as [|x s IH]; intros cs H; simpl in H.
  { simplify_eq. split; [done|]. by intros. }
  inv_res H. injection H as <-. destruct (IH _ H3) as [Hl Hn].
  split; [simpl; by rewrite Hl|]. intros [|n] y c Hy Hc; simpl in *; [|by eapply Hn].
  simplify_eq. unfold cell. unfold umod in H0. case_match; [done|]. injection H0 as <-.
  by rewrite H1.
Qed.

(** ** Properties *)

(** [BloomFilter::BloomFilter] covers the vertices: the three tables have
    exactly one entry per vertex, every filter index exists, an overlapped
    index exists or is -1, and a vertex that is told to use the overlapped
    filter has one.  This holds for every number of filters up to the
    number of vertices and every overlap percentage, divisible or not. *)
Theorem bloom_tables_cover A B L O :
  0 < B ≤ A → A < 2 ^ 31 - 1 → 0 ≤ O ≤ 100 →
  ∃ c t, new_BloomFilter A B L O = Ok (c, t) ∧
    (vsize (bfIdx t) = A ∧ Forall (λ k, 0 ≤ k < B) (bfIdx t)) ∧
    (vsize (ovlBFIdx t) = A ∧ Forall (λ k, -1 ≤ k < B) (ovlBFIdx t)) ∧
    vsize (useOvlBF t) = A ∧
    ∀ v, vget (useOvlBF t) v = Ok true → ∃ k, vget (ovlBFIdx t) v = Ok k ∧ 0 ≤ k < B.
Proof.
  intros HB HA HO. destruct (new_BloomFilter_ok A B L O HB HA HO) as (t & E & [H1 H2 H3 H4]).
  eauto 10.
Qed.

Lemma bloom_tables_cover_witness :
  ∃ c t, new_BloomFilter 10 3 4 25 = Ok (c, t) ∧ vsize (useOvlBF t) = 10.
Proof.
  destruct (bloom_tables_cover 10 3 4 25) as (c & t & E & _ & _ & H & _); [lia..|].
  exists c, t. split; [exact E | exact H].
Defined.

(** The first-fold scan counts edges.  Scanning any list of edges whose
    sources are vertices runs without leaving a table, and afterwards the
    counter of filter [k] at slot [s] is the number of scanned edges whose source
    belongs to [k] and whose target hashes to [s], for the plain and for the
    overlapped filters. *)
Theorem bloom_counts_edges A B L O edges :
  0 < B ≤ A → A < 2 ^ 31 - 1 → 0 ≤ O ≤ 100 → 0 < L →
  Forall (λ e, 0 ≤ e.1 < A) edges → vsize edges < 2 ^ 31 →
  ∃ c0 t c, new_BloomFilter A B L O = Ok (c0, t) ∧ bf_scan L t edges c0 = Ok c ∧
    ∀ k s, 0 ≤ k < B → 0 ≤ s < L →
      cell (bfList c) k s = Ok (bf_hits L (bfIdx t) k s edges) ∧
      cell (olBfList c) k s = Ok (bf_hits L (ovlBFIdx t) k s edges).
Proof.
  intros HB HA HO HL He Hn. destruct (new_BloomFilter_ok A B L O HB HA HO) as (t & E & Ht).
  destruct (bf_scan_counts A B L t HL Ht edges _ [] (counted_new B L t HL)) as (c & Ec & Hc);
    [done | unfold vsize in *; simpl; lia |].
  eexists _, t, c. split; [exact E|]. split; [exact Ec | exact Hc].
Qed.

Lemma bloom_counts_edges_witness :
  ∃ c0 t c, new_BloomFilter 4 2 3 50 = Ok (c0, t) ∧
    bf_scan 3 t [(0, 5); (1, 2); (3, 2)] c0 = Ok c ∧
    cell (bfList c) 0 2 = Ok 2.
Proof.
  destruct (bloom_counts_edges 4 2 3 50 [(0, 5); (1, 2); (3, 2)]) as (c0 & t & c & E & Ec & H).
  1-4: lia.
  { repeat constructor; simpl; lia. }
  { vm_compute. done. }
  exists c0, t, c. split; [exact E|]. split; [exact Ec|].
  destruct (H 0 2) as [H1 _]; [lia..|]. rewrite H1. vm_compute in E. injection E as <- <-.
  reflexivity.
Defined.

(** [BloomFilter::replace] evicts a line whose counter is the least of the
    set: it returns the data and the block index of one way, and no way of the
    set has a smaller count in the chosen filter. *)
Theorem bloom_replace_least L c k useOvl set weight v w :
  BloomFilter_replace L c k useOvl set weight = Ok (v, w) →
  let l := if useOvl then olBfList c else bfList c in
  ∃ n m, set !! n = Some v ∧ weight !! n = Some w ∧
    cell l k (i32 (u64 v mod L)) = Ok m ∧
    ∀ n' v', set !! n' = Some v' → ∃ m', cell l k (i32 (u64 v' mod L)) = Ok m' ∧ m ≤ m'.
Proof.
  unfold BloomFilter_replace. intros H. inv_res H. injection H as <- <-. simpl.
  destruct (bf_counts_lookup _ _ _ _ _ H0) as [Hl Hn].
  pose proof (proj2 (proj1 (vget_lookup _ _ _) H1)) as Hs.
  pose proof (proj2 (proj1 (vget_lookup _ _ _) H2)) as Hw.
  assert (v0 ≠ []) as Hne.
  { intros ->. apply lookup_lt_Some in Hs. simpl in Hl. lia. }
  destruct (min_element_spec v0 Hne) as (m & [_ Hm]%vget_lookup & Hle).
  exists (Z.to_nat (min_element v0)), m. split; [done|]. split; [done|].
  split; [by eapply Hn|]. intros n' v' Hv'.
  destruct (lookup_lt_is_Some_2 v0 n') as [m' Hm'].
  { apply lookup_lt_Some in Hv'. lia. }
  exists m'. split; [by eapply Hn | by eapply Hle].
Qed.

Lemma bloom_replace_least_witness :
  BloomFilter_replace 2 (mkCounts [[3; 1]] [[0; 0]]) 0 false [4; 7; 9] [0; 0; 2] = Ok (7, 0) ∧
  ∃ n m, [4; 7; 9] !! n = Some 7 ∧ [0; 0; 2] !! n = Some 0 ∧
    cell [[3; 1]] 0 (i32 (u64 7 mod 2)) = Ok m ∧
    ∀ n' v', [4; 7; 9] !! n' = Some v' →
      ∃ m', cell [[3; 1]] 0 (i32 (u64 v' mod 2)) = Ok m' ∧ m ≤ m'.
Proof.
  split; [vm_compute; reflexivity|].
  apply (bloom_replace_least 2 (mkCounts [[3; 1]] [[0; 0]]) 0 false [4; 7; 9] [0; 0; 2]).
  vm_compute. reflexivity.
Defined.
