(* ===== verification/Common.v ===== *)
(** * Shared data of the GCN simulator (Common.h, IniParser.cpp, DataReader.cpp)

    The structs that the simulator's units exchange, the globals that are
    constant once the configuration and the data header are read, and the
    global counters. *)

From S2P Require Import Prelude CFloat.

Open Scope Z_scope.

Definition MAX_QUEUE_SIZE : Z := 1000000.
(** [READ] and [WRITE], the values of [is_write]. *)
Definition READ_REQ : bool := false.
Definition WRITE_REQ : bool := true.

Inductive Type_ := X | A_ROW | A_COL.

#[global] Instance Type_eq_dec : EqDecision Type_.
Proof. solve_decision. Defined.

Record Offset := mkOffset { row_offset : Z; col_offset : Z }.

Record DCFlag := mkDCFlag { x_over : bool; a_row_over : bool; a_col_over : bool }.

Record ReaderFlag := mkReaderFlag { req_need : bool; q_empty : bool }.

Record ERData := mkERData {
  rowindex : Z; colindex : Z; address : Z;
  er_pre_w_fold : Z; er_pre_w_fold_start : Z; er_pre_repeat : Z; er_is_end : bool }.

(** A [float]: [None] is a NaN. *)
Record XRData := mkXRData { ifvalue : option dyadic; xr_is_end : bool }.

Record RowInfo := mkRowInfo { row_start : Z; row_end : Z }.

Record RCNT := mkRCNT { tot_read_cnt : Z; pre_read_cnt : Z; read_cnt_acm : Z }.

(** The globals set by [IniParser::ParseIni], by [DataReader::ReadData] (the
    matrix sizes), by [Distributer] ([w_fold]) and by [main] ([max_v]). *)
Record Params := mkParams {
  CACHE_LINE_BYTE : Z; CACHE_LINE_COUNT : Z; UNIT_BYTE : Z;
  X_START : Z; A_ROW_START : Z; A_COL_START : Z;
  WEIGHT_START : Z; XW_START : Z; AXW_START : Z;
  MAX_DRAM : Z; UNIT_W_READ : Z;
  w_h : Z; w_w : Z; x_h : Z; x_w : Z; a_w : Z; a_h : Z;
  w_fold : Z; max_v : Z }.

(** The global counters. *)
Record Counters := mkCtr {
  a_util : Z; w_util : Z; tot_req : Z; tot_xw_count : Z; tot_axw_count : Z }.

(** The mutable globals the units share, with the DRAM interface they all point
    to: the request counts of the blocks of vertices (and the copies
    [DataController] consumes), the caches that replay a block, [f_flag], the
    end counter when it is not the interface's, and so on. *)
Record Globals (D : Type) := mkGlobals {
  g_dram : D;
  f_flag : bool;
  vertex_req_count : list Z; vertex_req_count_cnt : list Z; v_limit : Z; v_cache : list Z;
  edge_req_count : list Z; edge_req_count_cnt : list Z; e_limit : Z; e_cache : list Z;
  last_v : Z; v_arch : Z; block_cnt : Z; zero_row : list Z }.
Arguments mkGlobals {D}.
Arguments g_dram {D}. Arguments f_flag {D}.
Arguments vertex_req_count {D}. Arguments vertex_req_count_cnt {D}.
Arguments v_limit {D}. Arguments v_cache {D}.
Arguments edge_req_count {D}. Arguments edge_req_count_cnt {D}.
Arguments e_limit {D}. Arguments e_cache {D}.
Arguments last_v {D}. Arguments v_arch {D}. Arguments block_cnt {D}. Arguments zero_row {D}.

(** ** Interfaces *)

(** What the units need of the DRAM interface: queueing a request, for a unit
    [id] or not.  [requests] is what has been queued and not sent. *)
Class DramPort (D : Type) := {
  DRAMRequest : Z → bool → D → D;
  DRAMRequestId : Z → bool → Z → D → D;
  requests : D → list (Z * bool);
  request_queued a w d : requests (DRAMRequest a w d) = requests d ++ [(a, w)];
  request_id_queued a w i d : requests (DRAMRequestId a w i d) = requests d ++ [(a, w)] }.

(** What the DRAM interface needs of a memory system.  A tick reports the
    callbacks it makes, oldest first. *)
Class MemorySystem (M : Type) := {
  WillAcceptTransaction : Z → bool → M → res bool;
  ms_AddTransaction : Z → bool → M → res M;
  ms_ClockTick : M → res (list (Z * bool) * M);
  IsQueueFill : M → bool }.

(** The contract of a memory system: what it accepts stays pending until
    exactly one callback reports it. *)
Class MemorySystemSpec (M : Type) `{MemorySystem M} := {
  ms_wf : M → Prop;
  pending : M → list (Z * bool);
  will_accept_total a w m : ms_wf m → ∃ b, WillAcceptTransaction a w m = Ok b;
  add_accepted a w m :
    ms_wf m → WillAcceptTransaction a w m = Ok true →
    ∃ m', ms_AddTransaction a w m = Ok m' ∧ ms_wf m' ∧ pending m' ≡ₚ (a, w) :: pending m;
  tick_reports m evs m' :
    ms_wf m → ms_ClockTick m = Ok (evs, m') → ms_wf m' ∧ pending m ≡ₚ evs ++ pending m' }.

(** A memory system that runs: [lasts n] promises [n] more ticks that do not abort,
    whatever it accepts in between. *)
Class MemorySystemRuns (M : Type) `{MemorySystemSpec M} := {
  lasts : Z → M → Prop;
  lasts_wf n m : lasts n m → ms_wf m;
  add_lasts n a w m m' : lasts n m → ms_AddTransaction a w m = Ok m' → lasts n m';
  tick_lasts n m : 0 ≤ n → lasts (n + 1) m → ∃ evs m', ms_ClockTick m = Ok (evs, m') ∧ lasts n m' }.

(** A port that only records the requests it is given. *)
#[export, refine] Instance trace_port : DramPort (list (Z * bool)) := {
  DRAMRequest a w d := d ++ [(a, w)];
  DRAMRequestId a w _ d := d ++ [(a, w)];
  requests d := d }.
Proof. all: done. Defined.

(** The initial globals around a port. *)
Definition globals_of {D} (d : D) (vcounts ecounts : list Z) : Globals D :=
  {| g_dram := d; f_flag := false;
     vertex_req_count := vcounts; vertex_req_count_cnt := vcounts; v_limit := 0; v_cache := [];
     edge_req_count := ecounts; edge_req_count_cnt := ecounts; e_limit := 0; e_cache := [];
     last_v := 0; v_arch := 0; block_cnt := 0; zero_row := [] |}.
(** A small simulator configuration: four vertices in two blocks, two folds. *)
Definition ex_params : Params :=
  {| CACHE_LINE_BYTE := 64; CACHE_LINE_COUNT := 8; UNIT_BYTE := 8; X_START := 0;
     A_ROW_START := 1000; A_COL_START := 2000; WEIGHT_START := 3000; XW_START := 4000;
     AXW_START := 9000; MAX_DRAM := 2; UNIT_W_READ := 1; w_h := 4; w_w := 2; x_h := 4; x_w := 4;
     a_w := 4; a_h := 4; w_fold := 2; max_v := 2 |}.

(** ** Blocks and lines *)

Section Blocks.
Variable P : Params.

(** Sizes the program runs with. *)
Record sizes_ok : Prop := {
  so_line : 1 ≤ CACHE_LINE_COUNT P < 2 ^ 31;
  so_rows : 1 ≤ a_h P < 2 ^ 31;
  so_block : 1 ≤ max_v P < 2 ^ 64;
  so_fold : 2 ≤ w_fold P < 2 ^ 31 }.

(** The addresses of [n] consecutive cache lines from [a]. *)
Definition lines_from (a : Z) (n : nat) : list (Z * bool) :=
  (λ i, (u64 (a + i * CACHE_LINE_BYTE P), READ_REQ)) <$> seqZ 0 (Z.of_nat n).

Lemma lines_from_S a n :
  lines_from (u64 a) (S n) =
  (u64 a, READ_REQ) :: lines_from (u64 (u64 a + CACHE_LINE_BYTE P)) n.
Proof.
  unfold lines_from. rewrite seqZ_cons by lia. csimpl. f_equal.
  - rewrite Z.mul_0_l, Z.add_0_r. f_equal. apply Z.mod_mod. lia.
  - replace (Z.pred (Z.of_nat (S n))) with (Z.of_nat n) by lia.
    assert (seqZ (Z.succ 0) (Z.of_nat n) = Z.add 1 <$> seqZ 0 (Z.of_nat n)) as ->
      by (by rewrite fmap_add_seqZ). rewrite <- list_fmap_compose. apply list_fmap_ext.
    intros i x _. cbn [compose]. f_equal. unfold u64.
    rewrite !Zplus_mod_idemp_l, <- !Z.add_assoc, !Zplus_mod_idemp_l. f_equal. lia.
Qed.

(** A whole block of vertices and its position in the matrix. *)
Record block_at (arch : Z) (B : list Z) : Prop := {
  ba_arch : 0 ≤ arch; ba_aligned : arch mod max_v P = 0;
  ba_len : 0 < vsize B ≤ max_v P; ba_fit : arch + vsize B ≤ a_h P;
  ba_end : vsize B = max_v P ∨ arch + vsize B = a_h P }.

Lemma block_last_row arch B j :
  1 ≤ max_v P → block_at arch B → 0 < j ≤ vsize B →
  ((arch + j) mod max_v P = 0 ∨ arch + j = a_h P) ↔ j = vsize B.
Proof.
  intros Hm [Ha Hal Hlen Hfit Hend] Hj.
  rewrite <- Zplus_mod_idemp_l, Hal, Z.add_0_l. split.
  - intros [Hmod | Hrow]; [|lia]. destruct (decide (j = max_v P)); [lia|].
    rewrite Z.mod_small in Hmod by lia. lia.
  - intros ->. destruct Hend as [-> | He]; [left; apply Z.mod_same; lia | by right].
Qed.

Lemma block_row_end (Hsz : sizes_ok) arch B j :
  block_at arch B → 0 < j ≤ vsize B →
  ((arch + j) mod max_v P = 0 ∨ arch + j = a_h P) ↔ j = vsize B.
Proof. apply block_last_row. apply Hsz. Qed.
End Blocks.

Lemma ex_sizes_ok : sizes_ok ex_params.
Proof. by split; vm_compute. Qed.

Lemma ex_block : block_at ex_params 0 [3; 5].
Proof. split; try by vm_compute. by left. Qed.

