(* ===== verification/MemoryRun.v ===== *)
(** * A memory system and its client (Common.h's users, DRAMsim3/src/memory_system.h)

    What a client does with a memory system through its interface: it offers
    transactions, which the system accepts or not, and lets cycles pass.  The lemmas of
    the file, for any system with the contract of Common: a run keeps it well formed; as many cycles as the system
    lasts go through without an abort, and each accepted transaction is reported once or
    still pending.  The JEDEC and the HMC system instantiate it. *)

From S2P Require Import Prelude Common.

Open Scope Z_scope.

(** A client offers a transaction, or a cycle passes. *)
Inductive sys_event := SysOffer (a : Z) (w : bool) | SysTick.

Fixpoint sys_ticks (evs : list sys_event) : Z :=
  match evs with [] => 0 | SysTick :: evs' => 1 + sys_ticks evs' | _ :: evs' => sys_ticks evs' end.

Lemma sys_ticks_nonneg evs : 0 ≤ sys_ticks evs.
Proof. induction evs as [|[] evs IH]; cbn [sys_ticks]; lia. Qed.

Section Runs.
Context {M : Type} `{MemorySystem M}.

Definition sys_step (e : sys_event) (m : M) : res (list (Z * bool) * list (Z * bool) * M) :=
  match e with
  | SysOffer a w =>
      ok ← WillAcceptTransaction a w m;
      if (ok : bool) then m' ← ms_AddTransaction a w m; Ok ([(a, w)], [], m') else Ok ([], [], m)
  | SysTick => '(evs, m') ← ms_ClockTick m; Ok ([], evs, m')
  end.

(** The transactions accepted and those reported. *)
Fixpoint sys_run (evs : list sys_event) (m : M) : res (list (Z * bool) * list (Z * bool) * M) :=
  match evs with
  | [] => Ok ([], [], m)
  | e :: evs' => '(a, d, m1) ← sys_step e m; '(a', d', m2) ← sys_run evs' m1; Ok (a ++ a', d ++ d', m2)
  end.
End Runs.

Section Keeping.
Context {M : Type} `{MemorySystemSpec M}.

(** Whatever happens, the system stays well formed. *)
Lemma sys_run_wf evs (m : M) a d m' : ms_wf m → sys_run evs m = Ok (a, d, m') → ms_wf m'.
Proof.
  revert m a d. induction evs as [|e evs IH]; intros m a d W E; cbn [sys_run] in E; [by injection E as _ _ <-|].
  apply bind_Ok_inv in E as ([[a1 d1] m1] & E1 & E). apply bind_Ok_inv in E as ([[a2 d2] m2] & E2 & E).
  injection E as _ _ <-. eapply IH; [|exact E2]. destruct e as [x w|]; cbn [sys_step] in E1.
  - destruct (will_accept_total x w m W) as [b Hb]. rewrite Hb, bind_Ok in E1. destruct b; [|by injection E1 as _ _ <-].
    destruct (add_accepted x w m W Hb) as (m3 & Ea & W3 & _). rewrite Ea, bind_Ok in E1. by injection E1 as _ _ <-.
  - apply bind_Ok_inv in E1 as ([evs1 m3] & Et & E1). injection E1 as _ _ <-. by apply (tick_reports m evs1 m3 W) in Et as [W3 _].
Qed.
End Keeping.

Section Lasting.
Context {M : Type} `{MemorySystemRuns M}.

Lemma sys_step_ok e (m : M) n :
  0 ≤ n → lasts (sys_ticks [e] + n) m →
  ∃ a d m', sys_step e m = Ok (a, d, m') ∧ lasts n m' ∧ a ++ pending m ≡ₚ d ++ pending m'.
Proof.
  intros Hn Hok. pose proof (lasts_wf _ _ Hok) as W. destruct e as [a w|]; cbn [sys_step].
  - change (sys_ticks [SysOffer a w]) with 0 in Hok. rewrite Z.add_0_l in Hok.
    destruct (will_accept_total a w m W) as [b Hb]. rewrite Hb, bind_Ok.
    destruct b; [|by exists [], [], m].
    destruct (add_accepted a w m W Hb) as (m' & E & _ & P). rewrite E, bind_Ok.
    eexists _, _, m'. split; [done|]. split; [by eapply add_lasts | cbn; by symmetry].
  - change (sys_ticks [SysTick]) with 1 in Hok. rewrite Z.add_comm in Hok.
    destruct (tick_lasts n m Hn Hok) as (evs & m' & E & Hok'). rewrite E, bind_Ok.
    eexists _, _, m'. split; [done|]. split; [done|]. by apply (tick_reports m evs m') in E as [_ P].
Qed.

Lemma sys_run_ok evs (m : M) :
  lasts (sys_ticks evs) m → ∃ a d m', sys_run evs m = Ok (a, d, m') ∧ a ++ pending m ≡ₚ d ++ pending m'.
Proof.
  revert m. induction evs as [|e evs IH]; intros m Hok; [by exists [], [], m|].
  pose proof (sys_ticks_nonneg evs). destruct (sys_step_ok e m (sys_ticks evs)) as (a & d & m1 & E1 & Hok1 & P1); [done| |].
  { assert (sys_ticks (e :: evs) = sys_ticks [e] + sys_ticks evs) as Ht by (destruct e; cbn [sys_ticks]; lia).
    by rewrite <- Ht. }
  destruct (IH m1 Hok1) as (a' & d' & m2 & E2 & P2). exists (a ++ a'), (d ++ d'), m2. cbn [sys_run].
  rewrite E1, bind_Ok. rewrite E2, bind_Ok. split; [done|].
  by rewrite <- (app_assoc d), <- P2, (app_assoc d), (Permutation_app_comm d a'), <- (app_assoc a' d), <- P1,
    (Permutation_app_comm a a'), <- (app_assoc a' a).
Qed.
End Lasting.
