(* ===== verification/DRAMInterface.v ===== *)
(** * The DRAM interface (DRAMInterface.h, DRAMInterface.cpp)

    The queue of requests in front of [MAX_DRAM] memory systems, and the two
    queues of completed reads behind them.  The memory systems are any
    instance of [MemorySystem].  The theorems: [AddTransaction] ends, keeps the
    requests in order and loses none; a whole run of the interface neither
    loses nor duplicates a request; the completion flags tell the truth. *)

From S2P Require Import Prelude CFloat Common.

Open Scope Z_scope.

Record Trans := mkTrans { t_address : Z; t_is_write : bool }.
Record GBInfo := mkGBInfo { gi_id : Z; gi_address : Z }.

Section Interface.
Context {M : Type} `{MemorySystem M}.
Variable P : Params.

Record DRAMInterface := mkDI {
  dram : list M; dram_idx : Z; cmp_idx : Z;
  f_read_complete : bool; w_read_complete : bool;
  f_address : list Z; w_address : list Z;
  t_queue : list Trans; info : list GBInfo; ctr : Counters }.

(** [DRAMInterface::DRAMInterface], given the memory systems it creates. *)
Definition new_DRAMInterface (systems : list M) (c : Counters) : DRAMInterface :=
  mkDI systems 0 0 false false [] [] [] [] c.

Definition set_dram (l : list M) (s : DRAMInterface) : DRAMInterface :=
  mkDI l (dram_idx s) (cmp_idx s) (f_read_complete s) (w_read_complete s)
    (f_address s) (w_address s) (t_queue s) (info s) (ctr s).
Definition set_idx (i : Z) (s : DRAMInterface) : DRAMInterface :=
  mkDI (dram s) i (cmp_idx s) (f_read_complete s) (w_read_complete s)
    (f_address s) (w_address s) (t_queue s) (info s) (ctr s).
Definition set_queue (q : list Trans) (s : DRAMInterface) : DRAMInterface :=
  mkDI (dram s) (dram_idx s) (cmp_idx s) (f_read_complete s) (w_read_complete s)
    (f_address s) (w_address s) q (info s) (ctr s).
Definition set_info (l : list GBInfo) (s : DRAMInterface) : DRAMInterface :=
  mkDI (dram s) (dram_idx s) (cmp_idx s) (f_read_complete s) (w_read_complete s)
    (f_address s) (w_address s) (t_queue s) l (ctr s).

(** [ReadCompleteCallback] *)
Definition ReadCompleteCallback (a : Z) (s : DRAMInterface) : res DRAMInterface :=
  let c := ctr s in
  n ← int_chk (tot_req c - 1);
  if a <? WEIGHT_START P then
    Ok (mkDI (dram s) (dram_idx s) (cmp_idx s) true (w_read_complete s)
          (f_address s ++ [a]) (w_address s) (t_queue s) (info s)
          (mkCtr (u64 (a_util c + 1)) (w_util c) n (tot_xw_count c) (tot_axw_count c)))
  else
    Ok (mkDI (dram s) (dram_idx s) (cmp_idx s) (f_read_complete s) true
          (f_address s) (w_address s ++ [a]) (t_queue s) (info s)
          (mkCtr (a_util c) (u64 (w_util c + 1)) n (tot_xw_count c) (tot_axw_count c))).

(** [WriteCompleteCallback] *)
Definition WriteCompleteCallback (a : Z) (s : DRAMInterface) : DRAMInterface :=
  let c := ctr s in
  mkDI (dram s) (dram_idx s) (cmp_idx s) (f_read_complete s) (w_read_complete s)
    (f_address s) (w_address s) (t_queue s) (info s)
    (if AXW_START P <=? a then
       mkCtr (a_util c) (w_util c) (tot_req c) (tot_xw_count c) (u64 (tot_axw_count c - 1))
     else mkCtr (a_util c) (w_util c) (tot_req c) (u64 (tot_xw_count c - 1)) (tot_axw_count c)).

(** The callback of one event of a tick. *)
Definition callback (e : Z * bool) (s : DRAMInterface) : res DRAMInterface :=
  if e.2 then Ok (WriteCompleteCallback e.1 s) else ReadCompleteCallback e.1 s.

(** [UpdateCycle]: tick every memory system; each tick makes its callbacks. *)
Definition UpdateCycle : DRAMInterface → res DRAMInterface :=
  for_loop (Z.to_nat (MAX_DRAM P)) 0 (λ i s,
    m ← vget (dram s) i;
    '(evs, m') ← ms_ClockTick m;
    l ← vset (dram s) i m';
    for_each evs callback (set_dram l s)).

(** [DRAMRequest], with and without the requesting unit. *)
Definition DI_DRAMRequest (a : Z) (w : bool) (s : DRAMInterface) : DRAMInterface :=
  set_queue (t_queue s ++ [mkTrans a w]) s.
Definition DI_DRAMRequestId (a : Z) (w : bool) (id : Z) (s : DRAMInterface) : DRAMInterface :=
  set_info (info s ++ [mkGBInfo id a]) (set_queue (t_queue s ++ [mkTrans a w]) s).

Definition IsExistTransaction (s : DRAMInterface) : bool := negb (qempty (t_queue s)).

Definition CanRequest (idx : Z) (s : DRAMInterface) : res bool :=
  t ← qfront (t_queue s);
  m ← vget (dram s) idx;
  WillAcceptTransaction (t_address t) (t_is_write t) m.

(** [dram_idx++; if (dram_idx == MAX_DRAM) dram_idx = 0;] *)
Definition next_idx (i : Z) : Z := if i + 1 =? MAX_DRAM P then 0 else i + 1.

(** The [while] of [AddTransaction]. *)
Fixpoint AddTransaction_loop (fuel : nat) (check : Z) (s : DRAMInterface) : res DRAMInterface :=
  if IsExistTransaction s then
    match fuel with
    | O => Err OutOfFuel
    | S f =>
        ok ← CanRequest (dram_idx s) s;
        if (ok : bool) then
          t ← qfront (t_queue s);
          m ← vget (dram s) (dram_idx s);
          m' ← ms_AddTransaction (t_address t) (t_is_write t) m;
          l ← vset (dram s) (dram_idx s) m';
          q ← qpop (t_queue s);
          AddTransaction_loop f check
            (set_idx (next_idx (dram_idx s)) (set_queue q (set_dram l s)))
        else
          let s' := set_idx (next_idx (dram_idx s)) s in
          if dram_idx s' =? check then Ok s' else AddTransaction_loop f check s'
    end
  else Ok s.

(** Every request is sent or refused by at most [MAX_DRAM] systems in a row. *)
Definition add_fuel (s : DRAMInterface) : nat :=
  (length (t_queue s) + 1) * (Z.to_nat (MAX_DRAM P) + 1).

Definition DI_AddTransaction (s : DRAMInterface) : res DRAMInterface :=
  AddTransaction_loop (add_fuel s) (dram_idx s) s.

Definition FReadComplete (s : DRAMInterface) : bool := f_read_complete s.
Definition WReadComplete (s : DRAMInterface) : bool := w_read_complete s.

(** The index of the first [info] entry for [a], or the size. *)
Fixpoint find_info (a : Z) (l : list GBInfo) (i : Z) : Z :=
  match l with
  | [] => i
  | x :: l' => if gi_address x =? a then i else find_info a l' (i + 1)
  end.

(** [DRAMInterface::ReturnID] *)
Definition DI_ReturnID (a : Z) (s : DRAMInterface) : res (Z * DRAMInterface) :=
  let i := find_info a (info s) 0 in
  x ← vget (info s) i;
  l ← verase (info s) i;
  Ok (gi_id x, set_info l s).

(** [GetReadData] *)
Definition GetReadData (isW : bool) (s : DRAMInterface) : res (Z * DRAMInterface) :=
  if negb isW then
    a ← qfront (f_address s);
    q ← qpop (f_address s);
    Ok (a, mkDI (dram s) (dram_idx s) (cmp_idx s)
             (if qempty q then false else f_read_complete s) (w_read_complete s)
             q (w_address s) (t_queue s) (info s) (ctr s))
  else
    a ← qfront (w_address s);
    q ← qpop (w_address s);
    Ok (a, mkDI (dram s) (dram_idx s) (cmp_idx s) (f_read_complete s)
             (if qempty q then false else w_read_complete s)
             (f_address s) q (t_queue s) (info s) (ctr s)).

(** [WriteExist] *)
Definition WriteExist (s : DRAMInterface) : res bool :=
  m ← vget (dram s) 0; Ok (IsQueueFill m).

#[global, refine] Instance DI_port : DramPort DRAMInterface := {
  DRAMRequest := DI_DRAMRequest;
  DRAMRequestId := DI_DRAMRequestId;
  requests s := (λ t, (t_address t, t_is_write t)) <$> t_queue s }.
Proof.
  - intros. simpl. by rewrite fmap_app.
  - intros. simpl. by rewrite fmap_app.
Defined.
End Interface.

(** ** Lemmas *)

Section Ledger.
Context {M : Type} `{MemorySystemSpec M}.
Variable P : Params.
Hypothesis HMAX : 0 < MAX_DRAM P.

Abbreviation DI := (DRAMInterface (M := M)).

(** All memory systems are present and well-formed, the round-robin index
    exists, and a completion flag is up exactly when its queue holds a read. *)
Record di_wf (s : DI) : Prop := {
  dw_size : vsize (dram s) = MAX_DRAM P;
  dw_idx : 0 ≤ dram_idx s < MAX_DRAM P;
  dw_ms : Forall ms_wf (dram s);
  dw_f : f_read_complete s = negb (qempty (f_address s));
  dw_w : w_read_complete s = negb (qempty (w_address s)) }.

(** A queued request. *)
Definition req (t : Trans) : Z * bool := (t_address t, t_is_write t).

(** The requests inside the memory systems. *)
Definition in_dram (s : DI) : list (Z * bool) := concat (pending <$> dram s).

Lemma next_idx_range i : 0 ≤ i < MAX_DRAM P → 0 ≤ next_idx P i < MAX_DRAM P.
Proof. unfold next_idx. destruct (Z.eqb_spec (i + 1) (MAX_DRAM P)); lia. Qed.

(** The refusals left before the round returns to [check]. *)
Definition round_left (check i : Z) : Z :=
  if i <? check then check - i else check - i + MAX_DRAM P.

Lemma round_left_bounds check i :
  0 ≤ check < MAX_DRAM P → 0 ≤ i < MAX_DRAM P → 1 ≤ round_left check i ≤ MAX_DRAM P.
Proof. unfold round_left. destruct (Z.ltb_spec i check); lia. Qed.

Lemma round_left_next check i :
  0 ≤ check < MAX_DRAM P → 0 ≤ i < MAX_DRAM P → next_idx P i ≠ check →
  round_left check (next_idx P i) = round_left check i - 1.
Proof.
  unfold round_left, next_idx. intros.
  destruct (Z.eqb_spec (i + 1) (MAX_DRAM P));
    repeat match goal with |- context [?a <? ?b] => destruct (Z.ltb_spec a b) end; lia.
Qed.

Lemma di_system s i :
  di_wf s → 0 ≤ i < MAX_DRAM P → ∃ m, vget (dram s) i = Ok m ∧ ms_wf m.
Proof.
  intros [Hs _ Hm _ _] Hi. destruct (vget_is_Ok (dram s) i) as [m Hv]; [lia|].
  exists m. split; [done|]. apply vget_lookup in Hv as [_ Hv].
  rewrite Forall_lookup in Hm. by eapply Hm.
Qed.

(** Nothing but the systems, the index and the queue changed. *)
Definition di_same (s s' : DI) : Prop :=
  f_address s' = f_address s ∧ w_address s' = w_address s ∧ info s' = info s ∧ ctr s' = ctr s.

Lemma AddTransaction_loop_spec fuel check s :
  di_wf s → 0 ≤ check < MAX_DRAM P →
  vsize (t_queue s) * (MAX_DRAM P + 1) + round_left check (dram_idx s) ≤ Z.of_nat fuel →
  ∃ s' sent, AddTransaction_loop P fuel check s = Ok s' ∧ di_wf s' ∧
    t_queue s = sent ++ t_queue s' ∧ in_dram s' ≡ₚ in_dram s ++ (req <$> sent) ∧ di_same s s'.
Proof.
  revert s. induction fuel as [|f IH]; intros s Hwf Hc Hf;
    pose proof (round_left_bounds _ _ Hc (dw_idx s Hwf)) as Hrb.
  { pose proof (vsize_nonneg (t_queue s)). nia. }
  simpl. unfold IsExistTransaction. destruct (t_queue s) as [|t q] eqn:Hq; simpl.
  { exists s, []. simpl. rewrite Hq, app_nil_r. unfold di_same. by split_and!. }
  destruct (di_system s (dram_idx s) Hwf (dw_idx s Hwf)) as (m & Hm & Wm).
  destruct (will_accept_total (t_address t) (t_is_write t) m Wm) as [ok Hok].
  unfold CanRequest. rewrite Hq. simpl. rewrite Hm. simpl. rewrite Hok. simpl.
  rewrite vsize_cons in Hf. pose proof (next_idx_range _ (dw_idx s Hwf)) as Hnext.
  destruct ok.
  - destruct (add_accepted _ _ _ Wm Hok) as (m' & Ha & Wm' & Pm'). rewrite Ha. simpl.
    pose proof (vget_range _ _ _ Hm) as Hr. rewrite vset_Ok by done. simpl.
    set (s1 := set_idx _ _).
    destruct (IH s1) as (s' & sent & E & W' & Hs' & Hp & Hsm).
    + split; [simpl; rewrite vsize_insert; apply Hwf | exact Hnext | | apply Hwf..].
      apply Forall_insert; [apply Hwf | done].
    + done.
    + pose proof (round_left_bounds check (dram_idx s1) Hc Hnext). simpl in *. lia.
    + exists s', (t :: sent). split; [done|]. split; [done|].
      split; [simpl; by rewrite <- Hs'|]. split; [|exact Hsm].
      rewrite Hp. simpl. unfold in_dram. simpl.
      apply vget_lookup in Hm as [_ Hm].
      pose proof (concat_insert_perm pending (dram s) _ m m' [] [req t] Hm) as Hins.
      rewrite !app_nil_r in Hins. rewrite Hins; [by rewrite <- app_assoc|].
      rewrite Pm'. by rewrite Permutation_cons_append.
  - set (s1 := set_idx _ _). assert (di_wf s1) as W1 by (split; [apply Hwf | exact Hnext | apply Hwf..]).
    simpl. destruct (Z.eqb_spec (next_idx P (dram_idx s)) check) as [Heq|Hne].
    { exists s1, []. unfold s1, di_same. simpl. rewrite app_nil_r, Hq. by split_and!. }
    destruct (IH s1) as (s' & sent & E & W' & Hs' & Hp & Hsm); [done..| |].
    + simpl. rewrite Hq, vsize_cons, round_left_next by (done || apply Hwf). lia.
    + exists s', sent. split; [done|]. split; [done|]. simpl in Hs'. rewrite Hq in Hs'. done.
Qed.

(** ** Callbacks *)

(** The reads of a list of events that go to the feature queue [f_address]
    (below [WEIGHT_START]) and to the weight queue [w_address]. *)
Definition f_reads (evs : list (Z * bool)) : list Z :=
  (filter (λ e, e.2 = false ∧ e.1 < WEIGHT_START P) evs).*1.
Definition w_reads (evs : list (Z * bool)) : list Z :=
  (filter (λ e, e.2 = false ∧ ¬ e.1 < WEIGHT_START P) evs).*1.
Definition writes_of (evs : list (Z * bool)) : list (Z * bool) := filter (λ e, e.2 = true) evs.
(** The completed writes that count for [tot_axw_count]. *)
Definition axw_writes (evs : list (Z * bool)) : Z :=
  vsize (filter (λ e, e.2 = true ∧ AXW_START P <= e.1) evs).
Definition as_reads (l : list Z) : list (Z * bool) := (λ a, (a, false)) <$> l.

(** What a list of events does to the interface. *)
Definition moved (s s' : DI) (evs : list (Z * bool)) : Prop :=
  f_address s' = f_address s ++ f_reads evs ∧ w_address s' = w_address s ++ w_reads evs ∧
  t_queue s' = t_queue s ∧ info s' = info s ∧
  tot_axw_count (ctr s') mod 2 ^ 64 = (tot_axw_count (ctr s) - axw_writes evs) mod 2 ^ 64.

Lemma moved_nil s : moved s s [].
Proof. unfold moved, axw_writes, vsize. simpl. rewrite !app_nil_r, Z.sub_0_r. by split_and!. Qed.

Lemma moved_app s1 s2 s3 e1 e2 : moved s1 s2 e1 → moved s2 s3 e2 → moved s1 s3 (e1 ++ e2).
Proof.
  intros (F1 & W1 & Q1 & I1 & A1) (F2 & W2 & Q2 & I2 & A2).
  unfold moved, f_reads, w_reads, axw_writes in *. rewrite !filter_app, !fmap_app, vsize_app.
  rewrite F2, F1, W2, W1, Q2, I2, A2, !app_assoc. split_and!; try done.
  rewrite <- Zminus_mod_idemp_l, A1, Zminus_mod_idemp_l. f_equal. lia.
Qed.

Lemma callback_step s s' e :
  di_wf s → callback P e s = Ok s' → di_wf s' ∧ dram s' = dram s ∧ moved s s' [e].
Proof.
  intros [D1 D2 D3 D4 D5] H1. destruct e as [a w]. unfold callback in H1. simpl in H1.
  unfold moved, f_reads, w_reads, axw_writes.
  rewrite !filter_cons, !filter_nil. simpl. destruct w.
  - injection H1 as <-. rewrite !decide_False by naive_solver. simpl. rewrite !app_nil_r.
    split; [by split|]. split; [done|]. split_and!; try done.
    destruct (Z.leb_spec (AXW_START P) a).
    + rewrite decide_True by done. unfold u64. simpl. by rewrite Zmod_mod.
    + rewrite decide_False by (intros [_ ?]; lia). simpl. f_equal. unfold vsize. simpl. lia.
  - rewrite (decide_False (P := false = true ∧ _)) by naive_solver.
    unfold ReadCompleteCallback in H1. inv_res H1.
    destruct (Z.ltb_spec a (WEIGHT_START P)); injection H1 as <-; simpl.
    + rewrite decide_True by done. rewrite decide_False by naive_solver. simpl.
      rewrite app_nil_r. split; [split; simpl; try done; by destruct (f_address s)|].
      split; [done|]. split_and!; try done. f_equal. unfold vsize. simpl. lia.
    + rewrite decide_False by naive_solver lia. rewrite decide_True by naive_solver lia. simpl.
      rewrite app_nil_r. split; [split; simpl; try done; by destruct (w_address s)|].
      split; [done|]. split_and!; try done. f_equal. unfold vsize. simpl. lia.
Qed.

Lemma callbacks_effect evs s s' :
  di_wf s → for_each evs (callback P) s = Ok s' →
  di_wf s' ∧ dram s' = dram s ∧ moved s s' evs.
Proof.
  revert s. induction evs as [|e evs IH]; intros s Hwf Hf; simpl in Hf.
  { injection Hf as <-. split; [done|]. split; [done | apply moved_nil]. }
  inv_res Hf. destruct (callback_step _ _ _ Hwf Hf0) as (W1 & E1 & M1).
  destruct (IH _ W1 Hf) as (W2 & E2 & M2). split; [done|]. split; [congruence|].
  by apply (moved_app _ _ _ [e] evs M1).
Qed.

(** What the memory systems report when they are ticked from [s], the first system's
    callbacks first. *)
Definition reports (m : M) : list (Z * bool) :=
  match ms_ClockTick m with Ok (evs, _) => evs | Err _ => [] end.
Definition tick_events (s : DI) : list (Z * bool) := concat (reports <$> dram s).

(** Up to system [i] the tick has reported the events of the systems before it and left
    the others as they were. *)
Definition ticked_to (s : DI) (i : Z) (s1 : DI) : Prop :=
  let evs := concat (reports <$> take (Z.to_nat i) (dram s)) in
  0 ≤ i ∧ di_wf s1 ∧ drop (Z.to_nat i) (dram s1) = drop (Z.to_nat i) (dram s) ∧
  in_dram s ≡ₚ evs ++ in_dram s1 ∧ moved s s1 evs.

Lemma ticked_to_step s i s1 s2 :
  ticked_to s i s1 →
  (m ← vget (dram s1) i;
   '(evs, m') ← ms_ClockTick m;
   l ← vset (dram s1) i m';
   for_each evs (callback P) (set_dram l s1)) = Ok s2 →
  ticked_to s (i + 1) s2.
Proof.
  intros (Hi & W & Hd & Hp & Hm) E. apply bind_Ok_inv in E as (m & Em & E).
  apply bind_Ok_inv in E as ([evs m'] & Et & E). apply bind_Ok_inv in E as (l & El & E).
  apply vset_inv in El as [Hr ->]. destruct (di_system s1 i W) as (m0 & Em0 & Wm); [by rewrite <- (dw_size _ W)|].
  rewrite Em in Em0. injection Em0 as <-. destruct (tick_reports _ _ _ Wm Et) as [Wm' Pm].
  set (s1' := set_dram (<[Z.to_nat i := m']> (dram s1)) s1) in *.
  assert (di_wf s1') as W1.
  { split; [cbn; rewrite vsize_insert; apply W | apply W | | apply W..]. apply Forall_insert; [apply W | done]. }
  destruct (callbacks_effect _ _ _ W1 E) as (W2 & E2 & M2). apply vget_lookup in Em as [_ Em].
  assert (dram s !! Z.to_nat i = Some m) as Em'.
  { pose proof (f_equal (lookup 0%nat) Hd) as H1. rewrite !lookup_drop, Nat.add_0_r in H1. by rewrite <- H1. }
  unfold ticked_to. replace (Z.to_nat (i + 1)) with (S (Z.to_nat i)) by lia.
  rewrite (take_S_r _ _ _ Em'), fmap_app, concat_app. cbn. rewrite app_nil_r.
  assert (reports m = evs) as -> by (unfold reports; by rewrite Et).
  split; [lia|]. split; [done|]. split; [|split; [|by eapply moved_app]].
  - rewrite E2. cbn. rewrite drop_insert_lt by lia.
    pose proof (f_equal (drop 1) Hd) as H1. rewrite !drop_drop in H1. by replace (S (Z.to_nat i)) with (Z.to_nat i + 1)%nat by lia.
  - rewrite Hp, <- app_assoc. f_equiv. unfold in_dram. rewrite E2. cbn.
    pose proof (concat_insert_perm pending (dram s1) _ m m' evs [] Em) as Hins.
    rewrite !app_nil_r in Hins. rewrite <- Hins; [by rewrite Permutation_app_comm|].
    rewrite Pm. by rewrite Permutation_app_comm.
Qed.

(** A tick of the interface: exactly the events of its systems leave them. *)
Lemma UpdateCycle_events s s' :
  di_wf s → UpdateCycle P s = Ok s' →
  di_wf s' ∧ in_dram s ≡ₚ tick_events s ++ in_dram s' ∧ moved s s' (tick_events s).
Proof.
  intros W E. apply (for_loop_keeps (ticked_to s)) in E; cycle 1.
  - intros i s1 s2 _. apply ticked_to_step.
  - split; [done|]. split; [done|]. split; [done|]. split; [done | apply moved_nil].
  - destruct E as (_ & W' & _ & Hp & Hm). pose proof (dw_size _ W) as Hs. unfold vsize in Hs.
    rewrite take_ge in Hp, Hm by lia. done.
Qed.

(** Every event is one of the three kinds. *)
Lemma events_split evs :
  evs ≡ₚ as_reads (f_reads evs) ++ as_reads (w_reads evs) ++ writes_of evs.
Proof.
  unfold as_reads, f_reads, w_reads, writes_of. induction evs as [|[a w] evs IH]; [done|].
  rewrite !filter_cons. simpl. destruct w.
  - rewrite !decide_False by naive_solver. rewrite decide_True by done. perm_solve.
  - rewrite (decide_False (P := false = true)) by done.
    destruct (decide (a < WEIGHT_START P)).
    + rewrite decide_True by done. rewrite decide_False by naive_solver. perm_solve.
    + rewrite decide_False by naive_solver. rewrite decide_True by done. perm_solve.
Qed.

(** ** Runs of the interface *)

(** A run from [s0], with the requests issued and the addresses handed to the
    readers so far. *)
Inductive di_run (s0 : DI) : list (Z * bool) → list Z → DI → Prop :=
  | run_start : di_run s0 [] [] s0
  | run_request iss got s a w :
      di_run s0 iss got s → di_run s0 (iss ++ [(a, w)]) got (DI_DRAMRequest a w s)
  | run_request_id iss got s a w i :
      di_run s0 iss got s → di_run s0 (iss ++ [(a, w)]) got (DI_DRAMRequestId a w i s)
  | run_add iss got s s' :
      di_run s0 iss got s → DI_AddTransaction P s = Ok s' → di_run s0 iss got s'
  | run_tick iss got s s' :
      di_run s0 iss got s → UpdateCycle P s = Ok s' → di_run s0 iss got s'
  | run_get iss got s isW a s' :
      di_run s0 iss got s → GetReadData isW s = Ok (a, s') → di_run s0 iss (got ++ [a]) s'
  | run_id iss got s a i s' :
      di_run s0 iss got s → DI_ReturnID a s = Ok (i, s') → di_run s0 iss got s'.

(** What the interface holds: queued, in the memory systems, read and not yet
    taken. *)
Definition holds (s : DI) : list (Z * bool) :=
  (req <$> t_queue s) ++ in_dram s ++ as_reads (f_address s) ++ as_reads (w_address s).

Lemma add_fuel_enough s :
  di_wf s →
  vsize (t_queue s) * (MAX_DRAM P + 1) + round_left (dram_idx s) (dram_idx s)
  ≤ Z.of_nat (add_fuel P s).
Proof.
  intros Hwf. pose proof (round_left_bounds _ _ (dw_idx s Hwf) (dw_idx s Hwf)).
  unfold add_fuel, vsize. nia.
Qed.

Lemma DI_AddTransaction_ok s :
  di_wf s →
  ∃ s' sent, DI_AddTransaction P s = Ok s' ∧ di_wf s' ∧
    t_queue s = sent ++ t_queue s' ∧ in_dram s' ≡ₚ in_dram s ++ (req <$> sent) ∧ di_same s s'.
Proof.
  intros Hwf. apply AddTransaction_loop_spec; [done | apply Hwf | by apply add_fuel_enough].
Qed.

Lemma GetReadData_ok isW s a s' :
  di_wf s → GetReadData isW s = Ok (a, s') →
  di_wf s' ∧ holds s ≡ₚ (a, false) :: holds s' ∧ ctr s' = ctr s.
Proof.
  intros [D1 D2 D3 D4 D5] Hg. unfold GetReadData in Hg. unfold holds, in_dram, as_reads.
  destruct isW; simpl in Hg; inv_res Hg; injection Hg as <- <-; simpl.
  - destruct (w_address s) as [|x q]; simpl in *; [done|]. simplify_eq.
    split; [split; simpl; try done; by match goal with |- context [qempty ?l] => destruct l end|].
    split; [|done]. perm_solve.
  - destruct (f_address s) as [|x q]; simpl in *; [done|]. simplify_eq.
    split; [split; simpl; try done; by match goal with |- context [qempty ?l] => destruct l end|].
    split; [|done]. perm_solve.
Qed.

Lemma moved_holds s s' evs :
  in_dram s ≡ₚ evs ++ in_dram s' → moved s s' evs → holds s ≡ₚ writes_of evs ++ holds s'.
Proof.
  intros Hp (Hf & Hw & Hq & _ & _). unfold holds. rewrite Hf, Hw, Hq.
  pose proof (events_split evs) as He. unfold as_reads in *. perm_solve.
Qed.

Lemma axw_writes_of evs : axw_writes (writes_of evs) = axw_writes evs.
Proof.
  unfold axw_writes, writes_of. rewrite list_filter_filter. f_equal. apply list_filter_iff.
  naive_solver.
Qed.

Lemma axw_writes_app e1 e2 : axw_writes (e1 ++ e2) = axw_writes e1 + axw_writes e2.
Proof. unfold axw_writes. by rewrite filter_app, vsize_app. Qed.

Lemma di_run_ledger s0 iss got s :
  di_wf s0 → di_run s0 iss got s →
  di_wf s ∧ ∃ done_writes,
    holds s0 ++ iss ≡ₚ holds s ++ as_reads got ++ done_writes ∧
    Forall (λ e, e.2 = true) done_writes ∧
    tot_axw_count (ctr s) mod 2 ^ 64 =
      (tot_axw_count (ctr s0) - axw_writes done_writes) mod 2 ^ 64.
Proof.
  intros W0 Hr. induction Hr as [|iss got s a w Hr IH|iss got s a w i Hr IH|iss got s s' Hr IH Ha
    |iss got s s' Hr IH Ht|iss got s isW a s' Hr IH Hg|iss got s a i s' Hr IH Hi].
  - split; [done|]. exists []. unfold axw_writes, vsize. simpl. rewrite !app_nil_r, Z.sub_0_r.
    by split_and!.
  - destruct IH as (W & d & Hp & Hd & Hc). split; [by destruct W; split|]. exists d.
    split; [|done]. unfold holds, in_dram in *. simpl. rewrite fmap_app.
    change (req <$> [mkTrans a w]) with [(a, w)]. perm_solve.
  - destruct IH as (W & d & Hp & Hd & Hc). split; [by destruct W; split|]. exists d.
    split; [|done]. unfold holds, in_dram in *. simpl. rewrite fmap_app.
    change (req <$> [mkTrans a w]) with [(a, w)]. perm_solve.
  - destruct IH as (W & d & Hp & Hd & Hc).
    destruct (DI_AddTransaction_ok s W) as (s1 & sent & E & W1 & Hq & Hpi & Hf & Hw & _ & Hct).
    rewrite Ha in E. injection E as <-. split; [done|]. exists d. rewrite Hct.
    split; [|done]. unfold holds in *. rewrite Hq in Hp. rewrite Hf, Hw. perm_solve.
  - destruct IH as (W & d & Hp & Hd & Hc). destruct (UpdateCycle_events s s' W Ht) as (W1 & Pe & Mv).
    split; [done|]. exists (d ++ writes_of (tick_events s)). pose proof (moved_holds _ _ _ Pe Mv).
    split; [perm_solve|]. split.
    + apply Forall_app. split; [done|]. apply Forall_forall. intros e He.
      by apply list_elem_of_filter in He as [? _].
    + destruct Mv as (_ & _ & _ & _ & ->).
      rewrite <- Zminus_mod_idemp_l, Hc, Zminus_mod_idemp_l.
      rewrite axw_writes_app, axw_writes_of. f_equal. lia.
  - destruct IH as (W & d & Hp & Hd & Hc). destruct (GetReadData_ok _ _ _ _ W Hg) as (W1 & Hh & Hct).
    split; [done|]. exists d. rewrite Hct. split; [|done]. unfold as_reads in *. perm_solve.
  - destruct IH as (W & d & Hp & Hd & Hc). unfold DI_ReturnID in Hi. inv_res Hi.
    injection Hi as <- <-. split; [by destruct W; split|]. exists d. by split.
Qed.
(** ** Properties *)

(** The dispatch loop of [DRAMInterface::AddTransaction] always ends, for
    every number of DRAMs and every pattern of refusals; it sends a prefix
    of the queue, in order and nothing else, and every request it takes off the
    queue is pending in one of the memory systems. *)
Theorem add_transaction_total s :
  di_wf s →
  ∃ s' sent, DI_AddTransaction P s = Ok s' ∧ di_wf s' ∧ t_queue s = sent ++ t_queue s' ∧
    in_dram s' ≡ₚ in_dram s ++ (req <$> sent) ∧ f_address s' = f_address s ∧
    w_address s' = w_address s.
Proof.
  intros Hwf. destruct (DI_AddTransaction_ok s Hwf) as (s' & sent & E & W & Hq & Hp & Hf & Hw & _).
  eauto 10.
Qed.

(** C12: the interface keeps a ledger.  In every run of requests, dispatches,
    ticks and reads, what it held at the start plus what was issued is, as a
    multiset, what it holds now, plus the reads handed to the readers, plus the
    completed writes: no request is lost, none is completed twice; the
    completion flags say exactly whether a queue holds a read; and the
    simulation's end counter has gone down by the completed output writes. *)
Theorem dram_ledger s0 iss got s :
  di_wf s0 → di_run s0 iss got s →
  di_wf s ∧ ∃ done_writes,
    holds s0 ++ iss ≡ₚ holds s ++ as_reads got ++ done_writes ∧
    Forall (λ e, e.2 = true) done_writes ∧
    tot_axw_count (ctr s) mod 2 ^ 64 =
      (tot_axw_count (ctr s0) - axw_writes done_writes) mod 2 ^ 64.
Proof. apply di_run_ledger. Qed.
End Ledger.

(** ** A concrete run *)

(** A memory that holds two requests and completes the older one each tick. *)
Definition fifo_mem : Type := list (Z * bool).

#[local] Instance fifo_ms : MemorySystem fifo_mem := {
  WillAcceptTransaction _ _ m := Ok (length m <? 2)%nat;
  ms_AddTransaction a w m := Ok (m ++ [(a, w)]);
  ms_ClockTick m := Ok (take 1 m, drop 1 m);
  IsQueueFill m := negb (qempty m) }.

#[local, refine] Instance fifo_ms_spec : MemorySystemSpec fifo_mem := {
  ms_wf _ := True; pending m := m }.
Proof.
  - intros. by eexists.
  - intros a w m _ _. exists (m ++ [(a, w)]). split; [done|]. split; [done|].
    symmetry. apply Permutation_cons_append.
  - intros m evs m' _ [= <- <-]. split; [done|]. by destruct m.
Defined.

Definition ex_di : DRAMInterface (M := fifo_mem) :=
  DI_DRAMRequest 9000 true (DI_DRAMRequest 4000 false
    (DI_DRAMRequest 1000 false (new_DRAMInterface [[]; []] (mkCtr 0 0 2 0 7)))).

Lemma ex_di_wf : di_wf ex_params (new_DRAMInterface [[]; []] (mkCtr 0 0 2 0 7)) ∧ di_wf ex_params ex_di.
Proof. split; split; try done; repeat constructor. Qed.

Lemma add_transaction_total_witness :
  ∃ s', DI_AddTransaction ex_params ex_di = Ok s' ∧ t_queue s' = [].
Proof.
  destruct (add_transaction_total ex_params ltac:(vm_compute; reflexivity) ex_di (proj2 ex_di_wf))
    as (s' & sent & E & _).
  exists s'. split; [exact E|]. vm_compute in E. injection E as <-. reflexivity.
Defined.

(** Three requests, a dispatch and two ticks: both reads are delivered and the
    output write is counted. *)
Lemma dram_ledger_witness :
  ∃ s, di_run ex_params (new_DRAMInterface [[]; []] (mkCtr 0 0 2 0 7))
         [(1000, false); (4000, false); (9000, true)] [1000] s ∧
    di_wf ex_params s ∧ tot_axw_count (ctr s) = 6.
Proof.
  assert (∃ s1, DI_AddTransaction ex_params ex_di = Ok s1) as [s1 E1]
    by (eexists; vm_compute; reflexivity).
  assert (∃ s2, UpdateCycle ex_params s1 = Ok s2) as [s2 E2]
    by (vm_compute in E1; injection E1 as <-; eexists; vm_compute; reflexivity).
  assert (∃ s3, UpdateCycle ex_params s2 = Ok s3) as [s3 E3]
    by (vm_compute in E1; injection E1 as <-; vm_compute in E2; injection E2 as <-;
        eexists; vm_compute; reflexivity).
  assert (∃ s4, GetReadData false s3 = Ok (1000, s4)) as [s4 E4]
    by (vm_compute in E1; injection E1 as <-; vm_compute in E2; injection E2 as <-;
        vm_compute in E3; injection E3 as <-; eexists; vm_compute; reflexivity).
  exists s4. assert (di_run ex_params (new_DRAMInterface [[]; []] (mkCtr 0 0 2 0 7))
    [(1000, false); (4000, false); (9000, true)] [1000] s4) as Hr.
  { apply (run_get _ _ _ [] s3 false 1000); [|exact E4].
    apply (run_tick _ _ _ _ s2); [|exact E3]. apply (run_tick _ _ _ _ s1); [|exact E2].
    apply (run_add _ _ _ _ ex_di); [|exact E1].
    apply (run_request _ _ [_; _]). apply (run_request _ _ [_]). apply (run_request _ _ []).
    constructor. }
  split; [exact Hr|].
  destruct (dram_ledger ex_params ltac:(vm_compute; reflexivity) _ _ _ _ (proj1 ex_di_wf) Hr) as [W _].
  split; [exact W|].
  vm_compute in E1; injection E1 as <-; vm_compute in E2; injection E2 as <-;
    vm_compute in E3; injection E3 as <-; vm_compute in E4; injection E4 as <-. reflexivity.
Defined.
