(* ===== verification/DramSystem.v ===== *)
(** * The memory system (DRAMsim3/src/dram_system.h, dram_system.cc, memory_system.cc)

    A JEDEC memory system is a controller per channel, which an address selects.  A tick
    first returns every completed transaction to its client, then lets each controller
    run a cycle, then ends the epoch if one is over.  The callbacks of a tick are the
    list it answers, oldest first.  [jedec_ms] is the interface the GCN simulator uses
    ([MemorySystem] forwards to it); [jedec_spec] is the contract the simulator's DRAM
    interface relies on.  The ideal system is modelled too; the memory system never
    creates one.  The theorems: a fresh system runs for 2^30 - 1 ticks without aborting
    and reports each accepted transaction once; a tick reports every transaction that is
    complete; what the ideal system reports, and what it leaves. *)

From S2P Require Import Prelude CFloat DramCommon DramConfig Stats BankState Timing ChannelState ChannelProps.
From S2P Require Import Refresh CommandQueue ChannelRun Controller ControllerProps ControllerTick Common MemoryRun.

Open Scope Z_scope.

Record JedecDRAMSystem := mkJedec {
  config_ : Config; js_clk : Z; last_req_clk_ : Z; ctrls_ : list Controller }.

(** The loop of the constructor. *)
Definition new_controllers (config : Config) : res (list Controller) :=
  for_each (seqZ 0 (channels (sysp config))) (λ i l, c ← new_Controller config i; Ok (l ++ [c])) [].

(** [JedecDRAMSystem::JedecDRAMSystem]; [reserve] of a negative size throws. *)
Definition new_JedecDRAMSystem (config : Config) : res JedecDRAMSystem :=
  if IsHMC (dramp config) then Err AbruptExit
  else if channels (sysp config) <? 0 then Err RangeError
  else l ← new_controllers config; Ok (mkJedec config 0 0 l).

Definition channel_of (a : Z) (m : JedecDRAMSystem) : Z := GetChannel (amap (config_ m)) a.

(** [WillAcceptTransaction] *)
Definition JS_WillAccept (a : Z) (is_write : bool) (m : JedecDRAMSystem) : res bool :=
  c ← vget (ctrls_ m) (channel_of a m); Ok (Ctrl_WillAcceptTransaction (config_ m) is_write c).

(** [AddTransaction]; a transaction that is not accepted fails the assertion. *)
Definition JS_AddTransaction (a : Z) (is_write : bool) (m : JedecDRAMSystem) : res JedecDRAMSystem :=
  c ← vget (ctrls_ m) (channel_of a m);
  if negb (Ctrl_WillAcceptTransaction (config_ m) is_write c) then Err AbruptExit
  else
    l ← vset (ctrls_ m) (channel_of a m) (Ctrl_AddTransaction (new_Transaction a is_write) c);
    Ok (m {{ ctrls_ := l; last_req_clk_ := js_clk m }}).

(** The [while (true)] of [ClockTick] for one controller. *)
Fixpoint return_loop (n : nat) (clk : Z) (c : Controller) : res (list (Z * bool) * Controller) :=
  match ReturnDoneTrans clk c with
  | (None, c) => Ok ([], c)
  | (Some e, c) =>
      match n with
      | O => Err OutOfFuel
      | S n' => '(l, c) ← return_loop n' clk c; Ok (e :: l, c)
      end
  end.

(** Each turn but the last takes a transaction out of the return queue. *)
Definition return_all (clk : Z) (c : Controller) : res (list (Z * bool) * Controller) :=
  return_loop (length (return_queue_ c)) clk c.

(** A loop over the controllers, and one that makes callbacks. *)
Fixpoint each_ctrl (f : Controller → res Controller) (l : list Controller) : res (list Controller) :=
  match l with
  | [] => Ok []
  | c :: l' => c ← f c; l' ← each_ctrl f l'; Ok (c :: l')
  end.
Fixpoint each_return (clk : Z) (l : list Controller) : res (list (Z * bool) * list Controller) :=
  match l with
  | [] => Ok ([], [])
  | c :: l' => '(e, c) ← return_all clk c; '(e', l') ← each_return clk l'; Ok (e ++ e', c :: l')
  end.

(** [ClockTick], with [PrintEpochStats] at the end of an epoch. *)
Definition JS_ClockTick (m : JedecDRAMSystem) : res (list (Z * bool) * JedecDRAMSystem) :=
  '(evs, l) ← each_return (js_clk m) (ctrls_ m);
  l ← each_ctrl (Ctrl_ClockTick (config_ m)) l;
  let clk := u64 (js_clk m + 1) in
  r ← umod clk (u64 (epoch_period (config_ m)));
  l ← (if r =? 0 then each_ctrl Ctrl_PrintEpochStats l else Ok l);
  Ok (evs, m {{ ctrls_ := l; js_clk := clk }}).

(** [IsQueueFill] and [ResetStats] *)
Definition JS_IsQueueFill (m : JedecDRAMSystem) : bool := existsb Ctrl_IsQueueFill (ctrls_ m).
Definition JS_ResetStats (m : JedecDRAMSystem) : JedecDRAMSystem :=
  m {{ ctrls_ := Ctrl_ResetStats <$> ctrls_ m }}.

(** The interface of [MemorySystem], which forwards to it. *)
#[global] Instance jedec_ms : MemorySystem JedecDRAMSystem := {
  WillAcceptTransaction := JS_WillAccept;
  ms_AddTransaction := JS_AddTransaction;
  ms_ClockTick := JS_ClockTick;
  IsQueueFill := JS_IsQueueFill }.

(** ** The ideal system *)

Record IdealDRAMSystem := mkIdeal { id_clk : Z; latency_ : Z; infinite_buffer_q_ : list Transaction }.

Definition Ideal_AddTransaction (a : Z) (is_write : bool) (m : IdealDRAMSystem) : IdealDRAMSystem :=
  m {{ infinite_buffer_q_ := infinite_buffer_q_ m ++ [(new_Transaction a is_write) {{ added_cycle := id_clk m }}] }}.

(** The loop over the buffer: [erase] answers the iterator of the next transaction,
    which the increment at the end of the loop then skips. *)
Fixpoint ideal_scan (clk lat : Z) (q : list Transaction) : list (Z * bool) * list Transaction :=
  match q with
  | [] => ([], [])
  | t :: q' =>
      if lat <=? u64 (clk - added_cycle t) then
        match q' with
        | [] => ([(tr_addr t, is_write t)], [])
        | u :: q'' => let '(e, k) := ideal_scan clk lat q'' in ((tr_addr t, is_write t) :: e, u :: k)
        end
      else let '(e, k) := ideal_scan clk lat q' in (e, t :: k)
  end.

Definition Ideal_ClockTick (m : IdealDRAMSystem) : list (Z * bool) * IdealDRAMSystem :=
  let '(e, k) := ideal_scan (id_clk m) (u64 (latency_ m)) (infinite_buffer_q_ m) in
  (e, m {{ infinite_buffer_q_ := k; id_clk := u64 (id_clk m + 1) }}).

(** ** Returning *)

Definition done_at (clk : Z) (t : Transaction) : Prop := complete_cycle t ≤ clk.

#[global] Instance done_at_dec clk t : Decision (done_at clk t).
Proof. unfold done_at. apply _. Defined.

(** [ReturnDoneTrans] takes the first transaction that is complete. *)
Lemma take_done_spec clk q :
  match take_done clk q with
  | Some (t, q') => ∃ q1 q2, q = q1 ++ t :: q2 ∧ q' = q1 ++ q2 ∧ done_at clk t ∧ Forall (λ u, ¬ done_at clk u) q1
  | None => Forall (λ u, ¬ done_at clk u) q
  end.
Proof.
  induction q as [|t q IH]; cbn [take_done]; [by apply Forall_nil|].
  destruct (Z.leb_spec (complete_cycle t) clk) as [Hle|Hlt].
  - exists [], q. split_and!; done.
  - assert (¬ done_at clk t) as Hn by (unfold done_at; lia).
    destruct (take_done clk q) as [[u q']|]; [|by apply Forall_cons].
    destruct IH as (q1 & q2 & -> & -> & Hu & Hq). exists (t :: q1), q2. split_and!; try done. by apply Forall_cons.
Qed.

Lemma filter_none {A} (P : A → Prop) `{∀ x, Decision (P x)} l : Forall (λ x, ¬ P x) l → filter P l = [].
Proof.
  induction l as [|x l IH]; [done|]. intros [Hx Hl]%Forall_cons. rewrite filter_cons, decide_False by done. by apply IH.
Qed.

(** What a controller returns at [clk], and what it keeps. *)
Definition completed (clk : Z) (c : Controller) : list (Z * bool) := txn <$> filter (done_at clk) (return_queue_ c).

(** [c'] is [c] without the completed transactions, with other statistics. *)
Record returned (clk : Z) (c c' : Controller) : Prop := {
  rt_queue : return_queue_ c' = filter (λ t, ¬ done_at clk t) (return_queue_ c);
  rt_pending : pending_rd_q_ c' = pending_rd_q_ c;
  rt_chan : channel_state_ c' = channel_state_ c; rt_clk : ct_clk c' = ct_clk c;
  rt_wf : ∀ config, ctrl_wf config c → ctrl_wf config c' }.

Lemma return_loop_ok n clk c :
  (length (return_queue_ c) ≤ n)%nat → ∃ c', return_loop n clk c = Ok (completed clk c, c') ∧ returned clk c c'.
Proof.
  revert c. induction n as [|n IH]; intros c Hn; cbn [return_loop];
    pose proof (λ config, return_wf config clk c) as Hw; pose proof (take_done_spec clk (return_queue_ c)) as Ht;
    unfold ReturnDoneTrans, completed in *; destruct (take_done clk (return_queue_ c)) as [[t q]|].
  - destruct Ht as (q1 & q2 & E & _). rewrite E, length_app in Hn. cbn in Hn. lia.
  - exists c. rewrite filter_none by done. split; [done|]. split; [|done..].
    rewrite list_filter_all; [done|]. intros i u Hu. by apply (Forall_lookup_1 _ _ _ _ Ht Hu).
  - destruct Ht as (q1 & q2 & E & -> & Hd & Hq1).
    match goal with |- context [return_loop n clk ?d] => set (c1 := d); destruct (IH c1) as (c' & E' & R) end.
    { unfold c1. destruct c; cbn in *. rewrite E, length_app in Hn. rewrite length_app. cbn in Hn. lia. }
    assert (return_queue_ c1 = q1 ++ q2 ∧ pending_rd_q_ c1 = pending_rd_q_ c ∧ channel_state_ c1 = channel_state_ c ∧
      ct_clk c1 = ct_clk c) as (Eq & Ep & Ec & Ek)
      by (unfold c1; by destruct c).
    exists c'. rewrite E'. cbn [mbind res_bind]. unfold completed. rewrite Eq, E, !filter_app, filter_none, filter_cons,
      decide_True by done. split; [done|]. destruct R as [R1 Rp R2 R3 R4]. split; [|congruence..|].
    + rewrite R1, Eq, E, !filter_app, filter_cons, decide_False; [done|]. by intros Hn'.
    + intros config W. apply R4. by apply Hw.
  - exists c. rewrite filter_none by done. split; [done|]. split; [|done..].
    rewrite list_filter_all; [done|]. intros i u Hu. by apply (Forall_lookup_1 _ _ _ _ Ht Hu).
Qed.

Lemma filter_perm {A} (P : A → Prop) `{∀ x, Decision (P x)} (l : list A) :
  l ≡ₚ filter P l ++ filter (λ x, ¬ P x) l.
Proof.
  induction l as [|x l IH]; [done|]. rewrite !filter_cons. destruct (decide (P x)).
  - rewrite decide_False by naive_solver. cbn. by rewrite <- IH.
  - rewrite decide_True by done. rewrite <- Permutation_middle. by rewrite <- IH.
Qed.

(** A loop over the controllers succeeds if it does on each. *)
Lemma each_ctrl_ok (R : Controller → Controller → Prop) f l :
  (∀ c, c ∈ l → ∃ c', f c = Ok c' ∧ R c c') → ∃ l', each_ctrl f l = Ok l' ∧ Forall2 R l l'.
Proof.
  induction l as [|c l IH]; intros Hl; [exists []; split; [done|by apply Forall2_nil]|].
  destruct (Hl c) as (c' & E & HR); [set_solver|]. destruct IH as (l' & E' & HR'); [set_solver|].
  exists (c' :: l'). cbn [each_ctrl]. rewrite E. cbn [mbind res_bind]. rewrite E'. split; [done|]. by apply Forall2_cons.
Qed.

Lemma each_ctrl_inv f l l' : each_ctrl f l = Ok l' → Forall2 (λ c c', f c = Ok c') l l'.
Proof.
  revert l'. induction l as [|c l IH]; intros l' E; cbn [each_ctrl] in E; [injection E as <-; by apply Forall2_nil|].
  apply bind_Ok_inv in E as (c' & Ec & E). apply bind_Ok_inv in E as (l1 & El & E). injection E as <-.
  apply Forall2_cons. split; [done | by apply IH].
Qed.

Lemma each_return_ok clk l :
  ∃ l', each_return clk l = Ok (concat (completed clk <$> l), l') ∧ Forall2 (returned clk) l l'.
Proof.
  induction l as [|c l IH]; [exists []; split; [done|by apply Forall2_nil]|].
  destruct IH as (l' & E & R). unfold each_return; fold each_return. unfold return_all.
  destruct (return_loop_ok (length (return_queue_ c)) clk c) as (c' & Ec & Rc); [done|].
  exists (c' :: l'). rewrite Ec. cbn [mbind res_bind]. rewrite E. cbn [mbind res_bind]. split; [done|]. by apply Forall2_cons.
Qed.

Lemma returned_owed clk c c' : returned clk c c' → owed c ≡ₚ completed clk c ++ owed c'.
Proof.
  intros [R1 R2 _ _ _]. unfold owed, completed. rewrite R1, R2.
  rewrite (filter_perm (done_at clk) (return_queue_ c)) at 1. by rewrite <- app_assoc, fmap_app.
Qed.

(** ** The ledger of the system *)

Definition js_pending (m : JedecDRAMSystem) : list (Z * bool) := concat (owed <$> ctrls_ m).

(** Every address selects an existing controller. *)
Record sys_wf (m : JedecDRAMSystem) : Prop := {
  jw_usable : usable (config_ m);
  jw_size : vsize (ctrls_ m) = channels (sysp (config_ m)) }.

Lemma channel_ctrl m a :
  sys_wf m → ∃ c, vget (ctrls_ m) (channel_of a m) = Ok c ∧ c ∈ ctrls_ m.
Proof.
  intros [U Hs]. destruct (usable_mapping _ U) as [_ Hch].
  destruct (vget_is_Ok (ctrls_ m) (channel_of a m)) as [c Hc]; [rewrite Hs; apply Hch|].
  exists c. split; [done|]. apply vget_lookup in Hc as [_ Hc]. by eapply list_elem_of_lookup_2.
Qed.

Lemma accept_total a w m : sys_wf m → ∃ b, JS_WillAccept a w m = Ok b.
Proof. intros W. destruct (channel_ctrl m a W) as (c & Hc & _). unfold JS_WillAccept. rewrite Hc. by eexists. Qed.

(** Adding an accepted transaction changes one controller. *)
Lemma add_ok a w m :
  sys_wf m → JS_WillAccept a w m = Ok true → ∃ c m', vget (ctrls_ m) (channel_of a m) = Ok c ∧
    JS_AddTransaction a w m = Ok m' ∧ config_ m' = config_ m ∧ js_clk m' = js_clk m ∧
    ctrls_ m' = <[Z.to_nat (channel_of a m) := Ctrl_AddTransaction (new_Transaction a w) c]> (ctrls_ m).
Proof.
  intros W E. destruct (channel_ctrl m a W) as (c & Hc & _). unfold JS_WillAccept in E. rewrite Hc in E.
  injection E as E. exists c. unfold JS_AddTransaction. rewrite Hc. cbn [mbind res_bind].
  unfold new_Transaction in E. rewrite E. cbn [negb]. pose proof (vget_range _ _ _ Hc).
  rewrite vset_Ok by done. cbn [mbind res_bind]. eexists. split; [done|]. split; [done|]. by destruct m.
Qed.

Lemma add_pending a w m m' c :
  vget (ctrls_ m) (channel_of a m) = Ok c →
  ctrls_ m' = <[Z.to_nat (channel_of a m) := Ctrl_AddTransaction (new_Transaction a w) c]> (ctrls_ m) →
  js_pending m' ≡ₚ (a, w) :: js_pending m.
Proof.
  intros Hc E. unfold js_pending. rewrite E. apply vget_lookup in Hc as [_ Hc].
  pose proof (concat_insert_perm owed (ctrls_ m) (Z.to_nat (channel_of a m)) c
    (Ctrl_AddTransaction (new_Transaction a w) c) [] [(a, w)] Hc) as H.
  rewrite !app_nil_r in H. rewrite H; [by rewrite (Permutation_app_comm _ [(a, w)])|].
  by rewrite add_owed, (Permutation_app_comm _ [(a, w)]).
Qed.

Lemma Forall2_owed (R : Controller → Controller → Prop) l l' :
  (∀ c c', R c c' → owed c' ≡ₚ owed c) → Forall2 R l l' → concat (owed <$> l') ≡ₚ concat (owed <$> l).
Proof. intros HR H. induction H as [|c c' l l' Hc H IH]; [done|]. cbn. by rewrite (HR _ _ Hc), IH. Qed.

Lemma print_epoch_owed c c' : Ctrl_PrintEpochStats c = Ok c' → owed c' ≡ₚ owed c.
Proof.
  unfold Ctrl_PrintEpochStats. intros E. apply bind_Ok_inv in E as (st & _ & E). injection E as <-. by destruct c.
Qed.

(** A tick that ends reports what it takes out. *)
Lemma tick_ledger m evs m' :
  JS_ClockTick m = Ok (evs, m') → evs = concat (completed (js_clk m) <$> ctrls_ m) ∧
    config_ m' = config_ m ∧ length (ctrls_ m') = length (ctrls_ m) ∧ js_pending m ≡ₚ evs ++ js_pending m'.
Proof.
  unfold JS_ClockTick. intros E. destruct (each_return_ok (js_clk m) (ctrls_ m)) as (l1 & E1 & R1).
  rewrite E1 in E. cbn [mbind res_bind] in E. apply bind_Ok_inv in E as (l2 & E2 & E). apply each_ctrl_inv in E2.
  apply bind_Ok_inv in E as (r & _ & E). apply bind_Ok_inv in E as (l3 & E3 & E). injection E as <- <-.
  assert (length l3 = length l2 ∧ concat (owed <$> l3) ≡ₚ concat (owed <$> l2)) as [L3 P3].
  { destruct (r =? 0); [|by injection E3 as <-]. apply each_ctrl_inv in E3.
    split; [symmetry; by eapply Forall2_length|]. eapply Forall2_owed, E3. apply print_epoch_owed. }
  split; [done|]. split; [by destruct m|]. pose proof (Forall2_length _ _ _ R1). pose proof (Forall2_length _ _ _ E2).
  split; [destruct m; cbn in *; lia|]. unfold js_pending.
  destruct m as [cf k lr cs]; cbn in *. rewrite P3, (Forall2_owed _ _ _ (λ c c' H, tick_owed _ _ _ H) E2).
  clear -R1. induction R1 as [|c c' l l' Hc R IH]; [done|]. cbn. rewrite (returned_owed _ _ _ Hc), IH.
  rewrite <- !app_assoc. apply Permutation_app_head.
  by rewrite (Permutation_app_comm (owed c')), <- app_assoc, (Permutation_app_comm (concat _) (owed c')).
Qed.

(** The contract of the simulator's DRAM interface. *)
#[global, refine] Instance jedec_spec : MemorySystemSpec JedecDRAMSystem := {
  ms_wf := sys_wf; pending := js_pending }.
Proof.
  - intros a w m W. by apply accept_total.
  - intros a w m W E. destruct (add_ok a w m W E) as (c & m' & Hc & E' & Ecf & _ & El).
    exists m'. split; [done|]. split; [|by eapply add_pending].
    destruct W as [W1 W2]. split; rewrite Ecf; [done|]. by rewrite El, vsize_insert.
  - intros m evs m' W E. destruct (tick_ledger m evs m' E) as (_ & Ec & El & P). split; [|done].
    destruct W as [W1 W2]. split; rewrite Ec; [done|]. unfold vsize in *. by rewrite El.
Defined.

(** ** Runs *)

(** The system can run for [n] more ticks. *)
Record sys_ok (n : Z) (m : JedecDRAMSystem) : Prop := {
  jo_wf : sys_wf m; jo_epoch : u64 (epoch_period (config_ m)) ≠ 0; jo_most : n < 2 ^ 30;
  jo_ctrls : Forall (λ c, ctrl_wf (config_ m) c ∧ room (config_ m) n c) (ctrls_ m) }.

Lemma add_sys_ok n a w m m' : sys_ok n m → JS_AddTransaction a w m = Ok m' → sys_ok n m'.
Proof.
  intros [W He Hn Hc] E. destruct (JS_WillAccept a w m) as [[]|] eqn:Ha; cycle 1.
  1: { unfold JS_WillAccept, JS_AddTransaction in *. destruct (vget _ _); [|done]. cbn in *. injection Ha as Ha. by rewrite Ha in E. }
  1: { destruct (accept_total a w m W). congruence. }
  destruct (add_ok a w m W Ha) as (c & m1 & Hg & E1 & Ec & _ & El). rewrite E in E1. injection E1 as <-.
  destruct W as [W1 W2]. split; [split|..]; rewrite ?Ec; try done; [by rewrite El, vsize_insert|].
  rewrite El. apply Forall_insert; [done|]. apply vget_lookup in Hg as [_ Hg].
  destruct (Forall_lookup_1 _ _ _ _ Hc Hg) as [Wc Rc]. split; [by apply add_wf|].
  apply (room_chan _ n c); [apply add_chan | done].
Qed.

Lemma tick_sys_ok n m :
  0 ≤ n → sys_ok (n + 1) m → ∃ evs m', JS_ClockTick m = Ok (evs, m') ∧ sys_ok n m'.
Proof.
  intros Hn [W He Hlt Hc]. pose proof (jw_usable _ W) as U. destruct (usable_mapping _ U) as [Hmap _].
  destruct (each_return_ok (js_clk m) (ctrls_ m)) as (l1 & E1 & R1).
  set (ok := λ n c, ctrl_wf (config_ m) c ∧ room (config_ m) n c).
  assert (Forall (ok (n + 1)) l1) as H1.
  { eapply Forall2_Forall_r; [exact R1|]. eapply Forall_impl; [exact Hc|]. intros c [Wc Rc] c' [_ _ Ech _ Hw].
    split; [by apply Hw | by apply (room_chan _ _ c)]. }
  destruct (each_ctrl_ok (λ _ c', ok n c') (Ctrl_ClockTick (config_ m)) l1) as (l2 & E2 & R2).
  { intros c Hin. rewrite Forall_forall in H1. destruct (H1 c Hin) as [Wc Rc].
    destruct (tick_ok (config_ m) Hmap (us_org _ U) (us_awake _ U) c n Wc) as (c' & E & Wc' & Rc'); [lia|done|].
    by exists c'. }
  destruct (each_ctrl_ok (λ _ c', ok n c') Ctrl_PrintEpochStats l2) as (l3 & E3 & R3).
  { intros c Hin. assert (ok n c) as [Wc Rc].
    { apply list_elem_of_lookup in Hin as [i Hi]. destruct (Forall2_lookup_r _ _ _ _ _ R2 Hi) as (c0 & _ & H). exact H. }
    destruct (print_epoch_ok (config_ m) c Wc) as (c' & E & Wc' & Ech & _). exists c'. split; [done|].
    split; [done | by apply (room_chan _ _ c)]. }
  assert (∃ l4, (if u64 (js_clk m + 1) mod u64 (epoch_period (config_ m)) =? 0 then each_ctrl Ctrl_PrintEpochStats l2 else Ok l2) = Ok l4
    ∧ Forall (ok n) l4 ∧ length l4 = length (ctrls_ m)) as (l4 & E4 & H4 & L4).
  { pose proof (Forall2_length _ _ _ R1). pose proof (Forall2_length _ _ _ R2). pose proof (Forall2_length _ _ _ R3).
    destruct (_ =? 0); [exists l3; split; [done|] | exists l2; split; [done|]]; (split; [|lia]).
    - eapply Forall2_Forall_r; [exact R3|]. by apply Forall_true.
    - eapply Forall2_Forall_r; [exact R2|]. by apply Forall_true. }
  unfold JS_ClockTick. rewrite E1. cbn [mbind res_bind]. rewrite E2. cbn [mbind res_bind]. cbv zeta.
  rewrite umod_Ok by done. cbn [mbind res_bind]. rewrite E4. cbn [mbind res_bind].
  eexists _, _. split; [done|]. destruct W as [W1 W2]. unfold ok in H4. destruct m as [cf k lr cs]; cbn in *.
  split; [split|..]; cbn; try done; [|lia]. unfold vsize in *. by rewrite L4.
Qed.

#[global, refine] Instance jedec_runs : MemorySystemRuns JedecDRAMSystem := { lasts := sys_ok }.
Proof.
  - intros n m H. apply H.
  - intros n a w m m'. apply add_sys_ok.
  - intros n m. apply tick_sys_ok.
Defined.

(** Fresh controllers, one per channel. *)
Lemma new_controllers_ok config l :
  usable config → new_controllers config = Ok l →
  vsize l = channels (sysp config) ∧
  Forall (λ c, ctrl_wf config c ∧ room config (2 ^ 30 - 1) c ∧ owed c = []) l.
Proof.
  intros U El. assert (∀ ids l0 l, for_each ids (λ i l, c ← new_Controller config i; Ok (l ++ [c])) l0 = Ok l →
    ∃ l1, l = l0 ++ l1 ∧ length l1 = length ids ∧
      Forall (λ c, ctrl_wf config c ∧ room config (2 ^ 30 - 1) c ∧ owed c = []) l1) as Hl.
  { clear -U. induction ids as [|i ids IH]; intros l0 l E; cbn [for_each] in E.
    { injection E as <-. exists []. rewrite app_nil_r. split_and!; [done|done|by apply Forall_nil]. }
    apply bind_Ok_inv in E as (l1 & E1 & E). apply bind_Ok_inv in E1 as (c & Ec & E1). injection E1 as <-.
    destruct (IH _ _ E) as (l2 & -> & Hlen & Hall). exists (c :: l2). split; [by rewrite <- app_assoc|].
    split; [cbn; lia|]. apply Forall_cons. split; [|done]. by apply (usable_Controller config i). }
  destruct (Hl _ _ _ El) as (l1 & -> & Hlen & Hall). cbn [app]. split; [|done].
  unfold vsize. rewrite Hlen, length_seqZ. destruct (us_channels _ U). lia.
Qed.

(** A system of fresh controllers. *)
Lemma fresh_system_ok config l :
  usable config → u64 (epoch_period config) ≠ 0 → new_controllers config = Ok l →
  sys_ok (2 ^ 30 - 1) (mkJedec config 0 0 l) ∧ js_pending (mkJedec config 0 0 l) = [].
Proof.
  intros U He El. destruct (new_controllers_ok config l U El) as [Hs Hall]. split.
  - split; cbn; [by split|done|done|]. eapply Forall_impl; [exact Hall|]. cbv beta. naive_solver.
  - unfold js_pending. cbn. clear -Hall. induction Hall as [|c l (_ & _ & Hc) _ IH]; [done|]. cbn. by rewrite Hc, IH.
Qed.

Lemma new_system_ok config m :
  usable config → u64 (epoch_period config) ≠ 0 → new_JedecDRAMSystem config = Ok m →
  sys_ok (2 ^ 30 - 1) m ∧ js_pending m = [].
Proof.
  intros U He E. unfold new_JedecDRAMSystem in E. destruct (IsHMC _); [done|].
  destruct (channels (sysp config) <? 0); [done|]. apply bind_Ok_inv in E as (l & El & E). injection E as <-.
  by apply fresh_system_ok.
Qed.

Lemma sys_ok_le n n' m : n ≤ n' → sys_ok n' m → sys_ok n m.
Proof.
  intros Hle [W1 W2 W3 W4]. split; [done|done|lia|]. eapply Forall_impl; [exact W4|].
  intros c [Wc Rc]. split; [done | by eapply room_le, Rc; lia].
Qed.

(** ** The ideal system's ledger *)

Lemma ideal_scan_spec clk lat (q : list Transaction) :
  let late t := lat ≤ u64 (clk - added_cycle t) in
  (txn <$> q) ≡ₚ (ideal_scan clk lat q).1 ++ (txn <$> (ideal_scan clk lat q).2) ∧
  Forall (λ e, ∃ t, t ∈ q ∧ late t ∧ e = txn t) (ideal_scan clk lat q).1 ∧
  (q ≠ [] → Forall late q → vsize q ≤ 2 * vsize (ideal_scan clk lat q).1).
Proof.
  cbv zeta. remember (length q) as n eqn:Hn. revert q Hn.
  induction (lt_wf n) as [n _ IH]. intros q ->. destruct q as [|t q]; [by split_and!|]. cbn [ideal_scan].
  destruct (Z.leb_spec lat (u64 (clk - added_cycle t))) as [Hle|Hlt].
  - destruct q as [|u q].
    + cbn. split; [done|]. split; [|unfold vsize; cbn; lia]. apply Forall_singleton. exists t. split; [set_solver|done].
    + destruct (IH (length q) ltac:(cbn; lia) q eq_refl) as (P & F & L). destruct (ideal_scan clk lat q) as [e k]. cbn in *.
      split; [rewrite P; by rewrite <- Permutation_middle|]. split.
      * apply Forall_cons. split; [exists t; split; [set_solver|done]|]. eapply Forall_impl; [exact F|].
        cbv beta. intros x (v & Hv & H). exists v. split; [set_solver|done].
      * intros _ Hall. apply Forall_cons in Hall as [_ Hall]. apply Forall_cons in Hall as [_ Hall].
        rewrite !vsize_cons. pose proof (vsize_nonneg e). destruct q as [|v q]; [change (vsize (@nil Transaction)) with 0; lia|].
        specialize (L ltac:(done) Hall). lia.
  - destruct (IH (length q) ltac:(cbn; lia) q eq_refl) as (P & F & _). destruct (ideal_scan clk lat q) as [e k]. cbn in *.
    split; [rewrite P; by rewrite <- Permutation_middle|]. split.
    + eapply Forall_impl; [exact F|]. cbv beta. intros x (v & Hv & H). exists v. split; [set_solver|done].
    + intros _ Hall. apply Forall_cons in Hall as [? _]. lia.
Qed.

(** ** Properties *)

(** C4: A fresh JEDEC memory system runs for up to 2^30 - 1 cycles, whatever
    transactions are offered to it, without an abort, an out-of-range access or a signed
    overflow, across any number of epochs; every transaction it accepted was reported by
    a callback or is still pending, exactly as often as it was accepted. *)
Theorem memory_system_runs config m evs :
  usable config → u64 (epoch_period config) ≠ 0 → new_JedecDRAMSystem config = Ok m → sys_ticks evs < 2 ^ 30 →
  ∃ accepted reported m', sys_run evs m = Ok (accepted, reported, m') ∧ accepted ≡ₚ reported ++ js_pending m'.
Proof.
  intros U He E Hlt. destruct (new_system_ok config m U He E) as [Hok Hp].
  destruct (sys_run_ok evs m) as (a & d & m' & Er & P); [by eapply sys_ok_le, Hok; lia|].
  exists a, d, m'. split; [done|]. change (pending m) with (js_pending m) in P. by rewrite Hp, app_nil_r in P.
Qed.

(** A tick reports exactly the transactions that are complete at its cycle, channel
    by channel and in the order they were completed, and nothing else. *)
Theorem tick_reports_completed m evs m' :
  JS_ClockTick m = Ok (evs, m') →
  evs = concat ((λ c, txn <$> filter (λ t, complete_cycle t ≤ js_clk m) (return_queue_ c)) <$> ctrls_ m) ∧
  js_pending m ≡ₚ evs ++ js_pending m'.
Proof. intros E. by destruct (tick_ledger m evs m' E) as (-> & _ & _ & P). Qed.

(** A tick of the ideal memory system loses nothing and reports no transaction
    before its latency.  As the transaction that follows a reported one is skipped, it
    reports at least half of the transactions of a buffer in which all are due. *)
Theorem ideal_tick_skips m :
  let late t := u64 (latency_ m) ≤ u64 (id_clk m - added_cycle t) in
  let q := infinite_buffer_q_ m in let '(evs, m') := Ideal_ClockTick m in
  (txn <$> q) ≡ₚ evs ++ (txn <$> infinite_buffer_q_ m') ∧
  Forall (λ e, ∃ t, t ∈ q ∧ late t ∧ e = txn t) evs ∧
  (q ≠ [] → Forall late q → vsize q ≤ 2 * vsize evs).
Proof.
  cbv zeta. pose proof (ideal_scan_spec (id_clk m) (u64 (latency_ m)) (infinite_buffer_q_ m)) as H. cbv zeta in H.
  unfold Ideal_ClockTick. destruct (ideal_scan _ _ _) as [e k]. by destruct m.
Qed.

(** ** Concrete runs *)

Definition ex_jedec : JedecDRAMSystem :=
  match new_JedecDRAMSystem ex_config with Ok m => m | Err _ => mkJedec ex_config 0 0 [] end.

Lemma ex_jedec_new : new_JedecDRAMSystem ex_config = Ok ex_jedec.
Proof. apply ok_or. vm_compute. reflexivity. Qed.

Definition ex_sys_events : list sys_event :=
  [SysOffer 64 false; SysOffer 128 true; SysOffer 64 false] ++ replicate 45 SysTick.

Lemma memory_system_runs_witness :
  ∃ accepted reported m', sys_run ex_sys_events ex_jedec = Ok (accepted, reported, m') ∧
    accepted ≡ₚ reported ++ js_pending m'.
Proof.
  apply (memory_system_runs ex_config ex_jedec ex_sys_events ex_usable); [done | exact ex_jedec_new | reflexivity].
Defined.

(** A system whose second channel has a complete read. *)
Definition ex_due : JedecDRAMSystem :=
  match JS_AddTransaction 64 true ex_jedec with Ok m => m {{ js_clk := 1 }} | Err _ => ex_jedec end.

Lemma tick_reports_completed_witness : ∃ m', JS_ClockTick ex_due = Ok ([(64, true)], m') ∧
  js_pending ex_due ≡ₚ [(64, true)] ++ js_pending m'.
Proof.
  destruct (ok_field fst (JS_ClockTick ex_due) [(64, true)]) as ([evs m'] & E & Ee); [vm_compute; reflexivity|].
  cbn in Ee. subst evs. exists m'. split; [exact E|]. apply (tick_reports_completed ex_due [(64, true)] m' E).
Defined.

(** Two transactions that are due: the second is not reported. *)
Example ex_ideal : Ideal_ClockTick (mkIdeal 10 5 [mkTransaction 64 0 0 false; mkTransaction 128 0 0 true]) =
  ([(64, false)], mkIdeal 11 5 [mkTransaction 128 0 0 true]).
Proof. reflexivity. Qed.
