(* ===== verification/GcnMemory.v ===== *)
(** * The DRAM interface over the DRAM simulator (DRAMInterface.cpp, DRAMsim3/src)

    The composition of the two halves of the program: the simulator's DRAM interface
    with JEDEC memory systems behind it.  A run issues requests, dispatches them,
    lets cycles pass and takes completed reads when a completion flag is up.  The
    theorem: without self-refresh such a run does not abort for 2^30 - 1 cycles and
    [tot_req + 2^31] requests, the room of the [int] counters; and what was issued is what
    the interface still holds, what was handed to the readers and the completed writes. *)

From S2P Require Import Prelude CFloat DramCommon DramConfig Stats BankState Timing ChannelState ChannelProps.
From S2P Require Import Refresh CommandQueue ChannelRun Controller ControllerProps ControllerTick Common.
From S2P Require Import DRAMInterface DramSystem.

Open Scope Z_scope.

Section Runs.
Context {M : Type} `{MemorySystemRuns M}.
Variable P : Params.
Hypothesis HMAX : 0 < MAX_DRAM P.

Abbreviation DI := (DRAMInterface (M := M)).

(** ** Cycles that do not abort *)

(** Reads the [int] counter [tot_req] can still count down, for what the interface
    holds and may still be asked. *)
Definition can_finish (n : Z) (s : DI) : Prop :=
  0 ≤ n ∧ n + vsize (t_queue s) + vsize (in_dram s) ≤ tot_req (ctr s) + 2 ^ 31 ∧ tot_req (ctr s) < 2 ^ 31.

Lemma callbacks_total evs (s : DI) :
  vsize evs ≤ tot_req (ctr s) + 2 ^ 31 → tot_req (ctr s) < 2 ^ 31 →
  ∃ s', for_each evs (callback P) s = Ok s' ∧
    tot_req (ctr s) - vsize evs ≤ tot_req (ctr s') ≤ tot_req (ctr s).
Proof.
  revert s. induction evs as [|e evs IH]; intros s Hlo Hhi; [exists s; split; [done|unfold vsize; cbn; lia]|].
  rewrite vsize_cons in *. pose proof (vsize_nonneg evs).
  assert (∃ s1, callback P e s = Ok s1 ∧ tot_req (ctr s) - 1 ≤ tot_req (ctr s1) ≤ tot_req (ctr s)) as (s1 & E & Hs1).
  { unfold callback, ReadCompleteCallback, WriteCompleteCallback. destruct (e.2).
    - eexists. split; [done|]. cbn. destruct (_ <=? _); cbn; lia.
    - rewrite int_chk_Ok by lia. cbn [mbind res_bind]. destruct (_ <? _); (eexists; split; [done|]); cbn; lia. }
  cbn [for_each]. rewrite E. cbn [mbind res_bind]. destruct (IH s1) as (s' & E' & Hs'); [lia..|].
  exists s'. split; [done|]. lia.
Qed.

(** The systems that have had their tick, and those that have not. *)
Definition half_ticked (n i : Z) (s : DI) : Prop :=
  ∀ j m, vget (dram s) j = Ok m → lasts (if j <? i then n else n + 1) m.

Lemma tick_body_ok n i (s : DI) k :
  0 ≤ n → 0 ≤ i < MAX_DRAM P → di_wf P s → half_ticked n i s → can_finish k s →
  ∃ s', (m ← vget (dram s) i; '(evs, m') ← ms_ClockTick m; l ← vset (dram s) i m';
         for_each evs (callback P) (set_dram l s)) = Ok s' ∧
    di_wf P s' ∧ half_ticked n (i + 1) s' ∧ can_finish k s' ∧ t_queue s' = t_queue s.
Proof.
  intros Hn Hi Hwf Ht (Hk & Hc & Hhi). destruct (di_system P s i Hwf Hi) as (m & Hm & Wm). rewrite Hm. cbn [mbind res_bind].
  pose proof (Ht i m Hm) as Hl. destruct (Z.ltb_spec i i); [lia|].
  destruct (tick_lasts n m Hn Hl) as (evs & m' & Et & Hl'). rewrite Et. cbn [mbind res_bind].
  pose proof (vget_range _ _ _ Hm) as Hr. rewrite vset_Ok by done. cbn [mbind res_bind].
  destruct (tick_reports _ _ _ Wm Et) as [Wm' Pm].
  set (s1 := set_dram (<[Z.to_nat i := m']> (dram s)) s).
  assert (di_wf P s1) as W1.
  { split; [cbn; rewrite vsize_insert; apply Hwf | apply Hwf | | apply Hwf..].
    apply Forall_insert; [apply Hwf | done]. }
  assert (vsize (in_dram s) = vsize evs + vsize (in_dram s1)) as Hsz.
  { pose proof Hm as Hm'. apply vget_lookup in Hm' as [_ Hm'].
    pose proof (concat_insert_perm pending (dram s) _ m m' evs [] Hm') as Hins.
    rewrite !app_nil_r in Hins. specialize (Hins ltac:(by rewrite Pm, Permutation_app_comm)).
    apply Permutation_length in Hins. unfold in_dram, vsize. cbn. rewrite length_app in Hins. lia. }
  destruct (callbacks_total evs s1) as (s' & E & Hq); [cbn; pose proof (vsize_nonneg (t_queue s)); pose proof (vsize_nonneg (in_dram s1)); lia | done |].
  destruct (callbacks_effect P evs s1 s' W1 E) as (W' & Ed & (_ & _ & Etq & _)).
  exists s'. split; [exact E|]. split; [done|]. split; [|split; [|done]].
  - intros j mj Hj. rewrite Ed in Hj. cbn in Hj. rewrite vget_insert in Hj by done. case_decide as Hij.
    + injection Hj as <-. subst j. destruct (Z.ltb_spec i (i + 1)); [done|lia].
    + specialize (Ht j mj Hj). destruct (Z.ltb_spec j i), (Z.ltb_spec j (i + 1)); done || lia.
  - unfold can_finish in *. rewrite Etq. assert (in_dram s' = in_dram s1) as -> by (unfold in_dram; by rewrite Ed).
    assert (tot_req (ctr s1) = tot_req (ctr s) ∧ t_queue s1 = t_queue s) as [Es1 ->] by done. lia.
Qed.

Lemma UpdateCycle_ok n (s : DI) k :
  0 ≤ n → di_wf P s → Forall (lasts (n + 1)) (dram s) → can_finish k s →
  ∃ s', UpdateCycle P s = Ok s' ∧ di_wf P s' ∧ Forall (lasts n) (dram s') ∧ can_finish k s' ∧ t_queue s' = t_queue s.
Proof.
  intros Hn Hwf Hall Hc. unfold UpdateCycle.
  assert (∀ (l : nat) (i : Z) (s : DI), 0 ≤ i → i + Z.of_nat l = MAX_DRAM P → di_wf P s → half_ticked n i s → can_finish k s →
    ∃ s', for_loop l i (λ i s, m ← vget (dram s) i; '(evs, m') ← ms_ClockTick m; l ← vset (dram s) i m';
      for_each evs (callback P) (set_dram l s)) s = Ok s' ∧ di_wf P s' ∧ half_ticked n (MAX_DRAM P) s' ∧
      can_finish k s' ∧ t_queue s' = t_queue s) as Hloop.
  { clear -Hn. induction l as [|l IH]; intros i s Hi Hil Hwf Ht Hc; cbn [for_loop].
    { exists s. replace (MAX_DRAM P) with i by lia. done. }
    destruct (tick_body_ok n i s k Hn ltac:(lia) Hwf Ht Hc) as (s1 & E1 & W1 & T1 & C1 & Q1). rewrite E1.
    cbn [mbind res_bind]. destruct (IH (i + 1) s1) as (s' & E' & W' & T' & C' & Q'); [lia..|done|done|done|].
    exists s'. split; [exact E'|]. by rewrite Q', Q1. }
  destruct (Hloop (Z.to_nat (MAX_DRAM P)) 0 s) as (s' & E & W & T & C & Q); [lia|lia|done| |done|].
  { intros j m Hj. pose proof (vget_range _ _ _ Hj). apply vget_lookup in Hj as [_ Hj].
    destruct (Z.ltb_spec j 0); [lia|]. by apply (Forall_lookup_1 _ _ _ _ Hall Hj). }
  exists s'. split; [exact E|]. split; [done|]. split; [|done].
  apply Forall_lookup. intros i m Hm. specialize (T (Z.of_nat i) m).
  assert (vget (dram s') (Z.of_nat i) = Ok m) as Hg by (apply vget_lookup; rewrite Nat2Z.id; split; [lia|done]).
  pose proof (vget_range _ _ _ Hg) as Hr. rewrite (dw_size P s' W) in Hr.
  specialize (T Hg). destruct (Z.ltb_spec (Z.of_nat i) (MAX_DRAM P)); [done|lia].
Qed.
(** ** Runs *)

(** What the units do with the interface; [Take] reads a queue if its completion flag
    is up, as every client does. *)
Inductive di_event := Issue (a : Z) (w : bool) | IssueFor (a : Z) (w : bool) (id : Z) | Dispatch | ClockCycle
  | Take (isW : bool).

Definition di_step (e : di_event) (s : DI) : res (list (Z * bool) * list Z * DI) :=
  match e with
  | Issue a w => Ok ([(a, w)], [], DI_DRAMRequest a w s)
  | IssueFor a w id => Ok ([(a, w)], [], DI_DRAMRequestId a w id s)
  | Dispatch => s' ← DI_AddTransaction P s; Ok ([], [], s')
  | ClockCycle => s' ← UpdateCycle P s; Ok ([], [], s')
  | Take isW =>
      if (if isW then WReadComplete s else FReadComplete s)
      then '(a, s') ← GetReadData isW s; Ok ([], [a], s') else Ok ([], [], s)
  end.

Fixpoint di_exec (evs : list di_event) (s : DI) : res (list (Z * bool) * list Z * DI) :=
  match evs with
  | [] => Ok ([], [], s)
  | e :: evs' =>
      '(i, g, s1) ← di_step e s; '(i', g', s2) ← di_exec evs' s1; Ok (i ++ i', g ++ g', s2)
  end.

Definition is_cycle (e : di_event) : Z := match e with ClockCycle => 1 | _ => 0 end.
Definition is_issue (e : di_event) : Z := match e with Issue _ _ | IssueFor _ _ _ => 1 | _ => 0 end.
Definition total (f : di_event → Z) (evs : list di_event) : Z := foldr (λ e n, f e + n) 0 evs.

Lemma total_nonneg f evs : (∀ e, 0 ≤ f e) → 0 ≤ total f evs.
Proof. intros Hf. induction evs as [|e evs IH]; cbn; [lia|]. specialize (Hf e). fold (total f evs). lia. Qed.

(** Ready for [n] cycles and [k] requests. *)
Record run_ready (n k : Z) (s : DI) : Prop := {
  rr_wf : di_wf P s; rr_lasts : Forall (lasts n) (dram s); rr_finish : can_finish k s }.

Lemma dispatch_lasts n fuel check (s s' : DI) :
  AddTransaction_loop P fuel check s = Ok s' → Forall (lasts n) (dram s) → Forall (lasts n) (dram s').
Proof.
  revert s. induction fuel as [|f IH]; intros s E Hall; cbn [AddTransaction_loop] in E;
    (destruct (IsExistTransaction s); [|by injection E as <-]); [done|].
  apply bind_Ok_inv in E as ([] & _ & E).
  - inv_res E. apply (IH _ E). cbn. apply vset_inv in E3 as [_ ->]. apply Forall_insert; [done|].
    apply vget_lookup in E1 as [_ E1]. eapply add_lasts; [|done]. apply (Forall_lookup_1 _ _ _ _ Hall E1).
  - destruct (_ =? check); [by injection E as <- | by apply (IH _ E)].
Qed.

(** One event; [di_run] is the relational run of the interface's ledger. *)
Lemma di_step_ok e (s0 s : DI) iss got n k :
  di_run P s0 iss got s → 0 ≤ n → run_ready (is_cycle e + n) (is_issue e + k) s → 0 ≤ k →
  ∃ i g s', di_step e s = Ok (i, g, s') ∧ di_run P s0 (iss ++ i) (got ++ g) s' ∧ run_ready n k s'.
Proof.
  intros Hr Hn [W L (Hk & Hc & Hhi)] Hk0.
  assert (∀ s1 : DI, di_run P s0 iss got s1 → di_run P s0 (iss ++ []) (got ++ []) s1) as Hnil by (intros; by rewrite !app_nil_r).
  destruct e as [a w|a w id| | |isW]; cbn [di_step is_cycle is_issue] in *.
  - eexists _, _, _. split; [done|]. split; [rewrite app_nil_r; by apply run_request|].
    split; [by destruct W; split | done |]. unfold can_finish, in_dram in *. cbn. rewrite vsize_app, vsize_cons.
    change (vsize (@nil Trans)) with 0. lia.
  - eexists _, _, _. split; [done|]. split; [rewrite app_nil_r; by apply run_request_id|].
    split; [by destruct W; split | done |]. unfold can_finish, in_dram in *. cbn. rewrite vsize_app, vsize_cons.
    change (vsize (@nil Trans)) with 0. lia.
  - destruct (DI_AddTransaction_ok P HMAX s W) as (s' & sent & E & W' & Hq & Hp & _ & _ & _ & Hct).
    rewrite E. cbn [mbind res_bind]. eexists _, _, _. split; [done|]. split; [by apply Hnil, (run_add _ _ _ _ s)|].
    split; [done | by apply (dispatch_lasts _ _ _ _ _ E)|]. unfold can_finish. rewrite Hct.
    rewrite Hq, vsize_app in Hc. apply Permutation_length in Hp. rewrite length_app, length_fmap in Hp.
    unfold vsize in *. lia.
  - destruct (UpdateCycle_ok n s k) as (s' & E & W' & L' & C' & _); [done|done|by rewrite Z.add_comm|done|].
    rewrite E. cbn [mbind res_bind]. eexists _, _, _. split; [done|]. split; [by apply Hnil, (run_tick _ _ _ _ s)|]. done.
  - assert (∀ b : bool, b = true → ∃ a s', GetReadData isW s = Ok (a, s') ∧ dram s' = dram s ∧ t_queue s' = t_queue s ∧ ctr s' = ctr s
      ∨ (if isW then WReadComplete s else FReadComplete s) = false) as Hget.
    { intros _ _. unfold GetReadData, WReadComplete, FReadComplete. pose proof (dw_f _ _ W) as Hf. pose proof (dw_w _ _ W) as Hw.
      destruct isW; cbn [negb].
      - rewrite Hw. destruct (w_address s) as [|x q]; cbn; [by exists 0, s; right|]. eexists _, _. left. by split_and!.
      - rewrite Hf. destruct (f_address s) as [|x q]; cbn; [by exists 0, s; right|]. eexists _, _. left. by split_and!. }
    destruct (if isW then WReadComplete s else FReadComplete s); cycle 1.
    { eexists _, _, _. split; [done|]. split; [by apply Hnil|]. done. }
    destruct (Hget true eq_refl) as (a & s' & [(E & Ed & Eq & Ec)|]); [|done]. rewrite E. cbn [mbind res_bind].
    eexists _, _, _. split; [done|]. split; [rewrite app_nil_r; by apply (run_get _ _ _ _ s isW)|].
    destruct (GetReadData_ok P isW s a s' W E) as (W' & _). split; [done | by rewrite Ed |].
    unfold can_finish, in_dram in *. by rewrite Ed, Eq, Ec.
Qed.

Lemma di_exec_ok evs (s0 s : DI) iss got :
  di_run P s0 iss got s → run_ready (total is_cycle evs) (total is_issue evs) s →
  ∃ i g s', di_exec evs s = Ok (i, g, s') ∧ di_run P s0 (iss ++ i) (got ++ g) s'.
Proof.
  revert s iss got. induction evs as [|e evs IH]; intros s iss got Hr Hrr.
  { exists [], [], s. by rewrite !app_nil_r. }
  assert (0 ≤ total is_cycle evs) by (apply total_nonneg; by intros []).
  assert (0 ≤ total is_issue evs) by (apply total_nonneg; by intros []).
  destruct (di_step_ok e s0 s iss got (total is_cycle evs) (total is_issue evs)) as (i & g & s1 & E1 & R1 & RR1); try done.
  destruct (IH s1 _ _ R1 RR1) as (i' & g' & s2 & E2 & R2). exists (i ++ i'), (g ++ g'), s2.
  cbn [di_exec]. rewrite E1. cbn [mbind res_bind]. rewrite E2. cbn [mbind res_bind]. by rewrite !app_assoc.
Qed.

Lemma di_exec_ledger evs (s0 : DI) :
  run_ready (total is_cycle evs) (total is_issue evs) s0 →
  ∃ iss got s, di_exec evs s0 = Ok (iss, got, s) ∧ ∃ done_writes,
    holds s0 ++ iss ≡ₚ holds s ++ as_reads got ++ done_writes ∧ Forall (λ e, e.2 = true) done_writes ∧
    tot_axw_count (ctr s) mod 2 ^ 64 = (tot_axw_count (ctr s0) - axw_writes P done_writes) mod 2 ^ 64.
Proof.
  intros Hr. destruct (di_exec_ok evs s0 s0 [] [] (run_start P s0) Hr) as (i & g & s & E & R).
  destruct (di_run_ledger P HMAX s0 i g s (rr_wf _ _ _ Hr) R) as (_ & d & Hp & Hd & Hc). by exists i, g, s; eauto 6.
Qed.
End Runs.

(** ** Properties *)

(** The interface as its constructor makes it: [MAX_DRAM] systems of one configuration. *)
Definition fresh_interface (P : Params) (m : JedecDRAMSystem) (c : Counters) : DRAMInterface (M := JedecDRAMSystem) :=
  new_DRAMInterface (replicate (Z.to_nat (MAX_DRAM P)) m) c.

Lemma fresh_ready P config m c n k :
  0 < MAX_DRAM P → usable config → u64 (epoch_period config) ≠ 0 → new_JedecDRAMSystem config = Ok m →
  0 ≤ k → k ≤ tot_req c + 2 ^ 31 → tot_req c < 2 ^ 31 → n < 2 ^ 30 →
  run_ready P n k (fresh_interface P m c) ∧ holds (fresh_interface P m c) = [].
Proof.
  intros HM U He E Hk Hc Hhi Hn. destruct (new_system_ok config m U He E) as [Hok Hp].
  assert (∀ j : nat, concat (pending <$> replicate j m) = []) as Hin.
  { induction j as [|j IH]; [done|]. cbn [replicate fmap list_fmap concat]. rewrite IH. change (pending m) with (js_pending m). by rewrite Hp. }
  assert (in_dram (fresh_interface P m c) = []) as Hin0 by apply Hin.
  split; [|unfold holds; by rewrite Hin0].
  assert (lasts n m) as Hl by (eapply sys_ok_le, Hok; lia).
  split.
  - split; cbn; try done; [unfold vsize; rewrite length_replicate; lia|]. by apply Forall_replicate, Hok.
  - by apply Forall_replicate.
  - unfold can_finish. rewrite Hin0. cbn. change (vsize (@nil Trans)) with 0. change (vsize (@nil (Z * bool))) with 0. lia.
Qed.

(** C3: The program's memory works: from fresh memory systems of a configuration without
    self-refresh, any run of requests, dispatches, cycles and reads of completed data goes
    through without an abort, an out-of-range access or a signed overflow, for up to
    2^30 - 1 cycles and [tot_req + 2^31] requests, which is as many as the [int] [tot_req]
    can count down; and every request issued is, at its end, exactly once in the interface
    or its memory systems, with the readers, or a completed write, the count of the output
    writes having gone down by these. *)
Theorem interface_runs P config m c evs :
  0 < MAX_DRAM P → usable config → u64 (epoch_period config) ≠ 0 → new_JedecDRAMSystem config = Ok m →
  total is_cycle evs < 2 ^ 30 → total is_issue evs ≤ tot_req c + 2 ^ 31 → tot_req c < 2 ^ 31 →
  ∃ issued got s, di_exec P evs (fresh_interface P m c) = Ok (issued, got, s) ∧ ∃ done_writes,
    issued ≡ₚ holds s ++ as_reads got ++ done_writes ∧ Forall (λ e, e.2 = true) done_writes ∧
    tot_axw_count (ctr s) mod 2 ^ 64 = (tot_axw_count c - axw_writes P done_writes) mod 2 ^ 64.
Proof.
  intros HM U He E Hn Hk Hhi.
  assert (0 ≤ total is_issue evs) by (apply total_nonneg; by intros []).
  destruct (fresh_ready P config m c (total is_cycle evs) (total is_issue evs)) as [Hr Hh]; try done.
  destruct (di_exec_ledger P HM evs _ Hr) as (iss & got & s & Ex & d & Hp & Hd). rewrite Hh in Hp. by exists iss, got, s; eauto.
Qed.

(** ** A concrete run *)

(** A read of a feature, one of a weight and an output write; the writes are complete a
    cycle after the next, the reads some thirty cycles later. *)
Definition ex_di_events : list di_event :=
  [Issue 64 false; IssueFor 4000 false 3; Issue 9000 true; Dispatch] ++ replicate 45 ClockCycle ++
  [Take false; Take true].

Lemma interface_runs_witness :
  ∃ m issued got s, new_JedecDRAMSystem ex_config = Ok m ∧
    di_exec ex_params ex_di_events (fresh_interface ex_params m (mkCtr 0 0 2 0 7)) = Ok (issued, got, s) ∧
    ∃ done_writes, issued ≡ₚ holds s ++ as_reads got ++ done_writes ∧ Forall (λ e, e.2 = true) done_writes ∧
      tot_axw_count (ctr s) mod 2 ^ 64 = (7 - axw_writes ex_params done_writes) mod 2 ^ 64.
Proof.
  exists ex_jedec. destruct (interface_runs ex_params ex_config ex_jedec (mkCtr 0 0 2 0 7) ex_di_events)
    as (issued & got & s & E); [done | exact ex_usable | done | exact ex_jedec_new | reflexivity | done | done |].
  exists issued, got, s. split; [exact ex_jedec_new | exact E].
Defined.
