(* ===== verification/Hmc.v ===== *)
(** * The HMC memory system (DRAMsim3/src/hmc.h, hmc.cc)

    A hybrid memory cube: requests enter a queue per link, cross a switch to a queue per
    quadrant, and go to the controller of their vault; the response of a request is made
    when it enters, waits in a table until the vault is done, and goes back through a
    queue per quadrant and a queue per link.  The logic die has its own, faster clock.
    Pointers to requests and responses are the records themselves: each is in one queue
    at a time.  [hm_base] has the members of [BaseDRAMSystem].  The class declares no
    [IsQueueFill], which its base requires: it is a parameter here. *)

From S2P Require Import Prelude CFloat DramCommon DramConfig Stats BankState Timing ChannelState ChannelProps.
From S2P Require Import Refresh CommandQueue ChannelRun Controller ControllerProps ControllerTick Common MemoryRun.
From S2P Require Import DramSystem.

Open Scope Z_scope.

Inductive HMCReqType :=
  | RD0 | RD16 | RD32 | RD48 | RD64 | RD80 | RD96 | RD112 | RD128 | RD256
  | WR0 | WR16 | WR32 | WR48 | WR64 | WR80 | WR96 | WR112 | WR128 | WR256
  | P_WR16 | P_WR32 | P_WR48 | P_WR64 | P_WR80 | P_WR96 | P_WR112 | P_WR128 | P_WR256
  | ADD8 | ADD16 | P_2ADD8 | P_ADD16 | ADDS8R | ADDS16R | INC8 | P_INC8
  | XOR16 | OR16 | NOR16 | AND16 | NAND16
  | CASGT8 | CASGT16 | CASLT8 | CASLT16 | CASEQ8 | CASZERO16
  | EQ8 | EQ16 | BWR | P_BWR | BWR8R | SWAP16 | REQ_SIZE.

Inductive HMCRespType := NONE | RD_RS | WR_RS | ERR | RESP_SIZE.

Record HMCRequest := mkReq {
  rq_type : HMCReqType; mem_operand : Z; rq_link : Z; rq_quad : Z; vault : Z; rq_flits : Z;
  rq_is_write : bool; rq_exit : Z }.

Record HMCResponse := mkResp {
  resp_id : Z; rs_type : HMCRespType; rs_link : Z; rs_quad : Z; rs_flits : Z; rs_exit : Z }.

(** [type >= WR0 && type <= P_WR256] *)
Definition is_write_type (t : HMCReqType) : bool :=
  match t with
  | WR0 | WR16 | WR32 | WR48 | WR64 | WR80 | WR96 | WR112 | WR128 | WR256
  | P_WR16 | P_WR32 | P_WR48 | P_WR64 | P_WR80 | P_WR96 | P_WR112 | P_WR128 | P_WR256 => true
  | _ => false
  end.

(** The flits of a request packet. *)
Definition req_flits (t : HMCReqType) : res Z :=
  match t with
  | RD0 | WR0 => Ok 0
  | RD16 | RD32 | RD48 | RD64 | RD80 | RD96 | RD112 | RD128 | RD256 => Ok 1
  | WR16 | P_WR16 => Ok 2
  | WR32 | P_WR32 => Ok 3
  | WR48 | P_WR48 => Ok 4
  | WR64 | P_WR64 => Ok 5
  | WR80 | P_WR80 => Ok 6
  | WR96 | P_WR96 => Ok 7
  | WR112 | P_WR112 => Ok 8
  | WR128 | P_WR128 => Ok 9
  | WR256 | P_WR256 => Ok 17
  | ADD8 | ADD16 | P_2ADD8 | P_ADD16 | ADDS8R | ADDS16R => Ok 2
  | INC8 | P_INC8 => Ok 1
  | XOR16 | OR16 | NOR16 | AND16 | NAND16
  | CASGT8 | CASGT16 | CASLT8 | CASLT16 | CASEQ8 | CASZERO16 => Ok 2
  | EQ8 | EQ16 | BWR | P_BWR | BWR8R | SWAP16 => Ok 2
  | REQ_SIZE => Err AbruptExit
  end.

(** [HMCRequest::HMCRequest]; [link] and [exit_time] are set later. *)
Definition new_HMCRequest (t : HMCReqType) (hex_addr vault : Z) : res HMCRequest :=
  f ← req_flits t; Ok (mkReq t hex_addr 0 (Z.rem vault 4) vault f (is_write_type t) 0).

(** The type and the flits of a response packet. *)
Definition resp_kind (t : HMCReqType) : res (HMCRespType * Z) :=
  match t with
  | RD0 => Ok (RD_RS, 0)
  | RD16 => Ok (RD_RS, 2)
  | RD32 => Ok (RD_RS, 3)
  | RD48 => Ok (RD_RS, 4)
  | RD64 => Ok (RD_RS, 5)
  | RD80 => Ok (RD_RS, 6)
  | RD96 => Ok (RD_RS, 7)
  | RD112 => Ok (RD_RS, 8)
  | RD128 => Ok (RD_RS, 9)
  | RD256 => Ok (RD_RS, 17)
  | WR0 => Ok (WR_RS, 0)
  | WR16 | WR32 | WR48 | WR64 | WR80 | WR96 | WR112 | WR128 | WR256 => Ok (WR_RS, 1)
  | P_WR16 | P_WR32 | P_WR48 | P_WR64 | P_WR80 | P_WR96 | P_WR112 | P_WR128 | P_WR256 => Ok (NONE, 0)
  | ADD8 | ADD16 => Ok (WR_RS, 1)
  | P_2ADD8 | P_ADD16 => Ok (NONE, 0)
  | ADDS8R | ADDS16R => Ok (RD_RS, 2)
  | INC8 => Ok (WR_RS, 1)
  | P_INC8 => Ok (NONE, 0)
  | XOR16 | OR16 | NOR16 | AND16 | NAND16
  | CASGT8 | CASGT16 | CASLT8 | CASLT16 | CASEQ8 | CASZERO16 => Ok (RD_RS, 2)
  | EQ8 | EQ16 | BWR => Ok (WR_RS, 1)
  | P_BWR => Ok (NONE, 0)
  | BWR8R | SWAP16 => Ok (RD_RS, 2)
  | REQ_SIZE => Err AbruptExit
  end.

(** [HMCResponse::HMCResponse] *)
Definition new_HMCResponse (id : Z) (t : HMCReqType) (dest_link src_quad : Z) : res HMCResponse :=
  '(k, f) ← resp_kind t; Ok (mkResp id k dest_link src_quad f 0).

Record HMCMemorySystem := mkHMC {
  hm_base : JedecDRAMSystem;
  logic_clk_ : Z; ps_per_logic_ : Z; logic_ps_ : Z; dram_ps_ : Z; next_link_ : Z;
  resp_lookup_table_ : list (Z * HMCResponse);
  link_req_queues_ : list (list HMCRequest); link_resp_queues_ : list (list HMCResponse);
  quad_req_queues_ : list (list HMCRequest); quad_resp_queues_ : list (list HMCResponse);
  link_busy_ : list Z; quad_busy_ : list Z;
  link_age_counter_ : list Z; quad_age_counter_ : list Z }.

Definition ps_per_dram_ : Z := 800.

(** [SetClockRatio]: [ps_per_logic_]. *)
Definition SetClockRatio (d : DRAMParams) : res Z :=
  if link_width d =? 0 then Err DivByZero
  else
    let link_cycles_per_flit := Z.quot 128 (link_width d) in
    if link_cycles_per_flit =? 0 then Err DivByZero
    else
      logic_speed ← int_chk (Z.quot (link_speed d) link_cycles_per_flit);
      ps ← (if logic_speed =? 0 then Err FloatRange
            else if logic_speed <? 0 then (if 1000000 <? - logic_speed then Ok 0 else Err FloatRange)
            else Ok (trunc_dyadic (float_div 53 (float_of_uint 53 1000000) (float_of_uint 53 logic_speed))));
      Ok (if ps_per_dram_ <? ps then ps_per_dram_ else ps).

(** [HMCMemorySystem::HMCMemorySystem] *)
Definition new_HMCMemorySystem (config : Config) : res HMCMemorySystem :=
  if negb (IsHMC (dramp config)) then Err AbruptExit
  else
    ps ← SetClockRatio (dramp config);
    if channels (sysp config) <? 0 then Err RangeError
    else
      l ← new_controllers config;
      if num_links (dramp config) <? 0 then Err RangeError
      else
        let n := Z.to_nat (num_links (dramp config)) in
        Ok (mkHMC (mkJedec config 0 0 l) 0 ps 0 0 0 [] (replicate n []) (replicate n [])
              (replicate 4 []) (replicate 4 []) (replicate n 0) (replicate 4 0)
              (replicate n 0) (replicate 4 0)).

Definition links_ (m : HMCMemorySystem) : Z := num_links (dramp (config_ (hm_base m))).
Definition queue_depth_ (m : HMCMemorySystem) : Z := u64 (xbar_queue_depth (dramp (config_ (hm_base m)))).

(** [WillAcceptTransaction] *)
Definition HMC_WillAccept (a : Z) (is_write : bool) (m : HMCMemorySystem) : res bool :=
  Ok (existsb (λ q, vsize q <? queue_depth_ m) (link_req_queues_ m)).

(** The request type of a transaction of [block_size]. *)
Definition block_type (is_write : bool) (b : Z) : res HMCReqType :=
  if b =? 0 then Ok (if is_write then WR0 else RD0)
  else if b =? 32 then Ok (if is_write then WR32 else RD32)
  else if b =? 64 then Ok (if is_write then WR64 else RD64)
  else if b =? 128 then Ok (if is_write then WR128 else RD128)
  else if b =? 256 then Ok (if is_write then WR256 else RD256)
  else Err AbruptExit.

(** [IterateNextLink] *)
Definition IterateNextLink (m : HMCMemorySystem) : res HMCMemorySystem :=
  n ← int_chk (next_link_ m + 1);
  if links_ m =? 0 then Err DivByZero else Ok (m {{ next_link_ := Z.rem n (links_ m) }}).

(** [InsertReqToLink] *)
Definition InsertReqToLink (req : HMCRequest) (link : Z) (m : HMCMemorySystem) : res (bool * HMCMemorySystem) :=
  q ← vget (link_req_queues_ m) link;
  if vsize q <? queue_depth_ m then
    lq ← vset (link_req_queues_ m) link (q ++ [req {{ rq_link := link }}]);
    resp ← new_HMCResponse (mem_operand req) (rq_type req) link (rq_quad req);
    ages ← vset (link_age_counter_ m) link 1;
    Ok (true, m {{ link_req_queues_ := lq;
                   resp_lookup_table_ := resp_lookup_table_ m ++ [(resp_id resp, resp)];
                   link_age_counter_ := ages;
                   hm_base := (hm_base m) {{ last_req_clk_ := js_clk (hm_base m) }} }})
  else Ok (false, m).

(** The [while (start_link != next_link_)] of [InsertHMCReq]. *)
Fixpoint insert_loop (fuel : nat) (req : HMCRequest) (start_link : Z) (m : HMCMemorySystem)
    : res (bool * HMCMemorySystem) :=
  if next_link_ m =? start_link then Ok (false, m)
  else
    match fuel with
    | O => Err OutOfFuel
    | S f =>
        '(ok, m) ← InsertReqToLink req (next_link_ m) m;
        m ← IterateNextLink m;
        if (ok : bool) then Ok (true, m) else insert_loop f req start_link m
    end.

(** [InsertHMCReq]; the loop visits each other link once. *)
Definition InsertHMCReq (req : HMCRequest) (m : HMCMemorySystem) : res (bool * HMCMemorySystem) :=
  '(ok, m) ← InsertReqToLink req (next_link_ m) m;
  if (ok : bool) then m ← IterateNextLink m; Ok (true, m)
  else
    let start_link := next_link_ m in
    m ← IterateNextLink m;
    insert_loop (Z.to_nat (links_ m)) req start_link m.

(** [AddTransaction] *)
Definition HMC_AddTransaction (a : Z) (is_write : bool) (m : HMCMemorySystem) : res (bool * HMCMemorySystem) :=
  t ← block_type is_write (block_size (dramp (config_ (hm_base m))));
  req ← new_HMCRequest t a (channel_of a (hm_base m));
  InsertHMCReq req m.

(** ** The crossbar *)

(** [age_queue.insert] before the first position that is less than the age. *)
Fixpoint age_insert (age pos : Z) (age_queue : list Z) : list Z :=
  match age_queue with
  | [] => [pos]
  | it :: q => if it <? age then pos :: age_queue else it :: age_insert age pos q
  end.

(** [BuildAgeQueue] *)
Definition BuildAgeQueue (age_counter : list Z) (m : HMCMemorySystem) : res (list Z) :=
  let queue_len := vsize age_counter in
  start_pos ← umod (logic_clk_ m) queue_len;
  for_each (seqZ 0 queue_len) (λ i age_queue,
    let pos := Z.rem (i + start_pos) queue_len in
    age ← vget age_counter pos;
    Ok (if 0 <? age then age_insert age pos age_queue else age_queue)) [].

(** [if (i > 0) i -= 2] *)
Definition drain_busy (i : Z) : Z := if 0 <? i then i - 2 else i.

(** The first loop of [DrainRequests]: the quadrant [i] to its vault. *)
Definition quad_to_vault (i : Z) (m : HMCMemorySystem) : res HMCMemorySystem :=
  reqs ← vget (quad_req_queues_ m) i;
  resps ← vget (quad_resp_queues_ m) i;
  match reqs with
  | req :: rest =>
      if (vsize resps <? queue_depth_ m) && (rq_exit req <=? logic_clk_ m) then
        let b := hm_base m in
        c ← vget (ctrls_ b) (vault req);
        if Ctrl_WillAcceptTransaction (config_ b) (rq_is_write req) c then
          l ← vset (ctrls_ b) (vault req)
                (Ctrl_AddTransaction (new_Transaction (mem_operand req) (rq_is_write req)) c);
          q ← vset (quad_req_queues_ m) i rest;
          Ok (m {{ hm_base := b {{ ctrls_ := l }}; quad_req_queues_ := q }})
        else Ok m
      else Ok m
  | [] => Ok m
  end.

(** A turn of the loop over the age queue of the links. *)
Definition link_to_quad (src_link : Z) (m : HMCMemorySystem) : res HMCMemorySystem :=
  lq ← vget (link_req_queues_ m) src_link;
  req ← qfront lq;
  let dest_quad := rq_quad req in
  qq ← vget (quad_req_queues_ m) dest_quad;
  busy ← vget (quad_busy_ m) dest_quad;
  if (vsize qq <? queue_depth_ m) && (busy <=? 0) then
    rest ← qpop lq;
    lqs ← vset (link_req_queues_ m) src_link rest;
    let req := req {{ rq_exit := u64 (logic_clk_ m + rq_flits req) }} in
    qqs ← vset (quad_req_queues_ m) dest_quad (qq ++ [req]);
    busys ← vset (quad_busy_ m) dest_quad (rq_flits req);
    ages ← vset (link_age_counter_ m) src_link (if qempty rest then 0 else 1);
    Ok (m {{ link_req_queues_ := lqs; quad_req_queues_ := qqs; quad_busy_ := busys; link_age_counter_ := ages }})
  else
    ages ← vmod (link_age_counter_ m) src_link (λ a, int_chk (a + 1));
    Ok (m {{ link_age_counter_ := ages }}).

(** [DrainRequests] *)
Definition DrainRequests (m : HMCMemorySystem) : res HMCMemorySystem :=
  m ← for_each (seqZ 0 4) quad_to_vault m;
  let m := m {{ quad_busy_ := drain_busy <$> quad_busy_ m }} in
  age_queue ← BuildAgeQueue (link_age_counter_ m) m;
  for_each age_queue link_to_quad m.

(** The first loop of [DrainResponses]: link [i] to the client. *)
Definition link_to_cpu (i : Z) (s : list (Z * bool) * HMCMemorySystem) : res (list (Z * bool) * HMCMemorySystem) :=
  let '(evs, m) := s in
  resps ← vget (link_resp_queues_ m) i;
  match resps with
  | resp :: rest =>
      if rs_exit resp <=? logic_clk_ m then
        l ← vset (link_resp_queues_ m) i rest;
        let is_write := match rs_type resp with RD_RS => false | _ => true end in
        Ok (evs ++ [(resp_id resp, is_write)], m {{ link_resp_queues_ := l }})
      else Ok s
  | [] => Ok s
  end.

(** A turn of the loop over the age queue of the quadrants. *)
Definition quad_to_link (src_quad : Z) (m : HMCMemorySystem) : res HMCMemorySystem :=
  qq ← vget (quad_resp_queues_ m) src_quad;
  resp ← qfront qq;
  let dest_link := rs_link resp in
  lq ← vget (link_resp_queues_ m) dest_link;
  busy ← vget (link_busy_ m) dest_link;
  if (vsize lq <? queue_depth_ m) && (busy <=? 0) then
    rest ← qpop qq;
    qqs ← vset (quad_resp_queues_ m) src_quad rest;
    let resp := resp {{ rs_exit := u64 (logic_clk_ m + rs_flits resp) }} in
    lqs ← vset (link_resp_queues_ m) dest_link (lq ++ [resp]);
    busys ← vset (link_busy_ m) dest_link (rs_flits resp);
    ages ← vset (quad_age_counter_ m) src_quad (if qempty rest then 0 else 1);
    Ok (m {{ quad_resp_queues_ := qqs; link_resp_queues_ := lqs; link_busy_ := busys; quad_age_counter_ := ages }})
  else
    ages ← vmod (quad_age_counter_ m) src_quad (λ a, int_chk (a + 1));
    Ok (m {{ quad_age_counter_ := ages }}).

(** [DrainResponses], with the callbacks it makes. *)
Definition DrainResponses (m : HMCMemorySystem) : res (list (Z * bool) * HMCMemorySystem) :=
  '(evs, m) ← for_each (seqZ 0 (links_ m)) link_to_cpu ([], m);
  let m := m {{ link_busy_ := drain_busy <$> link_busy_ m }} in
  age_queue ← BuildAgeQueue (quad_age_counter_ m) m;
  m ← for_each age_queue quad_to_link m;
  Ok (evs, m).

(** ** The vaults and the clocks *)

(** [resp_lookup_table_.find] and [erase]; looking at [end()] is undefined. *)
Fixpoint table_take (id : Z) (t : list (Z * HMCResponse)) : option (HMCResponse * list (Z * HMCResponse)) :=
  match t with
  | [] => None
  | (k, r) :: t' =>
      if k =? id then Some (r, t')
      else match table_take id t' with Some (r', t'') => Some (r', (k, r) :: t'') | None => None end
  end.

(** [VaultCallback] *)
Definition VaultCallback (e : Z * bool) (m : HMCMemorySystem) : res HMCMemorySystem :=
  '(resp, t) ← of_option OutOfRange (table_take (fst e) (resp_lookup_table_ m));
  qqs ← vmod (quad_resp_queues_ m) (rs_quad resp) (λ q, Ok (q ++ [resp]));
  ages ← vset (quad_age_counter_ m) (rs_quad resp) 1;
  Ok (m {{ resp_lookup_table_ := t; quad_resp_queues_ := qqs; quad_age_counter_ := ages }}).

(** [DRAMClockTick] is [JedecDRAMSystem::ClockTick] with [VaultCallback] for the
    callbacks, which leaves the controllers alone. *)
Definition DRAMClockTick (m : HMCMemorySystem) : res HMCMemorySystem :=
  '(evs, b) ← JS_ClockTick (hm_base m);
  for_each evs VaultCallback (m {{ hm_base := b }}).

(** The end of a logic cycle. *)
Definition logic_step (m : HMCMemorySystem) : HMCMemorySystem :=
  m {{ logic_ps_ := u64 (logic_ps_ m + ps_per_logic_ m); logic_clk_ := u64 (logic_clk_ m + 1) }}.

(** The [while (logic_ps_ < dram_ps_ + ps_per_dram_)]. *)
Fixpoint logic_loop (fuel : nat) (m : HMCMemorySystem) : res (list (Z * bool) * HMCMemorySystem) :=
  if logic_ps_ m <? u64 (dram_ps_ m + ps_per_dram_) then
    match fuel with
    | O => Err OutOfFuel
    | S f =>
        '(e1, m) ← DrainResponses m;
        m ← DrainRequests m;
        '(e2, m) ← logic_loop f (logic_step m);
        Ok (e1 ++ e2, m)
    end
  else Ok ([], m).

(** [ClockTick]; a logic cycle takes at least a picosecond. *)
Definition HMC_ClockTick (m : HMCMemorySystem) : res (list (Z * bool) * HMCMemorySystem) :=
  '(e1, m) ← (if dram_ps_ m =? logic_ps_ m then
                '(e, m) ← DrainResponses m;
                m ← DRAMClockTick m;
                m ← DrainRequests m;
                Ok (e, logic_step m)
              else m ← DRAMClockTick m; Ok ([], m));
  '(e2, m) ← logic_loop (Z.to_nat (2 * ps_per_dram_)) m;
  Ok (e1 ++ e2, m {{ dram_ps_ := u64 (dram_ps_ m + ps_per_dram_) }}).

(** The interface of [MemorySystem]. *)
Section Interface.
Variable isQueueFill : HMCMemorySystem → bool.

#[global] Instance hmc_ms : MemorySystem HMCMemorySystem := {
  WillAcceptTransaction := HMC_WillAccept;
  ms_AddTransaction a w m := '(_, m) ← HMC_AddTransaction a w m; Ok m;
  ms_ClockTick := HMC_ClockTick;
  IsQueueFill := isQueueFill }.
End Interface.

(** ** Outcomes

    What a step does: if it ends, its result satisfies [Q]; under [good] it does end,
    and its result also satisfies [R]. *)
Definition outcome {A} (good : Prop) (Q R : A → Prop) (r : res A) : Prop :=
  match r with Ok x => Q x ∧ (good → R x) | Err _ => ¬ good end.

Section Outcomes.
Context {A B : Type} (good : Prop).
Implicit Types (r : res A) (f : A → res B).

Lemma outcome_bind (Q R : A → Prop) (Q' R' : B → Prop) r f :
  outcome good Q R r → (∀ x, Q x → outcome (good ∧ R x) Q' R' (f x)) → outcome good Q' R' (r ≫= f).
Proof.
  destruct r as [x|e]; cbn; [|done]. intros [Hq Hr] Hf. specialize (Hf x Hq).
  destruct (f x) as [y|e]; cbn in *; naive_solver.
Qed.

Lemma outcome_Ok_bind r x (Q R : B → Prop) f :
  r = Ok x → outcome good Q R (f x) → outcome good Q R (r ≫= f).
Proof. by intros ->. Qed.

Lemma outcome_get (l : list A) i (Q R : B → Prop) f :
  (good → 0 ≤ i < vsize l) → (∀ x, vget l i = Ok x → l !! Z.to_nat i = Some x → outcome good Q R (f x)) →
  outcome good Q R (vget l i ≫= f).
Proof.
  intros Hi Hf. destruct (vget l i) as [x|e] eqn:E; cbn.
  - apply Hf; [done|]. by apply vget_lookup in E as [].
  - intros Hg. destruct (vget_is_Ok l i (Hi Hg)) as [x Hx]. congruence.
Qed.

Lemma outcome_set (l : list A) i x (Q R : B → Prop) (f : list A → res B) :
  0 ≤ i < vsize l → outcome good Q R (f (<[Z.to_nat i := x]> l)) → outcome good Q R (vset l i x ≫= f).
Proof. intros Hi Hf. by rewrite vset_Ok. Qed.

Lemma outcome_vmod (l : list A) i g (Q R : B → Prop) (f : list A → res B) :
  (good → 0 ≤ i < vsize l) →
  (∀ x, vget l i = Ok x → l !! Z.to_nat i = Some x →
    match g x with Ok y => outcome good Q R (f (<[Z.to_nat i := y]> l)) | Err _ => ¬ good end) →
  outcome good Q R (vmod l i g ≫= f).
Proof.
  intros Hi Hf. unfold vmod. destruct (vget l i) as [x|e] eqn:E; cbn.
  - apply vget_lookup in E as HE. specialize (Hf x eq_refl (proj2 HE)). destruct (g x) as [y|e']; cbn; [|done].
    rewrite vset_Ok by (by eapply vget_range). exact Hf.
  - intros Hg. destruct (vget_is_Ok l i (Hi Hg)) as [x Hx]. congruence.
Qed.

Lemma outcome_weaken (good' : Prop) (Q Q' R R' : A → Prop) r :
  outcome good Q R r → (good' → good) → (∀ x, Q x → Q' x) → (∀ x, good' → Q x → R x → R' x) → outcome good' Q' R' r.
Proof. destruct r as [x|e]; cbn; naive_solver. Qed.

Lemma outcome_ends (Q R : A → Prop) r : outcome good Q R r → good → ∃ x, r = Ok x ∧ Q x ∧ R x.
Proof. destruct r as [x|e]; cbn; naive_solver. Qed.

Lemma outcome_inv (Q R : A → Prop) r x : outcome good Q R r → r = Ok x → Q x.
Proof. intros H ->. apply H. Qed.
End Outcomes.

Lemma outcome_assoc {A B C} good (Q R : C → Prop) (r : res A) (f : A → res B) (g : B → res C) :
  outcome good Q R ((r ≫= f) ≫= g) → outcome good Q R (x ← r; f x ≫= g).
Proof. by destruct r. Qed.

Lemma outcome_step {A B} (good good' : Prop) (Q R : A → Prop) (Q' R' : B → Prop) (r : res A) (f : A → res B) :
  outcome good' Q R r → (good → good') → (∀ x, Q x → outcome (good ∧ R x) Q' R' (f x)) → outcome good Q' R' (r ≫= f).
Proof. intros Hr Hg. apply outcome_bind. by eapply outcome_weaken. Qed.

Lemma outcome_for_each {A S} (Q R : list A → S → Prop) l (body : A → S → res S) s :
  Q l s → (∀ x l s, Q (x :: l) s → outcome (R (x :: l) s) (Q l) (R l) (body x s)) →
  outcome (R l s) (Q []) (R []) (for_each l body s).
Proof.
  intros Hs Hb. revert s Hs. induction l as [|x l IH]; intros s Hs; cbn [for_each]; [done|].
  eapply outcome_bind; [by apply Hb|]. intros s' Hs'. eapply outcome_weaken; [by apply IH|..]; naive_solver.
Qed.

(** ** The age queue *)

Lemma age_insert_perm a p q : age_insert a p q ≡ₚ p :: q.
Proof.
  induction q as [|x q IH]; [done|]. cbn [age_insert]. destruct (x <? a); [done|]. rewrite IH. by apply Permutation_swap.
Qed.

Lemma wrap_mod x n : 0 ≤ x < 2 * n → x mod n = if x <? n then x else x - n.
Proof.
  intros Hx. destruct (Z.ltb_spec x n); [apply Z.mod_small; lia|].
  symmetry. apply (Z.mod_unique _ _ 1); lia.
Qed.

(** It holds each position with a positive age once. *)
Lemma BuildAgeQueue_ok ages m :
  0 < vsize ages →
  ∃ q, BuildAgeQueue ages m = Ok q ∧ NoDup q ∧
    ∀ p, p ∈ q → ∃ a, vget ages p = Ok a ∧ 0 < a.
Proof.
  intros Hl. unfold BuildAgeQueue. rewrite umod_Ok, bind_Ok by lia. set (n := vsize ages) in *.
  set (start := logic_clk_ m mod n). assert (0 ≤ start < n) as Hst by (apply Z.mod_pos_bound; lia).
  set (pos := λ i, Z.rem (i + start) n).
  assert (∀ i, 0 ≤ i → pos i = (i + start) mod n) as Hpos by (intros i Hi; apply Z.rem_mod_nonneg; lia).
  assert (∀ l q0, Forall (λ i, 0 ≤ i) l → ∃ q, for_each l (λ i age_queue, age ← vget ages (pos i);
      Ok (if 0 <? age then age_insert age (pos i) age_queue else age_queue)) q0 = Ok q ∧
    ∃ l', sublist l' (pos <$> l) ∧ q ≡ₚ l' ++ q0 ∧ Forall (λ p, ∃ a, vget ages p = Ok a ∧ 0 < a) l') as Hl'.
  { induction l as [|i l IH]; intros q0 Hi.
    { exists q0. split; [done|]. exists []. split; [done|]. split; [done | constructor]. }
    apply Forall_cons in Hi as [Hi Hil]. cbn [for_each].
    destruct (vget_is_Ok ages (pos i)) as [a Ha]; [rewrite Hpos by done; apply Z.mod_pos_bound; lia|].
    rewrite Ha, !bind_Ok. destruct (IH (if 0 <? a then age_insert a (pos i) q0 else q0) Hil) as (q & -> & l' & Hs & Hp & Hf).
    exists q. split; [done|]. destruct (Z.ltb_spec 0 a).
    - exists (pos i :: l'). split; [by constructor|]. split; [|constructor; [by exists a | done]].
      rewrite Hp, age_insert_perm. symmetry. apply Permutation_middle.
    - exists l'. split; [by constructor|]. done. }
  destruct (Hl' (seqZ 0 n) []) as (q & E & l' & Hs & Hp & Hf).
  { apply Forall_forall. intros i Hi%elem_of_seqZ. lia. }
  exists q. split; [exact E|]. rewrite app_nil_r in Hp. split.
  - rewrite Hp. eapply sublist_NoDup; [|exact Hs]. apply NoDup_fmap_2_strong; [|apply NoDup_seqZ].
    intros i j Hi%elem_of_seqZ Hj%elem_of_seqZ. rewrite !Hpos, !wrap_mod by lia.
    destruct (Z.ltb_spec (i + start) n), (Z.ltb_spec (j + start) n); lia.
  - intros p Hin. rewrite Hp in Hin. rewrite Forall_forall in Hf. by apply Hf.
Qed.

(** Taking the first of a queue, and adding to one. *)
Definition age_ok {A} (q : list A) (a : Z) : Prop := 0 ≤ a ∧ (0 < a ↔ q ≠ []).

Lemma age_ok_snoc {A} (q : list A) x : age_ok (q ++ [x]) 1.
Proof. split; [done|]. split; [by destruct q | done]. Qed.

Lemma age_ok_reset {A} (q : list A) : age_ok q (if qempty q then 0 else 1).
Proof. by destruct q; split; cbn. Qed.

(** In the middle of a pass over an age queue: the positions left have an age of at
    most [lim], none more than one above. *)
Record aging (lim : Z) (l ages : list Z) : Prop := {
  ag_bound : Forall (λ a, a ≤ lim + 1) ages; ag_nodup : NoDup l;
  ag_left : ∀ p, p ∈ l → ∃ a, vget ages p = Ok a ∧ 0 < a ≤ lim }.

Lemma aging_start lim ages m :
  0 < vsize ages → Forall (λ a, a ≤ lim) ages → ∃ q, BuildAgeQueue ages m = Ok q ∧ aging lim q ages.
Proof.
  intros Hs Ha. destruct (BuildAgeQueue_ok ages m Hs) as (q & E & Hq & Hp). exists q. split; [done|]. split; [|done|].
  - eapply Forall_impl; [exact Ha|]. cbn. lia.
  - intros p Hin. destruct (Hp p Hin) as (a & Hg & H0). exists a. split; [done|].
    apply vget_lookup in Hg as [_ Hg]. pose proof (Forall_lookup_1 _ _ _ _ Ha Hg) as Hle. cbn in Hle. lia.
Qed.

Lemma aging_step lim p l ages b :
  aging lim (p :: l) ages → b ≤ lim + 1 → aging lim l (<[Z.to_nat p := b]> ages).
Proof.
  intros [Hb [Hp Hn]%NoDup_cons Hl] Hle. split; [by apply Forall_insert | done |].
  intros p' Hin. destruct (Hl p) as (a & Ha & _); [set_solver|]. apply vget_range in Ha.
  destruct (Hl p') as (a' & Ha' & Hle'); [set_solver|]. exists a'. split; [|done].
  rewrite vget_insert, decide_False; [done | by intros -> | done].
Qed.

Lemma aging_head lim p l ages : aging lim (p :: l) ages → ∃ a, vget ages p = Ok a ∧ 0 < a ≤ lim.
Proof. intros [_ _ H]. apply H. set_solver. Qed.

(** ** The vaults *)

(** The clock of the last request does not matter. *)
Lemma sys_ok_last n k (b : JedecDRAMSystem) : sys_ok n b → sys_ok n (b {{ last_req_clk_ := k }}).
Proof. destruct b. intros [[W1 W2] W3 W4 W5]. by split. Qed.

Lemma sys_wf_last k (b : JedecDRAMSystem) : sys_wf b → sys_wf (b {{ last_req_clk_ := k }}).
Proof. destruct b. intros [W1 W2]. by split. Qed.

Lemma vault_add a w (b : JedecDRAMSystem) c :
  sys_wf b → vget (ctrls_ b) (channel_of a b) = Ok c → Ctrl_WillAcceptTransaction (config_ b) w c = true →
  let b' := b {{ ctrls_ := <[Z.to_nat (channel_of a b) := Ctrl_AddTransaction (new_Transaction a w) c]> (ctrls_ b) }} in
  sys_wf b' ∧ js_pending b' ≡ₚ (a, w) :: js_pending b ∧ ∀ n, sys_ok n b → sys_ok n b'.
Proof.
  intros W Hc Ha. cbv zeta. assert (JS_WillAccept a w b = Ok true) as E by (unfold JS_WillAccept; by rewrite Hc, bind_Ok, Ha).
  destruct (add_ok a w b W E) as (c' & b1 & Hc' & E1 & Ecf & Ek & El). rewrite Hc in Hc'. injection Hc' as <-.
  pose proof (λ n H, add_sys_ok n a w b b1 H E1) as Hok. pose proof (add_pending a w b b1 c Hc El) as Hp.
  destruct b as [cf k lr cs]. destruct b1 as [cf1 k1 lr1 cs1]. cbn in *. subst cf1 k1 cs1.
  split; [|split; [exact Hp | intros n Hn; exact (sys_ok_last n lr _ (Hok n Hn))]].
  destruct W as [W1 W2]. split; [done|]. cbn in *. by rewrite vsize_insert.
Qed.

(** ** The invariant *)

Definition resp_txn (r : HMCResponse) : Z * bool :=
  (resp_id r, match rs_type r with RD_RS => false | _ => true end).

(** What a packet keeps on its way. *)
Definition req_key (r : HMCRequest) : Z * Z * Z := (mem_operand r, rq_quad r, vault r).
Definition resp_key (r : HMCResponse) : Z * bool * Z * Z := (resp_txn r, rs_link r, rs_quad r).

Definition reqs (m : HMCMemorySystem) : list (Z * Z * Z) :=
  req_key <$> concat (link_req_queues_ m) ++ concat (quad_req_queues_ m).
Definition resps (m : HMCMemorySystem) : list (Z * bool * Z * Z) :=
  resp_key <$> (snd <$> resp_lookup_table_ m) ++ concat (quad_resp_queues_ m) ++ concat (link_resp_queues_ m).

(** The transactions accepted and not reported. *)
Definition hmc_pending (m : HMCMemorySystem) : list (Z * bool) := (λ k, k.1.1) <$> resps m.

Definition clocks (m : HMCMemorySystem) : Z * Z * Z * Z := (logic_clk_ m, ps_per_logic_ m, logic_ps_ m, dram_ps_ m).

Lemma concat_elem {A} (qs : list (list A)) i x q : qs !! i = Some (x :: q) → x ∈ concat qs.
Proof. intros Hi. rewrite (concat_insert_tail qs i x q Hi). set_solver. Qed.

(** A packet moves from a queue of one layer to a queue of the next. *)
Lemma shift_perm {A K} (key : A → K) (from to : list (list A)) i j x x' rest q :
  from !! i = Some (x :: rest) → to !! j = Some q → key x' = key x →
  key <$> concat (<[i := rest]> from) ++ concat (<[j := q ++ [x']]> to) ≡ₚ key <$> concat from ++ concat to.
Proof.
  intros Hi Hj Hk. rewrite (concat_insert_snoc _ _ _ _ Hj), (concat_insert_tail from i x rest Hi), !fmap_app. cbn. rewrite Hk.
  rewrite app_assoc. by rewrite (Permutation_app_comm _ [key x]).
Qed.

Section Invariant.
Variable config : Config.

Abbreviation L := (num_links (dramp config)).

Definition req_ok (k : Z * Z * Z) : Prop := 0 ≤ k.1.2 < 4 ∧ k.2 = GetChannel (amap config) k.1.1.
Definition resp_ok (k : Z * bool * Z * Z) : Prop := 0 ≤ k.1.2 < L ∧ 0 ≤ k.2 < 4.

Record hmc_sizes (m : HMCMemorySystem) : Prop := {
  hs_config : config_ (hm_base m) = config; hs_base : sys_wf (hm_base m);
  hs_links : 1 ≤ L < 2 ^ 31; hs_next : 0 ≤ next_link_ m < L;
  hs_lreq : vsize (link_req_queues_ m) = L; hs_lresp : vsize (link_resp_queues_ m) = L;
  hs_qreq : vsize (quad_req_queues_ m) = 4; hs_qresp : vsize (quad_resp_queues_ m) = 4;
  hs_lbusy : vsize (link_busy_ m) = L; hs_qbusy : vsize (quad_busy_ m) = 4;
  hs_lage : vsize (link_age_counter_ m) = L; hs_qage : vsize (quad_age_counter_ m) = 4 }.

(** [evs]: callbacks of the vaults that are still to be made. *)
Record hmc_inv (evs : list (Z * bool)) (m : HMCMemorySystem) : Prop := {
  hi_sizes : hmc_sizes m;
  hi_reqs : Forall req_ok (reqs m);
  hi_resps : Forall resp_ok (resps m);
  hi_keys : Forall (λ e, e.1 = resp_id e.2) (resp_lookup_table_ m);
  hi_table : fst <$> resp_lookup_table_ m ≡ₚ
             ((λ k, k.1.1) <$> reqs m) ++ (fst <$> evs ++ js_pending (hm_base m));
  hi_lage : Forall2 age_ok (link_req_queues_ m) (link_age_counter_ m);
  hi_qage : Forall2 age_ok (quad_resp_queues_ m) (quad_age_counter_ m) }.

(** The steps that move packets: they report [out] and leave the clocks. *)
Record moved (out : list (Z * bool)) (m m' : HMCMemorySystem) : Prop := {
  mv_inv : hmc_inv [] m'; mv_pending : hmc_pending m ≡ₚ out ++ hmc_pending m'; mv_clocks : clocks m' = clocks m }.

Lemma moved_refl m : hmc_inv [] m → moved [] m m.
Proof. done. Qed.

Lemma moved_trans o1 o2 m m1 m2 : moved o1 m m1 → moved o2 m1 m2 → moved (o1 ++ o2) m m2.
Proof. intros [_ P1 C1] [W P2 C2]. split; [done | by rewrite P1, P2, app_assoc | congruence]. Qed.

(** A link is visited with what its queue and its vectors have there. *)
Lemma at_queue {A} (l : list A) i n : vsize l = n → 0 ≤ i < n → ∃ x, vget l i = Ok x ∧ l !! Z.to_nat i = Some x.
Proof. intros <- Hi. destruct (vget_is_Ok l i Hi) as [x Hx]. exists x. split; [done|]. by apply vget_lookup in Hx as []. Qed.

(** ** The crossbar *)

Lemma link_to_quad_ok lim p l m :
  hmc_inv [] m →
  outcome (lim < 2 ^ 31 - 1 ∧ aging lim (p :: l) (link_age_counter_ m)) (moved [] m)
    (λ m', aging lim l (link_age_counter_ m') ∧ quad_age_counter_ m' = quad_age_counter_ m ∧ hm_base m' = hm_base m)
    (link_to_quad p m).
Proof.
  intros W. pose proof W as [[Sc Sb Sl Sn Slq Slr Sqq Sqr Slb Sqb Sla Sqa] Wr Wp Wk Wt Wla Wqa].
  unfold link_to_quad. apply outcome_get.
  { intros [_ (a & Ha%vget_range & _)%aging_head]. by rewrite Slq, <- Sla. }
  intros lq Hlq Llq. pose proof (vget_range _ _ _ Hlq) as Hp. destruct lq as [|req rest].
  { intros [_ (a & Ha & [H0 _])%aging_head]. apply vget_lookup in Ha as [_ Ha].
    destruct (Forall2_lookup_lr _ _ _ _ _ _ Wla Llq Ha) as [_ [Hage _]]. by apply Hage. }
  cbn [qfront qpop]. rewrite !bind_Ok.
  assert (0 ≤ rq_quad req < 4) as Hq.
  { rewrite Forall_forall in Wr. apply (Wr (req_key req)). apply list_elem_of_fmap_2, elem_of_app. left.
    by eapply concat_elem. }
  destruct (at_queue _ _ _ Sqq Hq) as (qq & Eqq & Lqq). rewrite Eqq, bind_Ok.
  destruct (at_queue _ _ _ Sqb Hq) as (busy & Ebusy & _). rewrite Ebusy, bind_Ok.
  destruct (_ && _).
  - rewrite bind_Ok. apply outcome_set; [done|]. apply outcome_set; [by rewrite Sqq|]. apply outcome_set; [by rewrite Sqb|].
    apply outcome_set; [by rewrite Sla, <- Slq|].
    set (req' := req {{ rq_exit := _ }}). assert (req_key req' = req_key req) as Ek by (by destruct req). clearbody req'.
    pose proof (shift_perm req_key _ _ _ _ _ req' _ _ Llq Lqq Ek) as Hperm.
    split; [|intros [Hlim Hag]; cbn; split_and!; [|done..]].
    + split; cbn; [|done|done]. split; cbn; rewrite ?vsize_insert; try done.
      * split; cbn; rewrite ?vsize_insert; try done.
      * unfold reqs in *. cbn. by rewrite Hperm.
      * unfold reqs in *. cbn. by rewrite Hperm.
      * apply Forall2_insert; [done|]. apply age_ok_reset.
    + destruct (aging_head _ _ _ _ Hag) as (a & _ & Ha). apply aging_step; [done|]. destruct (qempty rest); lia.
  - apply outcome_vmod; [by intros _; rewrite Sla, <- Slq|]. intros a Ha La.
    destruct (int_chk (a + 1)) as [b|e] eqn:Ei; cycle 1.
    { intros [Hlim (a' & Ha' & Hle)%aging_head]. rewrite Ha in Ha'. injection Ha' as <-. by rewrite int_chk_Ok in Ei by lia. }
    apply int_chk_inv in Ei as [-> _].
    split; [|intros [Hlim Hag]; cbn; split_and!; [|done..]].
    + destruct m as [b lc ps lps dps nl tb lrq lsp qrq qsp lb qb la qa]; cbn in *.
      split; cbn; [|done|done]. split; cbn; rewrite ?vsize_insert; try done.
      * split; cbn; rewrite ?vsize_insert; try done.
      * rewrite <- (list_insert_id lrq (Z.to_nat p) (req :: rest)) by done.
        apply Forall2_insert; [done|]. destruct (Forall2_lookup_lr _ _ _ _ _ _ Wla Llq La) as [H0 _].
        split; [lia|]. split; [done|lia].
    + apply aging_step; [done|]. destruct (aging_head _ _ _ _ Hag) as (a' & Ha' & Hle). rewrite Ha in Ha'. injection Ha' as <-. lia.
Qed.

(** The same for responses. *)
Lemma quad_to_link_ok lim p l m :
  hmc_inv [] m →
  outcome (lim < 2 ^ 31 - 1 ∧ aging lim (p :: l) (quad_age_counter_ m)) (moved [] m)
    (λ m', aging lim l (quad_age_counter_ m') ∧ link_age_counter_ m' = link_age_counter_ m ∧ hm_base m' = hm_base m)
    (quad_to_link p m).
Proof.
  intros W. pose proof W as [[Sc Sb Sl Sn Slq Slr Sqq Sqr Slb Sqb Sla Sqa] Wr Wp Wk Wt Wla Wqa].
  unfold quad_to_link. apply outcome_get.
  { intros [_ (a & Ha%vget_range & _)%aging_head]. by rewrite Sqr, <- Sqa. }
  intros qq Hqq Lqq. pose proof (vget_range _ _ _ Hqq) as Hp. destruct qq as [|resp rest].
  { intros [_ (a & Ha & [H0 _])%aging_head]. apply vget_lookup in Ha as [_ Ha].
    destruct (Forall2_lookup_lr _ _ _ _ _ _ Wqa Lqq Ha) as [_ [Hage _]]. by apply Hage. }
  cbn [qfront qpop]. rewrite !bind_Ok.
  assert (0 ≤ rs_link resp < L) as Hq.
  { rewrite Forall_forall in Wp. apply (Wp (resp_key resp)). apply list_elem_of_fmap_2, elem_of_app. right.
    apply elem_of_app. left. by eapply concat_elem. }
  destruct (at_queue _ _ _ Slr Hq) as (lq & Elq & Llq). rewrite Elq, bind_Ok.
  destruct (at_queue _ _ _ Slb Hq) as (busy & Ebusy & _). rewrite Ebusy, bind_Ok.
  destruct (_ && _).
  - rewrite bind_Ok. apply outcome_set; [done|]. apply outcome_set; [by rewrite Slr|]. apply outcome_set; [by rewrite Slb|].
    apply outcome_set; [by rewrite Sqa, <- Sqr|].
    set (resp' := resp {{ rs_exit := _ }}). assert (resp_key resp' = resp_key resp) as Ek by (by destruct resp). clearbody resp'.
    pose proof (shift_perm resp_key _ _ _ _ _ resp' _ _ Lqq Llq Ek) as Hperm.
    split; [|intros [Hlim Hag]; cbn; split_and!; [|done..]].
    + destruct m as [b lc ps lps dps nl tb lrq lsp qrq qsp lb qb la qa]; cbn in *.
      pose proof (Permutation_app_head (resp_key <$> (snd <$> tb)) Hperm) as Hm. rewrite <- !fmap_app in Hm.
      split; cbn; [|symmetry; by apply fmap_Permutation, Hm|done]. split; cbn; rewrite ?vsize_insert; try done.
      * split; cbn; rewrite ?vsize_insert; try done.
      * unfold resps in *. cbn in *. by rewrite Hm.
      * apply Forall2_insert; [done|]. apply age_ok_reset.
    + destruct (aging_head _ _ _ _ Hag) as (a & _ & Ha). apply aging_step; [done|]. destruct (qempty rest); lia.
  - apply outcome_vmod; [by intros _; rewrite Sqa, <- Sqr|]. intros a Ha La.
    destruct (int_chk (a + 1)) as [b|e] eqn:Ei; cycle 1.
    { intros [Hlim (a' & Ha' & Hle)%aging_head]. rewrite Ha in Ha'. injection Ha' as <-. by rewrite int_chk_Ok in Ei by lia. }
    apply int_chk_inv in Ei as [-> _].
    split; [|intros [Hlim Hag]; cbn; split_and!; [|done..]].
    + destruct m as [b lc ps lps dps nl tb lrq lsp qrq qsp lb qb la qa]; cbn in *.
      split; cbn; [|done|done]. split; cbn; rewrite ?vsize_insert; try done.
      * split; cbn; rewrite ?vsize_insert; try done.
      * rewrite <- (list_insert_id qsp (Z.to_nat p) (resp :: rest)) by done.
        apply Forall2_insert; [done|]. destruct (Forall2_lookup_lr _ _ _ _ _ _ Wqa Lqq La) as [H0 _].
        split; [lia|]. split; [done|lia].
    + apply aging_step; [done|]. destruct (aging_head _ _ _ _ Hag) as (a' & Ha' & Hle). rewrite Ha in Ha'. injection Ha' as <-. lia.
Qed.

Lemma quad_to_vault_ok i m :
  hmc_inv [] m →
  outcome (0 ≤ i < 4) (moved [] m)
    (λ m', link_age_counter_ m' = link_age_counter_ m ∧ quad_age_counter_ m' = quad_age_counter_ m ∧
           ∀ n, sys_ok n (hm_base m) → sys_ok n (hm_base m')) (quad_to_vault i m).
Proof.
  intros W. pose proof W as [[Sc Sb Sl Sn Slq Slr Sqq Sqr Slb Sqb Sla Sqa] Wr Wp Wk Wt Wla Wqa].
  assert (moved [] m m ∧ (0 ≤ i < 4 → link_age_counter_ m = link_age_counter_ m ∧
    quad_age_counter_ m = quad_age_counter_ m ∧ ∀ n, sys_ok n (hm_base m) → sys_ok n (hm_base m))) as Hidle by done.
  unfold quad_to_vault. apply outcome_get; [by rewrite Sqq|].
  intros q Hi%vget_range Lq. apply outcome_get; [by rewrite Sqr|]. intros qr _ _.
  destruct q as [|req rest]; [exact Hidle|]. destruct (_ && _); [|exact Hidle].
  assert (req_ok (req_key req)) as [_ Hv].
  { rewrite Forall_forall in Wr. apply Wr, list_elem_of_fmap_2, elem_of_app. right. by eapply concat_elem. }
  cbn in Hv. assert (vault req = channel_of (mem_operand req) (hm_base m)) as Hch by (unfold channel_of; by rewrite Sc).
  destruct (channel_ctrl (hm_base m) (mem_operand req) Sb) as (c & Hc & _). rewrite Hch, Hc, bind_Ok.
  destruct (Ctrl_WillAcceptTransaction _ _ c) eqn:Ha; [|exact Hidle]. pose proof (vget_range _ _ _ Hc).
  destruct (vault_add _ (rq_is_write req) _ c Sb Hc Ha) as (Wb & Pb & Hb).
  apply outcome_set; [done|]. apply outcome_set; [done|].
  destruct m as [[cf jk lr cs] lc ps lps dps nl tb lrq lsp qrq qsp lb qb la qa]; cbn in *.
  set (b := mkJedec cf jk lr cs) in *. set (b' := mkJedec cf jk lr (<[_ := _]> cs)) in *.
  assert (config_ b' = config) as Sc' by done.
  change (js_pending b' ≡ₚ (mem_operand req, rq_is_write req) :: js_pending b) in Pb. clearbody b'.
  pose proof (concat_insert_tail qrq _ _ _ Lq) as Hq.
  split; [|done]. split; cbn; [|done|done].
  assert (reqs (mkHMC b lc ps lps dps nl tb lrq lsp qrq qsp lb qb la qa) ≡ₚ
    req_key req :: reqs (mkHMC b' lc ps lps dps nl tb lrq lsp (<[Z.to_nat i := rest]> qrq) qsp lb qb la qa)) as Hr.
  { unfold reqs. cbn. rewrite Hq, !fmap_app. cbn. symmetry. apply Permutation_middle. }
  split; cbn; try done.
  - split; cbn; rewrite ?vsize_insert; done.
  - rewrite Hr in Wr. by apply Forall_cons in Wr as [_ Wr].
  - rewrite Wt, Pb, Hr. cbn. by rewrite <- Permutation_middle.
Qed.

Lemma moved_busy m : hmc_inv [] m → moved [] m (m {{ quad_busy_ := drain_busy <$> quad_busy_ m }}) ∧
  moved [] m (m {{ link_busy_ := drain_busy <$> link_busy_ m }}).
Proof.
  destruct m as [b lc ps lps dps nl tb lrq lsp qrq qsp lb qb la qa]. cbn.
  intros W. pose proof W as [[Sc Sb Sl Sn Slq Slr Sqq Sqr Slb Sqb Sla Sqa] Wr Wp Wk Wt Wla Wqa]. cbn in *.
  split; (split; [|done..]); (split; [split; cbn; try done | done..]); unfold vsize in *; by rewrite length_fmap.
Qed.

Lemma moved_after o m m1 m2 : moved [] m m1 → moved o m1 m2 → moved o m m2.
Proof. apply (moved_trans [] o). Qed.

(** The pass over an age queue that ends both drains. *)
Lemma age_pass_ok (body : Z → HMCMemorySystem → res HMCMemorySystem) (ages other : HMCMemorySystem → list Z) lim m :
  (∀ p l s, hmc_inv [] s → outcome (lim < 2 ^ 31 - 1 ∧ aging lim (p :: l) (ages s)) (moved [] s)
    (λ s', aging lim l (ages s') ∧ other s' = other s ∧ hm_base s' = hm_base s) (body p s)) →
  hmc_inv [] m → 0 < vsize (ages m) →
  outcome (lim < 2 ^ 31 - 1 ∧ Forall (λ a, a ≤ lim) (ages m)) (moved [] m)
    (λ m', Forall (λ a, a ≤ lim + 1) (ages m') ∧ other m' = other m ∧ hm_base m' = hm_base m)
    (q ← BuildAgeQueue (ages m) m; for_each q body m).
Proof.
  intros Hb W Hs. destruct (BuildAgeQueue_ok (ages m) m Hs) as (q & E & _). rewrite E, bind_Ok.
  set (R l s := lim < 2 ^ 31 - 1 ∧ aging lim l (ages s) ∧ other s = other m ∧ hm_base s = hm_base m).
  apply (outcome_weaken (R q m) _ (moved [] m) _ (R [])).
  - apply (outcome_for_each (λ _ s, moved [] m s) R); [by apply moved_refl|]. intros p l s Ms.
    eapply outcome_weaken; [by apply Hb, Ms| | |].
    + by intros (Hl & Ha & _).
    + intros s'. by apply moved_after.
    + intros s' (Hl & _ & E1 & E2) _ (Ha & E1' & E2'). split; [done|]. split; [done|]. split; congruence.
  - intros [Hl Ha]. destruct (aging_start lim (ages m) m Hs Ha) as (q' & E' & Hag). rewrite E in E'. by injection E' as <-.
  - done.
  - intros s _ _ (_ & [Ha _ _] & E1 & E2). done.
Qed.

(** The two passes of [DrainRequests]. *)
Lemma DrainRequests_ok lim n m :
  hmc_inv [] m →
  outcome (lim < 2 ^ 31 - 1 ∧ Forall (λ a, a ≤ lim) (link_age_counter_ m) ∧ sys_ok n (hm_base m)) (moved [] m)
    (λ m', Forall (λ a, a ≤ lim + 1) (link_age_counter_ m') ∧ quad_age_counter_ m' = quad_age_counter_ m ∧
           sys_ok n (hm_base m')) (DrainRequests m).
Proof.
  intros W. unfold DrainRequests.
  set (same s := link_age_counter_ s = link_age_counter_ m ∧ quad_age_counter_ s = quad_age_counter_ m ∧
    (sys_ok n (hm_base m) → sys_ok n (hm_base s))).
  apply (outcome_bind _ (moved [] m) same).
  { eapply (outcome_weaken (Forall (λ i, 0 ≤ i < 4) (seqZ 0 4) ∧ same m)).
    - apply (outcome_for_each (λ _ s, moved [] m s) (λ l s, Forall (λ i, 0 ≤ i < 4) l ∧ same s)); [by apply moved_refl|].
      intros i l s Hs. eapply outcome_weaken; [apply quad_to_vault_ok, Hs|..].
      + by intros [[Hi _]%Forall_cons _].
      + intros s'. by apply (moved_after []).
      + intros s' [[_ Hl]%Forall_cons (E1 & E2 & E3)] _ (E1' & E2' & E3'). split; [done|].
        split; [congruence|]. split; [congruence|]. auto.
    - intros _. split; [|done]. apply Forall_forall. intros i Hi%elem_of_seqZ. lia.
    - done.
    - by intros s _ _ []. }
  intros s1 M1. destruct (moved_busy s1 (mv_inv _ _ _ M1)) as [M2 _]. cbv zeta. set (s2 := s1 {{ quad_busy_ := _ }}) in *.
  assert (link_age_counter_ s2 = link_age_counter_ s1 ∧ quad_age_counter_ s2 = quad_age_counter_ s1 ∧
    hm_base s2 = hm_base s1) as (El & Eq & Eb) by (by destruct s1). clearbody s2.
  eapply outcome_weaken.
  - apply (age_pass_ok link_to_quad link_age_counter_ quad_age_counter_ lim s2).
    + intros p l s. apply link_to_quad_ok.
    + apply M2.
    + rewrite (hs_lage _ (hi_sizes _ _ (mv_inv _ _ _ M2))). pose proof (hs_links _ (hi_sizes _ _ W)). lia.
  - intros ((Hl & Ha & _) & E1 & _). by rewrite El, E1.
  - intros s Ms. by apply (moved_after _ _ s1), (moved_after _ _ s2).
  - intros s ((_ & _ & Hn) & E1 & E2 & E3) _ (Ha & E1' & E2'). split; [done|]. split; [congruence|].
    rewrite E2', Eb. by apply E3.
Qed.

(** ** Responses *)

(** What a link has sent to its client. *)
Lemma link_to_cpu_ok i m0 s :
  moved s.1 m0 s.2 →
  outcome (0 ≤ i < L) (λ s', moved s'.1 m0 s'.2)
    (λ s', link_age_counter_ s'.2 = link_age_counter_ s.2 ∧ quad_age_counter_ s'.2 = quad_age_counter_ s.2 ∧
           hm_base s'.2 = hm_base s.2) (link_to_cpu i s).
Proof.
  destruct s as [evs m]. cbn [fst snd]. intros M. pose proof (mv_inv _ _ _ M) as W.
  pose proof W as [[Sc Sb Sl Sn Slq Slr Sqq Sqr Slb Sqb Sla Sqa] Wr Wp Wk Wt Wla Wqa].
  unfold link_to_cpu. apply outcome_get; [by rewrite Slr|]. intros q Hi%vget_range Lq.
  destruct q as [|resp rest]; [done|]. destruct (_ <=? _); [|done]. apply outcome_set; [done|].
  split; [|by destruct m]. cbn [fst snd]. fold (resp_txn resp).
  eapply moved_trans; [exact M|].
  destruct m as [b lc ps lps dps nl tb lrq lsp qrq qsp lb qb la qa]; cbn in *.
  assert (resps (mkHMC b lc ps lps dps nl tb lrq lsp qrq qsp lb qb la qa) ≡ₚ
    resp_key resp :: resps (mkHMC b lc ps lps dps nl tb lrq (<[Z.to_nat i := rest]> lsp) qrq qsp lb qb la qa)) as Hr.
  { unfold resps. cbn. rewrite (concat_insert_tail lsp _ _ _ Lq), !fmap_app. cbn. rewrite !app_assoc.
    symmetry. apply Permutation_middle. }
  split; cbn; [| |done].
  - split; cbn; try done; [split; cbn; rewrite ?vsize_insert; done|].
    rewrite Hr in Wp. by apply Forall_cons in Wp as [_ Wp].
  - unfold hmc_pending. by rewrite Hr.
Qed.

Lemma DrainResponses_ok lim m :
  hmc_inv [] m →
  outcome (lim < 2 ^ 31 - 1 ∧ Forall (λ a, a ≤ lim) (quad_age_counter_ m)) (λ s, moved s.1 m s.2)
    (λ s, Forall (λ a, a ≤ lim + 1) (quad_age_counter_ s.2) ∧ link_age_counter_ s.2 = link_age_counter_ m ∧
          hm_base s.2 = hm_base m) (DrainResponses m).
Proof.
  intros W. unfold DrainResponses. pose proof (hi_sizes _ _ W) as S. pose proof (hs_links _ S) as HL.
  assert (links_ m = L) as EL by (unfold links_; by rewrite (hs_config _ S)). rewrite EL.
  set (same s := link_age_counter_ s = link_age_counter_ m ∧ quad_age_counter_ s = quad_age_counter_ m ∧ hm_base s = hm_base m).
  apply (outcome_bind _ (λ s, moved s.1 m s.2) (λ s, same s.2)).
  { eapply (outcome_weaken (Forall (λ i, 0 ≤ i < L) (seqZ 0 L) ∧ same m)).
    - apply (outcome_for_each (λ _ s, moved s.1 m s.2) (λ l s, Forall (λ i, 0 ≤ i < L) l ∧ same s.2)); [by apply moved_refl|].
      intros i l s Hs. eapply outcome_weaken; [by apply link_to_cpu_ok|..].
      + by intros [[Hi _]%Forall_cons _].
      + done.
      + intros s' [[_ Hl]%Forall_cons (E1 & E2 & E3)] _ (E1' & E2' & E3'). split; [done|]. split_and!; congruence.
    - intros _. split; [|done]. apply Forall_forall. intros i Hi%elem_of_seqZ. lia.
    - done.
    - by intros s _ _ []. }
  intros [evs s1] M1. cbn [fst snd] in M1. destruct (moved_busy s1 (mv_inv _ _ _ M1)) as [_ M2].
  cbv zeta. set (s2 := s1 {{ link_busy_ := _ }}) in *.
  assert (link_age_counter_ s2 = link_age_counter_ s1 ∧ quad_age_counter_ s2 = quad_age_counter_ s1 ∧
    hm_base s2 = hm_base s1) as (El & Eq & Eb) by (by destruct s1). clearbody s2.
  apply (outcome_assoc _ _ _ _ (λ q, for_each q quad_to_link s2)). eapply outcome_bind.
  { eapply outcome_weaken.
    - apply (age_pass_ok quad_to_link quad_age_counter_ link_age_counter_ lim s2).
      + intros p l s. apply quad_to_link_ok.
      + apply M2.
      + rewrite (hs_qage _ (hi_sizes _ _ (mv_inv _ _ _ M2))). lia.
    - intros ((Hl & Ha) & _ & E1 & _). cbn [snd] in E1. by rewrite Eq, E1.
    - intros s Ms. exact Ms.
    - intros s _ _ Hs. exact Hs. }
  intros s3 M3. split.
  - cbn. rewrite <- (app_nil_r evs). eapply moved_trans; [exact M1|]. by apply (moved_after _ _ s2).
  - intros ((_ & E1 & E2 & E3) & Ha & E1' & E2'). split; [exact Ha|]. cbn [snd] in *. split; congruence.
Qed.

(** ** The vaults' cycle *)

Lemma table_take_perm id t :
  id ∈ fst <$> t → ∃ r t', table_take id t = Some (r, t') ∧ t ≡ₚ (id, r) :: t'.
Proof.
  induction t as [|[k r] t IH]; cbn [fmap list_fmap table_take fst]; [by intros ?%elem_of_nil|].
  intros Hin. destruct (Z.eqb_spec k id) as [->|Hne]; [by exists r, t|].
  apply elem_of_cons in Hin as [->|Hin]; [done|]. destruct (IH Hin) as (r' & t' & -> & P).
  exists r', ((k, r) :: t'). split; [done|]. rewrite P. apply Permutation_swap.
Qed.

(** A callback of a vault finds a response with its address. *)
Lemma VaultCallback_ok lim e evs m :
  hmc_inv (e :: evs) m → ∃ m', VaultCallback e m = Ok m' ∧ hmc_inv evs m' ∧
    hmc_pending m ≡ₚ hmc_pending m' ∧ clocks m' = clocks m ∧ hm_base m' = hm_base m ∧
    link_age_counter_ m' = link_age_counter_ m ∧
    (1 ≤ lim → Forall (λ a, a ≤ lim) (quad_age_counter_ m) → Forall (λ a, a ≤ lim) (quad_age_counter_ m')).
Proof.
  intros [[Sc Sb Sl Sn Slq Slr Sqq Sqr Slb Sqb Sla Sqa] Wr Wp Wk Wt Wla Wqa].
  destruct (table_take_perm (fst e) (resp_lookup_table_ m)) as (r & t & E & P).
  { rewrite Wt. cbn. set_solver. }
  unfold VaultCallback. rewrite E. cbn [of_option]. rewrite bind_Ok.
  pose proof Wk as Wk'. rewrite P in Wk'. apply Forall_cons in Wk' as [Hk Wk']. cbn in Hk.
  assert (0 ≤ rs_quad r < 4) as Hq.
  { rewrite Forall_forall in Wp. apply (Wp (resp_key r)), list_elem_of_fmap_2, elem_of_app. left.
    apply (list_elem_of_fmap_2 snd _ (fst e, r)). rewrite P. by left. }
  destruct (at_queue _ _ _ Sqr Hq) as (q & Hg & Lq). rewrite (vmod_Ok _ _ (λ q, Ok (q ++ [r])) _ _ Hg eq_refl), bind_Ok.
  rewrite vset_Ok, bind_Ok by (by rewrite Sqa). eexists. split; [done|].
  destruct m as [b lc ps lps dps nl tb lrq lsp qrq qsp lb qb la qa]; cbn in *.
  assert (resps (mkHMC b lc ps lps dps nl tb lrq lsp qrq qsp lb qb la qa) ≡ₚ
    resps (mkHMC b lc ps lps dps nl t lrq lsp qrq (<[Z.to_nat (rs_quad r) := q ++ [r]]> qsp) lb qb la
      (<[Z.to_nat (rs_quad r) := 1]> qa))) as Hr.
  { unfold resps. cbn. rewrite P, (concat_insert_snoc _ _ _ _ Lq), !fmap_app. cbn.
    rewrite <- !app_assoc. cbn [app]. rewrite !(app_assoc (resp_key <$> (snd <$> t))). apply Permutation_middle. }
  split_and!; try done.
  - split; cbn; try done.
    + split; cbn; rewrite ?vsize_insert; done.
    + rewrite Hr in Wp. exact Wp.
    + rewrite P in Wt. cbn in Wt. rewrite <- Permutation_middle in Wt. by apply Permutation_cons_inv in Wt.
    + apply Forall2_insert; [done|]. apply age_ok_snoc.
  - unfold hmc_pending. by rewrite Hr.
  - intros H1 Ha. by apply Forall_insert.
Qed.

Lemma VaultCallbacks_ok lim evs m :
  hmc_inv evs m → ∃ m', for_each evs VaultCallback m = Ok m' ∧ hmc_inv [] m' ∧
    hmc_pending m ≡ₚ hmc_pending m' ∧ clocks m' = clocks m ∧ hm_base m' = hm_base m ∧
    link_age_counter_ m' = link_age_counter_ m ∧
    (1 ≤ lim → Forall (λ a, a ≤ lim) (quad_age_counter_ m) → Forall (λ a, a ≤ lim) (quad_age_counter_ m')).
Proof.
  revert m. induction evs as [|e evs IH]; intros m W; cbn [for_each]; [by exists m|].
  destruct (VaultCallback_ok lim e evs m W) as (m1 & E1 & W1 & P1 & C1 & B1 & A1 & Q1). rewrite E1, bind_Ok.
  destruct (IH m1 W1) as (m2 & E2 & W2 & P2 & C2 & B2 & A2 & Q2). exists m2. rewrite P1.
  split_and!; [done|done|done|congruence..|]. auto.
Qed.

Lemma DRAMClockTick_ok lim n m :
  hmc_inv [] m →
  outcome (0 ≤ n ∧ 1 ≤ lim ∧ sys_ok (n + 1) (hm_base m) ∧ Forall (λ a, a ≤ lim) (quad_age_counter_ m)) (moved [] m)
    (λ m', sys_ok n (hm_base m') ∧ link_age_counter_ m' = link_age_counter_ m ∧
           Forall (λ a, a ≤ lim) (quad_age_counter_ m')) (DRAMClockTick m).
Proof.
  intros W. unfold DRAMClockTick.
  apply (outcome_bind _ (λ x, hmc_inv x.1 (m {{ hm_base := x.2 }})) (λ x, sys_ok n x.2)).
  - destruct (JS_ClockTick (hm_base m)) as [[evs b]|f] eqn:E; cbn [outcome fst snd].
    + split; [|intros (Hn & _ & Hs & _); destruct (tick_sys_ok n _ Hn Hs) as (evs' & b' & E' & Hs'); rewrite E in E'; by injection E' as -> ->].
      destruct (tick_ledger _ _ _ E) as (_ & Ec & El & P).
      assert (sys_wf b) as Wb.
      { destruct (hs_base _ (hi_sizes _ _ W)) as [U Hs]. split; rewrite Ec; [done|]. unfold vsize in *. by rewrite El. }
      destruct W as [[Sc Sb Sl Sn Slq Slr Sqq Sqr Slb Sqb Sla Sqa] Wr Wp Wk Wt Wla Wqa].
      destruct m as [b0 lc ps lps dps nl tb lrq lsp qrq qsp lb qb la qa]; cbn in *.
      split; cbn; try done; [split; cbn; done || congruence|]. by rewrite Wt, P, fmap_app.
    + intros (Hn & _ & Hs & _). destruct (tick_sys_ok n _ Hn Hs) as (evs' & b' & E' & _). congruence.
  - intros [evs b] Wb. cbn [fst snd] in *. set (m1 := m {{ hm_base := b }}) in *.
    assert (hm_base m1 = b ∧ clocks m1 = clocks m ∧ hmc_pending m1 = hmc_pending m ∧
      link_age_counter_ m1 = link_age_counter_ m ∧ quad_age_counter_ m1 = quad_age_counter_ m) as (Eb & Ec & Ep & El & Eq)
      by (by destruct m). clearbody m1.
    destruct (VaultCallbacks_ok lim evs m1 Wb) as (m2 & E2 & W2 & P2 & C2 & B2 & A2 & Q2). rewrite E2. split.
    + split; [done | by rewrite <- Ep, P2 | congruence].
    + intros ((_ & H1 & _ & Hq) & Hs). rewrite B2, Eb, A2, El. split; [done|]. split; [done|]. apply Q2; [done|]. by rewrite Eq.
Qed.

(** ** Cycles *)

(** The two clocks, and ages no larger than the logic cycles there were. *)
Record paced (m : HMCMemorySystem) : Prop := {
  pc_ps : 1 ≤ ps_per_logic_ m ≤ ps_per_dram_; pc_logic : logic_ps_ m = ps_per_logic_ m * logic_clk_ m;
  pc_dram : 0 ≤ dram_ps_ m ≤ logic_ps_ m;
  pc_lage : Forall (λ a, a ≤ logic_clk_ m + 1) (link_age_counter_ m);
  pc_qage : Forall (λ a, a ≤ logic_clk_ m + 1) (quad_age_counter_ m) }.

Lemma paced_clk m : paced m → 0 ≤ logic_clk_ m.
Proof. intros [H1 H2 H3 _ _]. nia. Qed.

(** Logic cycles and time before an age counter can overflow. *)
Definition last_clk : Z := 2 ^ 31 - 3.

Definition ran (m : HMCMemorySystem) (r : list (Z * bool) * HMCMemorySystem) : Prop :=
  hmc_inv [] r.2 ∧ hmc_pending m ≡ₚ r.1 ++ hmc_pending r.2.

Lemma logic_step_inv m :
  (hmc_inv [] m → hmc_inv [] (logic_step m)) ∧ hmc_pending (logic_step m) = hmc_pending m ∧
  hm_base (logic_step m) = hm_base m ∧ link_age_counter_ (logic_step m) = link_age_counter_ m ∧
  quad_age_counter_ (logic_step m) = quad_age_counter_ m.
Proof. destruct m. split_and!; try done. intros [[] W1 W2 W3 W4 W5 W6]. split; [by split | done..]. Qed.

(** A logic cycle, with what the DRAM does in the middle of it. *)
Lemma logic_cycle_ok (mid : HMCMemorySystem → res HMCMemorySystem) (G : Prop) n n' m :
  (∀ s, hmc_inv [] s → outcome (G ∧ sys_ok n (hm_base s) ∧ Forall (λ a, a ≤ logic_clk_ m + 2) (quad_age_counter_ s)) (moved [] s)
     (λ s', sys_ok n' (hm_base s') ∧ link_age_counter_ s' = link_age_counter_ s ∧
            Forall (λ a, a ≤ logic_clk_ m + 2) (quad_age_counter_ s')) (mid s)) →
  hmc_inv [] m →
  outcome (G ∧ paced m ∧ sys_ok n (hm_base m) ∧ logic_clk_ m < last_clk) (ran m)
    (λ r, paced r.2 ∧ sys_ok n' (hm_base r.2) ∧ logic_ps_ r.2 = logic_ps_ m + ps_per_logic_ m ∧
          dram_ps_ r.2 = dram_ps_ m ∧ ps_per_logic_ r.2 = ps_per_logic_ m)
    ('(e, m) ← DrainResponses m; m ← mid m; m ← DrainRequests m; Ok (e, logic_step m)).
Proof.
  intros Hmid W. eapply outcome_step; [apply (DrainResponses_ok (logic_clk_ m + 1) m W)|..].
  { intros (_ & P & _ & Hc). split; [unfold last_clk in Hc; lia | apply P]. }
  intros [e m1] M1. cbn [fst snd] in *. eapply outcome_step; [apply (Hmid m1), M1|..].
  { intros ((HG & _ & Hs & _) & Hq & _ & Eb). rewrite Eb. split; [done|]. split; [done|]. eapply Forall_impl; [exact Hq|]. cbn. lia. }
  intros m2 M2. cbn beta. eapply outcome_step; [apply (DrainRequests_ok (logic_clk_ m + 1) n' m2), M2|..].
  { intros (((_ & P & _ & Hc) & _ & El & _) & Hs & El2 & _). split; [unfold last_clk in Hc; lia|]. split; [|done].
    rewrite El2, El. apply P. }
  intros m3 M3. pose proof (moved_after _ _ _ _ M2 M3) as M23.
  assert (moved e m m3) as [W3 P3 C3] by (rewrite <- (app_nil_r e); by eapply moved_trans).
  pose proof (logic_step_inv m3) as (Ei & Ep & Eb & Ela & Eqa). split.
  - split; cbn [fst snd]; [by apply Ei | by rewrite Ep].
  - intros ((((_ & P & _ & Hc) & _) & _ & _ & Hq2) & Hl3 & Hq3 & Hs3). cbn [fst snd]. rewrite <- Hq3 in Hq2.
    pose proof (paced_clk m P). destruct P as [Pp Pl Pd _ _].
    unfold clocks in C3. injection C3 as Ec1 Ec2 Ec3 Ec4. unfold ps_per_dram_, last_clk in *.
    rewrite Eb. unfold logic_step. destruct m3. cbn in *. subst.
    rewrite !u64_small by nia. split_and!; try done.
    split; cbn; unfold ps_per_dram_; try nia; (eapply Forall_impl; [eassumption|]; cbn; lia).
Qed.

Lemma ran_trans o m m1 m2 o' : ran m (o, m1) → ran m1 (o', m2) → ran m (o ++ o', m2).
Proof. intros [_ P1] [W P2]. cbn in *. split; [done|]. cbn. by rewrite P1, P2, app_assoc. Qed.

(** The logic cycles of a DRAM cycle end. *)
Lemma logic_loop_ok f n m :
  hmc_inv [] m →
  outcome (paced m ∧ sys_ok n (hm_base m) ∧ dram_ps_ m + ps_per_dram_ ≤ ps_per_logic_ m * last_clk ∧
           dram_ps_ m + ps_per_dram_ - logic_ps_ m ≤ Z.of_nat f) (ran m)
    (λ r, paced r.2 ∧ sys_ok n (hm_base r.2) ∧ dram_ps_ r.2 = dram_ps_ m ∧ ps_per_logic_ r.2 = ps_per_logic_ m ∧
          dram_ps_ r.2 + ps_per_dram_ ≤ logic_ps_ r.2) (logic_loop f m).
Proof.
  assert (∀ m, paced m → dram_ps_ m + ps_per_dram_ ≤ ps_per_logic_ m * last_clk →
    u64 (dram_ps_ m + ps_per_dram_) = dram_ps_ m + ps_per_dram_) as Hu.
  { intros m' [P1 P2 P3 _ _] Hd. unfold ps_per_dram_, last_clk in *. apply u64_small. nia. }
  revert m. induction f as [|f IH]; intros m W; cbn [logic_loop];
    destruct (Z.ltb_spec (logic_ps_ m) (u64 (dram_ps_ m + ps_per_dram_))) as [Hlt|Hge].
  - intros (P & _ & Hd & Hf). rewrite Hu in Hlt by done. lia.
  - split; [done|]. intros (P & Hs & Hd & _). rewrite Hu in Hge by done. done.
  - set (cycle := '(e, m) ← DrainResponses m; m ← DrainRequests m; Ok (e, logic_step m)).
    assert (('(e1, m) ← DrainResponses m; m ← DrainRequests m; '(e2, m) ← logic_loop f (logic_step m); Ok (e1 ++ e2, m)) =
      ('(e1, m) ← cycle; '(e2, m) ← logic_loop f m; Ok (e1 ++ e2, m))) as ->.
    { unfold cycle. destruct (DrainResponses m) as [[e1 m1]|]; cbn; [|done]. by destruct (DrainRequests m1). }
    eapply outcome_step.
    + apply (logic_cycle_ok Ok True n n m); [|done]. intros s Ws. split; [by apply moved_refl|]. naive_solver.
    + intros (P & Hs & Hd & Hf). split; [done|]. split; [done|]. split; [done|]. rewrite Hu in Hlt by done.
      destruct P as [P1 P2 P3 _ _]. unfold ps_per_dram_, last_clk in *. nia.
    + intros [e1 m1] R1. cbn [fst snd]. eapply outcome_step; [apply IH, R1|..].
      * intros ((P & Hs & Hd & Hf) & P' & Hs' & E1 & E2 & E3). destruct P as [P1 _ _ _ _]. cbn [fst snd] in *. rewrite E1, E2, E3. split_and!; [done..|lia].
      * intros [e2 m2] R2. split; [by eapply ran_trans|]. cbn [fst snd].
        intros ((_ & _ & _ & E1 & E2 & E3) & P' & Hs' & E1' & E2' & E3'). cbn [fst snd] in *. split_and!; done || congruence.
  - split; [done|]. intros (P & Hs & Hd & _). rewrite Hu in Hge by done. done.
Qed.

(** The system lasts [n] more DRAM cycles. *)
Record hmc_ok (n : Z) (m : HMCMemorySystem) : Prop := {
  ho_inv : hmc_inv [] m; ho_base : sys_ok n (hm_base m); ho_paced : paced m;
  ho_time : dram_ps_ m + ps_per_dram_ * n ≤ ps_per_logic_ m * last_clk }.

Lemma HMC_ClockTick_ok n m :
  hmc_inv [] m → outcome (0 ≤ n ∧ hmc_ok (n + 1) m) (ran m) (λ r, hmc_ok n r.2) (HMC_ClockTick m).
Proof.
  intros W. unfold HMC_ClockTick.
  eapply (outcome_step _ (0 ≤ n ∧ hmc_ok (n + 1) m) (ran m) (λ r, paced r.2 ∧ sys_ok n (hm_base r.2) ∧ dram_ps_ r.2 = dram_ps_ m ∧
    ps_per_logic_ r.2 = ps_per_logic_ m)); [|done|].
  - destruct (Z.eqb_spec (dram_ps_ m) (logic_ps_ m)) as [Heq|Hne].
    + eapply outcome_weaken; [apply (logic_cycle_ok DRAMClockTick (0 ≤ n ∧ 1 ≤ logic_clk_ m + 2) (n + 1) n m); [|done]|..].
      * intros s Ws. eapply outcome_weaken; [apply (DRAMClockTick_ok (logic_clk_ m + 2) n s Ws)|..]; naive_solver.
      * intros (Hn & [_ Hs P Ht]). pose proof (paced_clk m P). split; [lia|]. split; [done|]. split; [done|].
        destruct P as [P1 P2 P3 _ _]. unfold ps_per_dram_, last_clk in *. nia.
      * done.
      * intros r _ _ (P & Hs & E1 & E2 & E3). done.
    + eapply outcome_step; [apply (DRAMClockTick_ok (logic_clk_ m + 1) n m W)|..].
      * intros (Hn & [_ Hs P Ht]). pose proof (paced_clk m P). split_and!; [done|lia|done|apply P].
      * intros m1 [W1 P1 C1]. split; [done|]. cbn [snd]. intros ((Hn & [_ _ P _]) & Hs & El & Hq).
        unfold clocks in C1. injection C1 as E1 E2 E3 E4. split_and!; [|done..].
        destruct P as [Q1 Q2 Q3 Q4 Q5]. split; rewrite ?E1, ?E2, ?E3, ?E4, ?El; done.
  - intros [e1 m1] R1. cbn [fst snd]. eapply outcome_step; [apply (logic_loop_ok _ n m1), R1|..].
    + intros ((Hn & [_ _ _ Ht]) & P & Hs & E1 & E2). cbn [fst snd] in *. rewrite E1, E2.
      unfold ps_per_dram_ in Ht. split_and!; [done..|unfold ps_per_dram_; lia|].
      destruct P as [P1 P2 P3 _ _]. unfold ps_per_dram_ in *. lia.
    + intros [e2 m2] R2. pose proof (ran_trans _ _ _ _ _ R1 R2) as [W2 P2]. cbn [fst snd] in *.
      split; [split; cbn [fst snd]|]; cbn [snd].
      * destruct m2. destruct W2 as [[] W1' W2' W3 W4 W5 W6]. split; [by split | done..].
      * by destruct m2.
      * intros (((Hn & [_ _ _ Ht]) & _ & _ & E1 & E2) & P & Hs & E3 & E4 & E5).
        assert (u64 (dram_ps_ m2 + ps_per_dram_) = dram_ps_ m2 + ps_per_dram_) as Hu.
        { rewrite E3, E1. destruct P as [Q1 Q2 Q3 _ _]. rewrite E4, E2 in Q1. unfold ps_per_dram_, last_clk in *. apply u64_small. nia. }
        destruct P as [Q1 Q2 Q3 Q4 Q5]. rewrite Hu. destruct m2. cbn in *. split; cbn; [|done| |].
        -- destruct W2 as [[] W1' W2' W3 W4 W5 W6]. split; [by split | done..].
        -- split; cbn; try done. unfold ps_per_dram_ in *. lia.
        -- subst. unfold ps_per_dram_ in *. lia.
Qed.

(** ** Insertion *)

Definition full (m : HMCMemorySystem) (i : Z) : Prop :=
  ∀ q, vget (link_req_queues_ m) i = Ok q → queue_depth_ m ≤ vsize q.

(** [m'] has accepted [t] in [m]. *)
Record inserted (t : Z * bool) (m m' : HMCMemorySystem) : Prop := {
  in_inv : hmc_inv [] m'; in_pending : hmc_pending m' ≡ₚ t :: hmc_pending m;
  in_ok : ∀ n, hmc_ok n m → hmc_ok n m' }.

Definition at_link (m : HMCMemorySystem) (i : Z) : HMCMemorySystem := m {{ next_link_ := i }}.

Lemma at_link_ok m i :
  hmc_inv [] m → 0 ≤ i < L → hmc_inv [] (at_link m i) ∧ ∀ n, hmc_ok n m → hmc_ok n (at_link m i).
Proof.
  intros W Hi. assert (hmc_inv [] (at_link m i)) as W'.
  { destruct m. destruct W as [[] W1 W2 W3 W4 W5 W6]. split; [by split | done..]. }
  split; [done|]. intros n [_ H2 H3 H4]. destruct m. split; [done|done| |done]. destruct H3. by split.
Qed.

Lemma IterateNextLink_ok m : hmc_inv [] m → IterateNextLink m = Ok (at_link m ((next_link_ m + 1) mod L)).
Proof.
  intros W. pose proof (hi_sizes _ _ W) as S. pose proof (hs_links _ S). pose proof (hs_next _ S).
  unfold IterateNextLink. rewrite int_chk_Ok, bind_Ok by lia. unfold links_. rewrite (hs_config _ S).
  destruct (Z.eqb_spec L 0); [lia|]. by rewrite Z.rem_mod_nonneg by lia.
Qed.

Section Insert.
Variables (req : HMCRequest) (kind : HMCRespType) (flits : Z).
Hypothesis Hreq : req_ok (req_key req).
Hypothesis Hkind : resp_kind (rq_type req) = Ok (kind, flits).

Definition new_txn : Z * bool := (mem_operand req, match kind with RD_RS => false | _ => true end).

Lemma InsertReqToLink_ok link m :
  hmc_inv [] m → 0 ≤ link < L →
  (full m link ∧ InsertReqToLink req link m = Ok (false, m)) ∨
  (¬ full m link ∧ ∃ m', InsertReqToLink req link m = Ok (true, m') ∧ inserted new_txn m m').
Proof.
  intros W Hl. pose proof W as [[Sc Sb Sl Sn Slq Slr Sqq Sqr Slb Sqb Sla Sqa] Wr Wp Wk Wt Wla Wqa].
  destruct (at_queue _ _ _ Slq Hl) as (q & Hg & Lq). unfold InsertReqToLink. rewrite Hg, bind_Ok.
  destruct (Z.ltb_spec (vsize q) (queue_depth_ m)) as [Hlt|Hge]; [right|left].
  - split; [intros Hf; specialize (Hf q Hg); lia|].
    rewrite (vset_Ok (link_req_queues_ m)), bind_Ok by (by rewrite Slq).
    unfold new_HMCResponse. rewrite Hkind, !bind_Ok, vset_Ok, bind_Ok by (by rewrite Sla). eexists. split; [done|].
    destruct m as [[cf jk lr cs] lc ps lps dps nl tb lrq lsp qrq qsp lb qb la qa]; cbn in *.
    set (req' := {| rq_link := link |}). 
    assert (req_key req' = req_key req) as Ek by (by destruct req). clearbody req'.
    set (resp := mkResp _ _ _ _ _ _).
    assert (resp_key resp = (new_txn, link, rq_quad req) ∧ resp_id resp = mem_operand req) as [Ep Ei] by done. clearbody resp.
    match goal with |- inserted _ ?m0 ?m1 => set (m := m0) in *; set (m' := m1);
      assert (reqs m' ≡ₚ req_key req :: reqs m ∧ resps m' ≡ₚ resp_key resp :: resps m) as [Hr Hp] end.
    { unfold reqs, resps. cbn. rewrite (concat_insert_snoc _ _ _ _ Lq), !fmap_app. cbn. rewrite Ek, <- !app_assoc.
      split; symmetry; apply Permutation_middle. }
    change (Forall req_ok (reqs m)) in Wr. change (Forall resp_ok (resps m)) in Wp.
    assert (hmc_inv [] m') as W'.
    { split; try done.
      - split; cbn; rewrite ?vsize_insert; try done. destruct Sb as [Sb1 Sb2]. by split.
      - rewrite Hr. by apply Forall_cons.
      - rewrite Hp. apply Forall_cons. split; [|done]. rewrite Ep. split; [done | apply Hreq].
      - cbn. apply Forall_app. split; [done|]. by apply Forall_singleton.
      - change (fst <$> (tb ++ [(mem_operand req, resp)]) ≡ₚ ((λ k, k.1.1) <$> reqs m') ++ (fst <$> concat (owed <$> cs))).
        rewrite fmap_app, Wt, Hr. cbn. rewrite (Permutation_app_comm _ [_]). done.
      - cbn. apply Forall2_insert; [done|]. apply age_ok_snoc. }
    split; [done | unfold hmc_pending; by rewrite Hp, fmap_cons, Ep|].
    intros n [_ Hs P Ht]. pose proof (paced_clk m P) as Hc. split; [done | by apply (sys_ok_last n jk) in Hs | | done].
    destruct P as [P1 P2 P3 P4 P5]. split; cbn in *; try done. apply Forall_insert; [done|lia].
  - split; [|done]. intros q' Hq'. rewrite Hg in Hq'. by injection Hq' as <-.
Qed.

Lemma full_at m i j : full (at_link m i) j ↔ full m j.
Proof. by destruct m. Qed.

Lemma inserted_at m i m' j :
  hmc_inv [] m → 0 ≤ i < L → 0 ≤ j < L → inserted new_txn (at_link m i) m' → inserted new_txn m (at_link m' j).
Proof.
  intros W Hi Hj [W' P H]. destruct (at_link_ok m i W Hi) as [_ Ho]. destruct (at_link_ok m' j W' Hj) as [W2 Ho'].
  split; [done | | by auto]. destruct m, m'. exact P.
Qed.

(** The loop ends: it offers the request to each link once. *)
Lemma insert_loop_ok fuel s k m :
  hmc_inv [] m → 0 ≤ s < L → 1 ≤ k ≤ L → L - k ≤ Z.of_nat fuel → (∀ j, 0 ≤ j < k → full m ((s + j) mod L)) →
  (∀ j, 0 ≤ j < L → full m ((s + j) mod L)) ∧
    insert_loop fuel req s (at_link m ((s + k) mod L)) = Ok (false, at_link m s) ∨
  (∃ i, 0 ≤ i < L ∧ ¬ full m i) ∧
    ∃ m', insert_loop fuel req s (at_link m ((s + k) mod L)) = Ok (true, m') ∧ inserted new_txn m m'.
Proof.
  intros W Hs. revert k. induction fuel as [|fuel IH]; intros k Hk Hf Hfull.
  - assert (k = L) as -> by lia. rewrite Z.add_mod, Z.mod_same, Z.add_0_r, !Z.mod_mod, (Z.mod_small s) by lia.
    left. split; [done|]. cbn [insert_loop]. destruct (Z.eqb_spec (next_link_ (at_link m s)) s); [done|]. by destruct m.
  - set (i := (s + k) mod L). assert (0 ≤ i < L) as Hi by (apply Z.mod_pos_bound; lia). cbn [insert_loop].
    assert (next_link_ (at_link m i) = i) as -> by (by destruct m). destruct (Z.eqb_spec i s) as [Eis|Hne].
    + left. assert (k = L) as ->.
      { subst i. rewrite wrap_mod in Eis by lia. destruct (Z.ltb_spec (s + k) L); lia. }
      split; [done|]. by rewrite Eis.
    + destruct (at_link_ok m i W Hi) as [Wi _].
      destruct (InsertReqToLink_ok i (at_link m i) Wi Hi) as [[F E]|(F & m' & E & In)]; rewrite E, bind_Ok; rewrite full_at in F.
      * rewrite (IterateNextLink_ok _ Wi), bind_Ok.
        assert (at_link (at_link m i) ((next_link_ (at_link m i) + 1) mod L) = at_link m ((s + (k + 1)) mod L)) as ->.
        { replace (next_link_ (at_link m i)) with i by (by destruct m). subst i. rewrite Zplus_mod_idemp_l, <- Z.add_assoc.
          by destruct m. }
        assert (k < L) as HkL.
        { destruct (decide (k = L)) as [->|]; [|lia]. destruct Hne. subst i.
          rewrite wrap_mod by lia. destruct (Z.ltb_spec (s + L) L); lia. }
        apply IH; [lia|lia|]. intros j Hj. destruct (decide (j = k)) as [->|]; [done|]. apply Hfull. lia.
      * right. split; [by exists i|]. rewrite (IterateNextLink_ok _ (in_inv _ _ _ In)), bind_Ok. eexists. split; [done|].
        apply (inserted_at m i); try done. apply Z.mod_pos_bound. lia.
Qed.

(** [InsertHMCReq] finds a link with room if there is one. *)
Lemma InsertHMCReq_ok m :
  hmc_inv [] m →
  (∀ i, 0 ≤ i < L → full m i) ∧ InsertHMCReq req m = Ok (false, m) ∨
  (∃ i, 0 ≤ i < L ∧ ¬ full m i) ∧ ∃ m', InsertHMCReq req m = Ok (true, m') ∧ inserted new_txn m m'.
Proof.
  intros W. pose proof (hi_sizes _ _ W) as S. pose proof (hs_links _ S) as HL. pose proof (hs_next _ S) as Hn.
  set (s := next_link_ m) in *. assert (m = at_link m s) as Em by (by destruct m).
  unfold InsertHMCReq. fold s.
  destruct (InsertReqToLink_ok s m W Hn) as [[F E]|(F & m' & E & In)]; rewrite E, bind_Ok.
  - rewrite (IterateNextLink_ok m W), bind_Ok. assert (∀ i, links_ (at_link m i) = L) as -> by (intros i; unfold links_; rewrite <- (hs_config _ S); by destruct m).
    fold s. destruct (insert_loop_ok (Z.to_nat L) s 1 m W Hn) as [[Fa El]|[Fa El]]; [lia|lia| |left|by right].
    + intros j Hj. replace j with 0 by lia. by rewrite Z.add_0_r, Z.mod_small.
    + rewrite El, <- Em. split; [|done]. intros i Hi.
      replace i with ((s + (i - s) mod L) mod L) by (rewrite Zplus_mod_idemp_r; replace (s + (i - s)) with i by lia; by apply Z.mod_small).
      apply Fa. apply Z.mod_pos_bound. lia.
  - right. split; [by exists s|]. rewrite (IterateNextLink_ok _ (in_inv _ _ _ In)), bind_Ok. eexists. split; [done|].
    rewrite Em in In. apply (inserted_at m s); try done. apply Z.mod_pos_bound. lia.
Qed.
End Insert.

Lemma will_accept_full a w m :
  hmc_inv [] m → ∃ b, HMC_WillAccept a w m = Ok b ∧ (b = true ↔ ∃ i, 0 ≤ i < L ∧ ¬ full m i).
Proof.
  intros W. pose proof (hs_lreq _ (hi_sizes _ _ W)) as Hs. eexists. split; [done|]. rewrite existsb_exists. split.
  - intros (q & Hin & Hlt%Z.ltb_lt). apply list_elem_of_In, list_elem_of_lookup in Hin as [i Hi].
    assert (vget (link_req_queues_ m) (Z.of_nat i) = Ok q) as Hg by (apply vget_lookup; rewrite Nat2Z.id; split; [lia|done]).
    exists (Z.of_nat i). split; [rewrite <- Hs; by eapply vget_range|]. intros F. specialize (F q Hg). lia.
  - intros (i & Hi & F). destruct (at_queue _ _ _ Hs Hi) as (q & Hg & Lq). exists q.
    split; [apply list_elem_of_In; by eapply list_elem_of_lookup_2|]. apply Z.ltb_lt.
    destruct (Z.lt_ge_cases (vsize q) (queue_depth_ m)); [done|]. destruct F. intros q' Hq'. rewrite Hg in Hq'. by injection Hq' as <-.
Qed.

(** The sizes for which there is a request type. *)
Definition block_ok (b : Z) : bool := (b =? 0) || (b =? 32) || (b =? 64) || (b =? 128) || (b =? 256).

Lemma block_type_ok w b :
  block_ok b = true → ∃ t f k fl, block_type w b = Ok t ∧ req_flits t = Ok f ∧ resp_kind t = Ok (k, fl) ∧
    match k with RD_RS => false | _ => true end = w.
Proof.
  unfold block_ok, block_type. intros Hb.
  repeat case_match; try discriminate; destruct w; eexists _, _, _, _; (split; [reflexivity|]); (split; [reflexivity|]);
    (split; reflexivity).
Qed.

Lemma HMC_AddTransaction_ok a w m :
  hmc_inv [] m → block_ok (block_size (dramp config)) = true →
  ∃ b m', HMC_WillAccept a w m = Ok b ∧ HMC_AddTransaction a w m = Ok (b, m') ∧
    (if b then inserted (a, w) m m' else m' = m).
Proof.
  intros W Hb. pose proof (hi_sizes _ _ W) as S. destruct (will_accept_full a w m W) as (b & Ha & Hiff). exists b. rewrite Ha.
  destruct (block_type_ok w _ Hb) as (t & f & k & fl & Et & Ef & Ek & Hw). unfold HMC_AddTransaction.
  rewrite (hs_config _ S), Et, bind_Ok. unfold new_HMCRequest. rewrite Ef, !bind_Ok.
  set (req := mkReq _ _ _ _ _ _ _ _). destruct (usable_mapping _ (jw_usable _ (hs_base _ S))) as [_ Hch].
  specialize (Hch a). rewrite (hs_config _ S) in Hch.
  assert (channel_of a (hm_base m) = GetChannel (amap config) a) as Hc by (unfold channel_of; by rewrite (hs_config _ S)).
  assert (req_ok (req_key req)) as Hreq.
  { split; [|exact Hc]. cbn. rewrite Hc, Z.rem_mod_nonneg by lia. by apply Z.mod_pos_bound. }
  assert (new_txn req k = (a, w)) as Ht by (unfold new_txn; by rewrite Hw).
  destruct (InsertHMCReq_ok req k fl Hreq Ek m W) as [[F E]|[F (m' & E & In)]]; rewrite E.
  - exists m. assert (b = false) as ->; [|done]. apply not_true_iff_false. rewrite Hiff.
    intros (i & Hi & Hf). by apply Hf, F.
  - exists m'. rewrite Ht in In. apply Hiff in F as ->. done.
Qed.
End Invariant.

(** ** The contract *)

Record hmc_wf (m : HMCMemorySystem) : Prop := {
  hw_inv : hmc_inv (config_ (hm_base m)) [] m;
  hw_block : block_ok (block_size (dramp (config_ (hm_base m)))) = true }.

Lemma hmc_wf_next config m : hmc_inv config [] m → block_ok (block_size (dramp config)) = true → hmc_wf m.
Proof. intros W Hb. pose proof (hs_config _ _ (hi_sizes _ _ _ W)) as E. split; by rewrite E. Qed.

Record hmc_lasts (n : Z) (m : HMCMemorySystem) : Prop := {
  hl_ok : hmc_ok (config_ (hm_base m)) n m;
  hl_block : block_ok (block_size (dramp (config_ (hm_base m)))) = true }.

Lemma hmc_lasts_next config n m : hmc_ok config n m → block_ok (block_size (dramp config)) = true → hmc_lasts n m.
Proof. intros W Hb. pose proof (hs_config _ _ (hi_sizes _ _ _ (ho_inv _ _ _ W))) as E. split; by rewrite E. Qed.

Section Contract.
Variable isQueueFill : HMCMemorySystem → bool.
#[local] Existing Instance hmc_ms.

#[refine] Instance hmc_spec : MemorySystemSpec (H := hmc_ms isQueueFill) HMCMemorySystem := {
  ms_wf := hmc_wf; pending := hmc_pending }.
Proof.
  - intros a w m [W Hb]. destruct (HMC_AddTransaction_ok _ a w m W Hb) as (b & _ & E & _). by exists b.
  - intros a w m [W Hb] E. destruct (HMC_AddTransaction_ok _ a w m W Hb) as (b & m' & E' & Ea & Hin).
    assert (b = true) as -> by (cbn in E; congruence). exists m'. cbn. rewrite Ea. split; [done|]. destruct Hin as [W' P _].
    split; [by eapply hmc_wf_next|done].
  - intros m evs m' [W Hb] E. destruct (outcome_inv _ _ _ _ _ (HMC_ClockTick_ok _ 0 m W) E) as [W' P].
    split; [by eapply hmc_wf_next|done].
Defined.

#[refine] Instance hmc_runs_inst : MemorySystemRuns (H := hmc_ms isQueueFill) (H0 := hmc_spec) HMCMemorySystem := { lasts := hmc_lasts }.
Proof.
  - intros n m [W Hb]. split; [apply W | done].
  - intros n a w m m' [W Hb] E. destruct (HMC_AddTransaction_ok _ a w m (ho_inv _ _ _ W) Hb) as (b & m1 & _ & Ea & Hin).
    cbn in E. rewrite Ea in E. injection E as <-. destruct b; [|by subst].
    eapply hmc_lasts_next; [by apply Hin | done].
  - intros n m Hn [W Hb].
    destruct (outcome_ends _ _ _ _ (HMC_ClockTick_ok _ n m (ho_inv _ _ _ W)) (conj Hn W)) as ([evs m'] & E & _ & W').
    exists evs, m'. split; [done|]. by eapply hmc_lasts_next.
Defined.
End Contract.

(** ** A fresh system *)

Lemma fresh_hmc config m :
  usable config → u64 (epoch_period config) ≠ 0 → block_ok (block_size (dramp config)) = true →
  1 ≤ num_links (dramp config) < 2 ^ 31 → new_HMCMemorySystem config = Ok m → 1 ≤ ps_per_logic_ m →
  (∀ n, n < 2 ^ 30 → ps_per_dram_ * n ≤ ps_per_logic_ m * last_clk → hmc_lasts n m) ∧ hmc_pending m = [].
Proof.
  intros U He Hb HL E Hps. unfold new_HMCMemorySystem in E. destruct (negb _); [done|].
  apply bind_Ok_inv in E as (ps & Eps & E). destruct (_ <? 0); [done|]. apply bind_Ok_inv in E as (l & El & E).
  destruct (num_links _ <? 0); [done|]. injection E as <-. cbn in Hps.
  destruct (fresh_system_ok config l U He El) as [Hs Hp].
  assert (∀ k, concat (replicate k (@nil HMCRequest)) = [] ∧ concat (replicate k (@nil HMCResponse)) = []) as Hc.
  { intros k. induction k as [|k [IH1 IH2]]; [done|]. cbn. by rewrite IH1, IH2. }
  assert (ps ≤ ps_per_dram_) as Hle.
  { unfold SetClockRatio in Eps. destruct (_ =? 0); [done|]. cbv zeta in Eps. destruct (_ =? 0); [done|].
    inv_res Eps. injection Eps as <-. unfold ps_per_dram_. match goal with |- context [800 <? ?x] => destruct (Z.ltb_spec 800 x) end; lia. }
  set (k := Z.to_nat (num_links (dramp config))).
  split; [|unfold hmc_pending, resps; cbn; by rewrite !(proj2 (Hc _))].
  intros n Hn Ht. apply (hmc_lasts_next config); [|done]. split; [| | |exact Ht]; cbn.
  - split; cbn.
    + split; cbn; rewrite ?vsize_replicate; unfold vsize; rewrite ?length_replicate; try done; try lia. apply Hs.
    + unfold reqs. cbn. by rewrite !(proj1 (Hc _)).
    + unfold resps. cbn. by rewrite !(proj2 (Hc _)).
    + done.
    + unfold reqs. cbn. rewrite !(proj1 (Hc _)). cbn.
      change (concat (owed <$> l)) with (js_pending (mkJedec config 0 0 l)). by rewrite Hp.
    + by apply Forall2_replicate.
    + by repeat constructor.
  - eapply sys_ok_le, Hs. lia.
  - split; cbn; try done; try lia; [by apply Forall_replicate | by repeat constructor].
Qed.

(** ** Properties *)

(** C6: A fresh HMC memory system runs, whatever is offered to it, for as many DRAM
    cycles as take its logic die less than 2^31 - 3 cycles: no abort, no access out of a
    queue, no age counter overflows, the loops over the logic cycles end.  Every
    transaction it accepted was reported by exactly one callback, with its own kind, or
    is still in a table or a queue. *)
Theorem hmc_system_runs isQueueFill config m evs :
  usable config → u64 (epoch_period config) ≠ 0 → block_ok (block_size (dramp config)) = true →
  1 ≤ num_links (dramp config) < 2 ^ 31 → new_HMCMemorySystem config = Ok m → 1 ≤ ps_per_logic_ m →
  sys_ticks evs < 2 ^ 30 → ps_per_dram_ * sys_ticks evs ≤ ps_per_logic_ m * (2 ^ 31 - 3) →
  ∃ accepted reported m', sys_run (H := hmc_ms isQueueFill) evs m = Ok (accepted, reported, m') ∧
    accepted ≡ₚ reported ++ hmc_pending m'.
Proof.
  intros U He Hb HL E Hps Hn Ht. destruct (fresh_hmc config m U He Hb HL E Hps) as [Hl Hp].
  destruct (sys_run_ok (H1 := hmc_runs_inst isQueueFill) evs m (Hl _ Hn Ht)) as (a & d & m' & Er & P).
  exists a, d, m'. split; [exact Er|]. cbn in P. by rewrite Hp, app_nil_r in P.
Qed.

(** C13: [AddTransaction] accepts exactly what [WillAcceptTransaction] promises: it offers
    the request to each link at most once, starting with the next in turn, puts it in a
    queue with room if any link has one, and changes nothing if none has. *)
Theorem hmc_accepts a w m :
  hmc_wf m →
  ∃ b m', HMC_WillAccept a w m = Ok b ∧ HMC_AddTransaction a w m = Ok (b, m') ∧
    if (b : bool) then hmc_wf m' ∧ hmc_pending m' ≡ₚ (a, w) :: hmc_pending m
    else m' = m ∧ ∀ q, q ∈ link_req_queues_ m → queue_depth_ m ≤ vsize q.
Proof.
  intros [W Hb]. destruct (HMC_AddTransaction_ok _ a w m W Hb) as (b & m' & E & Ea & H). exists b, m'.
  split; [done|]. split; [done|]. destruct b; [destruct H as [W' P _]; split; [by eapply hmc_wf_next | done]|].
  split; [done|]. injection E as E. intros q Hq. apply Z.nlt_ge. intros Hlt. eapply not_true_iff_false; [exact E|].
  apply existsb_exists. exists q. split; [by apply list_elem_of_In | by apply Z.ltb_lt].
Qed.

(** C35: The invariant of the memory cube, after any run that ends, however long.  Every
    request in a queue is on its way to the vault of its address, in an existing quadrant;
    every response, in the table or a queue, goes from an existing quadrant to an
    existing link; a queue has a positive age exactly if it is not empty; and the keys of
    the table are the addresses that wait in the request queues or in the vaults. *)
Theorem hmc_well_formed isQueueFill config m evs a d m' :
  usable config → u64 (epoch_period config) ≠ 0 → block_ok (block_size (dramp config)) = true →
  1 ≤ num_links (dramp config) < 2 ^ 31 → new_HMCMemorySystem config = Ok m → 1 ≤ ps_per_logic_ m →
  sys_run (H := hmc_ms isQueueFill) evs m = Ok (a, d, m') →
  let b := hm_base m' in let dram := dramp (config_ b) in
  let reqs := concat (link_req_queues_ m') ++ concat (quad_req_queues_ m') in
  let resps := (snd <$> resp_lookup_table_ m') ++ concat (quad_resp_queues_ m') ++ concat (link_resp_queues_ m') in
  Forall (λ r, 0 ≤ rq_quad r < 4 ∧ vault r = channel_of (mem_operand r) b) reqs ∧
  Forall (λ r, 0 ≤ rs_link r < num_links dram ∧ 0 ≤ rs_quad r < 4) resps ∧
  Forall2 (λ q n, 0 ≤ n ∧ (0 < n ↔ q ≠ [])) (link_req_queues_ m') (link_age_counter_ m') ∧
  Forall2 (λ q n, 0 ≤ n ∧ (0 < n ↔ q ≠ [])) (quad_resp_queues_ m') (quad_age_counter_ m') ∧
  fst <$> resp_lookup_table_ m' ≡ₚ (mem_operand <$> reqs) ++ (fst <$> js_pending b).
Proof.
  intros U He Hb HL E Hps Er. destruct (fresh_hmc config m U He Hb HL E Hps) as [Hl _].
  destruct (Hl 0) as [W0 Hb0]; [done | unfold last_clk; lia |].
  assert (hmc_wf m) as W by (split; [apply W0 | exact Hb0]).
  apply (sys_run_wf (H0 := hmc_spec isQueueFill) evs m a d m' W) in Er as [[S Hr Hp _ Ht Hla Hqa] _]. cbv zeta.
  unfold reqs, resps in *. rewrite Forall_fmap in Hr. rewrite Forall_fmap in Hp. rewrite <- list_fmap_compose in Ht. split_and!; done.
Qed.

(** ** Concrete runs *)

Definition ex_hmc_config : Config := ex_config {{ dramp := ex_dram {{ protocol := HMC }} }}.

Lemma ex_hmc_usable : usable ex_hmc_config.
Proof.
  split; [split; vm_compute; split; congruence | reflexivity | cbn; lia | cbn; lia | by vm_compute | done | | reflexivity].
  intros rf E. injection E as <-. by vm_compute.
Qed.

Definition ex_hmc : HMCMemorySystem :=
  match new_HMCMemorySystem ex_hmc_config with
  | Ok m => m
  | Err _ => mkHMC (mkJedec ex_hmc_config 0 0 []) 0 0 0 0 0 [] [] [] [] [] [] [] [] []
  end.

Lemma ex_hmc_new : new_HMCMemorySystem ex_hmc_config = Ok ex_hmc.
Proof. apply ok_or. vm_compute. reflexivity. Qed.

Lemma ex_hmc_ps : ps_per_logic_ ex_hmc = 533.
Proof. vm_compute. reflexivity. Qed.

(** A write is reported after ten DRAM cycles, which take sixteen logic cycles of 533 ps. *)
Example ex_hmc_run :
  (λ r, (r.1, hmc_pending r.2, logic_clk_ r.2)) <$>
    sys_run (H := hmc_ms (λ _, false)) (SysOffer 128 true :: replicate 10 SysTick) ex_hmc =
  Ok ([(128, true)], [(128, true)], [], 16).
Proof. vm_compute. reflexivity. Qed.

(** The age queue puts a position before the first smaller position than its age: here
    the position of age 1 before that of age 5. *)
Example ex_age_queue : BuildAgeQueue [5; 1] ex_hmc = Ok [1; 0].
Proof. vm_compute. reflexivity. Qed.

Lemma hmc_system_runs_witness :
  ∃ accepted reported m', sys_run (H := hmc_ms (λ _, false)) ex_sys_events ex_hmc = Ok (accepted, reported, m') ∧
    accepted ≡ₚ reported ++ hmc_pending m'.
Proof.
  apply (hmc_system_runs (λ _, false) ex_hmc_config ex_hmc ex_sys_events ex_hmc_usable);
    [by vm_compute | reflexivity | cbn; lia | exact ex_hmc_new | rewrite ex_hmc_ps; lia | reflexivity |].
  rewrite ex_hmc_ps. vm_compute. discriminate.
Defined.

Lemma hmc_accepts_witness :
  ∃ b m', HMC_WillAccept 64 false ex_hmc = Ok b ∧ HMC_AddTransaction 64 false ex_hmc = Ok (b, m') ∧
    if (b : bool) then hmc_wf m' ∧ hmc_pending m' ≡ₚ (64, false) :: hmc_pending ex_hmc
    else m' = ex_hmc ∧ ∀ q, q ∈ link_req_queues_ ex_hmc → queue_depth_ ex_hmc ≤ vsize q.
Proof.
  apply hmc_accepts.
  destruct (fresh_hmc ex_hmc_config ex_hmc) as [Hl _];
    [exact ex_hmc_usable | by vm_compute | reflexivity | cbn; lia | exact ex_hmc_new | rewrite ex_hmc_ps; lia |].
  destruct (Hl 0) as [W Hb]; [done | rewrite ex_hmc_ps; by vm_compute |]. split; [apply W | exact Hb].
Defined.

Lemma hmc_well_formed_witness :
  ∃ a d m', sys_run (H := hmc_ms (λ _, false)) ex_sys_events ex_hmc = Ok (a, d, m') ∧
    Forall2 (λ q n, 0 ≤ n ∧ (0 < n ↔ q ≠ [])) (link_req_queues_ m') (link_age_counter_ m').
Proof.
  destruct (fresh_hmc ex_hmc_config ex_hmc) as [Hl _];
    [exact ex_hmc_usable | by vm_compute | reflexivity | cbn; lia | exact ex_hmc_new | rewrite ex_hmc_ps; lia |].
  destruct (sys_run_ok (H1 := hmc_runs_inst (λ _, false)) ex_sys_events ex_hmc) as (a & d & m' & E & _).
  { apply Hl; [reflexivity | rewrite ex_hmc_ps; vm_compute; discriminate]. }
  exists a, d, m'. split; [exact E|].
  destruct (hmc_well_formed (λ _, false) ex_hmc_config ex_hmc ex_sys_events a d m') as (_ & _ & H & _);
    [exact ex_hmc_usable | by vm_compute | reflexivity | cbn; lia | exact ex_hmc_new | rewrite ex_hmc_ps; lia | exact E | exact H].
Defined.
