(* ===== verification/VertexReader.v ===== *)
(** * The vertex reader (VertexReader.h, VertexReader.cpp)

    It requests the row pointers of a block of vertices, receives them, and
    hands them to the edge reader [w_fold] times: the first time from its
    queue [vq], filling the cache [v_cache], then from the cache.  The theorems:
    a block comes out exactly [w_fold] times, in order, and the reader is
    back in its initial configuration for the next block; with [w_fold = 1] the block
    is replayed forever; the requests are the consecutive cache lines of the
    block, as many as it needs. *)

From S2P Require Import Prelude CFloat Common.

Open Scope Z_scope.

Record VertexReader := mkVR {
  vr_pre_w_fold : Z; vr_flag : ReaderFlag;
  vr_x_repeat : Z; vr_pre_row_archive : Z; v_cache_idx : Z; vr_id : Z; pop_count : Z;
  vr_q_space : Z; vr_offset : Z; vr_req_address : Z; vr_req_f_address : Z;
  vr_pre_row : Z; vr_tot_repeat : Z; vr_pre_repeat : Z;
  vr_req_stat : RCNT; vr_row_info : RowInfo; vq : list Z }.

Section Reader.
Context {D : Type} `{DramPort D}.
Variable P : Params.

(** [ceil((double)n / d)] stored in an [int]. *)
Definition lines_of (n d : Z) : res Z := ceil_double_int n d.

(** [VertexReader::VertexReader]; the member [x_repeat] is not initialised, so
    its first value [x0] is whatever the allocation holds. *)
Definition new_VertexReader (id offset x0 : Z) (ri : RowInfo) (g : Globals D)
    : res (VertexReader * Globals D) :=
  n ← qfront (vertex_req_count g);
  tot ← lines_of n (CACHE_LINE_COUNT P);
  q ← qpop (vertex_req_count g);
  rep ← lines_of (a_h P) (max_v P);
  Ok ({| vr_pre_w_fold := 0; vr_flag := mkReaderFlag true true;
         vr_x_repeat := x0; vr_pre_row_archive := 0; v_cache_idx := 0; vr_id := id;
         pop_count := 0; vr_q_space := 0; vr_offset := offset;
         vr_req_address := u64 (A_ROW_START P + offset); vr_req_f_address := XW_START P;
         vr_pre_row := 0; vr_tot_repeat := rep; vr_pre_repeat := 0;
         vr_req_stat := mkRCNT tot 0 0; vr_row_info := ri; vq := [] |},
      g {{ vertex_req_count := q }}).

(** [RequestF]: the next line of features. *)
Definition RequestF (s : VertexReader) (g : Globals D) : VertexReader * Globals D :=
  (s {{ vr_req_f_address := u64 (vr_req_f_address s + CACHE_LINE_BYTE P) }},
   g {{ g_dram := DRAMRequest (vr_req_f_address s) READ_REQ (g_dram g); f_flag := false }}).

(** [pop_count++] and the two tests on it that follow. *)
Definition feature_step (s : VertexReader) (g : Globals D) : res (VertexReader * Globals D) :=
  n ← int_chk (pop_count s + 1);
  let s := s {{ pop_count := n }} in
  let at_last := u64 (vr_pre_row s) =? u64 (a_h P - 1) in
  let '(s, g) :=
    if (u64 (pop_count s) =? u64 (CACHE_LINE_COUNT P - 1)) || at_last
    then RequestF s g else (s, g) in
  Ok (if (u64 (pop_count s) =? CACHE_LINE_COUNT P) || at_last
      then s {{ pop_count := 0 }} else s, g).

(** [flag.req_need = true] when reads are left and the queue has room. *)
Definition more_requests (s : VertexReader) : VertexReader :=
  if (pre_read_cnt (vr_req_stat s) <? tot_read_cnt (vr_req_stat s))
     && (CACHE_LINE_COUNT P <? u64 (MAX_QUEUE_SIZE - vr_q_space s))
  then s {{ vr_flag := mkReaderFlag true (q_empty (vr_flag s)) }} else s.

(** The branch of [TransferData] that reads a vertex from [vq]. *)
Definition transfer_first (s : VertexReader) (g : Globals D)
    : res (Z * VertexReader * Globals D) :=
  r ← int_chk (vr_pre_row s + 1);
  ret ← qfront (vq s);
  q ← qpop (vq s);
  let g := g {{ v_cache := v_cache g ++ [ret] }} in
  let s := s {{ vr_pre_row := r; vq := q; vr_q_space := u64 (vr_q_space s - 1) }} in
  '(s, g) ← feature_step s g;
  let s := more_requests s in
  m ← umod (u64 (vr_pre_row s)) (max_v P);
  if (m =? 0) || (u64 (vr_pre_row s) =? a_h P) then
    x ← int_chk (vr_x_repeat s + 1);
    Ok (ret, s {{ vr_pre_row := i32 (vr_pre_row_archive s); vr_x_repeat := x }}, g)
  else Ok (ret, s, g).

(** The end of a block that has been replayed for the last time. *)
Definition finish_block (s : VertexReader) (g : Globals D) : res (VertexReader * Globals D) :=
  n ← qfront (vertex_req_count g);
  tot ← lines_of n (CACHE_LINE_COUNT P);
  q ← qpop (vertex_req_count g);
  Ok (s {{ vr_flag := mkReaderFlag (negb (u64 (vr_pre_row s) =? a_h P)) true;
           vr_pre_row_archive := u64 (vr_pre_row s); v_cache_idx := 0; vr_x_repeat := 0;
           vr_req_stat := mkRCNT tot 0 (read_cnt_acm (vr_req_stat s)) }},
      g {{ v_cache := []; vertex_req_count := q }}).

(** The branch of [TransferData] that replays a vertex from [v_cache]. *)
Definition transfer_replay (s : VertexReader) (g : Globals D)
    : res (Z * VertexReader * Globals D) :=
  r ← int_chk (vr_pre_row s + 1);
  ret ← vget (v_cache g) (v_cache_idx s);
  let s := s {{ vr_pre_row := r; v_cache_idx := u64 (v_cache_idx s + 1) }} in
  '(s, g) ← feature_step s g;
  if (v_cache_idx s =? max_v P) || (u64 (vr_pre_row s) =? a_h P) then
    if negb (u64 (vr_x_repeat s) =? u64 (w_fold P - 1)) then
      x ← int_chk (vr_x_repeat s + 1);
      Ok (ret, s {{ vr_pre_row := i32 (vr_pre_row_archive s); vr_x_repeat := x;
                    v_cache_idx := 0 }}, g)
    else '(s, g) ← finish_block s g; Ok (ret, s, g)
  else Ok (ret, s, g).

(** [VertexReader::TransferData]; 9876543210 stands for no vertex. *)
Definition no_vertex : Z := 9876543210.
Definition VR_TransferData (s : VertexReader) (g : Globals D)
    : res (Z * VertexReader * Globals D) :=
  if negb (qempty (vq s)) && (vr_x_repeat s =? 0) then transfer_first s g
  else if qempty (vq s) && (0 <? vr_x_repeat s) then transfer_replay s g
  else Ok (no_vertex, s, g).

Definition VR_IsEndRequest (s : VertexReader) : bool :=
  (pre_read_cnt (vr_req_stat s) =? tot_read_cnt (vr_req_stat s))
  && (vr_pre_repeat s <? vr_tot_repeat s - 1).
Definition VR_IsEndOperation (s : VertexReader) (g : Globals D) : bool :=
  (pre_read_cnt (vr_req_stat s) =? tot_read_cnt (vr_req_stat s)) && qempty (vertex_req_count g).
Definition BasisEndOperation (s : VertexReader) : bool :=
  pre_read_cnt (vr_req_stat s) =? tot_read_cnt (vr_req_stat s).

(** [VertexReader::ReceiveData]: a leading 0 (the first row pointer) is
    dropped. *)
Definition VR_ReceiveData (data : list Z) (s : VertexReader) : res VertexReader :=
  f ← qfront data;
  let data := if f =? 0 then tail data else data in
  n ← int_chk (read_cnt_acm (vr_req_stat s) + 1);
  let st := vr_req_stat s in
  Ok (s {{ vr_req_stat := mkRCNT (tot_read_cnt st) (pre_read_cnt st) n;
           vq := vq s ++ data;
           vr_flag := mkReaderFlag (req_need (vr_flag s)) false }}).

(** [VertexReader::Request] *)
Definition VR_Request (s : VertexReader) (g : Globals D) : res (VertexReader * Globals D) :=
  let st := vr_req_stat s in
  let qs := u64 (vr_q_space s + CACHE_LINE_COUNT P) in
  n ← int_chk (pre_read_cnt st + 1);
  let stop := (u64 (MAX_QUEUE_SIZE - qs) <? CACHE_LINE_COUNT P) || (n =? tot_read_cnt st) in
  Ok (s {{ vr_q_space := qs; vr_req_stat := mkRCNT (tot_read_cnt st) n (read_cnt_acm st);
           vr_flag := mkReaderFlag (if stop then false else req_need (vr_flag s))
                        (q_empty (vr_flag s));
           vr_req_address := u64 (vr_req_address s + CACHE_LINE_BYTE P) }},
      g {{ g_dram := DRAMRequest (vr_req_address s) READ_REQ (g_dram g) }}).

Definition VR_ResetRequestStat (s : VertexReader) : res VertexReader :=
  n ← int_chk (vr_pre_repeat s + 1);
  let st := vr_req_stat s in
  Ok (s {{ vr_req_stat := mkRCNT (tot_read_cnt st) 0 (read_cnt_acm st);
           vr_req_address := u64 (A_ROW_START P + vr_offset s); vr_pre_repeat := n }}).

Definition VR_TurnOffFlag (s : VertexReader) : VertexReader :=
  s {{ vr_flag := mkReaderFlag false (q_empty (vr_flag s)) }}.
End Reader.

(** ** Transfers *)

Section Transfers.
Context {D : Type} `{DramPort D}.
Variable P : Params.

(** [n] calls of [TransferData], with the vertices they return. *)
Fixpoint transfers (n : nat) (s : VertexReader) (g : Globals D)
    : res (list Z * VertexReader * Globals D) :=
  match n with
  | O => Ok ([], s, g)
  | S n' =>
      '(v, s1, g1) ← VR_TransferData P s g;
      '(l, s2, g2) ← transfers n' s1 g1; Ok (v :: l, s2, g2)
  end.

Hypothesis Hsz : sizes_ok P.

(** The part of the state that [TransferData] works on. *)
Record vr_view (s : VertexReader) (g : Globals D) (q : list Z) (x : Z) (cache : list Z)
    (idx row arch : Z) (cnts : list Z) : Prop := {
  vv_q : vq s = q; vv_x : vr_x_repeat s = x; vv_cache : v_cache g = cache;
  vv_idx : v_cache_idx s = idx; vv_row : vr_pre_row s = row;
  vv_arch : vr_pre_row_archive s = arch; vv_cnts : vertex_req_count g = cnts;
  vv_pop : 0 ≤ pop_count s < CACHE_LINE_COUNT P }.

Lemma feature_step_ok s g :
  0 ≤ pop_count s < CACHE_LINE_COUNT P →
  ∃ pc rf d ff, feature_step P s g =
    Ok (s {{ pop_count := pc; vr_req_f_address := rf }}, g {{ g_dram := d; f_flag := ff }}) ∧
    0 ≤ pc < CACHE_LINE_COUNT P.
Proof.
  intros Hpop. destruct Hsz as [Hl _ _ _]. unfold feature_step.
  rewrite int_chk_Ok by lia. destruct s, g. cbn in *. unfold RequestF. cbn.
  set (last := u64 vr_pre_row0 =? u64 (a_h P - 1)).
  set (feat := (u64 (pop_count0 + 1) =? u64 (CACHE_LINE_COUNT P - 1)) || last).
  assert (u64 (pop_count0 + 1) = pop_count0 + 1) as Hu by (apply u64_small; lia).
  destruct feat; cbn; rewrite Hu; destruct (Z.eqb_spec (pop_count0 + 1) (CACHE_LINE_COUNT P)), last;
    cbn; do 4 eexists; (split; [reflexivity|]); lia.
Qed.

Lemma more_requests_same s :
  ∃ f, more_requests P s = s {{ vr_flag := f }}.
Proof.
  unfold more_requests. case_match; [by eexists|]. exists (vr_flag s). by destruct s.
Qed.

(** A vertex of the first pass. *)
Lemma first_step s g v q cache idx row arch cnts :
  vr_view s g (v :: q) 0 cache idx row arch cnts →
  0 ≤ row < a_h P → 0 ≤ arch < 2 ^ 31 →
  ∃ s' g', VR_TransferData P s g = Ok (v, s', g') ∧
    if bool_decide ((row + 1) mod max_v P = 0 ∨ row + 1 = a_h P)
    then vr_view s' g' q 1 (cache ++ [v]) idx arch arch cnts
    else vr_view s' g' q 0 (cache ++ [v]) idx (row + 1) arch cnts.
Proof.
  intros [Hq Hx Hc Hi Hr Ha Hn Hp] Hrow Harch. destruct Hsz as [Hl Hah Hm Hf].
  unfold VR_TransferData. rewrite Hq, Hx. cbn. unfold transfer_first.
  rewrite int_chk_Ok by lia. rewrite Hq. cbn.
  match goal with |- context [feature_step P ?a ?b] => set (s1 := a); set (g1 := b) end.
  assert (0 ≤ pop_count s1 < CACHE_LINE_COUNT P) as Hp1 by (unfold s1; destruct s; apply Hp).
  destruct (feature_step_ok s1 g1 Hp1) as (pc & rf & d & ff & E & Hpc).
  rewrite E. cbn [mbind res_bind]. destruct (more_requests_same (s1 {{ pop_count := pc; vr_req_f_address := rf }}))
    as [fl Efl]. rewrite Efl. unfold s1, g1. clear E Efl s1 g1 Hp1. destruct s, g. cbn in *. subst.
  rewrite umod_Ok by lia. cbn. rewrite (u64_small (_ + 1)) by lia.
  destruct (Z.eqb_spec ((row + 1) mod max_v P) 0) as [E1|E1],
    (Z.eqb_spec (row + 1) (a_h P)) as [E2|E2]; cbn;
    do 2 eexists; (split; [reflexivity|]);
    first [rewrite bool_decide_eq_true_2 by tauto | rewrite bool_decide_eq_false_2 by tauto];
    split; cbn; try done; by rewrite i32_small by lia.
Qed.

(** A vertex of a replay, before the end of the block. *)
Lemma replay_step s g v x cache idx row arch cnts :
  vr_view s g [] x cache idx row arch cnts → cache !! Z.to_nat idx = Some v →
  0 < x < w_fold P → 0 ≤ idx < max_v P → 0 ≤ row < a_h P → 0 ≤ arch < 2 ^ 31 →
  idx + 1 ≠ max_v P → row + 1 ≠ a_h P →
  ∃ s' g', VR_TransferData P s g = Ok (v, s', g') ∧
    vr_view s' g' [] x cache (idx + 1) (row + 1) arch cnts.
Proof.
  intros [Hq Hx Hc Hi Hr Ha Hn Hp] Hv Hxr Hidx Hrow Harch N1 N2. destruct Hsz as [Hl Hah Hm Hf].
  unfold VR_TransferData. rewrite Hq, Hx. cbn. destruct (Z.ltb_spec 0 x); [|lia].
  unfold transfer_replay. rewrite int_chk_Ok by lia. cbn.
  assert (vget (v_cache g) (v_cache_idx s) = Ok v) as ->
    by (apply vget_lookup; rewrite Hc, Hi; split; [lia | done]). cbn.
  match goal with |- context [feature_step P ?a _] => set (s1 := a) end.
  assert (0 ≤ pop_count s1 < CACHE_LINE_COUNT P) as Hp1 by (unfold s1; destruct s; apply Hp).
  destruct (feature_step_ok s1 g Hp1) as (pc & rf & d & ff & E & Hpc).
  rewrite E. unfold s1. clear E s1 Hp1. destruct s, g. cbn in *. subst.
  rewrite !(u64_small (_ + 1)) by lia.
  destruct (Z.eqb_spec (idx + 1) (max_v P)), (Z.eqb_spec (row + 1) (a_h P));
    try lia. cbn. do 2 eexists. split; [reflexivity|]. by split.
Qed.

(** The last vertex of a replay. *)
Lemma replay_last s g v x cache idx row arch cnts :
  vr_view s g [] x cache idx row arch cnts → cache !! Z.to_nat idx = Some v →
  0 < x < w_fold P → 0 ≤ idx < max_v P → 0 ≤ row < a_h P → 0 ≤ arch < 2 ^ 31 →
  idx + 1 = max_v P ∨ row + 1 = a_h P →
  (x ≠ w_fold P - 1 →
     ∃ s' g', VR_TransferData P s g = Ok (v, s', g') ∧
       vr_view s' g' [] (x + 1) cache 0 arch arch cnts) ∧
  (x = w_fold P - 1 → ∀ n q tot, cnts = n :: q → lines_of n (CACHE_LINE_COUNT P) = Ok tot →
     ∃ s' g', VR_TransferData P s g = Ok (v, s', g') ∧
       vr_view s' g' [] 0 [] 0 (row + 1) (row + 1) q ∧
       pre_read_cnt (vr_req_stat s') = 0 ∧ tot_read_cnt (vr_req_stat s') = tot ∧
       req_need (vr_flag s') = negb (row + 1 =? a_h P) ∧ q_empty (vr_flag s') = true) ∧
  (x = w_fold P - 1 → cnts = [] → VR_TransferData P s g = Err EmptyQueue).
Proof.
  intros [Hq Hx Hc Hi Hr Ha Hn Hp] Hv Hxr Hidx Hrow Harch Hend. destruct Hsz as [Hl Hah Hm Hf].
  unfold VR_TransferData. rewrite Hq, Hx. cbn. destruct (Z.ltb_spec 0 x); [|lia].
  unfold transfer_replay. rewrite int_chk_Ok by lia. cbn.
  assert (vget (v_cache g) (v_cache_idx s) = Ok v) as ->
    by (apply vget_lookup; rewrite Hc, Hi; split; [lia | done]). cbn.
  match goal with |- context [feature_step P ?a _] => set (s1 := a) end.
  assert (0 ≤ pop_count s1 < CACHE_LINE_COUNT P) as Hp1 by (unfold s1; destruct s; apply Hp).
  destruct (feature_step_ok s1 g Hp1) as (pc & rf & d & ff & E & Hpc).
  rewrite E. unfold s1. clear E s1 Hp1. destruct s, g. cbn in *. subst.
  rewrite !(u64_small (_ + 1)), !(u64_small (w_fold P - 1)), !(u64_small x) by lia.
  assert ((idx + 1 =? max_v P) || (row + 1 =? a_h P) = true) as ->.
  { apply orb_true_iff. rewrite !Z.eqb_eq. done. }
  split; [|split].
  - intros Hne. destruct (Z.eqb_spec x (w_fold P - 1)); [done|]. cbn.
    rewrite int_chk_Ok by lia. cbn. do 2 eexists. split; [reflexivity|].
    split; cbn; try done. by rewrite i32_small by lia.
  - intros -> n q tot -> Ht. rewrite Z.eqb_refl. cbn. unfold finish_block. cbn. rewrite Ht. cbn.
    do 2 eexists. split; [reflexivity|]. cbn. rewrite !(u64_small (_ + 1)) by lia. by split.
  - intros -> ->. rewrite Z.eqb_refl. done.
Qed.

(** The first pass over the rest [B2] of a block. *)
Lemma first_pass s g B1 B2 arch cnts :
  block_at P arch (B1 ++ B2) → B2 ≠ [] →
  vr_view s g B2 0 B1 0 (arch + vsize B1) arch cnts →
  ∃ s' g', transfers (length B2) s g = Ok (B2, s', g') ∧
    vr_view s' g' [] 1 (B1 ++ B2) 0 arch arch cnts.
Proof.
  intros Hb Hne Hv. revert s g B1 Hb Hv. induction B2 as [|v B2 IH]; intros s g B1 Hb Hv; [done|].
  pose proof Hb as [Ha Hal Hlen Hfit Hend]. rewrite vsize_app, vsize_cons in *.
  pose proof (vsize_nonneg B1). pose proof (vsize_nonneg B2). destruct Hsz as [_ Hah Hm _].
  destruct (first_step s g v B2 B1 0 (arch + vsize B1) arch cnts Hv) as (s1 & g1 & E1 & V1);
    [lia | lia|].
  pose proof (block_row_end P Hsz arch _ (vsize B1 + 1) Hb) as Hre.
  rewrite vsize_app, vsize_cons in Hre. rewrite <- Z.add_assoc in V1.
  destruct B2 as [|v' B2].
  - rewrite bool_decide_eq_true_2 in V1 by (apply Hre; unfold vsize in *; simpl in *; lia).
    exists s1, g1. simpl. rewrite E1. simpl. done.
  - rewrite bool_decide_eq_false_2 in V1.
    2:{ rewrite Hre by lia. unfold vsize in *. simpl in *. lia. }
    destruct (IH ltac:(done) s1 g1 (B1 ++ [v])) as (s2 & g2 & E2 & V2).
    + by rewrite <- app_assoc.
    + rewrite vsize_app. exact V1.
    + exists s2, g2. change (length (v :: v' :: B2)) with (S (length (v' :: B2))).
      cbn [transfers]. rewrite E1. cbn [mbind res_bind]. rewrite E2. simpl. split; [done|].
      by rewrite <- app_assoc in V2.
Qed.

(** One replay, from position [j] of the block to just before its last vertex. *)
Lemma replay_prefix n s g x B j arch cnts :
  block_at P arch B → 0 < x < w_fold P → 0 ≤ j → j + Z.of_nat n < vsize B →
  vr_view s g [] x B j (arch + j) arch cnts →
  ∃ s' g', transfers n s g = Ok (take n (drop (Z.to_nat j) B), s', g') ∧
    vr_view s' g' [] x B (j + Z.of_nat n) (arch + j + Z.of_nat n) arch cnts.
Proof.
  intros Hb Hx. revert s g j. induction n as [|n IH]; intros s g j Hj Hn Hv.
  { exists s, g. simpl. rewrite !Z.add_0_r. done. }
  pose proof Hb as [Ha Hal Hlen Hfit Hend]. destruct Hsz as [_ Hah Hm _].
  destruct (lookup_lt_is_Some_2 B (Z.to_nat j)) as [v Hlv]; [unfold vsize in *; lia|].
  destruct (replay_step s g v x B j (arch + j) arch cnts Hv Hlv) as (s1 & g1 & E1 & V1); try lia.
  destruct (IH s1 g1 (j + 1)) as (s2 & g2 & E2 & V2); [lia | lia | by rewrite Z.add_assoc |].
  exists s2, g2. cbn [transfers]. rewrite E1. cbn [mbind res_bind]. rewrite E2. simpl.
  rewrite (drop_S _ _ _ Hlv). simpl.
  replace (Z.to_nat (j + 1)) with (S (Z.to_nat j)) by lia. split; [done|].
  replace (j + Z.of_nat (S n)) with (j + 1 + Z.of_nat n) by lia.
  by replace (arch + j + Z.of_nat (S n)) with (arch + (j + 1) + Z.of_nat n) by lia.
Qed.

Lemma transfers_app n1 n2 s g l1 s1 g1 l2 s2 g2 :
  transfers n1 s g = Ok (l1, s1, g1) → transfers n2 s1 g1 = Ok (l2, s2, g2) →
  transfers (n1 + n2) s g = Ok (l1 ++ l2, s2, g2).
Proof.
  revert s g l1. induction n1 as [|n1 IH]; intros s g l1 H1 H2; cbn [transfers] in H1.
  { by injection H1 as <- <- <-. }
  apply bind_Ok_inv in H1 as ([[v sa] ga] & Ha & H1).
  apply bind_Ok_inv in H1 as ([[l sb] gb] & Hb & H1). injection H1 as <- <- <-.
  cbn [Nat.add transfers]. rewrite Ha. cbn [mbind res_bind]. by rewrite (IH _ _ _ Hb H2).
Qed.

(** One whole replay. *)
Lemma replay_pass s g x B arch cnts :
  block_at P arch B → 0 < x < w_fold P → vr_view s g [] x B 0 arch arch cnts →
  ∃ s1 g1 v B1, B = B1 ++ [v] ∧ transfers (length B1) s g = Ok (B1, s1, g1) ∧
    vr_view s1 g1 [] x B (vsize B1) (arch + vsize B1) arch cnts.
Proof.
  intros Hb Hx Hv. pose proof (ba_len _ _ _ Hb) as Hlen.
  destruct (exists_last (l := B)) as (B1 & v & ->); [intros ->; unfold vsize in Hlen; simpl in Hlen; lia|].
  destruct (replay_prefix (length B1) s g x (B1 ++ [v]) 0 arch cnts Hb Hx) as (s1 & g1 & E & V).
  - lia.
  - unfold vsize. rewrite length_app. simpl. lia.
  - by rewrite Z.add_0_r.
  - exists s1, g1, v, B1. split; [done|]. change (Z.to_nat 0) with 0%nat in E. rewrite drop_0 in E.
    rewrite take_app_length in E. split; [done|]. by rewrite Z.add_0_l, Z.add_0_r in V.
Qed.

Lemma transfers_one s g v s' g' :
  VR_TransferData P s g = Ok (v, s', g') → transfers 1 s g = Ok ([v], s', g').
Proof. intros E. cbn [transfers]. rewrite E. done. Qed.

(** [k] replays that are not the last one. *)
Lemma replays k s g x B arch cnts :
  block_at P arch B → 0 < x → x + Z.of_nat k < w_fold P → vr_view s g [] x B 0 arch arch cnts →
  ∃ s' g', transfers (k * length B) s g = Ok (concat (replicate k B), s', g') ∧
    vr_view s' g' [] (x + Z.of_nat k) B 0 arch arch cnts.
Proof.
  intros Hb. revert s g x. induction k as [|k IH]; intros s g x Hx Hk Hv.
  { exists s, g. rewrite Z.add_0_r. done. }
  pose proof Hb as [Ha Hal Hlen Hfit Hend]. destruct Hsz as [_ Hah Hm _].
  destruct (replay_pass s g x B arch cnts Hb) as (s1 & g1 & v & B1 & EB & E1 & V1); [lia | done |].
  assert (vsize B = vsize B1 + 1) as EL by (rewrite EB; by rewrite vsize_app).
  assert (B !! Z.to_nat (vsize B1) = Some v) as Hlast.
  { rewrite EB. unfold vsize. rewrite Nat2Z.id, lookup_app_r, Nat.sub_diag by lia. done. }
  pose proof (vsize_nonneg B1).
  destruct (replay_last s1 g1 v x B (vsize B1) (arch + vsize B1) arch cnts V1 Hlast)
    as (Hnext & _); try lia.
  destruct Hnext as (s2 & g2 & E2 & V2); [lia|].
  destruct (IH s2 g2 (x + 1)) as (s3 & g3 & E3 & V3); [lia | lia | done |].
  exists s3, g3. split.
  - simpl. rewrite (transfers_app (length B) (k * length B) s g B s2 g2
      (concat (replicate k B)) s3 g3); [done | | done].
    pose proof (transfers_app (length B1) 1 s g B1 s1 g1 [v] s2 g2 E1 (transfers_one _ _ _ _ _ E2)) as E.
    rewrite <- EB in E. by replace (length B) with (length B1 + 1)%nat by (unfold vsize in EL; lia).
  - by replace (x + Z.of_nat (S k)) with (x + 1 + Z.of_nat k) by lia.
Qed.

(** All but the last vertex of the [w_fold] passes. *)
Lemma all_but_last s g B arch cnts :
  block_at P arch B → vr_view s g B 0 [] 0 arch arch cnts →
  ∃ s1 g1 v l, l ++ [v] = concat (replicate (Z.to_nat (w_fold P)) B) ∧
    transfers (length l) s g = Ok (l, s1, g1) ∧ B !! Z.to_nat (vsize B - 1) = Some v ∧
    vr_view s1 g1 [] (w_fold P - 1) B (vsize B - 1) (arch + (vsize B - 1)) arch cnts.
Proof.
  intros Hb Hv. pose proof Hb as [Ha Hal Hlen Hfit Hend]. destruct Hsz as [_ Hah Hm Hf].
  destruct (first_pass s g [] B arch cnts) as (s1 & g1 & E1 & V1); [done | | |].
  { intros ->. unfold vsize in Hlen. simpl in Hlen. lia. }
  { unfold vsize at 1. simpl. by rewrite Z.add_0_r. }
  simpl in V1. set (k := Z.to_nat (w_fold P - 2)).
  destruct (replays k s1 g1 1 B arch cnts Hb) as (s2 & g2 & E2 & V2); [lia | lia | done |].
  destruct (replay_pass s2 g2 (1 + Z.of_nat k) B arch cnts Hb) as (s3 & g3 & v & B1 & EB & E3 & V3);
    [lia | done |].
  assert (vsize B = vsize B1 + 1) as EL by (rewrite EB; by rewrite vsize_app).
  pose proof (transfers_app _ _ _ _ _ _ _ _ _ _ E1 E2) as E12.
  pose proof (transfers_app _ _ _ _ _ _ _ _ _ _ E12 E3) as E123.
  exists s3, g3, v, ((B ++ concat (replicate k B)) ++ B1). split; [|split; [|split]].
  - replace (Z.to_nat (w_fold P)) with (S (k + 1)) by lia.
    rewrite <- app_assoc, <- EB. cbn [replicate concat].
    rewrite replicate_add, concat_app. cbn [replicate concat]. by rewrite app_nil_r, app_assoc.
  - replace (length ((B ++ concat (replicate k B)) ++ B1))
      with (length B + k * length B + length B1)%nat; [done|].
    rewrite !length_app. f_equal. f_equal. clear. induction k as [|k IH]; simpl; [done|].
    rewrite length_app. lia.
  - rewrite EL, Z.add_simpl_r, EB. unfold vsize.
    by rewrite Nat2Z.id, lookup_app_r, Nat.sub_diag by lia.
  - rewrite EL, Z.add_simpl_r. by replace (w_fold P - 1) with (1 + Z.of_nat k) by lia.
Qed.
End Transfers.

(** ** Properties *)


(** the end of the last block underflows.  When no count is left for a next
    block, the last vertex of the last replay reads the front of the empty queue
    [vertex_req_count] (undefined behaviour) instead of ending the run. *)
Theorem vertex_last_block_underflow {D} `{DramPort D} P s (g : Globals D) B arch :
  sizes_ok P → block_at P arch B → vr_view P s g B 0 [] 0 arch arch [] →
  ∃ l v s' g', l ++ [v] = concat (replicate (Z.to_nat (w_fold P)) B) ∧
    transfers P (length l) s g = Ok (l, s', g') ∧ VR_TransferData P s' g' = Err EmptyQueue.
Proof.
  intros Hsz Hb Hv. pose proof Hb as [Ha Hal Hlen Hfit Hend].
  destruct (all_but_last P Hsz s g B arch _ Hb Hv) as (s1 & g1 & v & l & El & E1 & Hlv & V1).
  destruct Hsz as [H1 H2 H3 H4] eqn:E.
  destruct (replay_last P Hsz s1 g1 v _ B _ _ arch _ V1 Hlv) as (_ & _ & Hfin); try (clear E; lia).
  exists l, v, s1, g1. split; [done|]. split; [done | by apply Hfin].
Qed.

(** The requests a reader makes while it wants any: what the main loop does with
    [if (vr->flag.req_need) vr->Request()]. *)
Fixpoint vr_pull {D} `{DramPort D} (P : Params) (n : nat) (s : VertexReader) (g : Globals D)
    : res (VertexReader * Globals D) :=
  match n with
  | O => Ok (s, g)
  | S n' =>
      if req_need (vr_flag s) then '(s, g) ← VR_Request P s g; vr_pull P n' s g
      else vr_pull P n' s g
  end.

(** [n] more requests, all wanted, room being left in the queue. *)
Lemma vr_pull_lines {D} `{DramPort D} P n s (g : Globals D) :
  1 ≤ CACHE_LINE_COUNT P → (0 < n)%nat →
  req_need (vr_flag s) = true → 0 ≤ pre_read_cnt (vr_req_stat s) →
  pre_read_cnt (vr_req_stat s) + Z.of_nat n = tot_read_cnt (vr_req_stat s) →
  tot_read_cnt (vr_req_stat s) < 2 ^ 31 →
  0 ≤ vr_q_space s →
  vr_q_space s + (Z.of_nat n + 1) * CACHE_LINE_COUNT P ≤ MAX_QUEUE_SIZE →
  vr_req_address s = u64 (vr_req_address s) →
  ∃ s' g', vr_pull P n s g = Ok (s', g') ∧ req_need (vr_flag s') = false ∧
    requests (g_dram g') = requests (g_dram g) ++ lines_from P (vr_req_address s) n ∧
    g' = g {{ g_dram := g_dram g' }} ∧ vq s' = vq s ∧ read_cnt_acm (vr_req_stat s') = read_cnt_acm (vr_req_stat s).
Proof.
  intros HC Hn. revert s g. induction n as [|n IH]; [lia|]. clear Hn.
  intros s g Hneed Hp0 Hp Ht Hq0 Hq Ha. cbn [vr_pull]. rewrite Hneed. unfold VR_Request.
  unfold MAX_QUEUE_SIZE in *. rewrite int_chk_Ok by lia. cbn [mbind res_bind].
  assert (u64 (vr_q_space s + CACHE_LINE_COUNT P) = vr_q_space s + CACHE_LINE_COUNT P) as Eq
    by (apply u64_small; nia).
  rewrite Eq. rewrite (u64_small (1000000 - _)) by nia.
  destruct (Z.ltb_spec (1000000 - (vr_q_space s + CACHE_LINE_COUNT P)) (CACHE_LINE_COUNT P));
    [nia|].
  destruct n as [|n].
  - destruct (Z.eqb_spec (pre_read_cnt (vr_req_stat s) + 1) (tot_read_cnt (vr_req_stat s))); [|lia].
    destruct s, g. cbn in *. do 2 eexists. split; [reflexivity|]. cbn. split; [done|].
    split; [|done]. rewrite request_queued. f_equal. unfold lines_from. csimpl.
    by rewrite Z.add_0_r, <- Ha.
  - destruct (Z.eqb_spec (pre_read_cnt (vr_req_stat s) + 1) (tot_read_cnt (vr_req_stat s))); [lia|].
    cbn [orb]. match goal with |- context [vr_pull P (S n) ?a ?b] =>
      destruct (IH ltac:(lia) a b) as (s' & g' & E & Hf & Hr & Hg & Hv & Hm) end.
    1-6: destruct s; cbn in *; try done; try lia; try nia.
    { destruct s. cbn in *. unfold u64. by rewrite Zmod_mod. }
    exists s', g'. split; [exact E|]. split; [done|].
    split; [|split; [rewrite Hg; by destruct g | rewrite Hv, Hm; by destruct s]]. rewrite Hr.
    destruct s, g. cbn in *. rewrite request_queued, <- app_assoc. f_equal.
    match goal with |- _ = lines_from P ?a _ =>
      replace (lines_from P a (S (S n))) with (lines_from P (u64 a) (S (S n)))
        by (by rewrite <- Ha); rewrite (lines_from_S P a (S n)) end.
    by rewrite <- Ha.
Qed.

(** the reader asks for exactly the lines of its block.  After
    construction for a block of [n] row pointers that fits its queue, pulling
    requests emits the consecutive cache lines from [A_ROW_START + offset], just
    enough to hold [n] entries and not one more, and then no more is wanted. *)
Theorem vertex_requests_lines {D} `{DramPort D} P id off x0 ri (g : Globals D) n q s g1 :
  1 ≤ CACHE_LINE_COUNT P < 2 ^ 53 → vertex_req_count g = n :: q →
  0 < n → n + 2 * CACHE_LINE_COUNT P ≤ MAX_QUEUE_SIZE →
  new_VertexReader P id off x0 ri g = Ok (s, g1) →
  ∃ k s' g', vr_pull P k s g1 = Ok (s', g') ∧ req_need (vr_flag s') = false ∧
    requests (g_dram g') =
      requests (g_dram g) ++ lines_from P (u64 (A_ROW_START P + off)) k ∧
    n ≤ Z.of_nat k * CACHE_LINE_COUNT P < n + CACHE_LINE_COUNT P.
Proof.
  unfold MAX_QUEUE_SIZE. intros HC Hg Hn0 Hn Hs. unfold new_VertexReader in Hs. rewrite Hg in Hs.
  cbn in Hs. unfold lines_of in Hs. rewrite (ceil_double_int_exact n) in Hs by lia. cbn in Hs.
  apply bind_Ok_inv in Hs as (rep & _ & Hs). injection Hs as <- <-.
  pose proof (ceil_div_bounds n (CACHE_LINE_COUNT P)) as Hb.
  set (k := ceil_div n (CACHE_LINE_COUNT P)) in *.
  assert (0 < k ≤ n) as Hk by nia.
  match goal with |- context [vr_pull P _ ?a ?b] =>
    destruct (vr_pull_lines P (Z.to_nat k) a b) as (s' & g' & E & Hf & Hr & _) end; cbn.
  1-8: rewrite ?Z2Nat.id by lia; unfold MAX_QUEUE_SIZE; try lia; try nia; done.
  { unfold u64. by rewrite Zmod_mod. }
  exists (Z.to_nat k), s', g'. split; [exact E|]. split; [done|]. split.
  - rewrite Hr. cbn. by destruct g.
  - rewrite Z2Nat.id by lia. lia.
Qed.

(** [feature_step] only touches the feature requests. *)
Lemma feature_step_same {D} `{DramPort D} P s (g : Globals D) s' g' :
  feature_step P s g = Ok (s', g') →
  vr_x_repeat s' = vr_x_repeat s ∧ vertex_req_count g' = vertex_req_count g.
Proof.
  unfold feature_step, RequestF. intros Hs. apply bind_Ok_inv in Hs as (pc & _ & Hs).
  destruct s, g. cbn in Hs. destruct (_ || _) in Hs; destruct (_ || _) in Hs;
    injection Hs as <- <-; done.
Qed.

(** with one fold the reader never leaves its first block: once [x_repeat] is
    positive it stays positive, so the cache is replayed for ever and no further
    block is started ([vertex_req_count] is never read again). *)
Theorem vertex_single_fold_stuck {D} `{DramPort D} P n s (g : Globals D) l s' g' :
  w_fold P = 1 → 0 < vr_x_repeat s < 2 ^ 31 → transfers P n s g = Ok (l, s', g') →
  0 < vr_x_repeat s' ∧ vertex_req_count g' = vertex_req_count g.
Proof.
  intros Hf. revert s g l. induction n as [|n IH]; intros s g l Hx Ht; cbn [transfers] in Ht.
  { injection Ht as <- <- <-. split; [lia | done]. }
  apply bind_Ok_inv in Ht as ([[v s1] g1] & Hv & Ht).
  apply bind_Ok_inv in Ht as ([[l1 s2] g2] & Hl & Ht). injection Ht as <- <- <-.
  assert (0 < vr_x_repeat s1 < 2 ^ 31 ∧ vertex_req_count g1 = vertex_req_count g) as [Hx1 Hc1];
    [|destruct (IH _ _ _ Hx1 Hl); split; [done | congruence]].
  clear IH Hl. unfold VR_TransferData in Hv. destruct (Z.eqb_spec (vr_x_repeat s) 0); [lia|].
  rewrite andb_false_r in Hv. case_match; [|by injection Hv as <- <- <-].
  unfold transfer_replay in Hv.
  apply bind_Ok_inv in Hv as (r & _ & Hv). apply bind_Ok_inv in Hv as (ret & _ & Hv).
  apply bind_Ok_inv in Hv as ([sa ga] & Hs & Hv). apply feature_step_same in Hs as [Ea Eg].
  assert (vr_x_repeat sa = vr_x_repeat s) as Ex by (rewrite Ea; by destruct s). clear Ea.
  rewrite Hf, Ex in Hv. change (u64 (1 - 1)) with 0 in Hv. rewrite (u64_small (vr_x_repeat s)) in Hv by lia.
  destruct ((v_cache_idx sa =? max_v P) || (u64 (vr_pre_row sa) =? a_h P)).
  - destruct (Z.eqb_spec (vr_x_repeat s) 0); [lia|]. cbn in Hv.
    apply bind_Ok_inv in Hv as (x & Hi & Hv). apply int_chk_inv in Hi as [-> Hi].
    injection Hv as _ <- <-. destruct sa. cbn in *. split; [lia | congruence].
  - injection Hv as _ <- <-. by rewrite Ex.
Qed.

(** ** Concrete runs *)

Definition ex_reader (q : list Z) (x : Z) : VertexReader :=
  {| vr_pre_w_fold := 0; vr_flag := mkReaderFlag false false; vr_x_repeat := x;
     vr_pre_row_archive := 0; v_cache_idx := 0; vr_id := 0; pop_count := 0; vr_q_space := 8;
     vr_offset := 0; vr_req_address := 1064; vr_req_f_address := 4064; vr_pre_row := 0;
     vr_tot_repeat := 2; vr_pre_repeat := 0; vr_req_stat := mkRCNT 1 1 1;
     vr_row_info := mkRowInfo 0 4; vq := q |}.


Lemma vertex_last_block_underflow_witness :
  ∃ l v s' g', l ++ [v] = [3; 5; 3; 5] ∧
    transfers ex_params (length l) (ex_reader [3; 5] 0) (globals_of ([] : list (Z * bool)) [] []) =
      Ok (l, s', g') ∧ VR_TransferData ex_params s' g' = Err EmptyQueue.
Proof.
  apply (vertex_last_block_underflow ex_params (ex_reader [3; 5] 0)
    (globals_of ([] : list (Z * bool)) [] []) [3; 5] 0).
  - apply ex_sizes_ok.
  - apply ex_block.
  - by split; vm_compute.
Defined.

Lemma vertex_requests_lines_witness :
  ∃ s g1 k s' g', new_VertexReader ex_params 0 0 0 (mkRowInfo 0 4)
      (globals_of ([] : list (Z * bool)) [20] []) = Ok (s, g1) ∧
    vr_pull ex_params k s g1 = Ok (s', g') ∧ req_need (vr_flag s') = false ∧
    20 ≤ Z.of_nat k * 8 < 28.
Proof.
  destruct (new_VertexReader ex_params 0 0 0 (mkRowInfo 0 4)
    (globals_of ([] : list (Z * bool)) [20] [])) as [[s g1]|] eqn:E; [|by vm_compute in E].
  destruct (vertex_requests_lines ex_params 0 0 0 (mkRowInfo 0 4)
    (globals_of ([] : list (Z * bool)) [20] []) 20 [] s g1) as (k & s' & g' & Hp & Hn & _ & Hk).
  - simpl. lia.
  - reflexivity.
  - lia.
  - unfold MAX_QUEUE_SIZE. simpl. lia.
  - exact E.
  - exists s, g1, k, s', g'. split; [done|]. split; [done|]. split; [done|].
    change (CACHE_LINE_COUNT ex_params) with 8 in Hk. lia.
Defined.

Definition ex_one_fold : Params := ex_params {{ w_fold := 1 }}.

Definition ex_one_globals : Globals (list (Z * bool)) :=
  (globals_of ([] : list (Z * bool)) [2] []) {{ v_cache := [3; 5] }}.

Lemma vertex_single_fold_stuck_witness :
  ∃ l s' g', transfers ex_one_fold 3 (ex_reader [] 1) ex_one_globals = Ok (l, s', g') ∧
    0 < vr_x_repeat s' ∧ vertex_req_count g' = [2].
Proof.
  destruct (transfers ex_one_fold 3 (ex_reader [] 1) ex_one_globals)
    as [[[l s'] g']|] eqn:E; [|by vm_compute in E].
  destruct (vertex_single_fold_stuck ex_one_fold 3 (ex_reader [] 1) ex_one_globals l s' g')
    as [Hx Hc]; [reflexivity | simpl; lia | exact E |].
  exists l, s', g'. split; [done|]. split; [exact Hx | exact Hc].
Defined.
