(* ===== verification/EdgeReader.v ===== *)
(** * The edge reader (EdgeReader.h, EdgeReader.cpp)

    It requests the column indices of a block, takes the row pointers from the
    vertex reader, and walks the edges of each row: the first time from its
    queue [eq], filling [e_cache], and [w_fold - 1] more times from the cache.
    The theorems: on a block whose last row has an edge and whose edges are not
    all in its first row, the walk visits exactly the edges of the block
    [w_fold] times and is ready for the next block; on a block whose last row is
    empty the replay walks the edges of the next block instead. *)

From S2P Require Import Prelude CFloat Common.

Open Scope Z_scope.

(** The reader, its request side first. *)
Record EdgeReader := mkER {
  er_pre_w_fold_ : Z; er_can_receive : bool; er_flag : ReaderFlag;
  er_x_repeat : Z; e_cache_idx : Z; er_pre_row_archive : Z;
  write_count : Z; do_write : bool; er_id : Z; transfer_cnt : Z; pre_w_fold_start : Z;
  a_col_size : Z; er_q_space : Z; er_offset : Z; er_req_address : Z; write_address : Z;
  er_pre_row : Z; er_tot_repeat : Z; tot_req_repeat : Z; er_pre_repeat_ : Z; pre_req_repeat : Z;
  cur_v : Z; prev_v : Z; remain_col_num : Z; col_num_archive : Z;
  er_req_stat : RCNT; er_row_info : RowInfo; eq_ : list Z; ev : list Z }.

Section Reader.
Context {D : Type} `{DramPort D}.
Variable P : Params.

(** [EdgeReader::EdgeReader]; the member [x_repeat] is not initialised ([x0]). *)
Definition new_EdgeReader (id offset col_size x0 : Z) (ri : RowInfo) (g : Globals D)
    : res (EdgeReader * Globals D) :=
  n ← qfront (edge_req_count g);
  tot ← ceil_double_int n (CACHE_LINE_COUNT P);
  q ← qpop (edge_req_count g);
  wc ← ceil_double_int (a_h P) (CACHE_LINE_COUNT P);
  Ok ({| er_pre_w_fold_ := 0; er_can_receive := true; er_flag := mkReaderFlag true true;
         er_x_repeat := x0; e_cache_idx := 0; er_pre_row_archive := 0;
         write_count := wc; do_write := false; er_id := id; transfer_cnt := 0;
         pre_w_fold_start := 0; a_col_size := col_size; er_q_space := 0; er_offset := offset;
         er_req_address := u64 (A_COL_START P + offset); write_address := AXW_START P;
         er_pre_row := 0; er_tot_repeat := i32 (w_fold P); tot_req_repeat := i32 (w_fold P);
         er_pre_repeat_ := 0; pre_req_repeat := 0; cur_v := 0; prev_v := 0;
         remain_col_num := 0; col_num_archive := 0; er_req_stat := mkRCNT tot 0 0;
         er_row_info := ri; eq_ := []; ev := [] |},
      g {{ edge_req_count := q; last_v := 0; block_cnt := 0 }}).

(** [flag.req_need = true] when reads are left and the queue has room. *)
Definition er_more_requests (s : EdgeReader) : ReaderFlag :=
  if (pre_read_cnt (er_req_stat s) <? tot_read_cnt (er_req_stat s))
     && (CACHE_LINE_COUNT P <? u64 (MAX_QUEUE_SIZE - er_q_space s))
  then mkReaderFlag true (q_empty (er_flag s)) else er_flag s.

(** The address of a transferred edge. *)
Definition er_address (s : EdgeReader) (col start : Z) : Z :=
  let unit := u64 (UNIT_W_READ P) in
  let a1 := u64 (u64 (x_h P * u64 (er_pre_repeat_ s)) * unit) in
  let a2 := u64 (col * unit) in
  let a3 := u64 (er_pre_w_fold_ s - start) / CACHE_LINE_COUNT P in
  u64 (XW_START P + u64 (u64 (u64 (a1 + a2) + a3) * CACHE_LINE_BYTE P)).

(** [EdgeReader::TransferData] *)
Definition ER_TransferData (s : EdgeReader) : res (ERData * EdgeReader) :=
  start_w_fold ← int_chk (er_pre_repeat_ s * UNIT_W_READ P);
  limit0 ← int_chk (start_w_fold + UNIT_W_READ P);
  tc ← int_chk (transfer_cnt s + 1);
  let limit_w_fold := if w_fold P <? u64 limit0 then i32 (w_fold P) else limit0 in
  _ ← (if UNIT_W_READ P =? 0 then Err DivByZero else Ok tt);
  '(ev1, eq1) ←
    (if Z.rem (er_pre_w_fold_ s) (UNIT_W_READ P) =? 0 then
       x ← qfront (eq_ s); q ← qpop (eq_ s); Ok (ev s ++ [x], q)
     else Ok (ev s, eq_ s));
  col ← vget ev1 (u64 (col_num_archive s - remain_col_num s));
  pf ← udiv (u64 (er_pre_w_fold_ s)) (CACHE_LINE_COUNT P);
  let is_end := remain_col_num s =? 1 in
  let ret := mkERData (u64 (er_pre_row s)) col (er_address s col (pre_w_fold_start s))
               (i32 pf) (pre_w_fold_start s) (er_pre_repeat_ s) is_end in
  f1 ← int_chk (er_pre_w_fold_ s + 1);
  let full := f1 =? limit_w_fold in
  let s1 := s {{ transfer_cnt := tc; ev := ev1; eq_ := eq1; er_flag := er_more_requests s;
                 er_pre_w_fold_ := if full then start_w_fold else f1;
                 remain_col_num := if full then u64 (remain_col_num s - 1)
                                   else remain_col_num s }} in
  let s2 :=
    if is_end && full then
      let s1 := s1 {{ er_q_space := u64 (er_q_space s - vsize ev1); ev := [] }} in
      if negb (u64 (er_pre_row s) =? row_end (er_row_info s))
         || negb (u64 start_w_fold =? w_fold P)
      then s1 {{ er_can_receive := true }}
      else s1 {{ er_flag := mkReaderFlag (req_need (er_flag s1)) true }}
    else s1 in
  let s3 :=
    if (er_pre_w_fold_ s2 =? start_w_fold) && qempty eq1
    then s2 {{ er_flag := mkReaderFlag (req_need (er_flag s2)) true }} else s2 in
  if u64 tc =? u64 (a_col_size s * u64 (UNIT_W_READ P)) then
    r ← int_chk (er_pre_repeat_ s + 1);
    pw ← int_chk (r * UNIT_W_READ P);
    Ok (ret, s3 {{ er_pre_repeat_ := r; er_pre_w_fold_ := pw; pre_w_fold_start := pw;
                   transfer_cnt := 0 }})
  else Ok (ret, s3).

(** The last row of a block: [pre_row % max_v == 0 || pre_row == a_h]. *)
Definition er_block_end (s : EdgeReader) : res bool :=
  m ← umod (u64 (er_pre_row s)) (max_v P);
  Ok ((m =? 0) || (u64 (er_pre_row s) =? a_h P)).

(** The branch of [OuterProduct] that takes an edge from [eq]. *)
Definition outer_first (s : EdgeReader) (g : Globals D) : res (EdgeReader * Globals D) :=
  row ← qfront (eq_ s);
  q ← qpop (eq_ s);
  let g := g {{ e_cache := e_cache g ++ [row] }} in
  let s := s {{ eq_ := q; er_q_space := u64 (er_q_space s - 1) }} in
  let s := s {{ er_flag := er_more_requests s;
                remain_col_num := u64 (remain_col_num s - 1) }} in
  if remain_col_num s =? 0 then
    let s := s {{ er_can_receive := true }} in
    e ← er_block_end s;
    if (e : bool) then
      x ← int_chk (er_x_repeat s + 1);
      Ok (s {{ er_pre_row := i32 (er_pre_row_archive s); er_x_repeat := x;
               do_write := true }}, g)
    else Ok (s, g)
  else Ok (s, g).

(** The end of the last replay of a block. *)
Definition er_finish (s : EdgeReader) (g : Globals D) : res (EdgeReader * Globals D) :=
  b ← int_chk (block_cnt g + 1);
  n ← qfront (edge_req_count g);
  tot ← ceil_double_int n (CACHE_LINE_COUNT P);
  q ← qpop (edge_req_count g);
  let last := u64 (er_pre_row s) =? a_h P in
  Ok (s {{ er_req_stat := mkRCNT tot 0 (read_cnt_acm (er_req_stat s));
           er_can_receive := if last then false else er_can_receive s;
           er_flag := if last then er_flag s else mkReaderFlag true (q_empty (er_flag s));
           er_pre_row_archive := u64 (er_pre_row s); e_cache_idx := 0; er_x_repeat := 0;
           do_write := true }},
      g {{ block_cnt := b; edge_req_count := q; last_v := v_arch g; e_cache := [] }}).

(** The branch of [OuterProduct] that replays an edge from [e_cache]. *)
Definition outer_replay (s : EdgeReader) (g : Globals D) : res (EdgeReader * Globals D) :=
  _ ← vget (e_cache g) (e_cache_idx s);
  let s := s {{ e_cache_idx := u64 (e_cache_idx s + 1);
                remain_col_num := u64 (remain_col_num s - 1) }} in
  if remain_col_num s =? 0 then
    let s := s {{ er_can_receive := true }} in
    e ← er_block_end s;
    if negb e then Ok (s, g)
    else if negb (u64 (er_x_repeat s) =? u64 (w_fold P - 1)) then
      x ← int_chk (er_x_repeat s + 1);
      Ok (s {{ er_pre_row := i32 (er_pre_row_archive s); er_x_repeat := x; e_cache_idx := 0;
               do_write := true }}, g)
    else er_finish s g
  else Ok (s, g).

(** [EdgeReader::OuterProduct] *)
Definition OuterProduct (s : EdgeReader) (g : Globals D) : res (EdgeReader * Globals D) :=
  if negb (qempty (eq_ s)) && negb (remain_col_num s =? 0) && (er_x_repeat s =? 0)
  then outer_first s g
  else if (0 <? er_x_repeat s) && negb (remain_col_num s =? 0) then outer_replay s g
  else Ok (s, g).

(** [EdgeReader::Write]: one output line while [do_write]. *)
Definition ER_Write (s : EdgeReader) (g : Globals D) : res (EdgeReader * Globals D) :=
  if do_write s then
    let g := g {{ g_dram := DRAMRequest (write_address s) WRITE_REQ (g_dram g) }} in
    n ← int_chk (write_count s - 1);
    if n =? 0 then
      wc ← ceil_double_int (a_h P) (CACHE_LINE_COUNT P);
      Ok (s {{ write_count := wc; do_write := false }}, g)
    else Ok (s {{ write_count := n }}, g)
  else Ok (s, g).

Definition ER_IsEndRequest (s : EdgeReader) : bool :=
  (pre_read_cnt (er_req_stat s) =? tot_read_cnt (er_req_stat s))
  && (pre_req_repeat s <? tot_req_repeat s - 1).
Definition ER_IsEndOperation (s : EdgeReader) (g : Globals D) : bool :=
  (pre_read_cnt (er_req_stat s) =? tot_read_cnt (er_req_stat s)) && qempty (edge_req_count g).
Definition ER_CanVertexReceive (s : EdgeReader) : bool := er_can_receive s.

(** [ReceiveData(queue<uint64_t>)] *)
Definition ER_ReceiveData (data : list Z) (s : EdgeReader) : res EdgeReader :=
  n ← int_chk (read_cnt_acm (er_req_stat s) + 1);
  let st := er_req_stat s in
  Ok (s {{ er_req_stat := mkRCNT (tot_read_cnt st) (pre_read_cnt st) n;
           eq_ := eq_ s ++ data;
           er_flag := mkReaderFlag (req_need (er_flag s)) false }}).

(** [ReceiveData(uint64_t vertex)] *)
Definition ER_ReceiveVertex (vertex : Z) (s : EdgeReader) (g : Globals D)
    : res (EdgeReader * Globals D) :=
  if vertex <? 9876543210 then
    let pv := if vertex <? cur_v s then last_v g else cur_v s in
    let rem := u64 (vertex - pv) in
    r ← int_chk (er_pre_row s + 1);
    let s := s {{ prev_v := pv; cur_v := vertex; remain_col_num := rem; col_num_archive := rem;
                  er_can_receive := false; er_pre_row := r }} in
    let g := g {{ v_arch := vertex }} in
    if rem =? 0 then
      let s := s {{ er_can_receive := true }} in
      if u64 r =? a_h P then Ok (s {{ er_pre_row := 0; do_write := true }}, g) else Ok (s, g)
    else Ok (s, g)
  else Ok (s, g).

(** [EdgeReader::Request] *)
Definition ER_Request (s : EdgeReader) (g : Globals D) : res (EdgeReader * Globals D) :=
  let st := er_req_stat s in
  let qs := u64 (er_q_space s + CACHE_LINE_COUNT P) in
  n ← int_chk (pre_read_cnt st + 1);
  let stop := (u64 (MAX_QUEUE_SIZE - qs) <? CACHE_LINE_COUNT P) || (n =? tot_read_cnt st) in
  Ok (s {{ er_q_space := qs; er_req_stat := mkRCNT (tot_read_cnt st) n (read_cnt_acm st);
           er_flag := mkReaderFlag (if stop then false else req_need (er_flag s))
                        (q_empty (er_flag s));
           er_req_address := u64 (er_req_address s + CACHE_LINE_BYTE P) }},
      g {{ g_dram := DRAMRequest (er_req_address s) READ_REQ (g_dram g) }}).

Definition ER_ResetRequestStat (s : EdgeReader) : res EdgeReader :=
  n ← int_chk (pre_req_repeat s + 1);
  let st := er_req_stat s in
  Ok (s {{ er_req_stat := mkRCNT (tot_read_cnt st) 0 (read_cnt_acm st);
           er_req_address := u64 (A_COL_START P + er_offset s); pre_req_repeat := n }}).

Definition ER_TurnOffFlag (s : EdgeReader) : EdgeReader :=
  s {{ er_flag := mkReaderFlag false (q_empty (er_flag s)) }}.
End Reader.

(** ** Walks *)

Section Walks.
Context {D : Type} `{DramPort D}.
Variable P : Params.

(** The edge a call of [OuterProduct] looks at: its local [row], if any. *)
Definition walked (s : EdgeReader) (g : Globals D) : list Z :=
  if negb (qempty (eq_ s)) && negb (remain_col_num s =? 0) && (er_x_repeat s =? 0)
  then take 1 (eq_ s)
  else if (0 <? er_x_repeat s) && negb (remain_col_num s =? 0)
  then take 1 (drop (Z.to_nat (e_cache_idx s)) (e_cache g)) else [].

(** [n] calls of [OuterProduct], with the edges they look at. *)
Fixpoint outers (n : nat) (s : EdgeReader) (g : Globals D)
    : res (list Z * EdgeReader * Globals D) :=
  match n with
  | O => Ok ([], s, g)
  | S n' =>
      '(s1, g1) ← OuterProduct P s g;
      '(l, s2, g2) ← outers n' s1 g1; Ok (walked s g ++ l, s2, g2)
  end.

(** A row: its pointer is received, then its edges are walked. *)
Definition er_row (v : Z) (s : EdgeReader) (g : Globals D)
    : res (list Z * EdgeReader * Globals D) :=
  '(s1, g1) ← ER_ReceiveVertex P v s g; outers (Z.to_nat (remain_col_num s1)) s1 g1.

Fixpoint er_rows (vs : list Z) (s : EdgeReader) (g : Globals D)
    : res (list Z * EdgeReader * Globals D) :=
  match vs with
  | [] => Ok ([], s, g)
  | v :: vs' =>
      '(l1, s1, g1) ← er_row v s g;
      '(l2, s2, g2) ← er_rows vs' s1 g1; Ok (l1 ++ l2, s2, g2)
  end.

(** Row pointers: nondecreasing from [c], below the reserved 9876543210. *)
Fixpoint ascending (c : Z) (B : list Z) : Prop :=
  match B with [] => True | v :: B' => c ≤ v < 9876543210 ∧ ascending v B' end.
Definition ptr_end (c : Z) (B : list Z) : Z := List.last B c.
(** The last row has an edge. *)
Fixpoint last_row_edge (c : Z) (B : list Z) : Prop :=
  match B with [] => False | [v] => c < v | v :: B' => last_row_edge v B' end.

Hypothesis Hsz : sizes_ok P.

(** The state inside a pass: [dn] walked, [todo] to walk, [q] behind them. *)
Record er_view (s : EdgeReader) (g : Globals D) (x : Z) (dn todo q : list Z)
    (row arch rem cur base : Z) (cnts : list Z) (blk : Z) : Prop := {
  ew_x : er_x_repeat s = x;
  ew_eq : eq_ s = if x =? 0 then todo ++ q else q;
  ew_cache : e_cache g = if x =? 0 then dn else dn ++ todo;
  ew_idx : e_cache_idx s = if x =? 0 then 0 else vsize dn;
  ew_row : er_pre_row s = row; ew_arch : er_pre_row_archive s = arch;
  ew_rem : remain_col_num s = rem; ew_cur : cur_v s = cur;
  ew_base : last_v g = base; ew_varch : v_arch g = cur; ew_cnts : edge_req_count g = cnts;
  ew_blk : block_cnt g = blk; ew_small : vsize (dn ++ todo) < 2 ^ 63 }.

Lemma er_receive s g x dn todo q row arch cur base cnts blk v :
  er_view s g x dn todo q row arch 0 cur base cnts blk →
  let pv := if v <? cur then base else cur in
  0 ≤ pv ≤ v → v < 9876543210 → 0 ≤ row < a_h P - 1 ∨ pv < v ∧ 0 ≤ row < a_h P →
  ∃ s' g', ER_ReceiveVertex P v s g = Ok (s', g') ∧
    er_view s' g' x dn todo q (row + 1) arch (v - pv) v base cnts blk.
Proof.
  intros V pv Hpv Hv Hrow. destruct Hsz as [_ Hah _ _]. destruct V.
  unfold ER_ReceiveVertex. destruct (Z.ltb_spec v 9876543210); [|lia].
  rewrite ew_cur0, ew_base0, ew_row0. fold pv. rewrite (u64_small (v - pv)) by lia.
  rewrite int_chk_Ok by lia. cbn [mbind res_bind]. rewrite (u64_small (row + 1)) by lia.
  destruct (Z.eqb_spec (v - pv) 0); [destruct (Z.eqb_spec (row + 1) (a_h P)); [lia|]|];
    destruct s, g; cbn in *; do 2 eexists; (split; [reflexivity | by split]).
Qed.

(** What [OuterProduct] does to the edge at the front of [todo]. *)
Lemma outer_step s g x dn e todo q row arch rem cur base cnts blk :
  er_view s g x dn (e :: todo) q row arch rem cur base cnts blk →
  0 ≤ x < w_fold P → 0 < rem < 2 ^ 63 → 0 ≤ row ≤ a_h P → 0 ≤ arch < 2 ^ 31 →
  let fin := rem = 1 ∧ (row mod max_v P = 0 ∨ row = a_h P) in
  walked s g = [e] ∧
  (¬ fin → ∃ s' g', OuterProduct P s g = Ok (s', g') ∧
     er_view s' g' x (dn ++ [e]) todo q row arch (rem - 1) cur base cnts blk) ∧
  (fin → todo = [] → x ≠ w_fold P - 1 → ∃ s' g', OuterProduct P s g = Ok (s', g') ∧
     er_view s' g' (x + 1) [] (dn ++ [e]) q arch arch 0 cur base cnts blk) ∧
  (fin → todo = [] → 0 < x → x = w_fold P - 1 → ∀ n cnts' tot, cnts = n :: cnts' →
     ceil_double_int n (CACHE_LINE_COUNT P) = Ok tot → 0 ≤ blk < 2 ^ 31 - 1 →
     ∃ s' g', OuterProduct P s g = Ok (s', g') ∧
     er_view s' g' 0 [] [] q row row 0 cur cur cnts' (blk + 1) ∧
     er_req_stat s' = mkRCNT tot 0 (read_cnt_acm (er_req_stat s)) ∧
     er_can_receive s' = negb (row =? a_h P)).
Proof.
  intros V Hx Hrem Hrow Harch fin. destruct Hsz as [_ Hah Hm Hf]. destruct V.
  assert ((remain_col_num s =? 0) = false) as Er by (apply Z.eqb_neq; lia).
  assert (u64 (rem - 1) = rem - 1) as Hu by (apply u64_small; lia).
  assert (u64 row = row) as Hur by (apply u64_small; lia).
  unfold walked, OuterProduct. rewrite Er, ew_x0, ew_eq0. cbn [negb].
  destruct (Z.eqb_spec x 0) as [->|Hx0].
  - cbn. split; [done|]. unfold outer_first. rewrite ew_eq0. cbn.
    destruct s, g; cbn in *; subst. rewrite Hu.
    unfold er_block_end; cbn. rewrite Hur, umod_Ok by lia. cbn.
    split; [|split].
    + intros Hnf. destruct (Z.eqb_spec (rem - 1) 0);
        [destruct (Z.eqb_spec (row mod max_v P) 0), (Z.eqb_spec row (a_h P)); cbn;
         try (exfalso; apply Hnf; split; [lia | tauto])|];
        do 2 eexists; (split; [reflexivity|]); split; cbn; try done; by rewrite <- app_assoc.
    + intros [-> Hend] -> _. cbn.
      assert ((row mod max_v P =? 0) || (row =? a_h P) = true) as ->
        by (apply orb_true_iff; rewrite !Z.eqb_eq; done).
      cbn. do 2 eexists. split; [reflexivity|]. split; cbn; try done; by rewrite i32_small by lia.
    + intros _ _ Hx1. lia.
  - destruct (Z.ltb_spec 0 x); [|lia]. rewrite andb_false_r. cbn.
    unfold outer_replay. rewrite ew_cache0, ew_idx0. unfold vsize. rewrite Nat2Z.id.
    rewrite drop_app_length. split; [done|].
    assert (vget (dn ++ e :: todo) (Z.of_nat (length dn)) = Ok e) as ->.
    { apply vget_lookup. split; [lia|]. rewrite Nat2Z.id. by apply list_lookup_middle. }
    rewrite vsize_app, vsize_cons in ew_small0. pose proof (vsize_nonneg todo). unfold vsize in *.
    destruct s, g; cbn in *; subst. rewrite Hu.
    unfold er_block_end; cbn. rewrite Hur, umod_Ok by lia. cbn.
    rewrite (u64_small (Z.of_nat (length dn) + 1)) by lia.
    rewrite (u64_small (w_fold P - 1)), (u64_small x) by lia.
    split; [|split].
    + intros Hnf. destruct (Z.eqb_spec (rem - 1) 0);
        [destruct (Z.eqb_spec (row mod max_v P) 0), (Z.eqb_spec row (a_h P)); cbn;
         try (exfalso; apply Hnf; split; [lia | tauto])|];
        (do 2 eexists; split; [reflexivity|]); split; cbn; rewrite ?(proj2 (Z.eqb_neq _ _) Hx0);
        unfold vsize; rewrite ?length_app; cbn; try done; rewrite <- ?app_assoc; try done; try lia.
    + intros [-> Hend] -> Hne.
      assert ((row mod max_v P =? 0) || (row =? a_h P) = true) as ->
        by (apply orb_true_iff; rewrite !Z.eqb_eq; done).
      destruct (Z.eqb_spec x (w_fold P - 1)); [done|]. cbn. rewrite int_chk_Ok by lia. cbn.
      (do 2 eexists; split; [reflexivity|]). assert ((x + 1 =? 0) = false) as E1 by lia.
      split; cbn; rewrite ?E1; cbn; try done; rewrite ?i32_small by lia; try done.
      unfold vsize. rewrite length_app. cbn. lia.
    + intros [-> Hend] -> _ Hx1 n cnts' tot -> Ht Hblk.
      assert ((row mod max_v P =? 0) || (row =? a_h P) = true) as ->
        by (apply orb_true_iff; rewrite !Z.eqb_eq; done).
      rewrite <- Hx1, (Z.eqb_refl x). cbn. unfold er_finish. cbn. rewrite int_chk_Ok by lia. cbn.
      rewrite Ht. cbn. rewrite Hur. (do 2 eexists; split; [reflexivity|]). cbn.
      split; [by split|]. split; [done|]. by destruct (row =? a_h P).
Qed.
Lemma outers_app n1 n2 s g l1 s1 g1 l2 s2 g2 :
  outers n1 s g = Ok (l1, s1, g1) → outers n2 s1 g1 = Ok (l2, s2, g2) →
  outers (n1 + n2) s g = Ok (l1 ++ l2, s2, g2).
Proof.
  revert s g l1. induction n1 as [|n1 IH]; intros s g l1 H1 H2; cbn [outers] in H1.
  { by injection H1 as <- <- <-. }
  apply bind_Ok_inv in H1 as ([sa ga] & Ha & H1).
  apply bind_Ok_inv in H1 as ([[l sb] gb] & Hb & H1). injection H1 as <- <- <-.
  cbn [Nat.add outers]. rewrite Ha. cbn [mbind res_bind]. rewrite (IH _ _ _ Hb H2). simpl.
  by rewrite app_assoc.
Qed.

(** Edges that do not end the row of a block's end. *)
Lemma walk_edges E1 s g x dn todo q row arch rem cur base cnts blk :
  er_view s g x dn (E1 ++ todo) q row arch rem cur base cnts blk →
  0 ≤ x < w_fold P → rem < 2 ^ 63 → 0 ≤ row ≤ a_h P → 0 ≤ arch < 2 ^ 31 →
  vsize E1 < rem ∨ vsize E1 ≤ rem ∧ ¬ (row mod max_v P = 0 ∨ row = a_h P) →
  ∃ s' g', outers (length E1) s g = Ok (E1, s', g') ∧
    er_view s' g' x (dn ++ E1) todo q row arch (rem - vsize E1) cur base cnts blk.
Proof.
  revert s g dn rem. induction E1 as [|e E1 IH]; intros s g dn rem V Hx Hr Hrow Harch Hn.
  { exists s, g. rewrite app_nil_r, Z.sub_0_r. done. }
  rewrite vsize_cons in *. pose proof (vsize_nonneg E1).
  destruct (outer_step _ _ _ _ _ _ _ _ _ _ _ _ _ _ V) as (Hw & Hstep & _); [lia..|].
  destruct Hstep as (s1 & g1 & E & V1); [intros [-> Hend]; destruct Hn; [lia | tauto]|].
  destruct (IH s1 g1 (dn ++ [e]) (rem - 1)) as (s2 & g2 & E2 & V2); [done | lia | lia | lia | lia | |].
  { destruct Hn as [|[? ?]]; [left | right; split; [|done]]; lia. }
  exists s2, g2. cbn [length outers]. rewrite E. cbn [mbind res_bind]. rewrite E2. simpl.
  rewrite Hw. split; [done|]. rewrite <- app_assoc in V2.
  by replace (rem - (vsize E1 + 1)) with (rem - 1 - vsize E1) by lia.
Qed.

Lemma ptr_end_cons c v B : ptr_end c (v :: B) = ptr_end v B.
Proof.
  unfold ptr_end. revert c v. induction B as [|w B IH]; intros c v; [done|].
  change (List.last (w :: B) c = List.last (w :: B) v). by rewrite !IH.
Qed.

Lemma ascending_end c B : ascending c B → c ≤ ptr_end c B.
Proof.
  revert c. induction B as [|v B IH]; intros c; [done|]. intros [Hv HB].
  rewrite ptr_end_cons. specialize (IH v HB). lia.
Qed.

Lemma last_row_edge_lt c B : ascending c B → last_row_edge c B → c < ptr_end c B.
Proof.
  revert c. induction B as [|v B IH]; intros c; [done|]. intros [Hv HB] Hl.
  rewrite ptr_end_cons. destruct B as [|w B]; [apply Hl|]. specialize (IH v HB Hl). lia.
Qed.

Lemma er_rows_cons v B s g l s1 g1 :
  er_row v s g = Ok (l, s1, g1) →
  er_rows (v :: B) s g = '(l2, s2, g2) ← er_rows B s1 g1; Ok (l ++ l2, s2, g2).
Proof. intros E. cbn [er_rows]. by rewrite E. Qed.

Lemma er_rows_app B1 B2 s g l1 s1 g1 l2 s2 g2 :
  er_rows B1 s g = Ok (l1, s1, g1) → er_rows B2 s1 g1 = Ok (l2, s2, g2) →
  er_rows (B1 ++ B2) s g = Ok (l1 ++ l2, s2, g2).
Proof.
  revert s g l1. induction B1 as [|v B1 IH]; intros s g l1 H1 H2; cbn [er_rows] in H1.
  { by injection H1 as <- <- <-. }
  apply bind_Ok_inv in H1 as ([[la sa] ga] & Ha & H1).
  apply bind_Ok_inv in H1 as ([[l sb] gb] & Hb & H1). injection H1 as <- <- <-.
  simpl app at 1. rewrite (er_rows_cons _ _ _ _ _ _ _ Ha), (IH _ _ _ Hb H2). simpl.
  by rewrite app_assoc.
Qed.

(** A pass up to its last edge. *)
Lemma pass_but_last B2 B1 s g x dn E q arch c cur base cnts blk :
  block_at P arch (B1 ++ B2) → ascending c B2 → last_row_edge c B2 → 0 ≤ c →
  (∀ v, head B2 = Some v → (if v <? cur then base else cur) = c) →
  vsize E = ptr_end c B2 - c → 0 ≤ x < w_fold P →
  er_view s g x dn E q (arch + vsize B1) arch 0 cur base cnts blk →
  ∃ s1 g1 E1 e, E = E1 ++ [e] ∧
    er_view s1 g1 x (dn ++ E1) [e] q (arch + vsize (B1 ++ B2)) arch 1 (ptr_end c B2) base cnts blk ∧
    (∀ s2 g2, OuterProduct P s1 g1 = Ok (s2, g2) → er_rows B2 s g = Ok (E, s2, g2)).
Proof.
  revert B1 s g dn E c cur.
  induction B2 as [|v B2 IH]; intros B1 s g dn E c cur Hb Has Hle Hc Hpv HE Hx V; [done|].
  pose proof Hb as [Ha Hal Hlen Hfit Hend]. destruct Has as [Hv Has].
  specialize (Hpv v eq_refl). rewrite ptr_end_cons in *. rewrite vsize_app, vsize_cons in *.
  pose proof (vsize_nonneg B1). pose proof (vsize_nonneg B2). pose proof Hsz as [_ Hah Hm Hf].
  pose proof (ew_small _ _ _ _ _ _ _ _ _ _ _ _ _ V) as Hsm. rewrite vsize_app in Hsm.
  pose proof (vsize_nonneg dn). pose proof (ascending_end _ _ Has) as Hpe.
  destruct B2 as [|w B2].
  - unfold ptr_end in *. simpl in Hle, HE |- *.
    destruct (er_receive _ _ _ _ _ _ _ _ _ _ _ _ v V) as (s1 & g1 & Er & V1); rewrite ?Hpv; [lia..|].
    rewrite Hpv in V1. change (vsize []) with 0 in *.
    destruct (exists_last (l := E)) as (E1 & e & ->).
    { intros ->. change (vsize []) with 0 in HE. lia. }
    rewrite vsize_app in HE. change (vsize [e]) with 1 in HE.
    destruct (walk_edges E1 s1 g1 x dn [e] q _ arch (v - c) v base cnts blk V1)
      as (s2 & g2 & E2 & V2); [lia.. | left; lia |].
    exists s2, g2, E1, e. split; [done|].
    replace (v - c - vsize E1) with 1 in V2 by lia. rewrite Z.add_0_l, Z.add_assoc. split; [done|].
    intros s3 g3 E3. cbn [er_rows]. unfold er_row. rewrite Er. cbn [mbind res_bind].
    rewrite (ew_rem _ _ _ _ _ _ _ _ _ _ _ _ _ V1).
    replace (Z.to_nat (v - c)) with (length E1 + 1)%nat by (unfold vsize in HE; lia).
    rewrite (outers_app (length E1) 1 s1 g1 E1 s2 g2 [e] s3 g3 E2); [simpl; by rewrite app_nil_r|].
    cbn [outers]. rewrite E3. simpl. rewrite app_nil_r.
    destruct (outer_step _ _ _ _ _ _ _ _ _ _ _ _ _ _ V2) as (-> & _); [lia..|]. done.
  - rewrite vsize_cons in *. pose proof (vsize_nonneg B2).
    destruct (er_receive _ _ _ _ _ _ _ _ _ _ _ _ v V) as (s1 & g1 & Er & V1); rewrite ?Hpv; [lia..|].
    rewrite Hpv in V1.
    assert (E = take (Z.to_nat (v - c)) E ++ drop (Z.to_nat (v - c)) E) as EE by by rewrite take_drop.
    set (Ea := take (Z.to_nat (v - c)) E) in *. set (Eb := drop (Z.to_nat (v - c)) E) in *.
    assert (vsize Ea = v - c) as HEa.
    { unfold vsize, Ea in *. rewrite length_take. lia. }
    rewrite EE in V1.
    pose proof (block_row_end P Hsz arch _ (vsize B1 + 1) Hb) as Hre.
    rewrite vsize_app, !vsize_cons in Hre.
    destruct (walk_edges Ea s1 g1 x dn Eb q _ arch (v - c) v base cnts blk V1)
      as (s2 & g2 & E2 & V2); [lia.. | right; split; [lia|] |].
    { rewrite <- Z.add_assoc, Hre by lia. lia. }
    rewrite HEa, Z.sub_diag in V2.
    destruct (IH (B1 ++ [v]) s2 g2 (dn ++ Ea) Eb v v) as (s3 & g3 & E1 & e & EE3 & V3 & Hrun).
    + by rewrite <- app_assoc.
    + done.
    + done.
    + lia.
    + intros w' [= <-]. destruct Has as [Hw _]. destruct (Z.ltb_spec w v); lia.
    + rewrite EE in HE. rewrite vsize_app in HE. lia.
    + done.
    + rewrite vsize_app. by rewrite Z.add_assoc.
    + exists s3, g3, (Ea ++ E1), e. rewrite <- app_assoc, <- EE3. split; [done|].
      rewrite !vsize_app, !vsize_cons in V3. change (vsize []) with 0 in V3.
      rewrite <- app_assoc in V3.
      replace (vsize B1 + (vsize B2 + 1 + 1)) with (vsize B1 + (0 + 1) + (vsize B2 + 1)) by lia.
      split; [done|]. intros s4 g4 E4. specialize (Hrun s4 g4 E4).
      assert (er_row v s g = Ok (Ea, s2, g2)) as Erow.
      { unfold er_row. rewrite Er. cbn [mbind res_bind].
        rewrite (ew_rem _ _ _ _ _ _ _ _ _ _ _ _ _ V1), <- HEa. unfold vsize at 1.
        rewrite Nat2Z.id. exact E2. }
      rewrite (er_rows_cons _ _ _ _ _ _ _ Erow), Hrun. simpl. by rewrite <- EE.
Qed.

(** The passes left once [x] of them are over: [k] replays and the last one. *)
Lemma passes_left k B s g x E q arch cur base n cnts blk tot :
  block_at P arch B → ascending base B → last_row_edge base B → 0 ≤ base →
  vsize E = ptr_end base B - base → 0 ≤ x → x + Z.of_nat k = w_fold P - 1 →
  (x = 0 ∧ cur = base ∨ 0 < x ∧ cur = ptr_end base B) →
  (∀ v, head B = Some v → v < ptr_end base B) →
  ceil_double_int n (CACHE_LINE_COUNT P) = Ok tot → 0 ≤ blk < 2 ^ 31 - 1 →
  er_view s g x [] E q arch arch 0 cur base (n :: cnts) blk →
  ∃ s' g', er_rows (concat (replicate (S k) B)) s g = Ok (concat (replicate (S k) E), s', g') ∧
    er_view s' g' 0 [] [] q (arch + vsize B) (arch + vsize B) 0 (ptr_end base B) (ptr_end base B)
      cnts (blk + 1) ∧
    tot_read_cnt (er_req_stat s') = tot ∧ pre_read_cnt (er_req_stat s') = 0 ∧
    er_can_receive s' = negb (arch + vsize B =? a_h P).
Proof.
  intros Hb Has Hle Hba HE. revert s g x cur.
  induction k as [|k IH]; intros s g x cur Hx Hk Hcur Hfst Ht Hblk V;
    pose proof Hb as [Ha Hal Hlen Hfit Hend]; pose proof Hsz as [_ Hah Hm Hf];
    (assert (∀ v, head B = Some v → (if v <? cur then base else cur) = base) as Hpv by
      (intros v Hv; specialize (Hfst v Hv); destruct Hcur as [[? ->]|[? ->]];
       [by destruct (v <? base) | destruct (Z.ltb_spec v (ptr_end base B)); lia]));
    (destruct (pass_but_last B [] s g x [] E q arch base cur base (n :: cnts) blk)
      as (s1 & g1 & E1 & e & EE & V1 & Hrun); try done; try lia;
      [by rewrite Z.add_0_r|]); simpl in V1;
    pose proof (block_row_end P Hsz arch B (vsize B) Hb) as Hre;
    (destruct (outer_step _ _ _ _ _ _ _ _ _ _ _ _ _ _ V1) as (_ & _ & Hnext & Hfin); [lia..|]).
  - destruct (Hfin (conj eq_refl (proj2 (Hre ltac:(lia)) eq_refl)) eq_refl ltac:(lia) ltac:(lia)
      n cnts tot eq_refl Ht Hblk) as (s2 & g2 & E2 & V2 & Hst & Hcr).
    exists s2, g2. simpl. rewrite !app_nil_r. split; [by apply Hrun|]. rewrite Hst. done.
  - destruct (Hnext (conj eq_refl (proj2 (Hre ltac:(lia)) eq_refl)) eq_refl ltac:(lia))
      as (s2 & g2 & E2 & V2).
    rewrite <- EE in V2.
    destruct (IH s2 g2 (x + 1) (ptr_end base B)) as (s3 & g3 & E3 & Hrest); try done; try lia.
    exists s3, g3. split; [|done].
    change (concat (replicate (S (S k)) B)) with (B ++ concat (replicate (S k) B)).
    change (concat (replicate (S (S k)) E)) with (E ++ concat (replicate (S k) E)).
    exact (er_rows_app _ _ _ _ _ _ _ _ _ _ (Hrun _ _ E2) E3).
Qed.

(** A pass over a block whose last row is empty. *)
Lemma pass_empty_last B2 B1 s g x dn E q arch cur base cnts blk :
  block_at P arch (B1 ++ B2) → B2 ≠ [] → ascending cur B2 → 0 ≤ cur → ¬ last_row_edge cur B2 →
  vsize E = ptr_end cur B2 - cur → 0 ≤ x < w_fold P → arch + vsize (B1 ++ B2) < a_h P →
  er_view s g x dn E q (arch + vsize B1) arch 0 cur base cnts blk →
  ∃ s' g', er_rows B2 s g = Ok (E, s', g') ∧
    er_view s' g' x (dn ++ E) [] q (arch + vsize (B1 ++ B2)) arch 0 (ptr_end cur B2) base cnts blk.
Proof.
  revert B1 s g dn E cur.
  induction B2 as [|v B2 IH]; intros B1 s g dn E cur Hb Hne Has Hc Hle HE Hx Hlast V; [done|].
  pose proof Hb as [Ha Hal Hlen Hfit Hend]. destruct Has as [Hv Has].
  rewrite ptr_end_cons in *. rewrite vsize_app, vsize_cons in *.
  pose proof (vsize_nonneg B1). pose proof (vsize_nonneg B2). pose proof Hsz as [_ Hah Hm Hf].
  pose proof (ew_small _ _ _ _ _ _ _ _ _ _ _ _ _ V) as Hsm. rewrite vsize_app in Hsm.
  pose proof (vsize_nonneg dn). pose proof (ascending_end _ _ Has) as Hpe.
  assert ((if v <? cur then base else cur) = cur) as Hpv by (destruct (Z.ltb_spec v cur); lia).
  destruct (er_receive _ _ _ _ _ _ _ _ _ _ _ _ v V) as (s1 & g1 & Er & V1); rewrite ?Hpv; [lia..|].
  rewrite Hpv in V1.
  assert (E = take (Z.to_nat (v - cur)) E ++ drop (Z.to_nat (v - cur)) E) as EE
    by by rewrite take_drop.
  set (Ea := take (Z.to_nat (v - cur)) E) in *. set (Eb := drop (Z.to_nat (v - cur)) E) in *.
  assert (vsize Ea = v - cur) as HEa by (unfold vsize, Ea in *; rewrite length_take; lia).
  rewrite EE in V1. pose proof (block_row_end P Hsz arch _ (vsize B1 + 1) Hb) as Hre.
  rewrite vsize_app, !vsize_cons in Hre.
  assert (∃ s2 g2, outers (length Ea) s1 g1 = Ok (Ea, s2, g2) ∧
    er_view s2 g2 x (dn ++ Ea) Eb q (arch + vsize B1 + 1) arch 0 v base cnts blk)
    as (s2 & g2 & E2 & V2).
  { destruct B2 as [|w B2].
    - simpl in Hle. assert (Ea = []) as En by (destruct Ea; [done | rewrite vsize_cons in HEa;
        pose proof (vsize_nonneg Ea); lia]). rewrite En in *. exists s1, g1. rewrite app_nil_r.
      by replace (v - cur) with 0 in V1 by lia.
    - rewrite vsize_cons in *. pose proof (vsize_nonneg B2).
      destruct (walk_edges Ea s1 g1 x dn Eb q _ arch (v - cur) v base cnts blk V1)
        as (s2 & g2 & E2 & V2); [lia.. | right; split; [lia|] |].
      { rewrite <- Z.add_assoc, Hre by lia. lia. }
      exists s2, g2. rewrite HEa, Z.sub_diag in V2. done. }
  assert (er_row v s g = Ok (Ea, s2, g2)) as Erow.
  { unfold er_row. rewrite Er. cbn [mbind res_bind].
    rewrite (ew_rem _ _ _ _ _ _ _ _ _ _ _ _ _ V1), <- HEa. unfold vsize at 1.
    rewrite Nat2Z.id. exact E2. }
  destruct B2 as [|w B2].
  { exists s2, g2. rewrite (er_rows_cons _ _ _ _ _ _ _ Erow). simpl. rewrite app_nil_r.
    change (vsize []) with 0. rewrite Z.add_0_l, Z.add_assoc.
    unfold ptr_end in *. simpl in *.
    assert (Eb = []) as En.
    { destruct Eb as [|b Eb']; [done|]. rewrite EE in HE. rewrite vsize_app, vsize_cons in HE.
      pose proof (vsize_nonneg Eb'). lia. }
    rewrite En, app_nil_r in EE. rewrite <- EE in *. rewrite En in V2. done. }
  destruct (IH (B1 ++ [v]) s2 g2 (dn ++ Ea) Eb v) as (s3 & g3 & E3 & V3); try done; try lia.
  - by rewrite <- app_assoc.
  - rewrite EE in HE. rewrite vsize_app in HE. lia.
  - rewrite vsize_app, vsize_app, !vsize_cons in *. change (vsize []) with 0. lia.
  - rewrite vsize_app. by rewrite Z.add_assoc.
  - exists s3, g3. rewrite (er_rows_cons _ _ _ _ _ _ _ Erow), E3. simpl. rewrite <- EE.
    split; [done|]. rewrite <- app_assoc, <- EE in V3. rewrite !vsize_app, !vsize_cons in *.
    change (vsize []) with 0 in V3.
    by replace (vsize B1 + (vsize B2 + 1 + 1)) with (vsize B1 + (0 + 1) + (vsize B2 + 1)) by lia.
Qed.
End Walks.

(** ** Requests *)

(** The requests a reader makes while it wants any, as the main loop makes them. *)
Fixpoint er_pull {D} `{DramPort D} (P : Params) (n : nat) (s : EdgeReader) (g : Globals D)
    : res (EdgeReader * Globals D) :=
  match n with
  | O => Ok (s, g)
  | S n' =>
      if req_need (er_flag s) then '(s, g) ← ER_Request P s g; er_pull P n' s g
      else er_pull P n' s g
  end.

(** [n] more requests, all wanted, room being left in the queue. *)
Lemma er_pull_lines {D} `{DramPort D} P n s (g : Globals D) :
  1 ≤ CACHE_LINE_COUNT P → (0 < n)%nat →
  req_need (er_flag s) = true → 0 ≤ pre_read_cnt (er_req_stat s) →
  pre_read_cnt (er_req_stat s) + Z.of_nat n = tot_read_cnt (er_req_stat s) →
  tot_read_cnt (er_req_stat s) < 2 ^ 31 →
  0 ≤ er_q_space s →
  er_q_space s + (Z.of_nat n + 1) * CACHE_LINE_COUNT P ≤ MAX_QUEUE_SIZE →
  er_req_address s = u64 (er_req_address s) →
  ∃ s' g', er_pull P n s g = Ok (s', g') ∧ req_need (er_flag s') = false ∧
    requests (g_dram g') = requests (g_dram g) ++ lines_from P (er_req_address s) n ∧
    g' = g {{ g_dram := g_dram g' }} ∧ eq_ s' = eq_ s ∧ read_cnt_acm (er_req_stat s') = read_cnt_acm (er_req_stat s).
Proof.
  intros HC Hn. revert s g. induction n as [|n IH]; [lia|]. clear Hn.
  intros s g Hneed Hp0 Hp Ht Hq0 Hq Ha. cbn [er_pull]. rewrite Hneed. unfold ER_Request.
  unfold MAX_QUEUE_SIZE in *. rewrite int_chk_Ok by lia. cbn [mbind res_bind].
  rewrite (u64_small (er_q_space s + CACHE_LINE_COUNT P)) by nia. rewrite (u64_small (1000000 - _)) by nia.
  destruct (Z.ltb_spec (1000000 - (er_q_space s + CACHE_LINE_COUNT P)) (CACHE_LINE_COUNT P)); [nia|].
  destruct (Z.eqb_spec (pre_read_cnt (er_req_stat s) + 1) (tot_read_cnt (er_req_stat s))).
  - assert (n = 0%nat) as -> by lia. destruct s, g. cbn in *. do 2 eexists. split; [reflexivity|]. cbn.
    split; [done|]. split; [|done]. rewrite request_queued. f_equal. unfold lines_from. csimpl. by rewrite Z.add_0_r, <- Ha.
  - cbn [orb]. match goal with |- context [er_pull P n ?a ?b] =>
      destruct (IH ltac:(lia) a b) as (s' & g' & E & Hf & Hr & Hg & Hv & Hm) end.
    1-6: destruct s; cbn in *; try done; try lia; try nia.
    { destruct s. cbn in *. unfold u64. by rewrite Zmod_mod. }
    exists s', g'. split; [exact E|]. split; [done|].
    split; [|split; [rewrite Hg; by destruct g | rewrite Hv, Hm; by destruct s]]. rewrite Hr.
    destruct s, g. cbn in *. rewrite request_queued, <- app_assoc. f_equal.
    match goal with |- _ = lines_from P ?a _ =>
      replace (lines_from P a (S n)) with (lines_from P (u64 a) (S n)) by (by rewrite <- Ha); rewrite (lines_from_S P a n) end.
    by rewrite <- Ha.
Qed.

(** ** Properties *)

(** C9: the edge replay.  Let [w_fold] be at least 2, and take a block whose last row
    has an edge and whose first row does not hold all of its edges ([edge_empty_last_row]
    shows what an empty last row does).  Feeding the reader the row pointers of the block
    [w_fold] times, walking after each pointer the edges of its row, visits the
    edges of the block [w_fold] times in order (first from the queue, then from
    [e_cache]) and leaves the reader ready for the next block: the queue holds
    what followed the block, cache and counters are reset, the number of lines of
    the next block is loaded, and a pointer is awaited unless it was the last row. *)
Theorem edge_block_replayed {D} `{DramPort D} P s (g : Globals D) B E q arch base n cnts blk tot :
  sizes_ok P → block_at P arch B → 0 ≤ base → ascending base B → last_row_edge base B →
  (∀ v, head B = Some v → v < ptr_end base B) → vsize E = ptr_end base B - base →
  ceil_double_int n (CACHE_LINE_COUNT P) = Ok tot → 0 ≤ blk < 2 ^ 31 - 1 →
  er_view s g 0 [] E q arch arch 0 base base (n :: cnts) blk →
  ∃ s' g', er_rows P (concat (replicate (Z.to_nat (w_fold P)) B)) s g =
      Ok (concat (replicate (Z.to_nat (w_fold P)) E), s', g') ∧
    er_view s' g' 0 [] [] q (arch + vsize B) (arch + vsize B) 0
      (ptr_end base B) (ptr_end base B) cnts (blk + 1) ∧
    tot_read_cnt (er_req_stat s') = tot ∧ pre_read_cnt (er_req_stat s') = 0 ∧
    er_can_receive s' = negb (arch + vsize B =? a_h P).
Proof.
  intros Hsz Hb Hba Has Hle Hf HE Ht Hblk V. pose proof Hsz as [_ _ _ Hw].
  replace (Z.to_nat (w_fold P)) with (S (Z.to_nat (w_fold P - 1))) by lia.
  eapply (passes_left P Hsz (Z.to_nat (w_fold P - 1)) B s g 0 E q arch base base n cnts blk tot);
    try done; lia || (left; done).
Qed.

(** C37: A block whose last row is empty loses the replay.  The end of a block is
    only noticed when an edge of its last row is walked.  When that row is empty,
    [x_repeat] stays 0, and the first row of the replay takes its edges from the
    front of the queue, which are those of the next block. *)
Theorem edge_empty_last_row {D} `{DramPort D} P s (g : Globals D) v0 B E Q1 Q2 arch base cnts blk :
  sizes_ok P → block_at P arch (v0 :: B) → 0 ≤ base → ascending base (v0 :: B) →
  ¬ last_row_edge base (v0 :: B) → v0 < ptr_end base (v0 :: B) →
  vsize E = ptr_end base (v0 :: B) - base → vsize Q1 = v0 - base →
  arch + vsize (v0 :: B) + 1 < a_h P → vsize (E ++ Q1 ++ Q2) < 2 ^ 63 →
  er_view s g 0 [] E (Q1 ++ Q2) arch arch 0 base base cnts blk →
  ∃ s' g', er_rows P ((v0 :: B) ++ [v0]) s g = Ok (E ++ Q1, s', g') ∧
    er_x_repeat s' = 0 ∧ eq_ s' = Q2 ∧ e_cache g' = E ++ Q1.
Proof.
  intros Hsz Hb Hba Has Hle Hf HE HQ Har HS V. pose proof Hsz as [_ Hah Hm Hw].
  destruct (pass_empty_last P Hsz (v0 :: B) [] s g 0 [] E (Q1 ++ Q2) arch base base cnts blk)
    as (s1 & g1 & E1 & V1); try done; try lia.
  { rewrite app_nil_l. lia. }
  { change (vsize []) with 0. by rewrite Z.add_0_r. }
  rewrite !app_nil_l in V1. pose proof Hb as [Ha Hal Hlen Hfit Hend]. rewrite vsize_cons in *.
  pose proof (vsize_nonneg B). destruct Has as [Hv0 _].
  pose proof (ew_small _ _ _ _ _ _ _ _ _ _ _ _ _ V) as Hsm. rewrite vsize_app in Hsm.
  assert (B ≠ []) as HB. { intros ->. unfold ptr_end in Hf. simpl in Hf. lia. }
  assert (2 ≤ max_v P) as Hm2.
  { destruct B as [|w B']; [done|]. rewrite vsize_cons in *. pose proof (vsize_nonneg B'). lia. }
  pose proof (er_receive P Hsz _ _ _ _ _ _ _ _ _ _ _ _ v0 V1) as Hrec.
  destruct (Z.ltb_spec v0 (ptr_end base (v0 :: B))); [|lia].
  destruct Hrec as (s2 & g2 & Er & V2); [lia..|].
  assert (er_view s2 g2 0 E (Q1 ++ Q2) [] (arch + (vsize B + 1) + 1) arch (v0 - base) v0 base cnts blk)
    as V3.
  { destruct V2. split; cbn in *; rewrite ?app_nil_r in *; done. }
  destruct (walk_edges P Hsz Q1 s2 g2 0 E Q2 [] _ arch (v0 - base) v0 base cnts blk V3)
    as (s3 & g3 & E3 & V4); [lia.. | right; split; [lia|] |].
  { intros [Hmod|]; [|lia]. replace (arch + (vsize B + 1) + 1) with (arch + max_v P + 1) in Hmod by lia.
    rewrite <- Zplus_mod_idemp_l, <- (Zplus_mod_idemp_l arch), Hal, Z.add_0_l, Z.mod_same, Z.add_0_l,
      Z.mod_small in Hmod; lia. }
  exists s3, g3. split.
  - apply (er_rows_app P _ _ _ _ _ _ _ _ _ _ E1).
    assert (er_row P v0 s1 g1 = Ok (Q1, s3, g3)) as Erow.
    { unfold er_row. rewrite Er. cbn [mbind res_bind].
      rewrite (ew_rem _ _ _ _ _ _ _ _ _ _ _ _ _ V2), <- HQ. unfold vsize. by rewrite Nat2Z.id. }
    rewrite (er_rows_cons P _ _ _ _ _ _ _ Erow). simpl. by rewrite app_nil_r.
  - destruct V4. simpl in *. rewrite app_nil_r in *. done.
Qed.

(** ** Concrete runs *)

Definition ex_edge_reader (q : list Z) : EdgeReader :=
  {| er_pre_w_fold_ := 0; er_can_receive := true; er_flag := mkReaderFlag false false;
     er_x_repeat := 0; e_cache_idx := 0; er_pre_row_archive := 0; write_count := 1;
     do_write := false; er_id := 0; transfer_cnt := 0; pre_w_fold_start := 0; a_col_size := 8;
     er_q_space := 8; er_offset := 0; er_req_address := 2064; write_address := 9000;
     er_pre_row := 0; er_tot_repeat := 2; tot_req_repeat := 2; er_pre_repeat_ := 0;
     pre_req_repeat := 0; cur_v := 0; prev_v := 0; remain_col_num := 0; col_num_archive := 0;
     er_req_stat := mkRCNT 1 1 1; er_row_info := mkRowInfo 0 4; eq_ := q; ev := [] |}.

Lemma edge_block_replayed_witness :
  ∃ s' g', er_rows ex_params [3; 5; 3; 5] (ex_edge_reader [1; 2; 0; 3; 1; 7])
      (globals_of ([] : list (Z * bool)) [] [8]) =
    Ok ([1; 2; 0; 3; 1; 1; 2; 0; 3; 1], s', g') ∧ er_view s' g' 0 [] [] [7] 2 2 0 5 5 [] 1.
Proof.
  destruct (edge_block_replayed ex_params (ex_edge_reader [1; 2; 0; 3; 1; 7])
    (globals_of ([] : list (Z * bool)) [] [8]) [3; 5] [1; 2; 0; 3; 1] [7] 0 0 8 [] 0 1)
    as (s' & g' & E & V & _).
  - apply ex_sizes_ok.
  - apply ex_block.
  - lia.
  - simpl. lia.
  - simpl. lia.
  - intros v [= <-]. reflexivity.
  - reflexivity.
  - vm_compute. reflexivity.
  - lia.
  - by split; vm_compute.
  - exists s', g'. split; [exact E | exact V].
Defined.

Definition ex_rows6 : Params := ex_params {{ a_h := 6; max_v := 3 }}.

Lemma edge_empty_last_row_witness :
  ∃ s' g', er_rows ex_rows6 [1; 4; 4; 1] (ex_edge_reader [1; 2; 0; 3; 7; 8])
      (globals_of ([] : list (Z * bool)) [] [8]) = Ok ([1; 2; 0; 3; 7], s', g') ∧
    er_x_repeat s' = 0.
Proof.
  destruct (edge_empty_last_row ex_rows6 (ex_edge_reader [1; 2; 0; 3; 7; 8])
    (globals_of ([] : list (Z * bool)) [] [8]) 1 [4; 4] [1; 2; 0; 3] [7] [8] 0 0 [8] 0)
    as (s' & g' & E & Hx & _).
  - by split; vm_compute.
  - split; try by vm_compute. by left.
  - lia.
  - simpl. lia.
  - simpl. lia.
  - reflexivity.
  - reflexivity.
  - reflexivity.
  - reflexivity.
  - vm_compute. reflexivity.
  - by split; vm_compute.
  - exists s', g'. split; [exact E | exact Hx].
Defined.
