(* ===== verification/DataController.v ===== *)
(** * The data controller (DataController.h, DataController.cpp)

    It answers a completed read of the adjacency matrix with the next row
    pointers or column indices: a cache line of them, or what is left of the
    block, whose sizes it takes from [vertex_req_count_cnt] and
    [edge_req_count_cnt].  The theorems: its answers to the reads of a sequence of
    blocks are these blocks cut into cache lines; and from a vertex and an edge
    reader over the controller and back, each block is requested in as many
    lines as it is answered in, and received whole. *)

From S2P Require Import Prelude CFloat Common VertexReader EdgeReader.

Open Scope Z_scope.

Record DataController := mkDC {
  dc_id : Z; dc_flag : DCFlag;
  adjrowindex : list Z; adjrowindex_archive : list Z;
  adjcolindex : list Z; adjcolindex_archive : list Z }.

Section Controller.
Context {D : Type}.
Variable P : Params.

Definition new_DataController (id : Z) (rows cols : list Z) : DataController :=
  {| dc_id := id; dc_flag := mkDCFlag false false false;
     adjrowindex := rows; adjrowindex_archive := rows;
     adjcolindex := cols; adjcolindex_archive := cols |}.

(** [ReturnDataType]: outside the three areas nothing is returned. *)
Definition ReturnDataType (address : Z) : res Type_ :=
  if (X_START P <=? address) && (address <? A_ROW_START P) then Ok X
  else if (A_ROW_START P <=? address) && (address <? A_COL_START P) then Ok A_ROW
  else if (A_COL_START P <=? address) && (address <? WEIGHT_START P) then Ok A_COL
  else Err NoReturn.

Definition XDataReturn : list Z := [].

(** [count] times [ret.push(q.front()); q.pop()] *)
Fixpoint pop_n (count : nat) (q : list Z) : res (list Z * list Z) :=
  match count with
  | O => Ok ([], q)
  | S n => x ← qfront q; q' ← qpop q; '(l, q'') ← pop_n n q'; Ok (x :: l, q'')
  end.

(** The size of the answer: [count], the new limit and the new counts. *)
Definition line_count (limit : Z) (cnt : list Z) : res (Z * Z * list Z) :=
  n ← qfront cnt;
  if n <=? u64 (limit + CACHE_LINE_COUNT P) then
    q ← qpop cnt; Ok (i32 (u64 (n - limit)), 0, q)
  else Ok (i32 (CACHE_LINE_COUNT P), u64 (limit + CACHE_LINE_COUNT P), cnt).

Definition AdjRowDataReturn (s : DataController) (g : Globals D)
    : res (list Z * DataController * Globals D) :=
  '(count, lim, cnt) ← line_count (v_limit g) (vertex_req_count_cnt g);
  '(ret, q) ← pop_n (Z.to_nat count) (adjrowindex s);
  Ok (ret, s {{ adjrowindex := q }}, g {{ v_limit := lim; vertex_req_count_cnt := cnt }}).

Definition AdjColDataReturn (s : DataController) (g : Globals D)
    : res (list Z * DataController * Globals D) :=
  '(count, lim, cnt) ← line_count (e_limit g) (edge_req_count_cnt g);
  '(ret, q) ← pop_n (Z.to_nat count) (adjcolindex s);
  Ok (ret, s {{ adjcolindex := q }}, g {{ e_limit := lim; edge_req_count_cnt := cnt }}).

Definition NeedRefill (t : Type_) (s : DataController) : res bool :=
  match t with
  | A_ROW => Ok (qempty (adjrowindex s))
  | A_COL => Ok (qempty (adjcolindex s))
  | X => Err NoReturn
  end.

Definition RefillQueue (t : Type_) (s : DataController) : DataController :=
  match t with
  | A_ROW => s {{ adjrowindex := adjrowindex_archive s }}
  | A_COL => s {{ adjcolindex := adjcolindex_archive s }}
  | X => s
  end.
End Controller.

(** ** Answers *)

Section Answers.
Context {D : Type}.
Variable P : Params.

(** [n] answers of one kind, in the terms of the variables they share. *)
Fixpoint line_returns (n : nat) (limit : Z) (cnt q : list Z)
    : res (list (list Z) * Z * list Z * list Z) :=
  match n with
  | O => Ok ([], limit, cnt, q)
  | S n' =>
      '(c, limit1, cnt1) ← line_count P limit cnt;
      '(l, q1) ← pop_n (Z.to_nat c) q;
      '(ls, limit2, cnt2, q2) ← line_returns n' limit1 cnt1 q1;
      Ok (l :: ls, limit2, cnt2, q2)
  end.

Fixpoint row_returns (n : nat) (s : DataController) (g : Globals D)
    : res (list (list Z) * DataController * Globals D) :=
  match n with
  | O => Ok ([], s, g)
  | S n' =>
      '(l, s1, g1) ← AdjRowDataReturn P s g;
      '(ls, s2, g2) ← row_returns n' s1 g1; Ok (l :: ls, s2, g2)
  end.

Fixpoint col_returns (n : nat) (s : DataController) (g : Globals D)
    : res (list (list Z) * DataController * Globals D) :=
  match n with
  | O => Ok ([], s, g)
  | S n' =>
      '(l, s1, g1) ← AdjColDataReturn P s g;
      '(ls, s2, g2) ← col_returns n' s1 g1; Ok (l :: ls, s2, g2)
  end.

Lemma row_returns_lines n s g :
  row_returns n s g =
  '(ls, lim, cnt, q) ← line_returns n (v_limit g) (vertex_req_count_cnt g) (adjrowindex s);
  Ok (ls, s {{ adjrowindex := q }}, g {{ v_limit := lim; vertex_req_count_cnt := cnt }}).
Proof.
  revert s g. induction n as [|n IH]; intros s g; cbn [row_returns line_returns].
  { by destruct s, g. }
  unfold AdjRowDataReturn.
  destruct (line_count P (v_limit g) (vertex_req_count_cnt g)) as [[[c lim] cnt]|]; [|done].
  cbn [mbind res_bind]. destruct (pop_n (Z.to_nat c) (adjrowindex s)) as [[l q]|]; [|done].
  cbn [mbind res_bind]. rewrite IH. destruct s, g. cbn.
  by destruct (line_returns n lim cnt q) as [[[[ls l2] c2] q2]|].
Qed.

Lemma col_returns_lines n s g :
  col_returns n s g =
  '(ls, lim, cnt, q) ← line_returns n (e_limit g) (edge_req_count_cnt g) (adjcolindex s);
  Ok (ls, s {{ adjcolindex := q }}, g {{ e_limit := lim; edge_req_count_cnt := cnt }}).
Proof.
  revert s g. induction n as [|n IH]; intros s g; cbn [col_returns line_returns].
  { by destruct s, g. }
  unfold AdjColDataReturn.
  destruct (line_count P (e_limit g) (edge_req_count_cnt g)) as [[[c lim] cnt]|]; [|done].
  cbn [mbind res_bind]. destruct (pop_n (Z.to_nat c) (adjcolindex s)) as [[l q]|]; [|done].
  cbn [mbind res_bind]. rewrite IH. destruct s, g. cbn.
  by destruct (line_returns n lim cnt q) as [[[[ls l2] c2] q2]|].
Qed.

Lemma pop_n_app l q : pop_n (length l) (l ++ q) = Ok (l, q).
Proof. induction l as [|x l IH]; simpl; [done|]. by rewrite IH. Qed.

Hypothesis Hline : 1 ≤ CACHE_LINE_COUNT P < 2 ^ 31.
Local Abbreviation line := (Z.to_nat (CACHE_LINE_COUNT P)).

(** The rest [B] of a block, [limit] elements of which are gone. *)
Lemma line_returns_rest B limit cnt q :
  B ≠ [] → 0 ≤ limit → limit + vsize B < 2 ^ 31 →
  line_returns (length (chunks line B)) limit (limit + vsize B :: cnt) (B ++ q) =
    Ok (chunks line B, 0, cnt, q).
Proof.
  assert (0 < line)%nat as Hk by lia. revert limit.
  induction B as [|B Hne IH] using (chunks_ind line Hk); intros limit HB Hl Hb; [done|].
  rewrite chunks_step by done. cbn [length line_returns]. unfold line_count. cbn [qfront qpop].
  pose proof (vsize_nonneg B). rewrite bind_Ok, (u64_small (limit + CACHE_LINE_COUNT P)) by lia.
  destruct (Z.leb_spec (limit + vsize B) (limit + CACHE_LINE_COUNT P)) as [Hle|Hgt].
  - rewrite !bind_Ok. cbv beta iota. rewrite Z.add_simpl_l, u64_small, i32_small by lia.
    unfold vsize in *. rewrite Nat2Z.id, pop_n_app, bind_Ok. cbv beta iota.
    rewrite drop_ge by lia. rewrite take_ge by lia. done.
  - rewrite bind_Ok. cbv beta iota. rewrite i32_small by lia.
    pose proof (take_drop line B) as E.
    assert (length (take line B) = line) as Et by (rewrite length_take; unfold vsize in Hgt; lia).
    assert (pop_n line (take line B ++ (drop line B ++ q)) = Ok (take line B, drop line B ++ q))
      as Ep by (rewrite <- Et at 1; apply pop_n_app).
    rewrite app_assoc, E in Ep. rewrite Ep, bind_Ok. cbv beta iota.
    assert (vsize B = CACHE_LINE_COUNT P + vsize (drop line B)) as Ev.
    { rewrite <- E at 1. rewrite vsize_app. f_equal. unfold vsize. lia. }
    rewrite Ev, Z.add_assoc. rewrite IH; [by rewrite bind_Ok | | lia | lia].
    intros Hd. rewrite Hd in Ev. change (vsize []) with 0 in Ev. lia.
Qed.

Lemma line_returns_app n1 n2 lim cnt q l1 lim1 cnt1 q1 :
  line_returns n1 lim cnt q = Ok (l1, lim1, cnt1, q1) →
  line_returns (n1 + n2) lim cnt q =
    '(l2, lim2, cnt2, q2) ← line_returns n2 lim1 cnt1 q1; Ok (l1 ++ l2, lim2, cnt2, q2).
Proof.
  revert lim cnt q l1. induction n1 as [|n1 IH]; intros lim cnt q l1 E; cbn [line_returns Nat.add] in *.
  { injection E as <- <- <- <-. by destruct (line_returns n2 lim cnt q) as [[[[??]?]?]|]. }
  apply bind_Ok_inv in E as ([[c la] ca] & Ea & E). rewrite Ea, bind_Ok. cbv beta iota in *.
  apply bind_Ok_inv in E as ([l qa] & Eb & E). rewrite Eb, bind_Ok. cbv beta iota in *.
  apply bind_Ok_inv in E as ([[[ls lb] cb] qb] & Ec & E). injection E as <- <- <- <-.
  rewrite (IH _ _ _ _ Ec). by destruct (line_returns n2 lb cb qb) as [[[[??]?]?]|].
Qed.

(** The lines of a sequence of blocks. *)
Definition block_lines (Bs : list (list Z)) : list (list Z) := concat (chunks line <$> Bs).

Lemma line_returns_blocks Bs cnt q :
  Forall (λ B, B ≠ [] ∧ vsize B < 2 ^ 31) Bs →
  line_returns (length (block_lines Bs)) 0 ((vsize <$> Bs) ++ cnt) (concat Bs ++ q) =
    Ok (block_lines Bs, 0, cnt, q).
Proof.
  unfold block_lines. induction 1 as [|B Bs [Hne HB] HBs IH]; [done|].
  cbn [fmap list_fmap concat]. rewrite length_app, <- !app_assoc.
  rewrite (line_returns_app _ _ 0 _ _ (chunks line B) 0 ((vsize <$> Bs) ++ cnt) (concat Bs ++ q)).
  - by rewrite IH.
  - cbn [app]. apply (line_returns_rest B 0); [done | lia | done].
Qed.

Lemma chunks_count (B : list Z) :
  Z.of_nat (length (chunks line B)) = ceil_div (vsize B) (CACHE_LINE_COUNT P).
Proof.
  assert (0 < line)%nat as Hk by lia. unfold ceil_div.
  induction B as [|B Hne IH] using (chunks_ind line Hk).
  { rewrite chunks_nil. unfold vsize. cbn [length]. rewrite Z.div_small; lia. }
  rewrite chunks_step by done. cbn [length]. rewrite Nat2Z.inj_succ, IH. unfold vsize.
  rewrite length_drop. destruct (decide (length B ≤ line)%nat).
  - replace (length B - line)%nat with 0%nat by lia. rewrite Z.div_small by lia.
    assert (length B ≠ 0%nat) by by destruct B.
    apply (Z.div_unique_pos _ _ _ (Z.of_nat (length B) - 1)); lia.
  - rewrite Nat2Z.inj_sub by lia. rewrite Z2Nat.id by lia.
    replace (Z.of_nat (length B) + CACHE_LINE_COUNT P - 1)
      with (Z.of_nat (length B) - CACHE_LINE_COUNT P + CACHE_LINE_COUNT P - 1
            + 1 * CACHE_LINE_COUNT P) by lia.
    rewrite Z.div_add by lia. lia.
Qed.
End Answers.

(** ** The readers and the controller *)

(** A line without the 0 it may start with. *)
Definition strip_zero (l : list Z) : list Z :=
  match l with x :: l' => if x =? 0 then l' else l | [] => [] end.

Section Delivery.
Context {D : Type} `{DramPort D}.
Variable P : Params.
Hypothesis Hline : 1 ≤ CACHE_LINE_COUNT P < 2 ^ 31.

Lemma block_lines_one (B : list Z) : block_lines P [B] = chunks (Z.to_nat (CACHE_LINE_COUNT P)) B.
Proof. unfold block_lines. cbn. apply app_nil_r. Qed.

(** The number of lines of a block that fits a queue. *)
Lemma block_lines_room (B : list Z) :
  B ≠ [] → vsize B + 2 * CACHE_LINE_COUNT P ≤ MAX_QUEUE_SIZE →
  let k := length (block_lines P [B]) in
  (0 < k)%nat ∧ ceil_double_int (vsize B) (CACHE_LINE_COUNT P) = Ok (Z.of_nat k) ∧
  (Z.of_nat k + 1) * CACHE_LINE_COUNT P ≤ MAX_QUEUE_SIZE ∧ Z.of_nat k ≤ MAX_QUEUE_SIZE.
Proof.
  intros HB Hq. cbv zeta. rewrite block_lines_one. pose proof (vsize_nonneg B).
  assert (0 < vsize B) by (destruct B; [done|]; rewrite vsize_cons; pose proof (vsize_nonneg B); lia).
  unfold MAX_QUEUE_SIZE in *. rewrite chunks_count, ceil_double_int_exact by lia.
  pose proof (ceil_div_bounds (vsize B) (CACHE_LINE_COUNT P) ltac:(lia)) as Hb.
  pose proof (chunks_count P Hline B) as Hc. set (c := ceil_div _ _) in *. assert (0 < c) by nia.
  split; [lia|]. split; [done|]. nia.
Qed.

(** What a new reader asks for. *)
Lemma vertex_asks id off x0 ri (g : Globals D) (B : list Z) rest v g1 (g2 : Globals D) :
  B ≠ [] → vsize B + 2 * CACHE_LINE_COUNT P ≤ MAX_QUEUE_SIZE → vertex_req_count g = vsize B :: rest →
  new_VertexReader P id off x0 ri g = Ok (v, g1) →
  let k := length (block_lines P [B]) in
  g1 = g {{ vertex_req_count := rest }} ∧
  ∃ v' g3, vr_pull P k v g2 = Ok (v', g3) ∧ req_need (vr_flag v') = false ∧
    requests (g_dram g3) = requests (g_dram g2) ++ lines_from P (u64 (A_ROW_START P + off)) k ∧
    g3 = g2 {{ g_dram := g_dram g3 }} ∧ vq v' = [] ∧ read_cnt_acm (vr_req_stat v') = 0.
Proof.
  intros HB Hq Hg E k. destruct (block_lines_room B HB Hq) as (Hk & Hc & Hr & Hm). fold k in Hk, Hc, Hr, Hm. clearbody k.
  unfold new_VertexReader, lines_of in E. rewrite Hg in E. cbn [qfront qpop mbind res_bind] in E. rewrite Hc in E.
  apply bind_Ok_inv in E as (n & En & E). injection En as <-. apply bind_Ok_inv in E as (rep & _ & E). injection E as <- <-.
  split; [done|]. match goal with |- context [vr_pull P k ?a g2] =>
    destruct (vr_pull_lines P k a g2) as (v' & g3 & E3 & Hf & Hreq & Hg3 & Hv & Ha) end;
    cbn; unfold MAX_QUEUE_SIZE in *; try done; try lia; [unfold u64; by rewrite Zmod_mod |].
  exists v', g3. by split_and!.
Qed.

Lemma edge_asks id off cs x0 ri (g : Globals D) (B : list Z) rest e g1 (g2 : Globals D) :
  B ≠ [] → vsize B + 2 * CACHE_LINE_COUNT P ≤ MAX_QUEUE_SIZE → edge_req_count g = vsize B :: rest →
  new_EdgeReader P id off cs x0 ri g = Ok (e, g1) →
  let k := length (block_lines P [B]) in
  g1 = g {{ edge_req_count := rest; last_v := 0; block_cnt := 0 }} ∧
  ∃ e' g3, er_pull P k e g2 = Ok (e', g3) ∧ req_need (er_flag e') = false ∧
    requests (g_dram g3) = requests (g_dram g2) ++ lines_from P (u64 (A_COL_START P + off)) k ∧
    g3 = g2 {{ g_dram := g_dram g3 }} ∧ eq_ e' = [] ∧ read_cnt_acm (er_req_stat e') = 0.
Proof.
  intros HB Hq Hg E k. destruct (block_lines_room B HB Hq) as (Hk & Hc & Hr & Hm). fold k in Hk, Hc, Hr, Hm. clearbody k.
  unfold new_EdgeReader in E. rewrite Hg in E. cbn [qfront qpop mbind res_bind] in E. rewrite Hc in E.
  apply bind_Ok_inv in E as (n & En & E). injection En as <-. apply bind_Ok_inv in E as (wc & _ & E). injection E as <- <-.
  split; [done|]. match goal with |- context [er_pull P k ?a g2] =>
    destruct (er_pull_lines P k a g2) as (e' & g3 & E3 & Hf & Hreq & Hg3 & Hv & Ha) end;
    cbn; unfold MAX_QUEUE_SIZE in *; try done; try lia; [unfold u64; by rewrite Zmod_mod |].
  exists e', g3. by split_and!.
Qed.

(** What the readers make of the answers. *)
Lemma vertex_receives ls v :
  Forall (λ l, l ≠ []) ls → 0 ≤ read_cnt_acm (vr_req_stat v) → read_cnt_acm (vr_req_stat v) + vsize ls < 2 ^ 31 →
  ∃ v', for_each ls VR_ReceiveData v = Ok v' ∧ vq v' = vq v ++ concat (strip_zero <$> ls).
Proof.
  intros Hne. revert v. induction Hne as [|l ls Hl Hne IH]; intros v H0 Hn; cbn [for_each].
  { exists v. by rewrite app_nil_r. }
  destruct l as [|x l]; [done|]. rewrite vsize_cons in Hn. pose proof (vsize_nonneg ls).
  unfold VR_ReceiveData at 2. cbn [qfront mbind res_bind]. rewrite int_chk_Ok by lia. cbn [mbind res_bind].
  match goal with |- context [for_each ls VR_ReceiveData ?a] => destruct (IH a) as (v' & E & Hq) end; cbn; [lia..|].
  exists v'. split; [exact E|]. rewrite Hq. cbn. by destruct (x =? 0); rewrite <- app_assoc.
Qed.

Lemma edge_receives ls e :
  0 ≤ read_cnt_acm (er_req_stat e) → read_cnt_acm (er_req_stat e) + vsize ls < 2 ^ 31 →
  ∃ e', for_each ls ER_ReceiveData e = Ok e' ∧ eq_ e' = eq_ e ++ concat ls.
Proof.
  revert e. induction ls as [|l ls IH]; intros e H0 Hn; cbn [for_each].
  { exists e. by rewrite app_nil_r. }
  rewrite vsize_cons in Hn. pose proof (vsize_nonneg ls).
  unfold ER_ReceiveData at 2. rewrite int_chk_Ok by lia. cbn [mbind res_bind].
  match goal with |- context [for_each ls ER_ReceiveData ?a] => destruct (IH a) as (e' & E & Hq) end; cbn; [lia..|].
  exists e'. split; [exact E|]. rewrite Hq. cbn. by rewrite <- app_assoc.
Qed.

(** The controller's answers to the reads of one block of each kind. *)
Lemma controller_block R E dc (g : Globals D) rr er rc ec :
  R ≠ [] → E ≠ [] → vsize R < 2 ^ 31 → vsize E < 2 ^ 31 → adjrowindex dc = R ++ rr → adjcolindex dc = E ++ er →
  v_limit g = 0 → e_limit g = 0 → vertex_req_count_cnt g = vsize R :: rc → edge_req_count_cnt g = vsize E :: ec →
  ∃ dc1 ga dc' g',
    row_returns P (length (block_lines P [R])) dc g = Ok (block_lines P [R], dc1, ga) ∧
    col_returns P (length (block_lines P [E])) dc1 ga = Ok (block_lines P [E], dc', g') ∧
    adjrowindex dc' = rr ∧ adjcolindex dc' = er ∧ vertex_req_count_cnt g' = rc ∧ edge_req_count_cnt g' = ec.
Proof.
  intros HR HE LR LE Dr Dc Lv Le Gv Ge.
  rewrite row_returns_lines, Dr, Lv, Gv. pose proof (line_returns_blocks P Hline [R] rc rr) as E1. cbn [fmap list_fmap app concat] in E1. rewrite app_nil_r in E1.
  rewrite E1 by (by repeat constructor). cbn [mbind res_bind]. do 4 eexists. split; [reflexivity|].
  rewrite col_returns_lines. pose proof (line_returns_blocks P Hline [E] ec er) as E2. cbn [fmap list_fmap app concat] in E2. rewrite app_nil_r in E2.
  replace (e_limit _) with (e_limit g) by by destruct g. replace (edge_req_count_cnt _) with (edge_req_count_cnt g) by by destruct g.
  replace (adjcolindex _) with (adjcolindex dc) by by destruct dc. rewrite Dc, Le, Ge, E2 by (by repeat constructor).
  split; [reflexivity|]. destruct dc, g. by split_and!.
Qed.
End Delivery.

(** ** Properties *)

(** C17: answers are blocks cut into cache lines.  When the counts are the sizes
    of a sequence of nonempty blocks and the queues hold them, the answers to the
    reads of row pointers and of column indices are exactly the blocks in order,
    each cut into full cache lines and a last shorter one (so no answer mixes two
    blocks), and the counts and queues end at the next block. *)
Theorem controller_cuts_blocks {D} P (g : Globals D) s rows cols rq cq rc cc :
  1 ≤ CACHE_LINE_COUNT P < 2 ^ 31 →
  Forall (λ B, B ≠ [] ∧ vsize B < 2 ^ 31) rows → Forall (λ B, B ≠ [] ∧ vsize B < 2 ^ 31) cols →
  adjrowindex s = concat rows ++ rq → adjcolindex s = concat cols ++ cq →
  v_limit g = 0 → e_limit g = 0 →
  vertex_req_count_cnt g = (vsize <$> rows) ++ rc → edge_req_count_cnt g = (vsize <$> cols) ++ cc →
  row_returns P (length (block_lines P rows)) s g =
    Ok (block_lines P rows, s {{ adjrowindex := rq }}, g {{ vertex_req_count_cnt := rc }}) ∧
  col_returns P (length (block_lines P cols)) s g =
    Ok (block_lines P cols, s {{ adjcolindex := cq }}, g {{ edge_req_count_cnt := cc }}).
Proof.
  intros Hl Hr Hc Er Ec Ev Ee Evc Eec. split.
  - rewrite row_returns_lines, Er, Ev, Evc, (line_returns_blocks P Hl) by done.
    destruct s, g. cbn in *. by subst.
  - rewrite col_returns_lines, Ec, Ee, Eec, (line_returns_blocks P Hl) by done.
    destruct s, g. cbn in *. by subst.
Qed.

(** C16: As many answers as requests.  A vertex reader and an edge reader made for a block
    of row pointers [R] and of column indices [E] that fit their queues make as many read
    requests as the blocks have cache lines, for consecutive lines, and want no more; the
    controller answers as many reads of each kind with the lines of [R] and of [E] and is
    at the next block; and when the readers have received the answers they hold the block:
    the columns as they are, the row pointers but for a 0 that a line starts with. *)
Theorem answers_match_requests {D} `{DramPort D} P id ro co cs vx ex ri (g : Globals D) (R E : list Z) dc
    rq eq rc ec rr er v e g1 g2 :
  1 ≤ CACHE_LINE_COUNT P < 2 ^ 31 → R ≠ [] → E ≠ [] →
  vsize R + 2 * CACHE_LINE_COUNT P ≤ MAX_QUEUE_SIZE → vsize E + 2 * CACHE_LINE_COUNT P ≤ MAX_QUEUE_SIZE →
  vertex_req_count g = vsize R :: rq → edge_req_count g = vsize E :: eq →
  vertex_req_count_cnt g = vsize R :: rc → edge_req_count_cnt g = vsize E :: ec → v_limit g = 0 → e_limit g = 0 →
  adjrowindex dc = R ++ rr → adjcolindex dc = E ++ er →
  new_VertexReader P id ro vx ri g = Ok (v, g1) → new_EdgeReader P id co cs ex ri g1 = Ok (e, g2) →
  let k := length (block_lines P [R]) in let n := length (block_lines P [E]) in
  ∃ v' e' g3 g4 dc1 ga dc' g' v'' e'',
    vr_pull P k v g2 = Ok (v', g3) ∧ er_pull P n e g3 = Ok (e', g4) ∧
    req_need (vr_flag v') = false ∧ req_need (er_flag e') = false ∧
    requests (g_dram g4) = (requests (g_dram g) ++ lines_from P (u64 (A_ROW_START P + ro)) k)
                             ++ lines_from P (u64 (A_COL_START P + co)) n ∧
    row_returns P k dc g4 = Ok (block_lines P [R], dc1, ga) ∧ col_returns P n dc1 ga = Ok (block_lines P [E], dc', g') ∧
    adjrowindex dc' = rr ∧ adjcolindex dc' = er ∧ vertex_req_count_cnt g' = rc ∧ edge_req_count_cnt g' = ec ∧
    for_each (block_lines P [R]) VR_ReceiveData v' = Ok v'' ∧ vq v'' = concat (strip_zero <$> block_lines P [R]) ∧
    for_each (block_lines P [E]) ER_ReceiveData e' = Ok e'' ∧ eq_ e'' = E.
Proof.
  intros Hl HR HE HRq HEq Gv Ge Gvc Gec Lv Le Dr Dc Ev Ee k n.
  destruct (block_lines_room P Hl R HR HRq) as (_ & _ & _ & HkR). destruct (block_lines_room P Hl E HE HEq) as (_ & _ & _ & HkE).
  unfold MAX_QUEUE_SIZE in *.
  destruct (vertex_asks P Hl id ro vx ri g R rq v g1 g2 HR HRq Gv Ev) as (-> & v' & g3 & E1 & N1 & R1 & S1 & Q1 & A1).
  destruct (edge_asks P Hl id co cs ex ri (g {{ vertex_req_count := rq }}) E eq e g2 g3 HE HEq ltac:(by destruct g) Ee) as (-> & e' & g4 & E2 & N2 & R2 & S2 & Q2 & A2).
  destruct (controller_block P Hl R E dc g4 rr er rc ec HR HE) as (dc1 & ga & dc' & g' & E3 & E4 & X1 & X2 & X3 & X4);
    [lia|lia|done|done|rewrite S2, S1; by destruct g..|].
  destruct (vertex_receives (block_lines P [R]) v') as (v'' & E5 & Q5); [|rewrite A1; unfold vsize in *; lia..|].
  { rewrite block_lines_one. apply chunks_nonempty. lia. }
  destruct (edge_receives (block_lines P [E]) e') as (e'' & E6 & Q6); [rewrite A2; unfold vsize in *; lia..|].
  exists v', e', g3, g4, dc1, ga, dc', g', v'', e''. split; [exact E1|]. split; [exact E2|]. split; [exact N1|]. split; [exact N2|].
  split; [rewrite R2, R1; by destruct g|]. do 6 (split; [done|]). split; [exact E5|]. split; [by rewrite Q5, Q1|].
  split; [exact E6|]. rewrite Q6, Q2, block_lines_one. apply concat_chunks. lia.
Qed.

(** ** Concrete runs *)

Lemma controller_cuts_blocks_witness :
  row_returns (ex_params {{ CACHE_LINE_COUNT := 2 }}) 3
    (new_DataController 0 [0; 1; 4; 6; 9] []) (globals_of ([] : list (Z * bool)) [3; 2] []) =
  Ok ([[0; 1]; [4]; [6; 9]], (new_DataController 0 [0; 1; 4; 6; 9] []) {{ adjrowindex := [] }},
      (globals_of ([] : list (Z * bool)) [3; 2] []) {{ vertex_req_count_cnt := [] }}).
Proof.
  destruct (controller_cuts_blocks (ex_params {{ CACHE_LINE_COUNT := 2 }})
    (globals_of ([] : list (Z * bool)) [3; 2] []) (new_DataController 0 [0; 1; 4; 6; 9] [])
    [[0; 1; 4]; [6; 9]] [] [] [] [] []) as [E _].
  1: simpl; lia.
  1, 2: repeat constructor; done.
  1-6: reflexivity.
  exact E.
Defined.

(** Three row pointers and five column indices in lines of two. *)
Definition ex_pairs : Params := ex_params {{ CACHE_LINE_COUNT := 2 }}.
Definition ex_counts : Globals (list (Z * bool)) := globals_of [] [3; 2] [5; 4].
Definition ex_new_reader : res (VertexReader * EdgeReader * Globals (list (Z * bool))) :=
  '(v, g) ← new_VertexReader ex_pairs 0 0 0 (mkRowInfo 0 3) ex_counts;
  '(e, g) ← new_EdgeReader ex_pairs 0 0 9 0 (mkRowInfo 0 3) g; Ok (v, e, g).

Lemma answers_match_requests_witness :
  ∃ v e g2 v' e' g3 g4 v'' e'', ex_new_reader = Ok (v, e, g2) ∧
    vr_pull ex_pairs 2 v g2 = Ok (v', g3) ∧ er_pull ex_pairs 3 e g3 = Ok (e', g4) ∧
    g_dram g4 = [(1000, false); (1064, false); (2000, false); (2064, false); (2128, false)] ∧
    for_each [[0; 1]; [5]] VR_ReceiveData v' = Ok v'' ∧ vq v'' = [1; 5] ∧
    for_each [[1; 2]; [0; 1]; [3]] ER_ReceiveData e' = Ok e'' ∧ eq_ e'' = [1; 2; 0; 1; 3].
Proof.
  set (r1 := new_VertexReader ex_pairs 0 0 0 (mkRowInfo 0 3) ex_counts). vm_compute in r1.
  match (eval cbv delta [r1] in r1) with Ok (?v, ?g1) =>
    set (r2 := new_EdgeReader ex_pairs 0 0 9 0 (mkRowInfo 0 3) g1); vm_compute in r2;
    match (eval cbv delta [r2] in r2) with Ok (?e, ?g2) =>
      destruct (answers_match_requests ex_pairs 0 0 0 9 0 0 (mkRowInfo 0 3) ex_counts [0; 1; 5] [1; 2; 0; 1; 3]
        (new_DataController 0 [0; 1; 5; 6; 9] [1; 2; 0; 1; 3; 0; 0; 0; 0]) [2] [4] [2] [4] [6; 9] [0; 0; 0; 0] v e g1 g2)
        as (v' & e' & g3 & g4 & dc1 & ga & dc' & g' & v'' & e'' & E1 & E2 & _ & _ & R & _ & _ & _ & _ & _ & _ & E5 & Q5 & E6 & Q6)
    end
  end.
  1: vm_compute; split; congruence.
  1, 2: discriminate.
  1, 2: vm_compute; congruence.
  1-10: reflexivity.
  do 9 eexists. split; [vm_compute; reflexivity|]. split; [exact E1|]. split; [exact E2|]. split; [exact R|].
  split; [exact E5|]. split; [exact Q5|]. split; [exact E6 | exact Q6].
Defined.
