(* ===== verification/Text.v ===== *)
(** * Streams and numbers: the parts of the C++ library the readers use

    [getline] on a stream that remembers its end-of-file bit, and [stoull],
    [stoi], [stof] on strings.  Infinities, NaNs and hexadecimal notation are
    outside the model of [stof], which rejects them. *)

From S2P Require Import Prelude CFloat.
From Stdlib Require Import Ascii String.

Open Scope Z_scope.

Record Stream := mkStream { st_rest : string; st_eof : bool }.

Definition stream_of (s : string) : Stream := mkStream s false.

(** The text before the first [d], and what follows it, if there is one. *)
Fixpoint break_at (d : ascii) (s : string) : string * option string :=
  match s with
  | EmptyString => (EmptyString, None)
  | String c s' =>
      if Ascii.eqb c d then (EmptyString, Some s')
      else let '(a, b) := break_at d s' in (String c a, b)
  end.

(** [getline(st, line, d)]: the new [line], the stream, and its success.  At the
    end of the stream [line] is left as it was. *)
Definition getline (d : ascii) (st : Stream) (line : string) : string * Stream * bool :=
  if st_eof st then (line, st, false)
  else match break_at d (st_rest st) with
       | (a, Some r) => (a, mkStream r false, true)
       | (a, None) => (a, mkStream EmptyString true, negb (String.eqb a EmptyString))
       end.

(** [while (getline(st, line, d)) body(line)] *)
Fixpoint getline_loop {S : Type} (fuel : nat) (d : ascii) (st : Stream) (line : string)
    (body : string → S → res S) (s : S) : res S :=
  match fuel with
  | O => Err OutOfFuel
  | Datatypes.S fuel' =>
      match getline d st line with
      | (line', st', true) => s' ← body line' s; getline_loop fuel' d st' line' body s'
      | (_, _, false) => Ok s
      end
  end.

Definition stream_fuel (st : Stream) : nat := String.length (st_rest st) + 2.

(** ** Numbers *)

Definition code (c : ascii) : Z := Z.of_nat (nat_of_ascii c).

Definition is_space (c : ascii) : bool := (code c =? 32) || ((9 <=? code c) && (code c <=? 13)).

Definition digit_val (c : ascii) : Z :=
  let n := code c in
  if (48 <=? n) && (n <=? 57) then n - 48
  else if (97 <=? n) && (n <=? 122) then n - 87
  else if (65 <=? n) && (n <=? 90) then n - 55
  else 99.

Fixpoint skip_space (s : string) : string :=
  match s with String c s' => if is_space c then skip_space s' else s | _ => s end.

(** The digits in base [b] that start [s]: value, number, rest. *)
Fixpoint digits (b : Z) (s : string) (acc n : Z) : Z * Z * string :=
  match s with
  | String c s' =>
      if digit_val c <? b then digits b s' (b * acc + digit_val c) (n + 1) else (acc, n, s)
  | EmptyString => (acc, n, s)
  end.

(** An optional sign. *)
Definition sign (s : string) : bool * string :=
  match s with
  | String "-" s' => (true, s')
  | String "+" s' => (false, s')
  | _ => (false, s)
  end.

(** The base that [base = 0] selects, and what follows a prefix [0x]. *)
Definition auto_base (s : string) : Z * string :=
  match s with
  | String "0" (String x (String c _ as s')) =>
      if ((code x =? 120) || (code x =? 88)) && (digit_val c <? 16) then (16, s') else (8, s)
  | String "0" _ => (8, s)
  | _ => (10, s)
  end.

(** [stoull(s, NULL, base)] for [base = 0] or [10] *)
Definition stoull (base : Z) (s : string) : res Z :=
  let '(neg, s) := sign (skip_space s) in
  let '(b, s) := if base =? 0 then auto_base s else (base, s) in
  let '(v, n, _) := digits b s 0 0 in
  if n =? 0 then Err InvalidArgument
  else if 2 ^ 64 <=? v then Err RangeError
  else Ok (if (neg : bool) then u64 (- v) else v).

(** [stoi(s)] *)
Definition stoi (s : string) : res Z :=
  let '(neg, s) := sign (skip_space s) in
  let '(v, n, _) := digits 10 s 0 0 in
  if n =? 0 then Err InvalidArgument
  else let v := if (neg : bool) then - v else v in
       if in_i32 v then Ok v else Err RangeError.

(** [stof(s)]: decimal notation, correctly rounded to 24 bits. *)
Definition stof (s : string) : res dyadic :=
  let '(neg, s) := sign (skip_space s) in
  let '(v1, n1, s1) := digits 10 s 0 0 in
  match s1 with
  | String x _ => if (v1 =? 0) && ((code x =? 120) || (code x =? 88)) then Err InvalidArgument else Ok tt
  | _ => Ok tt
  end ≫= λ _,
  let '(v2, n2, s2) :=
    match s1 with
    | String "." s' => let '(v, n, r) := digits 10 s' v1 0 in (v, n, r)
    | _ => (v1, 0, s1)
    end in
  let ex :=
    match s2 with
    | String c s' =>
        if (code c =? 101) || (code c =? 69) then
          let '(eneg, s'') := sign s' in
          let '(e, n, _) := digits 10 s'' 0 0 in
          if (eneg : bool) then - e else e
        else 0
    | _ => 0
    end in
  if n1 + n2 =? 0 then Err InvalidArgument
  else if v2 =? 0 then Ok (0, 0)
  else
    let e := ex - n2 in
    let '(m, q) := round_quot 24 (v2 * 10 ^ Z.max 0 e) (10 ^ Z.max 0 (- e)) in
    if 2 ^ (128 + Z.max 0 (- q)) <=? m * 2 ^ Z.max 0 q then Err RangeError
    else if m * 2 ^ Z.max 0 (q + 126) <? 2 ^ Z.max 0 (- q - 126) then Err RangeError
    else Ok (if (neg : bool) then - m else m, q).

(** Conversion of a [float] to [uint64_t]. *)
Definition u64_of_float (x : dyadic) : res Z :=
  let '(m, e) := x in
  let t := if 0 <=? e then m * 2 ^ e else Z.quot m (2 ^ (- e)) in
  if (0 <=? t) && (t <? 2 ^ 64) then Ok t else Err FloatRange.

(** ** Decimal tokens *)

(** [s] is a nonempty string of decimal digits of value [n]. *)
Definition all_digits (s : string) : bool :=
  negb (String.eqb s EmptyString) && forallb (λ c, digit_val c <? 10) (list_ascii_of_string s).
Definition dec_value (s : string) : Z := let '(v, _, _) := digits 10 s 0 0 in v.
Definition decimal (s : string) (n : Z) : Prop := all_digits s = true ∧ dec_value s = n.

Fixpoint join (d : ascii) (l : list string) : string :=
  match l with
  | [] => EmptyString
  | [x] => x
  | x :: l' => (x ++ String d (join d l'))%string
  end.

(** [d] does not occur in [s]. *)
Fixpoint no_char (d : ascii) (s : string) : bool :=
  match s with String c s' => negb (Ascii.eqb c d) && no_char d s' | _ => true end.

Lemma break_at_app d a b : no_char d a = true → break_at d (a ++ String d b) = (a, Some b).
Proof.
  induction a as [|c a IH]; simpl; [by rewrite Ascii.eqb_refl|].
  intros [Hc Ha]%andb_prop. destruct (Ascii.eqb c d); [done|]. by rewrite IH.
Qed.

Lemma break_at_none d a : no_char d a = true → break_at d a = (a, None).
Proof.
  induction a as [|c a IH]; simpl; [done|].
  intros [Hc Ha]%andb_prop. destruct (Ascii.eqb c d); [done|]. by rewrite IH.
Qed.

Lemma digit_no_char c d : digit_val c < 10 → (code d < 48 ∨ 57 < code d) → Ascii.eqb c d = false.
Proof.
  intros Hc Hd. apply Ascii.eqb_neq. intros ->. revert Hc. unfold digit_val.
  pose proof (Nat2Z.is_nonneg (nat_of_ascii d)).
  destruct (Z.leb_spec 48 (code d)), (Z.leb_spec (code d) 57), (Z.leb_spec 97 (code d)),
    (Z.leb_spec (code d) 122), (Z.leb_spec 65 (code d)), (Z.leb_spec (code d) 90); simpl; lia.
Qed.

Lemma all_digits_inv s :
  all_digits s = true →
  s ≠ EmptyString ∧ Forall (λ c, digit_val c < 10) (list_ascii_of_string s).
Proof.
  unfold all_digits. intros [Hne Hall]%andb_prop. split.
  - intros ->. done.
  - apply Forall_forall. intros c Hc. rewrite forallb_forall in Hall.
    apply list_elem_of_In in Hc. specialize (Hall c Hc). by apply Z.ltb_lt.
Qed.

Lemma decimal_no_char s n d :
  decimal s n → (code d < 48 ∨ 57 < code d) → no_char d s = true.
Proof.
  intros [[_ Hall]%all_digits_inv _] Hd. induction s as [|c s IH]; [done|].
  simpl in *. inversion Hall; subst. rewrite digit_no_char, IH; done.
Qed.

(** Digits stop only at the end of a string of digits. *)
Lemma digits_all s acc n :
  Forall (λ c, digit_val c < 10) (list_ascii_of_string s) →
  digits 10 s acc n =
    (fst (fst (digits 10 s acc n)), n + Z.of_nat (String.length s), EmptyString).
Proof.
  revert acc n. induction s as [|c s IH]; intros acc n Hall; simpl in *; [by rewrite Z.add_0_r|].
  inversion Hall as [|? ? Hc Hs]; subst. destruct (Z.ltb_spec (digit_val c) 10); [|lia].
  rewrite IH by done. simpl. do 2 f_equal. lia.
Qed.

Lemma digit_not_space c : digit_val c < 10 → is_space c = false ∧ c ≠ "-"%char ∧ c ≠ "+"%char.
Proof.
  intros Hc. split; [|split]; [|by intros ->..].
  destruct (is_space c) eqn:E; [exfalso | done]. revert Hc E. unfold digit_val, is_space.
  destruct (Z.leb_spec 48 (code c)), (Z.leb_spec (code c) 57), (Z.leb_spec 97 (code c)),
    (Z.leb_spec (code c) 122), (Z.leb_spec 65 (code c)), (Z.leb_spec (code c) 90); simpl; try lia.
Qed.

(** A decimal token has neither blanks nor a sign to skip. *)
Lemma decimal_unsigned s n : decimal s n → sign (skip_space s) = (false, s).
Proof.
  intros [[Hne Hall]%all_digits_inv _]. destruct s as [|c s]; [done|]. simpl in *.
  inversion Hall as [|? ? Hc Hs]; subst. destruct (digit_not_space c Hc) as (-> & N1 & N2).
  unfold sign. destruct c as [[] [] [] [] [] [] [] []]; done.
Qed.

Lemma decimal_digits s n :
  decimal s n → ∃ k, 0 < k ∧ digits 10 s 0 0 = (n, k, EmptyString).
Proof.
  intros [Hd Hv]. apply all_digits_inv in Hd as [Hne Hall]. unfold dec_value in Hv.
  rewrite digits_all in * by done. simpl in Hv. rewrite Hv.
  exists (0 + Z.of_nat (String.length s)). split; [|done]. destruct s; [done|]. simpl. lia.
Qed.

Lemma stoull_decimal s n : decimal s n → 0 ≤ n < 2 ^ 64 → stoull 10 s = Ok n.
Proof.
  intros Hd Hn. unfold stoull. rewrite (decimal_unsigned s n Hd).
  destruct (decimal_digits s n Hd) as (k & Hk & E). simpl. rewrite E.
  destruct (Z.eqb_spec k 0); [lia|]. by destruct (Z.leb_spec (2 ^ 64) n); [lia|].
Qed.

Lemma stoi_decimal s n : decimal s n → 0 ≤ n < 2 ^ 31 → stoi s = Ok n.
Proof.
  intros Hd Hn. unfold stoi. rewrite (decimal_unsigned s n Hd).
  destruct (decimal_digits s n Hd) as (k & Hk & E). rewrite E.
  destruct (Z.eqb_spec k 0); [lia|]. unfold in_i32.
  destruct (Z.leb_spec (- 2 ^ 31) n), (Z.ltb_spec n (2 ^ 31)); simpl; done || lia.
Qed.

(** Below 2^24 the first row pointer survives its passage through [float]. *)
Lemma stof_decimal s n :
  decimal s n → 0 ≤ n < 2 ^ 24 → ∃ x, stof s = Ok x ∧ u64_of_float x = Ok n.
Proof.
  intros Hd Hn. unfold stof. rewrite (decimal_unsigned s n Hd).
  destruct (decimal_digits s n Hd) as (k & Hk & E). rewrite E. rewrite bind_Ok.
  cbv beta iota zeta. rewrite Z.add_0_r. destruct (Z.eqb_spec k 0); [lia|].
  destruct (Z.eqb_spec n 0) as [->|Hn0]; [eexists; split; [reflexivity|]; reflexivity|].
  change (10 ^ Z.max 0 (0 - 0)) with 1. change (10 ^ Z.max 0 (- (0 - 0))) with 1.
  rewrite Z.mul_1_r. destruct (float_of_uint_exact 24 n) as [Ef Hl]; [lia..|].
  unfold float_of_uint in Ef. rewrite Ef. pose proof (Z.log2_nonneg n).
  set (j := 24 - 1 - Z.log2 n) in *. rewrite (Z.max_l 0 (- j)), (Z.max_r 0 (- - j)) by lia.
  rewrite (Z.max_r 0 (- j + 126)), (Z.max_l 0 (- - j - 126)) by lia.
  pose proof (pow2_pos j Hl) as Hj. change (2 ^ 0) with 1.
  destruct (Z.leb_spec (2 ^ (128 + - - j)) (n * 2 ^ j * 1)) as [Hov|_].
  { exfalso. rewrite Z.opp_involutive, Z.pow_add_r in Hov by lia. nia. }
  pose proof (pow2_pos (- j + 126)). destruct (Z.ltb_spec (n * 2 ^ j * 2 ^ (- j + 126)) 1); [nia|].
  eexists. split; [reflexivity|]. unfold u64_of_float.
  destruct (Z.leb_spec 0 (- j)) as [Hj0|].
  - replace j with 0 by lia. change (2 ^ 0) with 1. change (2 ^ (- 0)) with 1. rewrite !Z.mul_1_r.
    destruct (Z.leb_spec 0 n), (Z.ltb_spec n (2 ^ 64)); simpl; done || lia.
  - rewrite Z.opp_involutive, Z.quot_mul by lia.
    destruct (Z.leb_spec 0 n), (Z.ltb_spec n (2 ^ 64)); simpl; done || lia.
Qed.

(** ** Loops over tokens and lines *)

Section Loops.
Context {S : Type}.
Implicit Types (body : string → S → res S) (s : S).

(** What is left of a stream of [d]-separated tokens. *)
Definition after_tokens (d : ascii) (l : list string) : Stream :=
  match l with [] => mkStream EmptyString true | _ => stream_of (join d l) end.

Lemma getline_token d x l line :
  no_char d x = true → x ≠ EmptyString →
  getline d (stream_of (join d (x :: l))) line = (x, after_tokens d l, true).
Proof.
  intros Hx Hne. unfold getline. cbn [stream_of st_eof st_rest]. destruct l as [|y l].
  - cbn [join]. rewrite break_at_none by done. simpl. by destruct x.
  - cbn [join]. by rewrite break_at_app.
Qed.

Lemma getline_loop_tokens d l fuel line body s :
  Forall (λ x, no_char d x = true ∧ x ≠ EmptyString) l → (List.length l < fuel)%nat →
  getline_loop fuel d (after_tokens d l) line body s = for_each l body s.
Proof.
  intros Hl. revert fuel line s. induction Hl as [|x l [Hx Hne] Hl IH]; intros fuel line s Hf;
    (destruct fuel as [|fuel]; [simpl in Hf; lia|]); cbn [getline_loop]; [done|].
  change (after_tokens d (x :: l)) with (stream_of (join d (x :: l))).
  rewrite getline_token by done. cbn [for_each].
  destruct (body x s) as [s'|]; cbn [mbind res_bind]; [|done]. apply IH. simpl in Hf. lia.
Qed.

Lemma join_length d l : (List.length l ≤ String.length (join d l) + 1)%nat.
Proof.
  induction l as [|x [|y l] IH]; [simpl; lia | simpl; lia |].
  change (join d (x :: y :: l)) with (x ++ String d (join d (y :: l)))%string.
  assert (∀ a b, String.length (a ++ b) = (String.length a + String.length b)%nat) as Ha.
  { intros a b. induction a; simpl; [done|]. by rewrite IHa. }
  rewrite Ha. simpl in *. lia.
Qed.

(** The text of a file of lines, each ended by a newline. *)
Fixpoint file_text (d : ascii) (l : list string) : string :=
  match l with [] => EmptyString | x :: l' => (x ++ String d (file_text d l'))%string end.

Lemma getline_file d x l line :
  no_char d x = true →
  getline d (stream_of (file_text d (x :: l))) line = (x, stream_of (file_text d l), true).
Proof. intros Hx. unfold getline. simpl. by rewrite break_at_app. Qed.

Lemma getline_loop_file d l fuel line body s :
  Forall (λ x, no_char d x = true) l → (List.length l < fuel)%nat →
  getline_loop fuel d (stream_of (file_text d l)) line body s = for_each l body s.
Proof.
  intros Hl. revert fuel line s. induction Hl as [|x l Hx Hl IH]; intros fuel line s Hf;
    (destruct fuel as [|fuel]; [simpl in Hf; lia|]); cbn [getline_loop]; [done|].
  rewrite getline_file by done. cbn [for_each].
  destruct (body x s) as [s'|]; cbn [mbind res_bind]; [|done]. apply IH. simpl in Hf. lia.
Qed.

Lemma file_length d l : (List.length l ≤ String.length (file_text d l))%nat.
Proof.
  induction l as [|x l IH]; simpl; [lia|].
  assert (∀ a b, String.length (a ++ b) = (String.length a + String.length b)%nat) as Ha.
  { intros a b. induction a; simpl; [done|]. by rewrite IHa. }
  rewrite Ha. simpl in *. lia.
Qed.
End Loops.
