(* ===== verification/DataReader.v ===== *)
(** * The data reader (DataReader.h, DataReader.cpp)

    It reads the sizes of the matrices from one file and the CSR adjacency
    matrix from the other, and cuts the row pointers into blocks of [max_v] rows:
    for each block it pushes its number of pointers and of edges.  The theorem:
    on well-formed files the matrices are read back as they were written and
    the pushed counts are those of the blocks of [max_v] rows. *)

From S2P Require Import Prelude CFloat Common Text.
From Stdlib Require Import Ascii String.

Open Scope Z_scope.

(** The globals [edge_req_count] and [vertex_req_count]. *)
Record ReqCounts := mkReqCounts { rc_edge : list Z; rc_vertex : list Z }.

(** The locals of [GetUint64Val]. *)
Record ParseState := mkPS {
  internal : list Z; start_v : Z; parse_count : Z; v_count : Z; req_counts : ReqCounts }.

(** What [ReadData] leaves: the two queues, the counts, [tot_axw_count]. *)
Record ReaderData := mkRD {
  rd_adjrowindex : list Z; rd_adjcolindex : list Z; rd_counts : ReqCounts; rd_tot_axw : Z }.

(** [GetFloatVal] *)
Definition GetFloatVal (line : string) (delimiter : ascii) : res (list dyadic) :=
  let ss := stream_of line in
  getline_loop (stream_fuel ss) delimiter ss EmptyString
    (λ temp q, x ← stof temp; Ok (q ++ [x])) [].

Section Reader.
Variable P : Params.

(** The body of the loop of [GetUint64Val]. *)
Definition parse_token (is_vertex : bool) (temp : string) (s : ParseState) : res ParseState :=
  let pc := u64 (parse_count s + 1) in
  let vc := u64 (v_count s + 1) in
  block_end ← (if is_vertex then m ← umod pc (max_v P); Ok ((m =? 0) || (pc =? a_h P))
               else Ok false);
  s1 ← (if (block_end : bool) then
          n ← stoull 10 temp;
          Ok (mkPS (internal s) n pc 0
                (mkReqCounts (rc_edge (req_counts s) ++ [u64 (n - start_v s)])
                   (rc_vertex (req_counts s) ++ [vc])))
        else Ok (mkPS (internal s) (start_v s) pc vc (req_counts s)));
  n ← stoull 10 temp;
  Ok (mkPS (internal s1 ++ [n]) (start_v s1) (parse_count s1) (v_count s1) (req_counts s1)).

(** [GetUint64Val]; the first token goes through [stof]. *)
Definition GetUint64Val (is_vertex : bool) (line : string) (delimiter : ascii) (c : ReqCounts)
    : res (list Z * ReqCounts) :=
  let '(temp, ss, _) := getline delimiter (stream_of line) EmptyString in
  f ← stof temp;
  n ← u64_of_float f;
  s ← getline_loop (stream_fuel (stream_of line)) delimiter ss temp (parse_token is_vertex)
        (mkPS [n] 0 0 1 c);
  Ok (internal s, req_counts s).
End Reader.

Definition newline : ascii := ascii_of_nat 10.
Definition blank : ascii := ascii_of_nat 32.

(** [ceil((double)a_h / CACHE_LINE_COUNT) * w_w * edge_req_count.size()] as [uint64_t] *)
Definition axw_total (P : Params) (blocks : Z) : res Z :=
  lines ← ceil_double (a_h P) (CACHE_LINE_COUNT P);
  u64_of_float (float_mul 53
    (float_mul 53 (float_of_uint 53 lines) (float_of_uint 53 (w_w P))) (float_of_uint 53 blocks)).

(** The sizes of the first file. *)
Definition read_sizes (text : string) (P : Params) : res Params :=
  let '(line1, st1, _) := getline newline (stream_of text) EmptyString in
  h ← stoi line1;
  let '(line2, st2, _) := getline newline st1 line1 in
  w ← stoi line2;
  let '(line3, st3, _) := getline newline st2 line2 in
  x ← stoi line3;
  Ok (P {{ w_h := u64 h; x_w := u64 h; w_w := u64 w;
           x_h := u64 x; a_h := u64 x; a_w := u64 x }}).

(** [DataReader::ReadData]; a file that cannot be opened is [None]. *)
Definition ReadData (file1 file2 : option string) (P : Params) : res (Params * ReaderData) :=
  match file1 with
  | None => Err InvalidArgument
  | Some text1 =>
      P ← read_sizes text1 P;
      match file2 with
      | None => Err InvalidArgument
      | Some text2 =>
          let '(line1, st1, _) := getline newline (stream_of text2) EmptyString in
          '(rows, c1) ← GetUint64Val P true line1 blank (mkReqCounts [] []);
          let '(line2, st2, _) := getline newline st1 line1 in
          '(cols, c2) ← GetUint64Val P false line2 blank c1;
          tot ← axw_total P (vsize (rc_edge c2));
          Ok (P, mkRD rows cols c2 tot)
      end
  end.

(** ** Blocks *)

(** The number of edges of each block, from the last pointer before it. *)
Fixpoint block_edges (start : Z) (Bs : list (list Z)) : list Z :=
  match Bs with [] => [] | B :: Bs' => (List.last B start - start) :: block_edges (List.last B start) Bs' end.

(** The number of pointers read for each block, [k] of them before the first. *)
Definition block_vertices (k : Z) (Bs : list (list Z)) : list Z :=
  match vsize <$> Bs with [] => [] | n :: l => k + n :: l end.

(** Row pointers after the first: nondecreasing. *)
Fixpoint nondecreasing (c : Z) (l : list Z) : Prop :=
  match l with [] => True | v :: l' => c ≤ v < 2 ^ 64 ∧ nondecreasing v l' end.

Section Blocks.
Variable P : Params.
Hypothesis Hm : 1 ≤ max_v P < 2 ^ 64.
Hypothesis Ha : a_h P < 2 ^ 62.

(** A token inside a block. *)
Lemma parse_inside t v s :
  decimal t v → 0 ≤ v < 2 ^ 64 → 0 ≤ parse_count s < 2 ^ 63 → 0 ≤ v_count s < 2 ^ 63 →
  (parse_count s + 1) mod max_v P ≠ 0 → parse_count s + 1 ≠ a_h P →
  parse_token P true t s = Ok (mkPS (internal s ++ [v]) (start_v s) (parse_count s + 1)
    (v_count s + 1) (req_counts s)).
Proof.
  intros Hd Hv Hp Hc N1 N2. unfold parse_token. rewrite !u64_small, umod_Ok by lia.
  rewrite bind_Ok. destruct (Z.eqb_spec ((parse_count s + 1) mod max_v P) 0); [done|].
  destruct (Z.eqb_spec (parse_count s + 1) (a_h P)); [done|]. cbn [orb]. rewrite !bind_Ok.
  by rewrite (stoull_decimal t v) by done.
Qed.

(** The last token of a block. *)
Lemma parse_end t v s :
  decimal t v → 0 ≤ start_v s ≤ v → v < 2 ^ 64 → 0 ≤ parse_count s < 2 ^ 63 →
  0 ≤ v_count s < 2 ^ 63 →
  (parse_count s + 1) mod max_v P = 0 ∨ parse_count s + 1 = a_h P →
  parse_token P true t s = Ok (mkPS (internal s ++ [v]) v (parse_count s + 1) 0
    (mkReqCounts (rc_edge (req_counts s) ++ [v - start_v s])
       (rc_vertex (req_counts s) ++ [v_count s + 1]))).
Proof.
  intros Hd Hs Hv Hp Hc Hend. unfold parse_token.
  rewrite (u64_small (parse_count s + 1)), (u64_small (v_count s + 1)), umod_Ok by lia.
  rewrite bind_Ok.
  assert (((parse_count s + 1) mod max_v P =? 0) || (parse_count s + 1 =? a_h P) = true) as ->
    by (apply orb_true_iff; rewrite !Z.eqb_eq; done).
  rewrite bind_Ok, (stoull_decimal t v) by (done || lia). rewrite !bind_Ok.
  by rewrite (u64_small (v - start_v s)) by lia.
Qed.

(** A whole block. *)
Lemma parse_block B2 B1 toks arch s c :
  block_at P arch (B1 ++ B2) → B2 ≠ [] → Forall2 decimal toks B2 →
  nondecreasing c B2 → 0 ≤ start_v s ≤ c →
  parse_count s = arch + vsize B1 → 0 ≤ v_count s → v_count s + vsize B2 < 2 ^ 63 →
  for_each toks (parse_token P true) s =
    Ok (mkPS (internal s ++ B2) (List.last B2 c) (arch + vsize (B1 ++ B2)) 0
      (mkReqCounts (rc_edge (req_counts s) ++ [List.last B2 c - start_v s])
         (rc_vertex (req_counts s) ++ [v_count s + vsize B2]))).
Proof.
  intros Hb Hne Hd. revert B1 s c Hb. induction Hd as [|t v toks B2 Ht Hd IH]; [done|].
  intros B1 s c Hb [Hv Hnd] Hs Hp Hc Hn. pose proof Hb as [Harch Hal Hlen Hfit Hend].
  pose proof (block_last_row P arch _ (vsize B1 + 1) ltac:(lia) Hb) as Hre.
  rewrite vsize_app, !vsize_cons in *. pose proof (vsize_nonneg B1). pose proof (vsize_nonneg B2).
  assert (vsize (@nil Z) = 0) as V0 by done.
  rewrite (Z.add_assoc arch (vsize B1) 1) in Hre. specialize (Hre ltac:(lia)). cbn [for_each].
  destruct B2 as [|w B2].
  - inversion Hd; subst. rewrite (parse_end t v) by (done || lia || (rewrite Hp; apply Hre; lia)).
    cbn. rewrite Hp. do 2 f_equal. lia.
  - rewrite !vsize_cons in *. pose proof (vsize_nonneg B2).
    assert ((arch + vsize B1 + 1) mod max_v P ≠ 0 ∧ arch + vsize B1 + 1 ≠ a_h P) as [N1 N2]
      by (split; intros E; destruct Hre as [Hre _]; specialize (Hre ltac:(auto)); lia).
    rewrite (parse_inside t v) by (done || lia || by rewrite Hp). rewrite bind_Ok.
    rewrite (IH ltac:(done) (B1 ++ [v]) _ v); cbn [internal start_v parse_count v_count req_counts].
    + rewrite <- !app_assoc, !vsize_app, !vsize_cons.
      cbn [app]. change (List.last (v :: w :: B2) c) with (List.last (w :: B2) c).
      rewrite (last_default (w :: B2) c v) by done. do 2 f_equal; [lia|].
      f_equal. f_equal. f_equal. lia.
    + by rewrite <- app_assoc.
    + done.
    + lia.
    + rewrite vsize_app, vsize_cons. lia.
    + lia.
    + rewrite ?vsize_cons in *. lia.
Qed.

Lemma nondecreasing_app c l1 l2 :
  nondecreasing c (l1 ++ l2) ↔ nondecreasing c l1 ∧ nondecreasing (List.last l1 c) l2.
Proof.
  revert c. induction l1 as [|v l1 IH]; intros c; simpl; [naive_solver|].
  rewrite IH. destruct l1 as [|w l1]; [simpl; naive_solver|].
  rewrite (last_default (w :: l1) v c) by done. naive_solver.
Qed.

Lemma nondecreasing_last c l : nondecreasing c l → 0 ≤ c → 0 ≤ List.last l c.
Proof.
  revert c. induction l as [|v l IH]; intros c; [done|]. intros [Hv Hl] Hc.
  destruct l as [|w l]; [simpl; lia|]. change (List.last (v :: w :: l) c) with (List.last (w :: l) c).
  rewrite (last_default (w :: l) c v) by done. apply IH; [done | lia].
Qed.

(** All the row pointers from the start of a block on. *)
Lemma parse_blocks l toks arch s :
  0 ≤ arch → arch mod max_v P = 0 → arch + vsize l = a_h P → Forall2 decimal toks l →
  nondecreasing (start_v s) l → 0 ≤ start_v s → parse_count s = arch → 0 ≤ v_count s ≤ 1 →
  for_each toks (parse_token P true) s =
    Ok (mkPS (internal s ++ l) (List.last l (start_v s)) (arch + vsize l)
      (if decide (l = []) then v_count s else 0)
      (mkReqCounts
         (rc_edge (req_counts s) ++ block_edges (start_v s) (chunks (Z.to_nat (max_v P)) l))
         (rc_vertex (req_counts s) ++ block_vertices (v_count s) (chunks (Z.to_nat (max_v P)) l)))).
Proof.
  set (k := Z.to_nat (max_v P)). assert (0 < k)%nat as Hk by lia.
  revert toks arch s. induction l as [|l Hne IH] using (chunks_ind k Hk);
    intros toks arch s Har Hal Hfit Hd Hnd Hs Hp Hc.
  { inversion Hd; subst. cbn. destruct s as [? ? ? ? []]; cbn in *. rewrite !app_nil_r.
    change (vsize []) with 0. rewrite Z.add_0_r. by subst. }
  rewrite <- (take_drop k l) in Hd, Hnd. apply Forall2_app_inv_r in Hd as (t1 & t2 & Hd1 & Hd2 & ->).
  apply nondecreasing_app in Hnd as [Hn1 Hn2].
  assert (vsize (take k l) + vsize (drop k l) = vsize l) as Ev by (rewrite <- vsize_app; by rewrite take_drop).
  assert (take k l ≠ []) as Hne1 by (destruct l; [done|]; destruct k; [lia | done]).
  assert (vsize (take k l) = Z.min (max_v P) (vsize l)) as Et.
  { unfold vsize. rewrite length_take. subst k. lia. }
  pose proof (vsize_nonneg (drop k l)). pose proof (vsize_nonneg l).
  assert (0 < vsize l) as Hpos.
  { destruct l as [|x l']; [done|]. rewrite vsize_cons. pose proof (vsize_nonneg l'). lia. }
  assert (block_at P arch ([] ++ take k l)) as Hb.
  { split; [done | done | cbn [app]; lia | cbn [app]; lia|]. cbn [app].
    destruct (Z.min_spec (max_v P) (vsize l)) as [[_ E]|[_ E]]; rewrite Et, E; lia. }
  rewrite for_each_app.
  rewrite (parse_block (take k l) [] t1 arch s (start_v s)) by (done || lia || (change (vsize []) with 0; lia)).
  rewrite bind_Ok. cbn [app]. rewrite (chunks_step k l) by done.
  rewrite decide_False by done.
  assert (List.last l (start_v s) = List.last (drop k l) (List.last (take k l) (start_v s))) as El
    by (by rewrite <- last_app, take_drop).
  destruct (decide (drop k l = [])) as [Ed|Hd0].
  - rewrite Ed in *. inversion Hd2; subst t2. cbn [for_each]. rewrite chunks_nil. cbn in El.
    rewrite <- El. do 2 f_equal.
    + rewrite <- (take_drop k l) at 2. by rewrite Ed, app_nil_r.
    + change (vsize (@nil Z)) with 0 in Ev. lia.
    + by rewrite El.

  - rewrite (IH t2 (arch + max_v P));
      cbn [internal start_v parse_count v_count req_counts rc_edge rc_vertex].
    + rewrite <- !app_assoc, take_drop, El.
      replace (if decide (drop k l = []) then 0 else 0) with 0 by (by case_decide).
      do 2 f_equal.
      * destruct (Z.min_spec (max_v P) (vsize l)) as [[_ E]|[Hle E]]; [lia|].
        exfalso. rewrite E in Et. apply Hd0. apply nil_length_inv. unfold vsize in *. lia.
      * f_equal. f_equal. unfold block_vertices. cbn [fmap list_fmap]. destruct (chunks k (drop k l)); [done|].
        cbn [fmap list_fmap app]. by rewrite Z.add_0_l.
    + lia.
    + rewrite <- Zplus_mod_idemp_r, Z.mod_same, Z.add_0_r; lia.
    + assert (vsize (take k l) = max_v P); [|lia].
      destruct (Z.min_spec (max_v P) (vsize l)) as [[_ E]|[Hle E]]; [lia|].
      exfalso. apply Hd0. apply nil_length_inv. unfold vsize in *. lia.
    + done.
    + done.
    + by apply nondecreasing_last.
    + destruct (Z.min_spec (max_v P) (vsize l)) as [[_ E]|[Hle E]]; [lia|].
      exfalso. apply Hd0. apply nil_length_inv. unfold vsize in *. lia.
    + lia.
Qed.
End Blocks.

(** The loop without blocks. *)
Lemma parse_plain P toks l s :
  Forall2 (λ t v, decimal t v ∧ 0 ≤ v < 2 ^ 64) toks l →
  ∃ s', for_each toks (parse_token P false) s = Ok s' ∧
    internal s' = internal s ++ l ∧ req_counts s' = req_counts s.
Proof.
  intros Hd. revert s. induction Hd as [|t v toks l [Ht Hv] Hd IH]; intros s.
  { exists s. by rewrite app_nil_r. }
  cbn [for_each].
  change (parse_token P false t s) with (n ← stoull 10 t; Ok (mkPS (internal s ++ [n]) (start_v s)
    (u64 (parse_count s + 1)) (u64 (v_count s + 1)) (req_counts s))).
  rewrite (stoull_decimal t v), bind_Ok by done. destruct (IH (mkPS (internal s ++ [v]) (start_v s) (u64 (parse_count s + 1))
    (u64 (v_count s + 1)) (req_counts s))) as (s' & E & Ei & Ec).
  exists s'. rewrite bind_Ok. split; [exact E|]. cbn in *. by rewrite Ei, <- app_assoc.
Qed.

(** A line of decimal tokens: the first one below 2^24. *)
Record token_line (toks : list string) (l : list Z) : Prop := {
  tl_dec : Forall2 (λ t v, decimal t v ∧ 0 ≤ v < 2 ^ 64) toks l;
  tl_head : ∃ v l', l = v :: l' ∧ 0 ≤ v < 2 ^ 24 }.

Lemma decimal_tokens toks l :
  Forall2 (λ t v, decimal t v ∧ 0 ≤ v < 2 ^ 64) toks l →
  Forall (λ x, no_char blank x = true ∧ x ≠ EmptyString) toks.
Proof.
  induction 1 as [|t v toks l [Ht Hv] Hd IH]; constructor; [split|done].
  - apply (decimal_no_char t v); [done | by left].
  - destruct Ht as [Ht _]. by apply all_digits_inv in Ht as [? _].
Qed.

(** A line of tokens separated by blanks, with or without a blank at its end. *)
Definition line_of (toks : list string) (line : string) : Prop :=
  line = join blank toks ∨ line = file_text blank toks.

Lemma GetUint64Val_line P isv toks l c s line :
  token_line toks l → line_of toks line →
  for_each (tail toks) (parse_token P isv) (mkPS (take 1 l) 0 0 1 c) = Ok s →
  GetUint64Val P isv line blank c = Ok (internal s, req_counts s).
Proof.
  intros [Hd (v & l' & -> & Hv)] Hline Hl. pose proof (decimal_tokens _ _ Hd) as Hall.
  inversion Hd as [|t ? toks' ? [Ht _] Hd']; subst. inversion Hall as [|? ? [Hb Hne] Hall']; subst.
  unfold GetUint64Val. destruct (stof_decimal t v Ht Hv) as (x & Hx & Ex).
  cbn [tail take] in Hl. change (take 0 l') with (@nil Z) in Hl. destruct Hline as [->| ->].
  - rewrite getline_token by done. cbv beta iota. rewrite Hx, bind_Ok, Ex, bind_Ok.
    rewrite getline_loop_tokens; [by rewrite Hl | done |].
    unfold stream_fuel, stream_of. cbn [st_rest]. pose proof (join_length blank (t :: toks')) as Hj.
    cbn [List.length] in Hj. lia.
  - rewrite getline_file by done. cbv beta iota. rewrite Hx, bind_Ok, Ex, bind_Ok.
    rewrite getline_loop_file; [by rewrite Hl | |].
    + eapply Forall_impl; [exact Hall'|]. by intros ? [? _].
    + unfold stream_fuel, stream_of. cbn [st_rest]. pose proof (file_length blank (t :: toks')) as Hj.
      cbn [List.length] in Hj. lia.
Qed.

Lemma no_char_app d a b : no_char d (a ++ b)%string = no_char d a && no_char d b.
Proof. induction a as [|c a IH]; simpl; [done|]. by rewrite IH, andb_assoc. Qed.

Lemma no_newline_join toks l :
  Forall2 (λ t v, decimal t v ∧ 0 ≤ v < 2 ^ 64) toks l → no_char newline (join blank toks) = true.
Proof.
  induction 1 as [|t v toks l [Ht Hv] Hd IH]; [done|].
  assert (no_char newline t = true) as Hn by (apply (decimal_no_char t v); [done | by left]).
  destruct toks as [|u toks]; [done|].
  change (join blank (t :: u :: toks)) with (t ++ String blank (join blank (u :: toks)))%string.
  rewrite no_char_app, Hn. exact IH.
Qed.

Lemma read_sizes_file hs ws xs h w x P :
  decimal hs h → decimal ws w → decimal xs x →
  0 ≤ h < 2 ^ 31 → 0 ≤ w < 2 ^ 31 → 0 ≤ x < 2 ^ 31 →
  read_sizes (file_text newline [hs; ws; xs]) P =
    Ok (P {{ w_h := h; x_w := h; w_w := w; x_h := x; a_h := x; a_w := x }}).
Proof.
  intros Dh Dw Dx Hh Hw Hx. unfold read_sizes.
  rewrite getline_file by (apply (decimal_no_char hs h); [done | by left]). cbv beta iota.
  rewrite (stoi_decimal hs h), bind_Ok by done.
  rewrite getline_file by (apply (decimal_no_char ws w); [done | by left]). cbv beta iota.
  rewrite (stoi_decimal ws w), bind_Ok by done.
  rewrite getline_file by (apply (decimal_no_char xs x); [done | by left]). cbv beta iota.
  rewrite (stoi_decimal xs x), bind_Ok by done.
  by rewrite !u64_small by lia.
Qed.

(** Sums of the counts. *)
Lemma block_edges_sum c Bs : foldr Z.add 0 (block_edges c Bs) = List.last (List.concat Bs) c - c.
Proof.
  revert c. induction Bs as [|B Bs IH]; intros c; cbn; [lia|]. rewrite IH, last_app. lia.
Qed.

Lemma block_vertices_sum k Bs :
  Bs ≠ [] → foldr Z.add 0 (block_vertices k Bs) = k + vsize (List.concat Bs).
Proof.
  destruct Bs as [|B Bs]; [done|]. intros _. cbn. rewrite vsize_app, <- Z.add_assoc. do 2 f_equal.
  induction Bs as [|B' Bs IH]; cbn; [done|]. by rewrite IH, vsize_app.
Qed.

Lemma axw_total_exact P n :
  0 < a_h P < 2 ^ 53 → 0 < CACHE_LINE_COUNT P < 2 ^ 53 → 0 < w_w P → 0 < n →
  ceil_div (a_h P) (CACHE_LINE_COUNT P) * w_w P * n < 2 ^ 53 →
  axw_total P n = Ok (ceil_div (a_h P) (CACHE_LINE_COUNT P) * w_w P * n).
Proof.
  intros Ha Hc Hw Hn Hb. unfold axw_total. rewrite ceil_double_exact, bind_Ok by lia.
  pose proof (ceil_div_bounds (a_h P) (CACHE_LINE_COUNT P)).
  set (z := ceil_div (a_h P) (CACHE_LINE_COUNT P)) in *. assert (0 < z) by nia.
  assert (0 < z * w_w P < 2 ^ 53) by nia.
  rewrite !float_mul_exact by nia.
  destruct (float_of_uint_exact 53 (z * w_w P * n)) as [-> Hl]; [lia | nia |].
  unfold u64_of_float. set (j := 53 - 1 - Z.log2 (z * w_w P * n)) in *.
  pose proof (pow2_pos j Hl). assert (0 < z * w_w P * n) by nia.
  set (v := z * w_w P * n) in *.
  assert ((if 0 <=? - j then v * 2 ^ j * 2 ^ (- j) else Z.quot (v * 2 ^ j) (2 ^ (- - j))) = v) as ->.
  { destruct (Z.leb_spec 0 (- j)).
    - replace j with 0 by lia. change (2 ^ 0) with 1. change (2 ^ (- 0)) with 1. lia.
    - rewrite Z.opp_involutive, Z.quot_mul; lia. }
  destruct (Z.leb_spec 0 v), (Z.ltb_spec v (2 ^ 64)); cbn; done || lia.
Qed.

(** The two lines of a CSR matrix. *)
Lemma read_pointers P tr ps line :
  token_line tr (0 :: ps) → line_of tr line → nondecreasing 0 ps → vsize ps = a_h P →
  0 < a_h P < 2 ^ 62 → 1 ≤ max_v P < 2 ^ 64 →
  let Bs := chunks (Z.to_nat (max_v P)) ps in
  GetUint64Val P true line blank (mkReqCounts [] []) =
    Ok (0 :: ps, mkReqCounts (block_edges 0 Bs) (block_vertices 1 Bs)).
Proof.
  intros Hr Hline Hnd Hlen Ha Hm Bs. pose proof Hr as [Hrd _].
  inversion Hrd as [|t0 ? ts ? [Ht0 _] Hts]; subst tr.
  erewrite (GetUint64Val_line P true (t0 :: ts) (0 :: ps)); [| done | done |].
  2:{ cbn [tail take]. apply (parse_blocks P); cbn [start_v parse_count v_count]; try done; try lia.
      eapply Forall2_impl; [exact Hts|]. by intros t v [? _]. }
  done.
Qed.

Lemma read_columns P tc cs line c :
  token_line tc cs → line_of tc line → GetUint64Val P false line blank c = Ok (cs, c).
Proof.
  intros Hc Hline. pose proof Hc as [Hcd (c0 & cs' & -> & Hc0)].
  inversion Hcd as [|u0 ? us ? [Hu0 _] Hus]; subst tc.
  destruct (parse_plain P us cs' (mkPS [c0] 0 0 1 c) Hus) as (s' & Es & Ei & Eq).
  rewrite (GetUint64Val_line P false (u0 :: us) (c0 :: cs') c s'); [| done | done | exact Es].
  by rewrite Ei, Eq.
Qed.

(** The two files, the second given by what [getline] reads from it. *)
Lemma read_files hs ws xs h w x text line1 line2 st2 st3 b1 b2 tr ps tc cs P :
  decimal hs h → decimal ws w → decimal xs x →
  0 ≤ h < 2 ^ 31 → 0 < w < 2 ^ 31 → 0 < x < 2 ^ 31 →
  getline newline (stream_of text) EmptyString = (line1, st2, b1) →
  getline newline st2 line1 = (line2, st3, b2) → line_of tr line1 → line_of tc line2 →
  token_line tr (0 :: ps) → token_line tc cs →
  nondecreasing 0 ps → vsize ps = x →
  1 ≤ max_v P < 2 ^ 64 → 0 < CACHE_LINE_COUNT P < 2 ^ 53 →
  let Bs := chunks (Z.to_nat (max_v P)) ps in
  let n := vsize Bs in
  ceil_div x (CACHE_LINE_COUNT P) * w * n < 2 ^ 53 →
  ReadData (Some (file_text newline [hs; ws; xs])) (Some text) P =
    Ok (P {{ w_h := h; x_w := h; w_w := w; x_h := x; a_h := x; a_w := x }},
        mkRD (0 :: ps) cs (mkReqCounts (block_edges 0 Bs) (block_vertices 1 Bs))
          (ceil_div x (CACHE_LINE_COUNT P) * w * n)).
Proof.
  intros Dh Dw Dx Hh Hw Hx G1 G2 L1 L2 Hr Hc Hnd Hlen Hm Hline Bs n Htot.
  unfold ReadData. rewrite (read_sizes_file hs ws xs h w x), bind_Ok by (done || lia).
  set (P1 := P {{ w_h := h; x_w := h; w_w := w; x_h := x; a_h := x; a_w := x }}).
  assert (a_h P1 = x ∧ max_v P1 = max_v P ∧ w_w P1 = w ∧
    CACHE_LINE_COUNT P1 = CACHE_LINE_COUNT P) as (E1 & E2 & E3 & E4) by (by destruct P).
  rewrite G1. cbv beta iota.
  rewrite (read_pointers P1 tr ps line1), bind_Ok; rewrite ?E1, ?E2; try done; try lia. cbv beta iota.
  rewrite G2. cbv beta iota. rewrite (read_columns P1 tc cs line2), bind_Ok by done. cbv beta iota.
  fold Bs. cbn [rc_edge].
  assert (vsize (block_edges 0 Bs) = n) as ->.
  { subst n. clear. generalize 0 as c. induction Bs as [|B Bs' IH]; intros c; [done|].
    cbn [block_edges]. by rewrite !vsize_cons, IH. }
  assert (0 < n) as Hn.
  { subst n. assert (Bs ≠ []) as HB.
    { intros E. assert (List.concat Bs = ps) as Ecat by (apply concat_chunks; lia).
      rewrite E in Ecat. subst ps. change (vsize (List.concat [])) with 0 in Hlen. lia. }
    destruct Bs as [|B Bs']; [done|]. rewrite vsize_cons. pose proof (vsize_nonneg Bs'). lia. }
  rewrite axw_total_exact; rewrite ?E1, ?E3, ?E4; try lia. by rewrite bind_Ok.
Qed.

(** Two files as they are written. *)
Lemma read_two_files hs ws xs h w x tr ps tc cs P :
  decimal hs h → decimal ws w → decimal xs x →
  0 ≤ h < 2 ^ 31 → 0 < w < 2 ^ 31 → 0 < x < 2 ^ 31 →
  token_line tr (0 :: ps) → token_line tc cs → nondecreasing 0 ps → vsize ps = x →
  1 ≤ max_v P < 2 ^ 64 → 0 < CACHE_LINE_COUNT P < 2 ^ 53 →
  let Bs := chunks (Z.to_nat (max_v P)) ps in
  ceil_div x (CACHE_LINE_COUNT P) * w * vsize Bs < 2 ^ 53 →
  ReadData (Some (file_text newline [hs; ws; xs])) (Some (file_text newline [join blank tr; join blank tc])) P =
    Ok (P {{ w_h := h; x_w := h; w_w := w; x_h := x; a_h := x; a_w := x }},
        mkRD (0 :: ps) cs (mkReqCounts (block_edges 0 Bs) (block_vertices 1 Bs))
          (ceil_div x (CACHE_LINE_COUNT P) * w * vsize Bs)).
Proof.
  intros Dh Dw Dx Hh Hw Hx Hr Hc Hnd Hlen Hm Hline Bs Htot.
  eapply (read_files hs ws xs h w x); try done.
  - by apply getline_file, (no_newline_join tr (0 :: ps)), Hr.
  - by apply getline_file, (no_newline_join tc cs), Hc.
  - by left.
  - by left.
Qed.

(** ** Properties *)

(** C18: the data files are read back, cut into blocks.  On files that hold the
    sizes and a CSR matrix (nondecreasing row pointers from 0, one more than rows;
    first tokens below 2^24), reading returns the pointers and the indices; for each
    block of [max_v] rows it has pushed the number of edges between the pointers
    that bound it and the number of its pointers; these add up to the last pointer
    and to the number of pointers; and the number of output lines is the product
    it means, without rounding. *)
Theorem data_read_in_blocks hs ws xs h w x tr ps tc cs P :
  decimal hs h → decimal ws w → decimal xs x →
  0 ≤ h < 2 ^ 31 → 0 < w < 2 ^ 31 → 0 < x < 2 ^ 31 →
  token_line tr (0 :: ps) → token_line tc cs →
  nondecreasing 0 ps → vsize ps = x →
  1 ≤ max_v P < 2 ^ 64 → 0 < CACHE_LINE_COUNT P < 2 ^ 53 →
  let Bs := chunks (Z.to_nat (max_v P)) ps in
  let n := vsize Bs in
  ceil_div x (CACHE_LINE_COUNT P) * w * n < 2 ^ 53 →
  ReadData (Some (file_text newline [hs; ws; xs]))
      (Some (file_text newline [join blank tr; join blank tc])) P =
    Ok (P {{ w_h := h; x_w := h; w_w := w; x_h := x; a_h := x; a_w := x }},
        mkRD (0 :: ps) cs (mkReqCounts (block_edges 0 Bs) (block_vertices 1 Bs))
          (ceil_div x (CACHE_LINE_COUNT P) * w * n)) ∧
  foldr Z.add 0 (block_edges 0 Bs) = List.last ps 0 ∧
  foldr Z.add 0 (block_vertices 1 Bs) = x + 1.
Proof.
  intros Dh Dw Dx Hh Hw Hx Hr Hc Hnd Hlen Hm Hline Bs n Htot.
  assert (0 < Z.to_nat (max_v P))%nat as Hk by lia.
  assert (ps ≠ []) as Hps by (intros ->; change (vsize []) with 0 in Hlen; lia).
  assert (List.concat Bs = ps) as Ecat by (by apply concat_chunks).
  assert (Bs ≠ []) as HBs by (intros E; rewrite E in Ecat; by subst).
  split; [by apply (read_two_files hs ws xs h w x)|].
  rewrite block_edges_sum, block_vertices_sum, Ecat by done; lia.
Qed.

(** ** Concrete runs *)

Lemma token_line_ex toks l :
  forallb (λ p, all_digits (fst p) && (dec_value (fst p) =? snd p) && (0 <=? snd p)
    && (snd p <? 2 ^ 24)) (combine toks l) = true →
  List.length toks = List.length l → l ≠ [] → token_line toks l.
Proof.
  intros Hall Hlen Hne.
  assert (Forall2 (λ t v, decimal t v ∧ 0 ≤ v < 2 ^ 24) toks l) as Hd.
  { revert l Hall Hlen Hne. induction toks as [|t toks IH]; intros [|v l] Hall Hlen Hne; try done.
    cbn in Hall. apply andb_prop in Hall as [Hh Ht].
    rewrite !andb_true_iff in Hh. destruct Hh as [[[H1 H2] H3] H4].
    constructor.
    - split; [split; [done | by apply Z.eqb_eq] | lia].
    - destruct l as [|v' l]; [by destruct toks|]. apply IH; [done | by injection Hlen | done]. }
  split.
  - eapply Forall2_impl; [exact Hd|]. intros t v [? ?]. split; [done | lia].
  - destruct l as [|v l]; [done|]. inversion Hd as [|? ? ? ? [_ Hv] _]; subst. eauto.
Qed.

Lemma data_read_in_blocks_witness :
  ∃ P, ReadData (Some (file_text newline ["5"; "3"; "4"]%string))
      (Some (file_text newline [join blank ["0"; "2"; "3"; "3"; "6"]%string;
                                join blank ["1"; "3"; "0"; "2"; "0"; "3"]%string])) ex_params =
    Ok (P, mkRD [0; 2; 3; 3; 6] [1; 3; 0; 2; 0; 3] (mkReqCounts [3; 3] [3; 2]) 6) ∧
    a_h P = 4.
Proof.
  destruct (data_read_in_blocks "5" "3" "4" 5 3 4 ["0"; "2"; "3"; "3"; "6"]%string [2; 3; 3; 6]
    ["1"; "3"; "0"; "2"; "0"; "3"]%string [1; 3; 0; 2; 0; 3] ex_params) as [E _].
  1-3: by split.
  1-3: lia.
  1, 2: by apply token_line_ex.
  1: simpl; lia.
  1: done.
  1, 2: simpl; lia.
  1: by vm_compute.
  eexists. split; [exact E | done].
Defined.
