(* ===== verification/CsrTools.v ===== *)
(** * The CSR files of the tiling tools (CSR_converter/)

    What the tiling tools share: reading the two lines of a CSR file and writing those
    of the tiled matrix.  Then [vt] (vtmake.cpp), which cuts the columns of the matrix
    into tiles and puts the tiles below one another.  The theorems: [vt] writes the rows
    of the tiles it means, with every edge in exactly one row; and the simulator's own
    reader takes a written file for the matrix it holds. *)

From S2P Require Import Prelude CFloat Common Text DataReader.
From Stdlib Require Import Ascii String.

Open Scope Z_scope.

(** ** Writing *)

(** [output << n] for a [uint64_t] *)
Definition digit (n : Z) : ascii := ascii_of_nat (Z.to_nat (48 + n)).
Fixpoint print_digits (f : nat) (n : Z) (acc : string) : string :=
  match f with
  | O => acc
  | S f' =>
      let acc := String (digit (n mod 10)) acc in
      if n <? 10 then acc else print_digits f' (n / 10) acc
  end.
Definition print_u64 (n : Z) : string := print_digits 20 n EmptyString.

(** The loop that writes the row pointers; [acc] is [v_acm]. *)
Fixpoint print_pointers (acc : Z) (rows : list (list Z)) : string :=
  match rows with
  | [] => EmptyString
  | r :: rows' =>
      let acc := u64 (acc + vsize r) in
      (print_u64 acc ++ String (if qempty rows' then newline else blank) (print_pointers acc rows'))%string
  end.

(** The loops that write the edges. *)
Fixpoint print_row (last_row : bool) (r : list Z) : string :=
  match r with
  | [] => EmptyString
  | x :: r' =>
      (print_u64 x ++ String (if last_row && qempty r' then newline else blank) (print_row last_row r'))%string
  end.
Fixpoint print_rows (rows : list (list Z)) : string :=
  match rows with
  | [] => EmptyString
  | r :: rows' => (print_row (qempty rows') r ++ print_rows rows')%string
  end.

(** The file of [new_csr]. *)
Definition csr_text (rows : list (list Z)) : string :=
  ("0 " ++ print_pointers 0 rows ++ print_rows rows)%string.

(** ** Reading *)

(** [while (getline(ss, tmp, ' '))] over the row pointers; also what is left in [tmp]. *)
Fixpoint row_loop (fuel : nat) (ss : Stream) (tmp : string) (row : list Z) : res (list Z * string) :=
  match fuel with
  | O => Err OutOfFuel
  | S f =>
      match getline blank ss tmp with
      | (tmp, ss, true) =>
          if String.eqb tmp (String newline EmptyString) then Ok (row, tmp)
          else n ← stoull 10 tmp; row_loop f ss tmp (row ++ [n])
      | (tmp, _, false) => Ok (row, tmp)
      end
  end.

(** The lines of the file: [row], the stream [tt] of the edges and [tmp]. *)
Definition read_lines (text : string) : res (list Z * Stream * string) :=
  let '(line, st, _) := getline newline (stream_of text) EmptyString in
  '(row, tmp) ← row_loop (stream_fuel (stream_of line)) (stream_of line) EmptyString [];
  let '(line, _, _) := getline newline st line in
  Ok (row, stream_of line, tmp).

(** The next edge. *)
Definition next_edge (es : Stream) (tmp : string) : res (Z * Stream * string) :=
  let '(tmp, es, _) := getline blank es tmp in
  edge ← stoull 10 tmp; Ok (edge, es, tmp).

(** The loops over the vertices and their edges, with [place] for what is done with an edge. *)
Section Edges.
Context {S : Type}.
Variable place : Z → Z → S → res S.

Definition edge_step (i : Z) (s : S * Stream * string) : res (S * Stream * string) :=
  let '(s, es, tmp) := s in
  '(edge, es, tmp) ← next_edge es tmp;
  s ← place i edge s; Ok (s, es, tmp).
Definition vertex_step (row : list Z) (i : Z) (s : S * Stream * string) : res (S * Stream * string) :=
  next ← vget row (i + 1); this ← vget row i;
  for_loop (Z.to_nat (u64 (next - this))) 0 (λ _, edge_step i) s.
Definition all_edges (v : Z) (row : list Z) (s : S * Stream * string) : res (S * Stream * string) :=
  for_loop (Z.to_nat v) 0 (vertex_step row) s.
End Edges.

(** ** [vt] *)

(** An edge goes to the row of its vertex in the tile of its column. *)
Definition vt_place (v tile_num v_num i edge : Z) (new_csr : list (list Z)) : res (list (list Z)) :=
  index ← udiv edge v_num;
  let index := if index =? tile_num then u64 (index - 1) else index in
  vmod new_csr (u64 (i + u64 (v * index))) (λ r, Ok (r ++ [edge])).

(** [main]: what it writes, if it can open the file. *)
Definition vtmake (v tile_num : Z) (file : option string) : res (option string) :=
  v_num ← ceil_float v tile_num;
  match file with
  | None => Ok None
  | Some text =>
      '(row, es, tmp) ← read_lines text;
      '(new_csr, _, _) ← all_edges (vt_place v tile_num v_num) v row
        (replicate (Z.to_nat (u64 (v * tile_num))) [], es, tmp);
      Ok (Some (csr_text new_csr))
  end.

(** ** Specification *)

(** The row pointers of rows, without the first. *)
Fixpoint row_ptrs (c : Z) (rows : list (list Z)) : list Z :=
  match rows with [] => [] | r :: rows' => (c + vsize r) :: row_ptrs (c + vsize r) rows' end.

(** A text of which the first lines hold a CSR matrix. *)
Definition csr_file (text : string) (rows : list (list Z)) : Prop :=
  ∃ tr tc line1 line2 st2 st3 b2,
    getline newline (stream_of text) EmptyString = (line1, st2, true) ∧
    getline newline st2 line1 = (line2, st3, b2) ∧
    line_of tr line1 ∧ line_of tc line2 ∧
    Forall2 (λ t x, decimal t x ∧ 0 ≤ x < 2 ^ 64) tr (0 :: row_ptrs 0 rows) ∧
    Forall2 (λ t x, decimal t x ∧ 0 ≤ x < 2 ^ 64) tc (List.concat rows).

(** The tile of a column, the part of a row in a tile, and the tiles below one another. *)
Definition tile_of (v_num tile_num c : Z) : Z := Z.min (c / v_num) (tile_num - 1).
Definition row_tile (v_num tile_num t : Z) (r : list Z) : list Z :=
  filter (λ c, tile_of v_num tile_num c = t) r.
Definition tiles (v_num tile_num : Z) (rows : list (list Z)) : list (list Z) :=
  List.concat ((λ t, row_tile v_num tile_num t <$> rows) <$> seqZ 0 tile_num).

(** ** Decimal output *)

Lemma digit_of n : 0 ≤ n < 10 → digit_val (digit n) = n.
Proof.
  intros Hn. assert (n ∈ seqZ 0 10) as Hin by (apply elem_of_seqZ; lia). revert Hin. clear Hn. revert n.
  apply Forall_forall. repeat constructor.
Qed.

Lemma print_digits_value f n acc k :
  0 ≤ n < 10 ^ Z.of_nat f → (0 < f)%nat →
  ∃ j, 0 < j ∧ digits 10 (print_digits f n acc) 0 k = digits 10 acc n (k + j).
Proof.
  revert n acc k. induction f as [|f IH]; intros n acc k Hn Hf; [lia|]. cbn [print_digits].
  assert (0 ≤ n mod 10 < 10) as Hm by (apply Z.mod_pos_bound; lia).
  assert (∀ a k', digits 10 (String (digit (n mod 10)) acc) a k' = digits 10 acc (10 * a + n mod 10) (k' + 1)) as Hd.
  { intros a k'. cbn [digits]. rewrite digit_of by done. by destruct (Z.ltb_spec (n mod 10) 10); [|lia]. }
  destruct (Z.ltb_spec n 10).
  { exists 1. split; [lia|]. rewrite Hd. f_equal. rewrite Z.mod_small; lia. }
  rewrite Nat2Z.inj_succ, Z.pow_succ_r in Hn by lia.
  destruct (IH (n / 10) (String (digit (n mod 10)) acc) k) as (j & Hj & E).
  { split; [apply Z.div_pos; lia | apply Z.div_lt_upper_bound; lia]. }
  { destruct f; [change (Z.of_nat 0) with 0 in Hn; simpl in Hn; lia | lia]. }
  exists (j + 1). split; [lia|]. rewrite E, Hd. f_equal; [|lia]. pose proof (Z.div_mod n 10). lia.
Qed.

Lemma print_digits_all f n acc :
  0 ≤ n → Forall (λ c, digit_val c < 10) (list_ascii_of_string acc) →
  Forall (λ c, digit_val c < 10) (list_ascii_of_string (print_digits f n acc)).
Proof.
  revert n acc. induction f as [|f IH]; intros n acc Hn Ha; cbn [print_digits]; [done|].
  assert (Forall (λ c, digit_val c < 10) (list_ascii_of_string (String (digit (n mod 10)) acc))) as H1.
  { simpl. constructor; [|done]. rewrite digit_of; apply Z.mod_pos_bound; lia. }
  destruct (_ <? _); [done|]. apply IH; [apply Z.div_pos; lia | done].
Qed.

(** What is written is read back. *)
Lemma print_u64_decimal n : 0 ≤ n < 2 ^ 64 → decimal (print_u64 n) n.
Proof.
  intros Hn. assert (n < 10 ^ Z.of_nat 20) as Hn' by (change (10 ^ Z.of_nat 20) with 100000000000000000000; lia).
  destruct (print_digits_value 20 n EmptyString 0) as (j & Hj & E); [lia | lia |].
  fold (print_u64 n) in E. cbn [digits] in E. split.
  - unfold all_digits. apply andb_true_intro. split.
    + destruct (print_u64 n); [cbn [digits] in E; injection E as E; lia | done].
    + apply forallb_forall. intros c Hc. apply Z.ltb_lt.
      assert (Forall (λ c, digit_val c < 10) (list_ascii_of_string (print_u64 n))) as Ha
        by (apply print_digits_all; [lia | simpl; constructor]).
      rewrite Forall_forall in Ha. apply Ha. by apply list_elem_of_In.
  - unfold dec_value. by rewrite E.
Qed.

(** ** The text of a CSR file *)

Abbreviation is_token := (λ t x, decimal t x ∧ 0 ≤ x < 2 ^ 64).

Lemma append_cons x (a b : string) : (String x a ++ b = String x (a ++ b))%string.
Proof. done. Qed.

Lemma append_assoc (a b c : string) : ((a ++ b) ++ c = a ++ b ++ c)%string.
Proof. induction a as [|x a IH]; [done|]. by rewrite !append_cons, IH. Qed.

Lemma append_nil (a : string) : (a ++ "" = a)%string.
Proof. induction a as [|x a IH]; [done|]. by rewrite append_cons, IH. Qed.

Lemma file_text_app d l1 l2 : (file_text d (l1 ++ l2) = file_text d l1 ++ file_text d l2)%string.
Proof. induction l1 as [|x l1 IH]; [done|]. cbn [app file_text]. by rewrite IH, append_assoc, append_cons. Qed.

Lemma join_cons d x l : l ≠ [] → join d (x :: l) = (x ++ String d (join d l))%string.
Proof. by destruct l. Qed.

Lemma join_app d l1 l2 : l2 ≠ [] → join d (l1 ++ l2) = (file_text d l1 ++ join d l2)%string.
Proof.
  intros Hl. induction l1 as [|x l1 IH]; [done|]. cbn [app file_text]. rewrite join_cons.
  - by rewrite IH, append_assoc.
  - intros E. by apply app_eq_nil in E as [_ ->].
Qed.

Lemma print_tokens l :
  Forall (λ x, 0 ≤ x < 2 ^ 64) l → Forall2 is_token (print_u64 <$> l) l.
Proof. induction 1; constructor; [split; [by apply print_u64_decimal | done] | done]. Qed.

Lemma row_ptrs_bound c rows :
  0 ≤ c → Forall (λ x, 0 ≤ x ≤ c + vsize (List.concat rows)) (row_ptrs c rows).
Proof.
  revert c. induction rows as [|r rows IH]; intros c Hc; cbn [row_ptrs List.concat]; [constructor|].
  pose proof (vsize_nonneg r). pose proof (vsize_nonneg (List.concat rows)). rewrite vsize_app. constructor; [lia|].
  rewrite Z.add_assoc. eapply Forall_impl; [apply IH; lia|]. intros x ?. cbn beta in *. lia.
Qed.

Lemma print_pointers_line c rows :
  rows ≠ [] → 0 ≤ c → c + vsize (List.concat rows) < 2 ^ 64 →
  print_pointers c rows = (join blank (print_u64 <$> row_ptrs c rows) ++ String newline EmptyString)%string.
Proof.
  revert c. induction rows as [|r rows IH]; intros c Hr Hc Hs; [done|]. clear Hr.
  cbn [print_pointers row_ptrs List.concat fmap list_fmap] in *. rewrite vsize_app in Hs.
  pose proof (vsize_nonneg r). pose proof (vsize_nonneg (List.concat rows)). rewrite u64_small by lia.
  destruct rows as [|r' rows]; [reflexivity|]. cbn [qempty]. rewrite IH by (done || lia).
  rewrite join_cons by done. by rewrite append_assoc.
Qed.

Lemma print_row_file r : print_row false r = file_text blank (print_u64 <$> r).
Proof. induction r as [|x r IH]; [done|]. cbn [print_row andb]. by rewrite IH. Qed.

Lemma print_row_last r :
  r ≠ [] → print_row true r = (join blank (print_u64 <$> r) ++ String newline EmptyString)%string.
Proof.
  induction r as [|x r IH]; intros Hr; [done|]. cbn [print_row andb]. destruct r as [|y r]; [reflexivity|].
  cbn [qempty]. rewrite IH by done. rewrite (fmap_cons _ x), join_cons by done. by rewrite append_assoc.
Qed.

(** The edges end in a newline if the last row has one, and in a blank if not. *)
Lemma print_rows_line rows :
  let toks := print_u64 <$> List.concat rows in
  print_rows rows = file_text blank toks ∨
  toks ≠ [] ∧ print_rows rows = (join blank toks ++ String newline EmptyString)%string.
Proof.
  cbv zeta. induction rows as [|r rows IH]; [by left|]. cbn [print_rows List.concat]. rewrite fmap_app.
  destruct rows as [|r' rows].
  - cbn [print_rows List.concat qempty]. rewrite append_nil, !app_nil_r. destruct r as [|x r]; [by left|].
    right. split; [done|]. by apply print_row_last.
  - cbn [qempty]. rewrite print_row_file. destruct IH as [->|[Hne ->]].
    + left. by rewrite file_text_app.
    + right. split; [intros E; by apply app_eq_nil in E as [_ E]|]. by rewrite join_app, append_assoc.
Qed.

Lemma no_newline_file tr l : Forall2 is_token tr l → no_char newline (file_text blank tr) = true.
Proof.
  induction 1 as [|t v toks l [Ht Hv] Hd IH]; [done|]. cbn [file_text].
  rewrite no_char_app, (decimal_no_char t v) by (done || by left). exact IH.
Qed.

Lemma csr_text_file rows :
  rows ≠ [] → Forall (λ x, 0 ≤ x < 2 ^ 64) (List.concat rows) → vsize (List.concat rows) < 2 ^ 64 →
  csr_file (csr_text rows) rows.
Proof.
  intros Hr Hx Hs. set (tr := "0"%string :: (print_u64 <$> row_ptrs 0 rows)).
  set (tc := print_u64 <$> List.concat rows).
  assert (Forall2 is_token tr (0 :: row_ptrs 0 rows)) as Htr.
  { constructor; [by split; [split|]|]. apply print_tokens. eapply Forall_impl; [by apply row_ptrs_bound|].
    intros x ?. cbn beta in *. lia. }
  assert (Forall2 is_token tc (List.concat rows)) as Htc by by apply print_tokens.
  assert (csr_text rows = (join blank tr ++ String newline (print_rows rows))%string) as ->.
  { unfold csr_text. rewrite print_pointers_line by (done || lia). unfold tr.
    rewrite join_cons by by destruct rows. by rewrite append_assoc. }
  exists tr, tc. unfold getline at 1. cbn [stream_of st_eof st_rest].
  rewrite break_at_app by by eapply no_newline_join.
  destruct (print_rows_line rows) as [E|[Hne E]]; rewrite E; fold tc.
  - assert (no_char newline (file_text blank tc) = true) as Hn by by eapply no_newline_file.
    eexists _, _, _, _, _. split; [reflexivity|]. unfold getline. cbn [stream_of st_eof st_rest].
    rewrite (break_at_none newline _ Hn). split; [reflexivity|]. split; [by left|]. split; [by right | done].
  - eexists _, _, _, _, _. split; [reflexivity|]. unfold getline. cbn [stream_of st_eof st_rest].
    rewrite break_at_app by by eapply no_newline_join. split; [reflexivity|]. split; [by left|]. split; [by left | done].
Qed.

(** ** Reading a CSR file *)

(** A stream of the tokens [toks]. *)
Definition token_stream (toks : list string) (st : Stream) : Prop :=
  st = after_tokens blank toks ∨ st = stream_of (file_text blank toks).

Lemma line_stream toks line : line_of toks line → token_stream toks (stream_of line).
Proof. intros [->| ->]; [|by right]. destruct toks; [by right | by left]. Qed.

Lemma token_next t x toks st tmp :
  is_token t x → token_stream (t :: toks) st →
  ∃ st', getline blank st tmp = (t, st', true) ∧ token_stream toks st'.
Proof.
  intros [Ht _] Hs. assert (no_char blank t = true ∧ t ≠ EmptyString) as [Hb Hne].
  { split; [apply (decimal_no_char t x); [done | by left]|]. destruct Ht as [Ht _]. by apply all_digits_inv in Ht as [? _]. }
  destruct Hs as [->| ->].
  - exists (after_tokens blank toks). split; [by apply getline_token | by left].
  - exists (stream_of (file_text blank toks)). split; [by apply getline_file | by right].
Qed.

Lemma token_end st tmp : token_stream [] st → ∃ tmp' st', getline blank st tmp = (tmp', st', false).
Proof. intros [->| ->]; eexists _, _; reflexivity. Qed.

Lemma row_loop_tokens fuel toks l st tmp row :
  Forall2 is_token toks l → token_stream toks st → (List.length toks < fuel)%nat →
  ∃ tmp', row_loop fuel st tmp row = Ok (row ++ l, tmp').
Proof.
  intros Hl. revert fuel st tmp row. induction Hl as [|t x toks l Ht Hl IH]; intros fuel st tmp row Hs Hf;
    (destruct fuel as [|fuel]; [simpl in Hf; lia|]); cbn [row_loop].
  - destruct (token_end st tmp Hs) as (tmp' & st' & ->). exists tmp'. by rewrite app_nil_r.
  - destruct (token_next t x toks st tmp Ht Hs) as (st' & -> & Hs').
    destruct (String.eqb_spec t (String newline EmptyString)) as [->|_]; [by destruct Ht as [[Ht _] _]|].
    destruct Ht as [Ht Hx]. rewrite (stoull_decimal t x), bind_Ok by done.
    destruct (IH fuel st' t (row ++ [x]) Hs') as (tmp' & ->); [simpl in Hf; lia|]. exists tmp'. by rewrite <- app_assoc.
Qed.

Lemma read_lines_file text rows :
  csr_file text rows →
  ∃ toks es tmp, read_lines text = Ok (0 :: row_ptrs 0 rows, es, tmp) ∧
    Forall2 is_token toks (List.concat rows) ∧ token_stream toks es.
Proof.
  intros (tr & tc & line1 & line2 & st2 & st3 & b2 & E1 & E2 & L1 & L2 & Hr & Hc).
  unfold read_lines. rewrite E1. cbv beta iota.
  destruct (row_loop_tokens (stream_fuel (stream_of line1)) tr (0 :: row_ptrs 0 rows) (stream_of line1) EmptyString [])
    as (tmp & ->); [done | by apply line_stream | |].
  { unfold stream_fuel, stream_of. cbn [st_rest]. destruct L1 as [->| ->];
      [pose proof (join_length blank tr) | pose proof (file_length blank tr)]; lia. }
  rewrite bind_Ok. cbv beta iota. rewrite E2. exists tc, (stream_of line2), tmp. split; [done|].
  split; [done | by apply line_stream].
Qed.

Lemma row_ptr_at c before rest :
  vget (c :: row_ptrs c (before ++ rest)) (vsize before) = Ok (c + vsize (List.concat before)).
Proof.
  revert c. induction before as [|r before IH]; intros c.
  { change (vget (c :: row_ptrs c rest) 0 = Ok (c + 0)). by rewrite Z.add_0_r. }
  specialize (IH (c + vsize r)). rewrite vsize_cons. cbn [app row_ptrs List.concat].
  rewrite vsize_app, Z.add_assoc, <- IH. pose proof (vsize_nonneg before). unfold vget.
  destruct (Z.ltb_spec (vsize before + 1) 0), (Z.ltb_spec (vsize before) 0); try lia.
  replace (Z.to_nat (vsize before + 1)) with (S (Z.to_nat (vsize before))) by lia. done.
Qed.

Section Edges.
Context {S : Type} (place : Z → Z → S → res S) (T : list (list Z) → S) (ok : Z → Prop) (n : nat).

(** The state [T rows] is that of the rows read so far. *)
Hypothesis Hplace : ∀ i c rows r, List.length rows = n → rows !! i = Some r → ok c →
  place (Z.of_nat i) c (T rows) = Ok (T (<[i := r ++ [c]]> rows)).

Lemma edge_step_next i s es tmp t es' c s' :
  getline blank es tmp = (t, es', true) → stoull 10 t = Ok c → place i c s = Ok s' →
  edge_step place i (s, es, tmp) = Ok (s', es', t).
Proof. intros E Ec Ep. unfold edge_step, next_edge. rewrite E. cbv beta iota. by rewrite Ec, !bind_Ok, Ep. Qed.

Lemma vertex_edges before p r rest toks more es tmp k :
  List.length (before ++ p :: rest) = n → Forall ok r →
  Forall2 is_token toks (r ++ more) → token_stream toks es →
  ∃ toks' es' tmp',
    for_loop (List.length r) k (λ _, edge_step place (vsize before)) (T (before ++ p :: rest), es, tmp) =
      Ok (T (before ++ (p ++ r) :: rest), es', tmp') ∧
    Forall2 is_token toks' more ∧ token_stream toks' es'.
Proof.
  revert p toks es tmp k. induction r as [|c r IH]; intros p toks es tmp k Hn Hok Ht Hs.
  { exists toks, es, tmp. cbn. by rewrite app_nil_r. }
  apply Forall2_cons_inv_r in Ht as (t & toks' & Ht & Ht' & ->). apply Forall_cons in Hok as [Hc Hok].
  destruct (token_next t c toks' es tmp Ht Hs) as (es' & E & Hs'). destruct Ht as [Hd Hc'].
  cbn [List.length for_loop]. rewrite (edge_step_next (vsize before) _ es tmp t es' c (T (before ++ (p ++ [c]) :: rest)));
    [| done | by apply stoull_decimal |]; cycle 1.
  { unfold vsize. rewrite (Hplace (List.length before) c _ p); [| done | by rewrite list_lookup_middle | done].
    by rewrite insert_app_r_alt, Nat.sub_diag by lia. }
  destruct (IH (p ++ [c]) toks' es' t (k + 1)) as (toks2 & es2 & tmp2 & E2 & H1 & H2); [| done | done | done |].
  { rewrite length_app in *. cbn in *. lia. }
  exists toks2, es2, tmp2. split; [|done]. rewrite bind_Ok, E2. by rewrite <- app_assoc.
Qed.

Lemma vertex_step_run before r rest s :
  vsize (List.concat before) + vsize r < 2 ^ 64 →
  vertex_step place (0 :: row_ptrs 0 (before ++ r :: rest)) (vsize before) s =
    for_loop (List.length r) 0 (λ _, edge_step place (vsize before)) s.
Proof.
  intros Hs. unfold vertex_step. pose proof (row_ptr_at 0 (before ++ [r]) rest) as H1.
  rewrite <- app_assoc, vsize_app in H1. cbn [app] in H1. change (vsize [r]) with 1 in H1. rewrite H1, bind_Ok.
  rewrite row_ptr_at, bind_Ok, concat_app. cbn [List.concat]. rewrite app_nil_r, vsize_app.
  pose proof (vsize_nonneg r). pose proof (vsize_nonneg (List.concat before)).
  rewrite u64_small by lia. unfold vsize at 1 2 3. rewrite !Z.add_0_l, Z.add_simpl_l. by rewrite Nat2Z.id.
Qed.

Lemma vertices_edges before rest toks es tmp :
  List.length (before ++ rest) = n → Forall ok (List.concat rest) →
  vsize (List.concat (before ++ rest)) < 2 ^ 64 →
  Forall2 is_token toks (List.concat rest) → token_stream toks es →
  ∃ es' tmp',
    for_loop (List.length rest) (vsize before) (vertex_step place (0 :: row_ptrs 0 (before ++ rest)))
      (T (before ++ replicate (List.length rest) []), es, tmp) = Ok (T (before ++ rest), es', tmp').
Proof.
  revert before toks es tmp. induction rest as [|r rest IH]; intros before toks es tmp Hn Hok Hs Ht Hst.
  { exists es, tmp. done. }
  cbn [List.length for_loop replicate]. cbn [List.concat] in Hok, Ht. apply Forall_app in Hok as [Hr Hok].
  rewrite concat_app in Hs. cbn [List.concat] in Hs. rewrite !vsize_app in Hs.
  pose proof (vsize_nonneg r). pose proof (vsize_nonneg (List.concat before)). pose proof (vsize_nonneg (List.concat rest)).
  rewrite (vertex_step_run before r rest) by lia.
  destruct (vertex_edges before [] r (replicate (List.length rest) []) toks (List.concat rest) es tmp 0)
    as (toks' & es' & tmp' & E & H2 & H3); [| done | done | done |].
  { rewrite length_app in *. cbn in *. rewrite length_replicate. lia. }
  rewrite E, bind_Ok.
  destruct (IH (before ++ [r]) toks' es' tmp') as (es2 & tmp2 & E2); [| done | | done | done |].
  { by rewrite <- app_assoc. }
  { rewrite <- app_assoc, concat_app. cbn [List.concat app]. rewrite !vsize_app. lia. }
  cbn [app] in *. exists es2, tmp2. rewrite vsize_app in E2. change (vsize [r]) with 1 in E2.
  rewrite <- !app_assoc in E2. exact E2.
Qed.
End Edges.

(** The loops over the edges go over the rows of the file. *)
Lemma all_edges_file {S} (place : Z → Z → S → res S) T ok text rows v :
  v = vsize rows → csr_file text rows → Forall ok (List.concat rows) → vsize (List.concat rows) < 2 ^ 64 →
  (∀ i c rows' r, List.length rows' = List.length rows → rows' !! i = Some r → ok c →
     place (Z.of_nat i) c (T rows') = Ok (T (<[i := r ++ [c]]> rows'))) →
  ∃ row es tmp es' tmp', read_lines text = Ok (row, es, tmp) ∧
    all_edges place v row (T (replicate (List.length rows) []), es, tmp) = Ok (T rows, es', tmp').
Proof.
  intros -> Hf Hok Hs Hp. destruct (read_lines_file text rows Hf) as (toks & es & tmp & E & Ht & Hst).
  destruct (vertices_edges place T ok (List.length rows) Hp [] rows toks es tmp) as (es' & tmp' & E'); [done..|].
  exists (0 :: row_ptrs 0 rows), es, tmp, es', tmp'. split; [done|]. unfold all_edges, vsize. by rewrite Nat2Z.id.
Qed.

(** ** Tiles *)

Lemma concat_insert_block {A} n (Bs : list (list A)) t B i y :
  Forall (λ B, List.length B = n) Bs → Bs !! t = Some B → (i < n)%nat →
  List.concat Bs !! (n * t + i)%nat = B !! i ∧
  <[(n * t + i)%nat := y]> (List.concat Bs) = List.concat (<[t := <[i := y]> B]> Bs).
Proof.
  intros Hl. revert t. induction Hl as [|B0 Bs Hn Hl IH]; intros t Ht Hi; [done|]. cbn [List.concat].
  destruct t as [|t]; cbn in Ht |- *.
  - injection Ht as ->. rewrite Nat.mul_0_r, Nat.add_0_l. rewrite lookup_app_l, insert_app_l by lia. done.
  - replace (n * S t + i)%nat with (List.length B0 + (n * t + i))%nat by lia.
    rewrite lookup_app_r, insert_app_r by lia. rewrite Nat.add_comm, Nat.add_sub. destruct (IH t Ht Hi) as [-> ->]. done.
Qed.

Lemma filter_concat {A} (Q : A → Prop) `{∀ x, Decision (Q x)} (rows : list (list A)) :
  filter Q (List.concat rows) = List.concat (filter Q <$> rows).
Proof. induction rows as [|r rows IH]; [done|]. cbn [List.concat fmap list_fmap]. by rewrite filter_app, IH. Qed.

(** Sorting a list into [k] classes. *)
Lemma classes_perm {A} (f : A → Z) k (l : list A) :
  Forall (λ x, 0 ≤ f x < Z.of_nat k) l →
  List.concat ((λ t, filter (λ x, f x = t) l) <$> seqZ 0 (Z.of_nat k)) ≡ₚ l.
Proof.
  intros Hl. assert (l = filter (λ x, f x < Z.of_nat k) l) as Hf.
  { induction Hl as [|x l Hx Hl IH]; [done|]. rewrite filter_cons_True by lia. by rewrite <- IH. }
  trans (filter (λ x, f x < Z.of_nat k) l); [|by rewrite <- Hf]. assert (Forall (λ x, 0 ≤ f x) l) as H0 by (eapply Forall_impl; [exact Hl|]; cbn; lia).
  clear Hl Hf. induction k as [|k IH].
  { cbn. induction H0 as [|x l Hx Hl IH]; [done|]. by rewrite filter_cons_False by lia. }
  rewrite Nat2Z.inj_succ, <- Z.add_1_r, seqZ_app, fmap_app, concat_app, IH by lia. cbn [seqZ fmap list_fmap].
  change (seqZ (0 + Z.of_nat k) 1) with [0 + Z.of_nat k]. cbn [fmap list_fmap List.concat]. rewrite app_nil_r. clear IH.
  induction H0 as [|x l Hx Hl IH]; [done|].
  destruct (decide (f x < Z.of_nat k)); [|destruct (decide (f x = Z.of_nat k))].
  - rewrite (filter_cons_True _ x l), (filter_cons_False (λ y, f y = 0 + Z.of_nat k)), filter_cons_True by lia.
    cbn [app]. by rewrite IH.
  - rewrite (filter_cons_False (λ y, f y < Z.of_nat k)), !filter_cons_True by lia. by rewrite <- Permutation_middle, IH.
  - rewrite !filter_cons_False by lia. done.
Qed.

Section Vt.
Variables (v tile_num v_num : Z).
Hypothesis Hv : 0 ≤ v. Hypothesis Hk : 1 ≤ tile_num. Hypothesis Hn : 0 < v_num.
Hypothesis Hs : v * tile_num < 2 ^ 64.

Abbreviation vt_ok := (λ c, 0 ≤ c ∧ c / v_num ≤ tile_num).

Lemma tile_of_range c : vt_ok c → 0 ≤ tile_of v_num tile_num c < tile_num.
Proof. intros [Hc Hd]. unfold tile_of. pose proof (Z.div_pos c v_num Hc Hn). lia. Qed.

Lemma vt_place_tiles i c rows r :
  vsize rows = v → rows !! i = Some r → vt_ok c →
  vt_place v tile_num v_num (Z.of_nat i) c (tiles v_num tile_num rows) =
    Ok (tiles v_num tile_num (<[i := r ++ [c]]> rows)).
Proof.
  intros Hl Hi Hc. pose proof (tile_of_range c Hc) as Ht. destruct Hc as [Hc Hd]. pose proof (Z.div_pos c v_num Hc Hn).
  unfold vt_place. rewrite udiv_Ok, bind_Ok by lia.
  apply lookup_lt_Some in Hi as Hli. unfold vsize in Hl. assert (tile_num < 2 ^ 64) by nia.
  assert ((if c / v_num =? tile_num then u64 (c / v_num - 1) else c / v_num) = tile_of v_num tile_num c) as ->.
  { unfold tile_of. destruct (Z.eqb_spec (c / v_num) tile_num) as [E|]; [|lia]. rewrite u64_small by lia. lia. }
  set (t := tile_of v_num tile_num c) in *.
  rewrite (u64_small (v * t)), u64_small by nia.
  unfold tiles at 1. set (Bs := (λ t, row_tile v_num tile_num t <$> rows) <$> seqZ 0 tile_num).
  assert (Bs !! Z.to_nat t = Some (row_tile v_num tile_num t <$> rows)) as Hb.
  { subst Bs. rewrite list_lookup_fmap, lookup_seqZ_lt by lia. cbn. by rewrite Z2Nat.id by lia. }
  assert (Z.to_nat (Z.of_nat i + v * t) = (List.length rows * Z.to_nat t + i)%nat) as Ei by lia.
  destruct (concat_insert_block (List.length rows) Bs (Z.to_nat t) (row_tile v_num tile_num t <$> rows) i
    (row_tile v_num tile_num t (r ++ [c]))) as [Eg Es];
    [| exact Hb | lia |].
  { subst Bs. apply Forall_fmap, Forall_true. intros x. cbn beta delta [compose]. apply length_fmap. }
  rewrite (vmod_Ok _ _ _ (row_tile v_num tile_num t r) (row_tile v_num tile_num t (r ++ [c]))).
  - rewrite Ei, Es. f_equal. unfold tiles. f_equal. apply list_eq. intros j. subst Bs.
    destruct (decide (j = Z.to_nat t)) as [->|Hj].
    + rewrite list_lookup_insert_eq by (by eapply lookup_lt_Some).
      rewrite list_lookup_fmap, lookup_seqZ_lt by lia. cbn. rewrite Z2Nat.id by lia. by rewrite list_fmap_insert.
    + rewrite list_lookup_insert_ne by done. rewrite !list_lookup_fmap. destruct (seqZ 0 tile_num !! j) as [x|] eqn:Ex; [|done].
      apply lookup_seqZ in Ex as [-> Hx]. cbn. f_equal. rewrite list_fmap_insert.
      assert (row_tile v_num tile_num (0 + Z.of_nat j) (r ++ [c]) = row_tile v_num tile_num (0 + Z.of_nat j) r) as ->.
      { unfold row_tile. rewrite filter_app, filter_cons_False by (fold t; lia). by rewrite app_nil_r. }
      symmetry. apply list_insert_id. by rewrite list_lookup_fmap, Hi.
  - apply vget_lookup. split; [nia|]. by rewrite Ei, Eg, list_lookup_fmap, Hi.
  - f_equal. unfold row_tile. rewrite filter_app, (filter_cons_True _ c) by done. done.
Qed.

Lemma tiles_empty n : v = Z.of_nat n →
  tiles v_num tile_num (replicate n []) = replicate (Z.to_nat (u64 (v * tile_num))) [].
Proof.
  intros E. rewrite u64_small by nia. unfold tiles.
  replace (Z.to_nat (v * tile_num)) with (n * Z.to_nat tile_num)%nat by nia.
  assert (∀ k a, List.concat ((λ t, row_tile v_num tile_num t <$> replicate n []) <$> seqZ a (Z.of_nat k)) =
    replicate (n * k) []) as Hr.
  { induction k as [|k IH]; intros a; [by rewrite Nat.mul_0_r|].
    rewrite seqZ_cons by lia. replace (Z.pred (Z.of_nat (S k))) with (Z.of_nat k) by lia.
    cbn [fmap list_fmap List.concat]. rewrite IH, Nat.mul_succ_r, Nat.add_comm, replicate_add. f_equal.
    clear. induction n as [|n IH]; [done|]. cbn. by f_equal. }
  rewrite <- (Hr (Z.to_nat tile_num) 0). by rewrite Z2Nat.id by lia.
Qed.

Lemma tiles_perm rows : Forall vt_ok (List.concat rows) → List.concat (tiles v_num tile_num rows) ≡ₚ List.concat rows.
Proof.
  intros Hok. unfold tiles. assert (seqZ 0 tile_num = seqZ 0 (Z.of_nat (Z.to_nat tile_num))) as -> by (by rewrite Z2Nat.id by lia).
  assert (List.concat (List.concat ((λ t, row_tile v_num tile_num t <$> rows) <$> seqZ 0 (Z.of_nat (Z.to_nat tile_num)))) =
    List.concat ((λ t, filter (λ c, tile_of v_num tile_num c = t) (List.concat rows)) <$> seqZ 0 (Z.of_nat (Z.to_nat tile_num)))) as ->.
  { induction (seqZ _ _) as [|t l IH]; [done|]. cbn [fmap list_fmap List.concat]. rewrite concat_app, IH, filter_concat. done. }
  apply classes_perm. eapply Forall_impl; [exact Hok|]. intros c Hc. rewrite Z2Nat.id by lia. by apply tile_of_range.
Qed.
End Vt.

Lemma row_ptrs_vsize c rows : vsize (row_ptrs c rows) = vsize rows.
Proof. revert c. induction rows as [|r rows IH]; intros c; [done|]. cbn [row_ptrs]. by rewrite !vsize_cons, IH. Qed.

Lemma row_ptrs_nondecreasing c rows :
  0 ≤ c → c + vsize (List.concat rows) < 2 ^ 64 → nondecreasing c (row_ptrs c rows).
Proof.
  revert c. induction rows as [|r rows IH]; intros c Hc Hs; [done|]. cbn [row_ptrs nondecreasing List.concat] in *.
  rewrite vsize_app in Hs. pose proof (vsize_nonneg r). pose proof (vsize_nonneg (List.concat rows)).
  split; [lia | apply IH; lia].
Qed.

(** ** Properties *)

(** C38: the tiles [vt] writes.  On a file that holds a matrix of [v] rows, with columns
    up to [v], it writes the file of [tile_num] tiles below one another: row [i] of tile
    [t] has, in their order, the columns of row [i] whose [v_num] columns wide tile is
    [t]; every edge is in exactly one row of the result. *)
Theorem vt_tiles text rows tile_num :
  csr_file text rows → 0 < vsize rows < 2 ^ 24 → 1 ≤ tile_num < 2 ^ 24 →
  Forall (λ c, 0 ≤ c ≤ vsize rows) (List.concat rows) → vsize (List.concat rows) < 2 ^ 64 →
  let new_csr := tiles (ceil_div (vsize rows) tile_num) tile_num rows in
  vtmake (vsize rows) tile_num (Some text) = Ok (Some (csr_text new_csr)) ∧
  List.concat new_csr ≡ₚ List.concat rows.
Proof.
  intros Hf Hv Hk Hc Hs new_csr. pose proof (ceil_div_bounds (vsize rows) tile_num ltac:(lia)) as Hd.
  set (v_num := ceil_div (vsize rows) tile_num) in *. assert (0 < v_num) as Hn by nia.
  assert (Forall (λ c, 0 ≤ c ∧ c / v_num ≤ tile_num) (List.concat rows)) as Hok.
  { eapply Forall_impl; [exact Hc|]. intros c ?. cbn beta in *. split; [lia|]. apply Z.div_le_upper_bound; nia. }
  assert (vsize rows * tile_num < 2 ^ 64) as Hvk by nia. split; [|apply tiles_perm; done || lia].
  unfold vtmake. rewrite ceil_float_exact, bind_Ok by lia. fold v_num.
  destruct (all_edges_file (vt_place (vsize rows) tile_num v_num) (tiles v_num tile_num)
    (λ c, 0 ≤ c ∧ c / v_num ≤ tile_num) text rows (vsize rows)) as (row & es & tmp & es' & tmp' & -> & E); [done..| |].
  { intros i c rows' r Hl Hi Hc'. apply vt_place_tiles; (done || lia || (unfold vsize; congruence)). }
  rewrite bind_Ok. rewrite (tiles_empty (vsize rows)) in E by (done || lia). by rewrite E.
Qed.

(** C39: what the tiling tools write, the simulator reads: [ReadData] takes the file of
    some rows for the matrix of those rows, with the counts of its blocks of [max_v] rows,
    whether or not the last row is empty. *)
Theorem written_csr_read_back rows hs ws xs h w P :
  decimal hs h → decimal ws w → decimal xs (vsize rows) →
  0 ≤ h < 2 ^ 31 → 0 < w < 2 ^ 31 → 0 < vsize rows < 2 ^ 31 →
  List.concat rows ≠ [] → Forall (λ c, 0 ≤ c < 2 ^ 24) (List.concat rows) → vsize (List.concat rows) < 2 ^ 64 →
  1 ≤ max_v P < 2 ^ 64 → 0 < CACHE_LINE_COUNT P < 2 ^ 53 →
  let x := vsize rows in
  let Bs := chunks (Z.to_nat (max_v P)) (row_ptrs 0 rows) in
  let n := vsize Bs in
  ceil_div x (CACHE_LINE_COUNT P) * w * n < 2 ^ 53 →
  ReadData (Some (file_text newline [hs; ws; xs])) (Some (csr_text rows)) P =
    Ok (P {{ w_h := h; x_w := h; w_w := w; x_h := x; a_h := x; a_w := x }},
        mkRD (0 :: row_ptrs 0 rows) (List.concat rows) (mkReqCounts (block_edges 0 Bs) (block_vertices 1 Bs))
          (ceil_div x (CACHE_LINE_COUNT P) * w * n)).
Proof.
  intros Dh Dw Dx Hh Hw Hx Hne Hc Hs Hm Hl x Bs n Hb.
  assert (Forall (λ c, 0 ≤ c < 2 ^ 64) (List.concat rows)) as Hc64 by (eapply Forall_impl; [exact Hc|]; cbn; lia).
  destruct (csr_text_file rows) as (tr & tc & line1 & line2 & st2 & st3 & b2 & G1 & G2 & L1 & L2 & Hr & Ht);
    [by intros -> | done | done |].
  eapply (read_files hs ws xs h w x); try done.
  - split; [done|]. exists 0, (row_ptrs 0 rows). split; [done | lia].
  - split; [done|]. destruct (List.concat rows) as [|c cs]; [done|]. apply Forall_cons in Hc as [Hc _]. eauto.
  - by apply row_ptrs_nondecreasing.
  - apply row_ptrs_vsize.
Qed.

(** ** Concrete runs *)

(** Four vertices and six edges; two tiles of two columns. *)
Definition ex_rows : list (list Z) := [[1; 3]; [0]; []; [2; 0; 3]].

Lemma ex_csr_file : csr_file (csr_text ex_rows) ex_rows.
Proof. apply csr_text_file; [done | by repeat constructor | done]. Qed.

Lemma vt_tiles_witness :
  vtmake 4 2 (Some "0 2 3 3 6
1 3 0 2 0 3
"%string) = Ok (Some "0 1 2 2 3 4 4 4 6
1 0 0 3 2 3
"%string) ∧ tiles 2 2 ex_rows = [[1]; [0]; []; [0]; [3]; []; []; [2; 3]].
Proof.
  destruct (vt_tiles (csr_text ex_rows) ex_rows 2) as [E _].
  - exact ex_csr_file.
  - by split.
  - by split.
  - by repeat constructor.
  - done.
  - split; [exact E | reflexivity].
Defined.

Lemma written_csr_read_back_witness :
  ∃ P, ReadData (Some (file_text newline ["5"; "3"; "4"]%string)) (Some (csr_text ex_rows)) ex_params =
    Ok (P, mkRD [0; 2; 3; 3; 6] [1; 3; 0; 2; 0; 3] (mkReqCounts [3; 3] [3; 2]) 6).
Proof.
  eexists. apply (written_csr_read_back ex_rows "5" "3" "4" 5 3 ex_params).
  1-3: by split.
  1-3: by split.
  1: done.
  1: by repeat constructor.
  1: done.
  1, 2: by split.
  by vm_compute.
Defined.
