(* ===== verification/CmdTrace.v ===== *)
(** * The command trace (DRAMsim3/src/common.cc, controller.cc, thermal_replay.cc)

    A controller built with CMD_TRACE writes each command it issues as a line; the thermal
    replay tool reads such lines.  This file holds the printing of a command, with the
    format specifications it uses, [StringSplit], and the parser of the replay tool.  The
    theorem: of a command that is written and read back, everything survives but its row
    and column, which are written in hexadecimal with a prefix and read in decimal: both
    come back as 0. *)

From S2P Require Import Prelude CFloat DramCommon Text DataReader CsrTools.
From Stdlib Require Import Ascii String.

Open Scope Z_scope.

(** ** Printing *)

(** The format specifications [{:<n}], [{:>n}] of a string and of a decimal number. *)
Fixpoint spaces (n : nat) : string := match n with O => EmptyString | S n' => String blank (spaces n') end.
Definition pad_right (n : nat) (s : string) : string := (s ++ spaces (n - String.length s))%string.
Definition pad_left (n : nat) (s : string) : string := (spaces (n - String.length s) ++ s)%string.

Definition print_signed (digits : Z → string) (z : Z) : string :=
  if z <? 0 then String "-" (digits (- z)) else digits z.
Definition print_int (z : Z) : string := print_signed print_u64 z.

(** The specification [{:#x}] of an [int]. *)
Definition hex_digit (n : Z) : ascii := if n <? 10 then digit n else ascii_of_nat (Z.to_nat (87 + n)).
Fixpoint hex_digits (f : nat) (n : Z) (acc : string) : string :=
  match f with
  | O => acc
  | S f' => let acc := String (hex_digit (n mod 16)) acc in
            if n <? 16 then acc else hex_digits f' (n / 16) acc
  end.
Definition print_hex (z : Z) : string := print_signed (λ n, ("0x" ++ hex_digits 8 n EmptyString)%string) z.

Definition command_string : list string :=
  ["read"; "read_p"; "write"; "write_p"; "activate"; "precharge"; "refresh_bank"; "refresh";
   "self_refresh_enter"; "self_refresh_exit"; "WRONG"]%string.

(** [operator<<(std::ostream&, const Command&)] *)
Definition print_Command (c : Command) : res string :=
  name ← vget command_string (cmd_index (cmd_type c));
  Ok (pad_right 20 name ++ String blank (pad_left 3 (print_int (channel (addr c))) ++
      String blank (pad_left 3 (print_int (Rank c)) ++ String blank (pad_left 3 (print_int (Bankgroup c)) ++
      String blank (pad_left 3 (print_int (Bank c)) ++ String blank (pad_left 8 (print_hex (Row c)) ++
      String blank (pad_left 8 (print_hex (Column c)))))))))%string.

(** The line that [Controller::IssueCommand] writes, without its end. *)
Definition trace_line (clk : Z) (c : Command) : res string :=
  s ← print_Command c; Ok (pad_right 18 (print_u64 clk) ++ String blank s)%string.

(** ** Reading *)

(** [StringSplit], and the body of its loop. *)
Definition split_item (item : string) (l : list string) : res (list string) :=
  Ok (if String.eqb item EmptyString then l else l ++ [item]).
Definition StringSplit (s : string) (delim : ascii) : res (list string) :=
  let ss := stream_of s in getline_loop (stream_fuel ss) delim ss EmptyString split_item [].

Definition cmd_map : gmap string CommandType := list_to_map
  [("read", READ); ("read_p", READ_PRECHARGE); ("write", WRITE); ("write_p", WRITE_PRECHARGE);
   ("activate", ACTIVATE); ("precharge", PRECHARGE); ("refresh_bank", REFRESH_BANK); ("refresh", REFRESH);
   ("self_refresh_enter", SREF_ENTER); ("self_refresh_exit", SREF_EXIT)]%string.

(** [ThermalReplay::ParseLine]: the clock and the command; a name that is not in the map
    is inserted with the value 0, [READ]. *)
Definition ParseLine (line : string) : res (Z * Command) :=
  tokens ← StringSplit line blank;
  match tokens with
  | [clk; name; ch; ra; bg; ba; ro; co] =>
      clk ← stoull 10 clk;
      ch ← stoi ch; ra ← stoi ra; bg ← stoi bg; ba ← stoi ba; ro ← stoi ro; co ← stoi co;
      Ok (clk, mkCommand (default READ (cmd_map !! name)) (mkAddress ch ra bg ba ro co) 0)
  | _ => Err AbruptExit
  end.

(** ** Splitting *)

(** The nonempty fields of a text. *)
Inductive splits (d : ascii) : string → list string → Prop :=
  | splits_nil : splits d EmptyString []
  | splits_skip s l : splits d s l → splits d (String d s) l
  | splits_token t s l : t ≠ EmptyString → no_char d t = true → splits d s l → splits d (t ++ String d s) (t :: l)
  | splits_last t : t ≠ EmptyString → no_char d t = true → splits d t [t].

Lemma length_cons_app (a : string) c s : String.length (a ++ String c s) = (String.length a + S (String.length s))%nat.
Proof. induction a as [|x a IH]; [done|]. rewrite append_cons. cbn [String.length]. by rewrite IH. Qed.

Lemma split_item_ok t l : t ≠ EmptyString → split_item t l = Ok (l ++ [t]).
Proof. intros Hne. unfold split_item. by destruct (String.eqb_spec t EmptyString). Qed.

Lemma StringSplit_spec d s l : splits d s l → StringSplit s d = Ok l.
Proof.
  intros Hs. unfold StringSplit, stream_fuel. cbn [stream_of st_rest]. generalize EmptyString at 1 as line.
  assert (String.length s + 2 ≤ String.length s + 2)%nat as Hf by lia. revert Hf.
  generalize (String.length s + 2)%nat at 2 3 as f. change l with ([] ++ l) at 1. generalize (@nil string) as acc.
  induction Hs as [|s l Hs IH|t s l Hne Ht Hs IH|t Hne Ht]; intros acc f Hf line.
  - destruct f as [|f]; [cbn in Hf; lia|]. by rewrite app_nil_r.
  - destruct f as [|f]; [lia|]. cbn [getline_loop getline stream_of st_eof st_rest break_at]. rewrite Ascii.eqb_refl.
    apply IH. cbn in Hf. lia.
  - destruct f as [|f]; [lia|]. cbn [getline_loop getline stream_of st_eof st_rest]. rewrite break_at_app by done.
    rewrite split_item_ok by done. rewrite length_cons_app in Hf. cbn [mbind res_bind].
    change (mkStream s false) with (stream_of s). rewrite (IH (acc ++ [t]) f) by lia. by rewrite <- app_assoc.
  - assert (0 < String.length t)%nat by (destruct t; [done|cbn; lia]).
    destruct f as [|[|f]]; [lia..|]. cbn [getline_loop getline stream_of st_eof st_rest]. rewrite break_at_none by done.
    destruct (String.eqb_spec t EmptyString) as [|_]; [done|]. cbn [negb]. by rewrite split_item_ok.
Qed.

(** Padding. *)
Lemma spaces_blank n s : (spaces n ++ String blank s = String blank (spaces n ++ s))%string.
Proof. induction n as [|n IH]; [done|]. cbn [spaces]. by rewrite !append_cons, IH. Qed.

Lemma splits_spaces n s l : splits blank s l → splits blank (spaces n ++ s) l.
Proof. intros Hs. induction n as [|n IH]; [done|]. cbn [spaces]. rewrite append_cons. by apply splits_skip. Qed.

Definition is_field (t : string) : Prop := t ≠ EmptyString ∧ no_char blank t = true.

Lemma splits_right n t s l :
  is_field t → splits blank s l → splits blank (pad_right n t ++ String blank s) (t :: l).
Proof.
  intros [Hne Ht] Hs. unfold pad_right. rewrite append_assoc, spaces_blank. apply splits_token; [done..|].
  by apply splits_spaces.
Qed.

Lemma splits_left n t s l :
  is_field t → splits blank s l → splits blank (pad_left n t ++ String blank s) (t :: l).
Proof. intros [Hne Ht] Hs. unfold pad_left. rewrite append_assoc. by apply splits_spaces, splits_token. Qed.

Lemma splits_left_last n t : is_field t → splits blank (pad_left n t) [t].
Proof. intros [Hne Ht]. unfold pad_left. by apply splits_spaces, splits_last. Qed.

(** ** Numbers *)

Lemma field_minus s : no_char blank s = true → is_field (String "-" s).
Proof. intros Hs. split; [done|]. cbn. by rewrite Hs. Qed.

Lemma field_signed digits z :
  (∀ n, 0 ≤ n → is_field (digits n)) → is_field (print_signed digits z).
Proof.
  intros H. unfold print_signed. destruct (Z.ltb_spec z 0) as [Hz|Hz]; [|by apply H].
  destruct (H (- z)) as [_ Hn]; [lia|]. by apply field_minus.
Qed.

Lemma print_u64_field n : 0 ≤ n < 2 ^ 64 → is_field (print_u64 n).
Proof.
  intros Hn. pose proof (print_u64_decimal n Hn) as Hd. split.
  - intros E. rewrite E in Hd. by destruct Hd.
  - apply (decimal_no_char _ n); [done|]. by left.
Qed.

Lemma print_int_field z : in_i32 z = true → is_field (print_int z).
Proof.
  unfold in_i32. intros Hz. unfold print_int, print_signed.
  destruct (Z.ltb_spec z 0) as [Hneg|Hpos]; [|apply print_u64_field; lia].
  destruct (print_u64_field (- z)) as [_ Hb]; [lia|]. by apply field_minus.
Qed.

Lemma hex_digit_field n : 0 ≤ n < 16 → Ascii.eqb (hex_digit n) blank = false.
Proof.
  intros Hn. assert (n ∈ seqZ 0 16) as Hin by (apply elem_of_seqZ; lia). revert Hin. clear Hn. revert n.
  apply Forall_forall. repeat constructor.
Qed.

Lemma hex_digits_field f n acc :
  0 ≤ n → no_char blank acc = true → no_char blank (hex_digits f n acc) = true.
Proof.
  revert n acc. induction f as [|f IH]; intros n acc Hn Ha; [done|]. cbn [hex_digits].
  assert (no_char blank (String (hex_digit (n mod 16)) acc) = true) as H1.
  { cbn. rewrite hex_digit_field, Ha; [done|]. apply Z.mod_pos_bound. lia. }
  destruct (_ <? _); [done|]. apply IH; [apply Z.div_pos; lia | done].
Qed.

Lemma print_hex_field z : is_field (print_hex z).
Proof. apply field_signed. intros n Hn. split; [done|]. exact (hex_digits_field 8 n EmptyString Hn eq_refl). Qed.

(** A decimal is read back; a hexadecimal is read up to the [x] of its prefix. *)
Lemma stoi_print_int z : in_i32 z = true → stoi (print_int z) = Ok z.
Proof.
  intros Hz. pose proof Hz as Hr. unfold in_i32 in Hr. unfold print_int, print_signed.
  destruct (Z.ltb_spec z 0); [|apply stoi_decimal; [apply print_u64_decimal|]; lia].
  pose proof (print_u64_decimal (- z) ltac:(lia)) as Hd. destruct (decimal_digits _ _ Hd) as (k & Hk & E).
  unfold stoi. cbn [skip_space is_space]. change (is_space "-") with false. cbn iota.
  change (sign (String "-" (print_u64 (- z)))) with (true, print_u64 (- z)). cbn iota beta. rewrite E.
  destruct (Z.eqb_spec k 0); [lia|]. rewrite Z.opp_involutive. by rewrite Hz.
Qed.

Lemma stoi_print_hex z : stoi (print_hex z) = Ok 0.
Proof. unfold print_hex, print_signed. destruct (z <? 0); reflexivity. Qed.

(** ** Properties *)

(** C34: A trace is not replayed: of a command that a controller writes, the replay tool
    reads back the cycle, the kind, the channel, the rank, the bank group and the bank;
    the row and the column, whatever they are, come back as 0.  An invalid command is
    read back as a read. *)
Theorem trace_loses_rows clk c :
  0 ≤ clk < 2 ^ 64 → in_i32 (channel (addr c)) = true → in_i32 (Rank c) = true → in_i32 (Bankgroup c) = true →
  in_i32 (Bank c) = true →
  ∃ line, trace_line clk c = Ok line ∧
    ParseLine line = Ok (clk, mkCommand (if decide (cmd_type c = SIZE) then READ else cmd_type c)
      (mkAddress (channel (addr c)) (Rank c) (Bankgroup c) (Bank c) 0 0) 0).
Proof.
  intros Hclk Hch Hra Hbg Hba. destruct c as [t a h]. cbn [cmd_type addr] in *.
  assert (∃ name, vget command_string (cmd_index t) = Ok name ∧ is_field name ∧
    default READ (cmd_map !! name) = if decide (t = SIZE) then READ else t) as (name & En & Hn & Em).
  { destruct t; eexists; (split; [reflexivity|]); (split; [by split|]); reflexivity. }
  unfold trace_line, print_Command, Row, Column in *. cbn [cmd_type addr]. rewrite En. cbn [mbind res_bind].
  eexists. split; [reflexivity|]. unfold ParseLine. erewrite StringSplit_spec.
  2:{ rewrite ?append_assoc. apply splits_right; [by apply print_u64_field|]. apply splits_right; [done|].
      do 4 (apply splits_left; [by apply print_int_field|]). apply splits_left; [apply print_hex_field|].
      apply splits_left_last, print_hex_field. }
  cbn [mbind res_bind]. rewrite (stoull_decimal _ _ (print_u64_decimal clk Hclk)) by done. cbn [mbind res_bind].
  rewrite !stoi_print_int by done. cbn [mbind res_bind]. rewrite !stoi_print_hex. cbn [mbind res_bind]. by rewrite Em.
Qed.

Definition ex_command : Command := mkCommand ACTIVATE (mkAddress 0 1 2 3 4660 (-1)) 77.

Lemma trace_loses_rows_witness :
  ∃ line, trace_line 1500 ex_command = Ok line ∧
    ParseLine line = Ok (1500, mkCommand ACTIVATE (mkAddress 0 1 2 3 0 0) 0).
Proof. apply (trace_loses_rows 1500 ex_command); try reflexivity. lia. Defined.

(** The line, and a name that does not exist. *)
Example ex_line : trace_line 1500 ex_command =
  Ok "1500               activate               0   1   2   3   0x1234     -0x1"%string.
Proof. vm_compute. reflexivity. Qed.

Example ex_unknown_name : ParseLine "7 erase 0 0 0 0 5 6" = Ok (7, mkCommand READ (mkAddress 0 0 0 0 5 6) 0).
Proof. vm_compute. reflexivity. Qed.
