(* ===== verification/Translator.v ===== *)
(** * The generator of layer files and the CSR translator (CSR_converter/)

    [xwgen] writes a file of sizes followed by a random matrix, [csr_translator] is meant
    to turn a list of edges into a CSR file.  The numbers of [rand] are an argument of the
    generator.  The theorems: the simulator's reader takes from a generated file the sizes
    it was generated for; and the translator converts nothing: it declares the vertex of a
    line within the loop over the tokens of the line, so that the second token is put in
    the row of a variable without a value, and it reads the element before the first. *)

From stdpp Require Import sorting.
From S2P Require Import Prelude CFloat Common Text DataReader CsrTools CmdTrace.
From Stdlib Require Import Ascii String.

Open Scope Z_scope.

Definition endl : string := String newline EmptyString.

(** ** [xwgen] *)

(** The loop over the elements, from element [i] of [total]; [rand i] is what the call of
    [rand] for it returns. *)
Fixpoint xw_elements (n : nat) (i total sparse : Z) (rand : Z → Z) : string :=
  match n with
  | O => EmptyString
  | S n' =>
      let num := Z.rem (rand i) 101 in
      (print_int (if num <=? sparse then 0 else num)%Z ++
       (if (i <? total - 1)%Z then String blank EmptyString else EmptyString) ++
       xw_elements n' (i + 1)%Z total sparse rand)%string
  end.

(** [main]: the file it writes for the numbers it reads from the keyboard. *)
Definition xwgen (w_h w_w x_h sparse : Z) (rand : Z → Z) : res string :=
  total ← int_chk (w_h * x_h);
  Ok (print_int w_h ++ endl ++ print_int w_w ++ endl ++ print_int x_h ++ endl ++
      xw_elements (Z.to_nat total) 0 total sparse rand)%string.

(** ** [csr_translator] *)

(** The arrays [rowindex] and [colindex]. *)
Record Arrays := mkArrays { rowindex : list Z; colindex : list (list Z) }.

(** A token of a line of the edge list.  The local [vertex] is made anew for each token. *)
Definition edge_token (tmp : string) (s : bool * Arrays) : res (bool * Arrays) :=
  let '(first, a) := s in
  let vertex : option Z := None in
  if (first : bool) then
    n ← stoi tmp;
    let vertex := Some n in
    vertex ← of_option Uninitialised vertex;
    r ← vmod (rowindex a) vertex (λ k, int_chk (k + 1));
    Ok (false, mkArrays r (colindex a))
  else
    vertex ← of_option Uninitialised vertex;
    n ← stoi tmp;
    c ← vmod (colindex a) vertex (λ l, Ok (l ++ [n]));
    Ok (first, mkArrays (rowindex a) c).

(** A line of the edge list. *)
Definition edge_line (s : Stream * string * Arrays) : res (Stream * string * Arrays) :=
  let '(input, line, a) := s in
  let '(line, input, _) := getline newline input line in
  let ss := stream_of line in
  '(_, a) ← getline_loop (stream_fuel ss) blank ss EmptyString edge_token (true, a);
  Ok (input, line, a).

(** The loop that sums the degrees and sorts the columns. *)
Definition close_row (v i : Z) (a : Arrays) : res Arrays :=
  r ← (if v =? 0 then Ok (rowindex a) else
       vmod (rowindex a) i (λ k, p ← vget (rowindex a) (i - 1); int_chk (k + p)));
  c ← vmod (colindex a) i (λ l, Ok (merge_sort Z.le l));
  Ok (mkArrays r c).

(** The loops that write. *)
Definition write_pointer (v : Z) (a : Arrays) (i : Z) (out : string) : res string :=
  k ← vget (rowindex a) i;
  Ok (out ++ print_int k ++ (if negb (i =? v - 1)%Z then String blank EmptyString else endl))%string.
Definition write_column (v i : Z) (l : list Z) (j : Z) (out : string) : res string :=
  x ← vget l j;
  Ok (out ++ print_int x ++
      (if negb (i =? v - 1)%Z || negb (j =? vsize l - 1)%Z then String blank EmptyString else EmptyString))%string.
Definition write_row (v : Z) (a : Arrays) (i : Z) (out : string) : res string :=
  l ← vget (colindex a) i;
  for_loop (List.length l) 0 (write_column v i l) out.

(** [main]; an array of negative length is an exception that nothing catches. *)
Definition csr_translator (file : option string) : res string :=
  match file with
  | None => Err InvalidArgument
  | Some text =>
      let '(line, input, _) := getline newline (stream_of text) EmptyString in
      v ← stoi line;
      let '(line, input, _) := getline newline input line in
      e ← stoi line;
      if v <? 0 then Err AbruptExit else
      let a := mkArrays (replicate (Z.to_nat v) 0) (replicate (Z.to_nat v) []) in
      '(_, _, a) ← for_loop (Z.to_nat e) 0 (λ _, edge_line) (input, line, a);
      a ← for_loop (Z.to_nat v) 0 (close_row v) a;
      out ← for_loop (Z.to_nat v) 0 (write_pointer v a) "0 "%string;
      for_loop (Z.to_nat v) 0 (write_row v a) out
  end.

(** ** Lemmas *)

Lemma print_int_no_newline z : in_i32 z = true → no_char newline (print_int z) = true.
Proof.
  unfold in_i32. intros Hz. unfold print_int, print_signed.
  assert (∀ n, 0 ≤ n < 2 ^ 64 → no_char newline (print_u64 n) = true) as Hp.
  { intros n Hn. apply (decimal_no_char _ n); [by apply print_u64_decimal|]. by left. }
  destruct (Z.ltb_spec z 0); [|apply Hp; lia]. cbn [no_char]. rewrite Hp by lia. done.
Qed.

(** A written line is read. *)
Lemma getline_print_int z s line :
  in_i32 z = true →
  getline newline (stream_of (print_int z ++ endl ++ s)) line = (print_int z, stream_of s, true).
Proof.
  intros Hz. unfold getline. cbn [stream_of st_eof st_rest]. change (endl ++ s)%string with (String newline s).
  rewrite break_at_app by by apply print_int_no_newline. done.
Qed.

(** The first row cannot be closed. *)
Lemma close_first_row v a : v ≠ 0 → close_row v 0 a = Err OutOfRange.
Proof.
  intros Hv. unfold close_row. destruct (Z.eqb_spec v 0); [done|].
  unfold vmod. destruct (vget (rowindex a) 0) as [k|f] eqn:E; [done|]. cbn.
  unfold vget in E. cbn in E. by destruct (rowindex a !! Z.to_nat 0); inversion E.
Qed.

(** A line of two tokens: the second is put in the row of a variable that has no value. *)
Lemma edge_line_uninitialised n t rest line a :
  0 ≤ n < vsize (rowindex a) → in_i32 n = true → is_field t → no_char newline t = true →
  (∀ k, vget (rowindex a) n = Ok k → in_i32 (k + 1) = true) →
  edge_line (stream_of ((print_int n ++ String blank t) ++ endl ++ rest), line, a) = Err Uninitialised.
Proof.
  intros Hn Hi [Hne Hb] Hl Hk. destruct (vget_is_Ok _ _ Hn) as (k & Ek). specialize (Hk k Ek).
  destruct (print_int_field n Hi) as [_ Hb'].
  assert (getline newline (stream_of ((print_int n ++ String blank t) ++ endl ++ rest)) line =
    (print_int n ++ String blank t, stream_of rest, true)%string) as El.
  { unfold getline. cbn [stream_of st_eof st_rest]. change (endl ++ rest)%string with (String newline rest).
    rewrite break_at_app; [done|]. rewrite no_char_app, print_int_no_newline by done. exact Hl. }
  assert (edge_token (print_int n) (true, a) =
    Ok (false, mkArrays (<[Z.to_nat n := k + 1]> (rowindex a)) (colindex a))) as Etok.
  { unfold edge_token. rewrite stoi_print_int by done. cbn [mbind res_bind of_option].
    by rewrite (vmod_Ok _ _ _ k (k + 1)) by (done || by apply int_chk_Ok; unfold in_i32 in Hk; lia). }
  unfold edge_line. rewrite El. cbv beta iota. unfold stream_fuel. rewrite Nat.add_comm. cbn [Nat.add getline_loop].
  unfold getline at 1. cbn [stream_of st_eof st_rest]. rewrite break_at_app by done.
  rewrite Etok. cbn [mbind res_bind]. unfold getline at 1. cbn [stream_of st_eof st_rest]. rewrite break_at_none by done.
  by destruct (String.eqb_spec t EmptyString).
Qed.

(** So a file with a vertex and an edge is not converted. *)
Lemma first_edge_uninitialised v e n t rest :
  0 ≤ n < v → v < 2 ^ 31 → 0 < e < 2 ^ 31 → is_field t → no_char newline t = true →
  csr_translator (Some (print_int v ++ endl ++ print_int e ++ endl ++
    (print_int n ++ String blank t) ++ endl ++ rest)%string) = Err Uninitialised.
Proof.
  intros Hn Hv He Ht Hl. assert (in_i32 v = true ∧ in_i32 e = true) as (Hv' & He') by (unfold in_i32; lia).
  unfold csr_translator. rewrite getline_print_int by done. cbv beta iota. rewrite stoi_print_int, bind_Ok by done.
  rewrite getline_print_int by done. cbv beta iota. rewrite stoi_print_int, bind_Ok by done.
  destruct (Z.ltb_spec v 0); [lia|]. destruct (Z.to_nat e) as [|k] eqn:Ek; [lia|]. cbn [for_loop].
  rewrite edge_line_uninitialised; [done| |unfold in_i32; lia|done|done|]; cbn [rowindex].
  - unfold vsize. rewrite length_replicate. lia.
  - intros k' [_ E]%vget_lookup. by apply lookup_replicate in E as [-> _].
Qed.

(** ** Properties *)

(** The layer files of [xwgen] are read by the simulator: for any sizes that fit an
    [int] and do not overflow as a product, and whatever the random numbers, the reader
    of the first file takes from a generated file the sizes it was generated for, as the
    [uint64_t] they convert to. *)
Theorem generated_sizes_read w_h0 w_w0 x_h0 sparse rand P :
  in_i32 w_h0 = true → in_i32 w_w0 = true → in_i32 x_h0 = true → in_i32 (w_h0 * x_h0) = true →
  ∃ text, xwgen w_h0 w_w0 x_h0 sparse rand = Ok text ∧
    read_sizes text P = Ok (P {{ w_h := u64 w_h0; x_w := u64 w_h0; w_w := u64 w_w0;
      x_h := u64 x_h0; a_h := u64 x_h0; a_w := u64 x_h0 }}).
Proof.
  intros Hh Hw Hx Hp. unfold xwgen, int_chk. rewrite Hp. cbn [mbind res_bind]. eexists. split; [reflexivity|].
  unfold read_sizes. rewrite getline_print_int by done. cbv beta iota. rewrite stoi_print_int, bind_Ok by done.
  rewrite getline_print_int by done. cbv beta iota. rewrite stoi_print_int, bind_Ok by done.
  rewrite getline_print_int by done. cbv beta iota. by rewrite stoi_print_int, bind_Ok.
Qed.

(** The CSR translator converts nothing: of every run that ends as the language
    defines, the input names no vertex, and the output holds the first pointer alone. *)
Theorem translator_converts_nothing text out :
  csr_translator (Some text) = Ok out →
  stoi (fst (fst (getline newline (stream_of text) EmptyString))) = Ok 0 ∧ out = "0 "%string.
Proof.
  unfold csr_translator. destruct (getline newline (stream_of text) EmptyString) as [[line input] b]. cbn [fst].
  intros (v & Ev & E)%bind_Ok_inv. rewrite Ev. revert E.
  destruct (getline newline input line) as [[line2 input2] b2]. intros (e & Ee & E)%bind_Ok_inv. revert E.
  destruct (Z.ltb_spec v 0) as [|Hv]; [done|]. intros ([[? ?] a] & El & E)%bind_Ok_inv.
  apply bind_Ok_inv in E as (a' & Ec & E). destruct (Z.to_nat v) as [|n] eqn:En.
  - apply bind_Ok_inv in E as (o & Eo & E). cbn in Eo, E. split; [f_equal; lia | congruence].
  - cbn [for_loop] in Ec. by rewrite close_first_row in Ec by lia.
Qed.

Definition ex_params : Params := mkParams 64 16 4 0 0 0 0 0 0 1 1 0 0 0 0 0 0 0 0.

Lemma generated_sizes_read_witness :
  ∃ text, xwgen 2 3 4 50 (λ i, 40 * i) = Ok text ∧
    read_sizes text ex_params = Ok (ex_params {{ w_h := 2; x_w := 2; w_w := 3; x_h := 4; a_h := 4; a_w := 4 }}).
Proof. eapply (generated_sizes_read 2 3 4 50 (λ i, 40 * i) ex_params); reflexivity. Defined.

Lemma translator_converts_nothing_witness :
  stoi (fst (fst (getline newline (stream_of "0
0
") EmptyString))) = Ok 0 ∧ "0 " = "0 "%string.
Proof. apply (translator_converts_nothing "0
0
" "0 "). vm_compute. reflexivity. Defined.

(** A generated file, and a matrix of one edge that is not converted. *)
Example ex_xwgen : xwgen 2 3 2 50 (λ i, 40 * i) = Ok "2
3
2
0 0 80 0"%string.
Proof. vm_compute. reflexivity. Qed.

Example ex_one_edge : csr_translator (Some "2
1
0 1
"%string) = Err Uninitialised.
Proof. vm_compute. reflexivity. Qed.
