(* ===== verification/Floorplan.v ===== *)
(** * The floorplan of the thermal model (DRAMsim3/src/configuration.cc, thermal.cc)

    The thermal model, compiled in with THERMAL, lays the banks of a memory out on a grid
    of cells: on the die of each rank, or, for the stacked memories HBM and HMC, on the
    layers below one another.  This file holds the thermal parameters of the
    configuration, the dimensions of the grid, the physical address mapping, and the
    functions that place a vault, a bank and the cells of an access.  The theorem: if the
    organisation is one the placement was made for, different banks lie in different
    places, all of them on the die. *)

From S2P Require Import Prelude DramCommon DramConfig CFloat CDouble Text DataReader CsrTools CmdTrace.
From Stdlib Require Import Ascii String.

Open Scope Z_scope.

(** Arithmetic on [int]. *)
Definition iadd (a b : Z) : res Z := int_chk (a + b).
Definition imul (a b : Z) : res Z := int_chk (a * b).
Definition int_rem (a b : Z) : res Z := if b =? 0 then Err DivByZero else Ok (Z.rem a b).

(** ** Parameters *)

(** The members that [InitThermalParams] assigns in any case, and those it assigns only
    if it does not tile the rows. *)
Record UntiledParams := mkUntiled {
  bank_order : Z; bank_layer_order : Z; num_row_refresh : Z;
  chip_dim_x : double; chip_dim_y : double; amb_temp : double }.
Record ThermalParams := mkThermalParams {
  const_logic_power : double; mat_dim_x : Z; mat_dim_y : Z; row_tile : Z; tile_row_num : Z;
  num_x_grids : Z; num_y_grids : Z; bank_asr : double; loc_mapping : string;
  untiled : option UntiledParams }.

Local Open Scope double_scope.

(** [while (row_tile * row_tile * 4 < bank_asr) row_tile *= 2;] *)
Fixpoint tile_rows (fuel : nat) (asr : double) (tile : Z) : res Z :=
  match fuel with
  | O => Err OutOfFuel
  | S f =>
      s ← imul tile tile; s ← imul s 4;
      if d64_lt (d64_of_Z s) asr then t ← imul tile 2; tile_rows f asr t else Ok tile
  end.

(** [Config::InitThermalParams]; the first arguments are the look-ups of the INI reader. *)
Definition InitThermalParams (GetReal : string → string → double → double)
    (Get : string → string → string → string) (GetInteger : string → string → Z → Z)
    (d : DRAMParams) (t : TimingParams) (tCK : double) : res ThermalParams :=
  let power := GetReal "thermal" "const_logic_power" (d64_of_Z 5) in
  let mx := GetInteger "thermal" "mat_dim_x" 512 in
  let my := GetInteger "thermal" "mat_dim_y" 512 in
  nx ← int_div (rows d) mx;
  w ← imul (columns d) (device_width d); ny ← int_div w my;
  let asr := d64_of_Z nx ⊘ d64_of_Z ny in
  if d64_lt (d64_of_Z 4) asr && (banks_per_group d =? 1) then
    tile ← tile_rows 20 asr 1;
    nx ← int_div nx tile; trn ← int_div (rows d) tile; ny ← imul ny tile;
    Ok (mkThermalParams power mx my tile trn nx ny (d64_of_Z nx ⊘ d64_of_Z ny) EmptyString None)
  else
    n ← int_of_option (d64_ceil
          (d64_of_Z (rows d) ⊘ (d64_of_Z 64 ⊠ d64_of_Z 1000000 ⊘ (d64_of_Z (tREFI t) ⊠ tCK))));
    let real k n d := GetReal "thermal" k (d64_lit n d) in
    Ok (mkThermalParams power mx my 1 (rows d) nx ny asr (Get "thermal" "loc_mapping" "")
          (Some (mkUntiled (GetInteger "thermal" "bank_order" 1) (GetInteger "thermal" "bank_layer_order" 0) n
                   (real "chip_dim_x" 1 100) (real "chip_dim_y" 1 100) (real "amb_temp" 40 1)))).

(** ** The grid *)

(** [determineXY], and the body of its loop. *)
Definition xy_step (xd yd : double) (total y : Z) (s : Z * double) : res (Z * double) :=
  let '(x_re, asr_re) := s in
  x ← int_div total y; xy ← imul x y;
  if xy =? total then
    let xw := d64_of_Z x ⊠ xd in let yw := d64_of_Z y ⊠ yd in
    let asr := if d64_le yw xw then xw ⊘ d64_of_Z y ⊘ yd else yw ⊘ d64_of_Z x ⊘ xd in
    if d64_lt asr asr_re then x_re ← int_div total y; Ok (x_re, asr) else Ok s
  else Ok s.
Definition determineXY (xd yd : double) (total_grids : Z) : res Z :=
  fst <$> for_loop (Z.to_nat total_grids) 1 (xy_step xd yd total_grids) (1, d64_of_Z 1000).

(** The members of [ThermalCalculator] that its constructor computes first. *)
Record Floorplan := mkPlan {
  numP : Z; bank_x : Z; bank_y : Z; vaults : option (Z * Z);  (* vault_x and vault_y *)
  dimX : Z; dimY : Z; num_case : Z }.

Section Plan.
Variable c : Config.
Variable T : ThermalParams.

Definition stacked_plan (vx vy bx by_ : Z) : res Floorplan :=
  np ← iadd (num_dies (dramp c)) 1;
  a ← imul vx bx; dx ← imul a (num_x_grids T);
  b ← imul vy by_; dy ← imul b (num_y_grids T);
  Ok (mkPlan np bx by_ (Some (vx, vy)) dx dy 1).
Definition new_Floorplan : res Floorplan :=
  let d := dramp c in
  if IsHMC d then
    vx ← determineXY (d64_of_Z 1 ⊠ bank_asr T) (d64_of_Z 2 ⊠ d64_of_Z 1) (channels (sysp c));
    vy ← int_div (channels (sysp c)) vx;
    stacked_plan vx vy 1 2
  else if IsHBM d then stacked_plan 1 2 8 2
  else
    bx ← determineXY (bank_asr T) (d64_of_Z 1) (banks d);
    by_ ← int_div (banks d) bx;
    dx ← imul bx (num_x_grids T); dy ← imul by_ (num_y_grids T);
    n ← imul (ranks (sizep c)) (channels (sysp c));
    Ok (mkPlan 1 bx by_ None dx dy n).

(** ** Places *)

Variable p : Floorplan.

Definition order : res Z := of_option Uninitialised (bank_order <$> untiled T).
Definition swap (first : Z) (xy : Z * Z) : Z * Z := if first =? 0 then (xy.2, xy.1) else xy.

(** [MapToVault] *)
Definition MapToVault (channel_id : Z) : res (Z * Z) :=
  if IsHMC (dramp c) then
    '(vx, vy) ← of_option Uninitialised (vaults p);
    o ← order;
    let vault_factor := if o =? 0 then vx else vy in
    x ← int_div channel_id vault_factor; y ← int_rem channel_id vault_factor;
    Ok (swap o (x, y))
  else if IsHBM (dramp c) then Ok (0, Z.rem channel_id 2)
  else Ok (0, 0).

(** [MapToBank] *)
Definition MapToBank (bankgroup_id bank_id : Z) : res (Z * Z) :=
  let d := dramp c in
  a ← imul bankgroup_id (banks_per_group d); abs_bank_id ← iadd a bank_id;
  o ← order;
  let bank_factor := if o =? 0 then bank_x p else bank_y p in
  if IsHMC d then
    num_bank_per_layer ← int_div (banks d) (num_dies d);
    bank_same_layer ← int_rem abs_bank_id num_bank_per_layer;
    x ← int_div bank_same_layer bank_factor; y ← int_rem bank_same_layer bank_factor;
    Ok (swap o (x, y))
  else if IsHBM d then
    g ← imul bankgroup_id 2; x ← iadd g (Z.quot bank_id 2);
    Ok (x, Z.rem bank_id 2)
  else if 1 <? bankgroups d then
    let '(x, y) := swap o (Z.quot bank_id 2, Z.rem bank_id 2) in
    g ← imul bankgroup_id 2;
    if bank_x p <=? bank_y p then y ← iadd y g; Ok (x, y) else x ← iadd x g; Ok (x, y)
  else
    x ← int_div abs_bank_id bank_factor; y ← int_rem abs_bank_id bank_factor;
    Ok (swap o (x, y)).

(** [MapToZ] *)
Definition MapToZ (channel_id bank_id : Z) : res Z :=
  let d := dramp c in
  if IsHMC d then
    num_bank_per_layer ← int_div (banks d) (num_dies d);
    q ← int_div bank_id num_bank_per_layer;
    o ← of_option Uninitialised (bank_layer_order <$> untiled T);
    if o =? 0 then Ok q else z ← int_chk (numP p - q); int_chk (z - 2)
  else if IsHBM d then Ok (Z.quot channel_id 2)
  else Ok 0.
End Plan.

(** [case_id] in [UpdateCMDPower], and the place of a bank as the handlers compute it: the
    case, the layer, and the position on the layer counted in banks. *)
Section Places.
Variable c : Config.
Variable T : ThermalParams.
Variable p : Floorplan.

Definition is_stacked : bool := IsHMC (dramp c) || IsHBM (dramp c).
Definition case_id (channel rank : Z) : res Z :=
  if is_stacked then Ok 0 else a ← imul channel (ranks (sizep c)); iadd a rank.

Record Place := mkPlace { pl_case : Z; pl_z : Z; pl_x : Z; pl_y : Z }.
Definition place (channel rank bankgroup bank : Z) : res Place :=
  n ← case_id channel rank;
  '(vx, vy) ← MapToVault c T p channel;
  '(bx, by_) ← MapToBank c T p bankgroup bank;
  z ← MapToZ c T p channel bank;
  Ok (mkPlace n z (vx * bank_x p + bx) (vy * bank_y p + by_)).

(** ** Specification *)

(** The organisation that [InitDRAMParams] and [CalculateSize] compute. *)
Record org_ok : Prop := {
  oo_channels : 0 < channels (sysp c); oo_ranks : 0 < ranks (sizep c);
  oo_groups : 0 < bankgroups (dramp c); oo_banks_per_group : 0 < banks_per_group (dramp c);
  oo_banks : banks (dramp c) = bankgroups (dramp c) * banks_per_group (dramp c);
  oo_int : channels (sysp c) * ranks (sizep c) < 2 ^ 31 ∧ banks (dramp c) < 2 ^ 31 }.

(** The organisations the placement was made for: a cube with one bank group and two
    banks of a vault on each die; a stack with four groups of four banks at most, and two
    channels on each die; groups of four banks, in squares that fit in a line on the die. *)
Definition suits : Prop :=
  let d := dramp c in
  if IsHMC d then bankgroups d = 1 ∧ 0 < num_dies d ∧ banks d = 2 * num_dies d ∧ ranks (sizep c) = 1
  else if IsHBM d then bankgroups d ≤ 4 ∧ banks_per_group d ≤ 4 ∧ channels (sysp c) ≤ 2 * num_dies d ∧ ranks (sizep c) = 1
  else if 1 <? bankgroups d then
    banks_per_group d ≤ 4 ∧ 2 ≤ Z.min (bank_x p) (bank_y p) ∧ 2 * bankgroups d ≤ Z.max (bank_x p) (bank_y p)
  else True.

Record coords_ok (channel rank bankgroup bank : Z) : Prop := {
  co_channel : 0 ≤ channel < channels (sysp c); co_rank : 0 ≤ rank < ranks (sizep c);
  co_group : 0 ≤ bankgroup < bankgroups (dramp c); co_bank : 0 ≤ bank < banks_per_group (dramp c) }.

(** A place on a layer below the logic layer. *)
Record on_die (q : Place) : Prop := {
  od_case : 0 ≤ pl_case q < num_case p;
  od_z : 0 ≤ pl_z q < (if is_stacked then numP p - 1 else numP p);
  od_x : 0 ≤ pl_x q ∧ (pl_x q + 1) * num_x_grids T ≤ dimX p;
  od_y : 0 ≤ pl_y q ∧ (pl_y q + 1) * num_y_grids T ≤ dimY p }.

(** The coordinates of the bank at a place. *)
Definition bank_in_cube (q : Place) (o lo : Z) : Z * Z * Z * Z :=
  let '(vx, vy) := default (0, 0) (vaults p) in
  let channel := if o =? 0 then pl_y q / 2 * vx + pl_x q else pl_x q * vy + pl_y q / 2 in
  let layer := if lo =? 0 then pl_z q else num_dies (dramp c) - 1 - pl_z q in
  (channel, 0, 0, 2 * layer + pl_y q mod 2).
Definition bank_in_stack (q : Place) : Z * Z * Z * Z :=
  (2 * pl_z q + pl_y q / 2, 0, pl_x q / 2, 2 * (pl_x q mod 2) + pl_y q mod 2).
Definition bank_on_die (q : Place) (o : Z) : Z * Z * Z * Z :=
  let '(x, y) := (pl_x q, pl_y q) in
  let '(g, b) :=
    if 1 <? bankgroups (dramp c) then
      let '(g, x, y) := if bank_x p <=? bank_y p then (y / 2, x, y mod 2) else (x / 2, x mod 2, y) in
      (g, if o =? 0 then 2 * y + x else 2 * x + y)
    else (0, if o =? 0 then y * bank_x p + x else x * bank_y p + y) in
  (pl_case q / ranks (sizep c), pl_case q mod ranks (sizep c), g, b).
Definition bank_of (u : UntiledParams) (q : Place) : Z * Z * Z * Z :=
  if IsHMC (dramp c) then bank_in_cube q (bank_order u) (bank_layer_order u)
  else if IsHBM (dramp c) then bank_in_stack q
  else bank_on_die q (bank_order u).
End Places.

(** ** Lemmas *)

Lemma iadd_Ok a b : - 2 ^ 31 ≤ a + b < 2 ^ 31 → iadd a b = Ok (a + b).
Proof. apply int_chk_Ok. Qed.
Lemma imul_Ok a b : - 2 ^ 31 ≤ a * b < 2 ^ 31 → imul a b = Ok (a * b).
Proof. apply int_chk_Ok. Qed.
Lemma int_div_Ok a b : 0 ≤ a < 2 ^ 31 → 0 < b → int_div a b = Ok (a / b).
Proof.
  intros Ha Hb. unfold int_div. destruct (Z.eqb_spec b 0); [lia|]. rewrite Z.quot_div_nonneg by lia.
  apply int_chk_Ok. pose proof (Z.div_pos a b). pose proof (Z.div_le_upper_bound a b a). nia.
Qed.
Lemma int_rem_Ok a b : 0 ≤ a → 0 < b → int_rem a b = Ok (a mod b).
Proof. intros. unfold int_rem. destruct (Z.eqb_spec b 0); [lia|]. by rewrite Z.rem_mod_nonneg by lia. Qed.

Lemma iadd_inv a b z : iadd a b = Ok z → z = a + b ∧ - 2 ^ 31 ≤ a + b < 2 ^ 31.
Proof. apply int_chk_inv. Qed.
Lemma imul_inv a b z : imul a b = Ok z → z = a * b ∧ - 2 ^ 31 ≤ a * b < 2 ^ 31.
Proof. apply int_chk_inv. Qed.

(** Whatever its floating-point comparisons, [determineXY] returns a divisor. *)
Lemma determineXY_divides xd yd total :
  0 < total < 2 ^ 31 → ∃ x, determineXY xd yd total = Ok x ∧ 0 < x ∧ x * (total / x) = total.
Proof.
  intros Ht. unfold determineXY. set (good := λ s : Z * double, 0 < s.1 ∧ s.1 * (total / s.1) = total).
  destruct (for_loop_inv (λ _, good) (Z.to_nat total) 1 (xy_step xd yd total) (1, d64_of_Z 1000)) as (s & -> & Hs).
  { split; cbn [fst]; [lia | rewrite Z.div_1_r; lia]. }
  2: { exists s.1. by split. }
  intros y [x asr] Hy Hg. unfold xy_step. rewrite int_div_Ok by lia. cbn [mbind res_bind].
  pose proof (Z.div_mod total y ltac:(lia)) as Hdm. pose proof (Z.mod_pos_bound total y ltac:(lia)).
  rewrite imul_Ok by nia. cbn [mbind res_bind]. destruct (Z.eqb_spec (total / y * y) total) as [E|]; [|by eexists].
  destruct (d64_lt _ _); [|by eexists]. eexists. split; [reflexivity|]. unfold good. cbn [fst].
  assert (0 < total / y) as Hq by nia. split; [done|].
  assert (total / (total / y) = y) as -> by (symmetry; apply Z.div_unique_exact; [lia | nia]). lia.
Qed.

(** The dimensions of a stack. *)
Lemma stacked_dims c T p vx vy bx by_ :
  stacked_plan c T vx vy bx by_ = Ok p →
  numP p = num_dies (dramp c) + 1 ∧ bank_x p = bx ∧ bank_y p = by_ ∧ vaults p = Some (vx, vy) ∧
  dimX p = vx * bx * num_x_grids T ∧ dimY p = vy * by_ * num_y_grids T ∧ num_case p = 1 ∧
  num_dies (dramp c) + 1 < 2 ^ 31.
Proof.
  unfold stacked_plan. intros E. apply bind_Ok_inv in E as (np & [-> ?]%iadd_inv & E).
  apply bind_Ok_inv in E as (a & [-> _]%imul_inv & E). apply bind_Ok_inv in E as (dx & [-> _]%imul_inv & E).
  apply bind_Ok_inv in E as (b & [-> _]%imul_inv & E). apply bind_Ok_inv in E as (dy & [-> _]%imul_inv & E).
  injection E as <-. cbn. repeat split; lia.
Qed.

(** The quotient and the remainder of [a * 2 + b]. *)
Lemma halves a b : 0 ≤ b < 2 → (a * 2 + b) / 2 = a ∧ (a * 2 + b) mod 2 = b.
Proof. intros Hb. split; [symmetry; apply (Z.div_unique _ _ _ b) | symmetry; apply (Z.mod_unique _ _ a)]; lia. Qed.

Section Placement.
Context (c : Config) (T : ThermalParams) (p : Floorplan) (u : UntiledParams).
Context (O : org_ok c) (Hplan : new_Floorplan c T = Ok p) (Hu : untiled T = Some u).
Context (Hx : 0 < num_x_grids T) (Hy : 0 < num_y_grids T).

Lemma order_ok : order T = Ok (bank_order u).
Proof. unfold order. by rewrite Hu. Qed.

Lemma int_bounds : channels (sysp c) < 2 ^ 31 ∧ ranks (sizep c) < 2 ^ 31.
Proof. destruct O as [? ? ? ? ? [? ?]]. split; nia. Qed.

Lemma cube_plan :
  IsHMC (dramp c) = true →
  ∃ vx vy, vaults p = Some (vx, vy) ∧ 0 < vx ∧ 0 < vy ∧ vx * vy = channels (sysp c) ∧
    numP p = num_dies (dramp c) + 1 ∧ bank_x p = 1 ∧ bank_y p = 2 ∧ num_case p = 1 ∧
    dimX p = vx * num_x_grids T ∧ dimY p = vy * 2 * num_y_grids T ∧ num_dies (dramp c) + 1 < 2 ^ 31.
Proof.
  intros HM. unfold new_Floorplan in Hplan. rewrite HM in Hplan. pose proof (oo_channels _ O). pose proof int_bounds.
  destruct (determineXY_divides (d64_of_Z 1 ⊠ bank_asr T) (d64_of_Z 2 ⊠ d64_of_Z 1) (channels (sysp c)))
    as (vx & E & Hp & Hd); [lia|].
  rewrite E in Hplan. cbn [mbind res_bind] in Hplan. rewrite int_div_Ok in Hplan by lia. cbn [mbind res_bind] in Hplan.
  destruct (stacked_dims _ _ _ _ _ _ _ Hplan) as (? & ? & ? & ? & Hdx & ? & ? & ?). exists vx, (channels (sysp c) / vx).
  rewrite Z.mul_1_r in Hdx. repeat split; try done. nia.
Qed.

Lemma vault_cube vx vy ch :
  IsHMC (dramp c) = true → vaults p = Some (vx, vy) → 0 < vx → 0 < vy → vx * vy = channels (sysp c) →
  0 ≤ ch < channels (sysp c) →
  ∃ x y, MapToVault c T p ch = Ok (x, y) ∧ 0 ≤ x < vx ∧ 0 ≤ y < vy ∧
    ch = if bank_order u =? 0 then y * vx + x else x * vy + y.
Proof.
  intros HM Hv Hvx Hvy Hmul Hch. unfold MapToVault. rewrite HM, Hv, order_ok. cbn [mbind res_bind of_option].
  pose proof int_bounds.
  destruct (Z.eqb_spec (bank_order u) 0) as [E|E]; rewrite int_div_Ok by lia; cbn [mbind res_bind];
    rewrite int_rem_Ok by lia; cbn [mbind res_bind].
  - exists (ch mod vx), (ch / vx). split; [by rewrite E|]. pose proof (Z.mod_pos_bound ch vx Hvx). pose proof (Z.div_mod ch vx ltac:(lia)).
    split; [lia|]. split; [split; [apply Z.div_pos; lia | apply Z.div_lt_upper_bound; lia] | nia].
  - exists (ch / vy), (ch mod vy). split; [unfold swap; by destruct (Z.eqb_spec (bank_order u) 0)|]. pose proof (Z.mod_pos_bound ch vy Hvy). pose proof (Z.div_mod ch vy ltac:(lia)).
    split; [split; [apply Z.div_pos; lia | apply Z.div_lt_upper_bound; lia]|]. split; [lia | nia].
Qed.

Lemma bank_cube ba :
  IsHMC (dramp c) = true → 0 < num_dies (dramp c) → banks (dramp c) = 2 * num_dies (dramp c) →
  bank_x p = 1 → bank_y p = 2 → 0 ≤ ba < banks (dramp c) →
  MapToBank c T p 0 ba = Ok (0, ba mod 2).
Proof.
  intros HM Hd Hb Hbx Hby Hba. destruct O as [_ _ _ _ _ [_ Hi]]. unfold MapToBank. rewrite HM, order_ok.
  rewrite imul_Ok, bind_Ok, iadd_Ok, !bind_Ok by lia. rewrite Hb, Hbx, Hby, Z.mul_0_l, Z.add_0_l.
  rewrite (int_div_Ok (2 * _)), bind_Ok, Z.div_mul by lia. rewrite (int_rem_Ok ba 2), bind_Ok by lia.
  pose proof (Z.mod_pos_bound ba 2 ltac:(lia)). unfold swap.
  destruct (Z.eqb_spec (bank_order u) 0); rewrite int_div_Ok, bind_Ok, int_rem_Ok, bind_Ok by lia; cbn [fst snd].
  - by rewrite Z.div_1_r, Z.mod_1_r.
  - rewrite Z.div_small, Z.mod_small by lia. done.
Qed.

Lemma layer_cube ch ba :
  IsHMC (dramp c) = true → 0 < num_dies (dramp c) → banks (dramp c) = 2 * num_dies (dramp c) →
  numP p = num_dies (dramp c) + 1 → num_dies (dramp c) + 1 < 2 ^ 31 → 0 ≤ ba < banks (dramp c) →
  ∃ z, MapToZ c T p ch ba = Ok z ∧ 0 ≤ z < num_dies (dramp c) ∧
    ba / 2 = if bank_layer_order u =? 0 then z else num_dies (dramp c) - 1 - z.
Proof.
  intros HM Hd Hb HP Hi Hba. unfold MapToZ. rewrite HM, Hu, HP, Hb. destruct O as [_ _ _ _ _ [_ Hi']].
  rewrite (int_div_Ok (2 * _)), bind_Ok, Z.div_mul by lia. rewrite int_div_Ok, !bind_Ok by lia.
  cbn [fmap option_fmap option_map of_option mbind res_bind].
  assert (0 ≤ ba / 2 < num_dies (dramp c)) by (split; [apply Z.div_pos | apply Z.div_lt_upper_bound]; lia).
  destruct (Z.eqb_spec (bank_layer_order u) 0); [by exists (ba / 2)|].
  rewrite !int_chk_Ok by lia. cbn [mbind res_bind]. rewrite int_chk_Ok by lia. eexists. split; [reflexivity|]. lia.
Qed.

(** What the parts of [place] return. *)
Record parts (ch ra bg ba vx vy bx by_ : Z) (q : Place) : Prop := {
  pa_case : case_id c ch ra = Ok (pl_case q);
  pa_vault : MapToVault c T p ch = Ok (vx, vy) ∧ 0 ≤ vx ∧ 0 ≤ vy;
  pa_bank : MapToBank c T p bg ba = Ok (bx, by_) ∧ 0 ≤ bx ∧ 0 ≤ by_;
  pa_z : MapToZ c T p ch ba = Ok (pl_z q);
  pa_x : pl_x q = vx * bank_x p + bx; pa_y : pl_y q = vy * bank_y p + by_ }.
Definition placed (ch ra bg ba : Z) (q : Place) : Prop :=
  (∃ vx vy bx by_, parts ch ra bg ba vx vy bx by_ q) ∧ on_die c T p q ∧ bank_of c p u q = (ch, ra, bg, ba).

Lemma parts_place ch ra bg ba vx vy bx by_ q :
  parts ch ra bg ba vx vy bx by_ q → place c T p ch ra bg ba = Ok q.
Proof.
  intros [Hc (Hv & _) (Hb & _) Hz Ex Ey]. unfold place. rewrite Hc, Hv, Hb, Hz. cbn [mbind res_bind].
  rewrite <- Ex, <- Ey. by destruct q.
Qed.

Lemma stacked_case ch ra : is_stacked c = true → case_id c ch ra = Ok 0.
Proof. unfold case_id. by intros ->. Qed.

Lemma place_cube ch ra bg ba :
  IsHMC (dramp c) = true → suits c p → coords_ok c ch ra bg ba → ∃ q, placed ch ra bg ba q.
Proof.
  intros HM HS [Hch Hra Hbg Hba]. unfold suits in HS. rewrite HM in HS. destruct HS as (Hg & Hd & Hb & Hr).
  destruct (cube_plan HM) as (vx & vy & Hv & Hvx & Hvy & Hmul & HP & Hbx & Hby & Hn & Hdx & Hdy & Hi).
  assert (banks_per_group (dramp c) = banks (dramp c)) as Hbb by (rewrite (oo_banks c O), Hg; lia).
  assert (bg = 0) as -> by lia. assert (ra = 0) as -> by lia. rewrite Hbb in Hba.
  destruct (vault_cube vx vy ch HM Hv Hvx Hvy Hmul Hch) as (x & y & Ev & Hxr & Hyr & Ech).
  destruct (layer_cube ch ba HM Hd Hb HP Hi Hba) as (z & Ez & Hz & Eba).
  assert (is_stacked c = true) as Hst by (unfold is_stacked; by rewrite HM).
  pose proof (Z.mod_pos_bound ba 2 ltac:(lia)). pose proof (Z.div_mod ba 2 ltac:(lia)).
  destruct (halves y (ba mod 2)) as [Ey Em]; [lia|].
  exists (mkPlace 0 z x (y * 2 + ba mod 2)). split; [|split].
  - exists x, y, 0, (ba mod 2). split; cbn [pl_case pl_z pl_x pl_y].
    + by apply stacked_case.
    + split; [done | lia].
    + split; [by apply bank_cube | lia].
    + done.
    + lia.
    + by rewrite Hby.
  - split; cbn [pl_case pl_z pl_x pl_y]; [lia | rewrite Hst; lia | rewrite Hdx; nia | rewrite Hdy; nia].
  - unfold bank_of, bank_in_cube. rewrite HM, Hv. change (default (0, 0) (Some (vx, vy))) with (vx, vy).
    cbn [pl_case pl_z pl_x pl_y]. rewrite Ey, Em, <- Ech, <- Eba.
    f_equal. lia.
Qed.

Lemma place_stack ch ra bg ba :
  IsHMC (dramp c) = false → IsHBM (dramp c) = true → suits c p → coords_ok c ch ra bg ba → ∃ q, placed ch ra bg ba q.
Proof.
  intros HM HB HS [Hch Hra Hbg Hba]. unfold suits in HS. rewrite HM, HB in HS. destruct HS as (Hg & Hb & Hc & Hr).
  pose proof Hplan as E. unfold new_Floorplan in E. rewrite HM, HB in E.
  destruct (stacked_dims _ _ _ _ _ _ _ E) as (HP & Hbx & Hby & Hv & Hdx & Hdy & Hn & Hi).
  assert (ra = 0) as -> by lia. assert (is_stacked c = true) as Hst by (unfold is_stacked; by rewrite HB, orb_true_r).
  pose proof (Z.mod_pos_bound ba 2 ltac:(lia)). pose proof (Z.div_mod ba 2 ltac:(lia)).
  pose proof (Z.mod_pos_bound ch 2 ltac:(lia)). pose proof (Z.div_mod ch 2 ltac:(lia)).
  assert (0 ≤ ba / 2 < 2 ∧ 0 ≤ ch / 2) as [? ?] by lia.
  exists (mkPlace 0 (ch / 2) (bg * 2 + ba / 2) (ch mod 2 * 2 + ba mod 2)). split; [|split].
  - exists 0, (ch mod 2), (bg * 2 + ba / 2), (ba mod 2). split; cbn [pl_case pl_z pl_x pl_y].
    + by apply stacked_case.
    + unfold MapToVault. rewrite HM, HB, Z.rem_mod_nonneg by lia. split; [done | lia].
    + unfold MapToBank. rewrite HM, HB, order_ok, (imul_Ok bg (banks_per_group (dramp c))), bind_Ok by nia.
      rewrite iadd_Ok, !bind_Ok, Z.quot_div_nonneg, Z.rem_mod_nonneg by nia.
      rewrite imul_Ok, bind_Ok, iadd_Ok by lia. split; [done | lia].
    + unfold MapToZ. by rewrite HM, HB, Z.quot_div_nonneg by lia.
    + lia.
    + by rewrite Hby.
  - split; cbn [pl_case pl_z pl_x pl_y]; [lia | rewrite Hst; lia | rewrite Hdx; nia | rewrite Hdy; nia].
  - unfold bank_of, bank_in_stack. rewrite HM, HB. cbn [pl_case pl_z pl_x pl_y].
    destruct (halves bg (ba / 2)) as [-> ->]; [lia|]. destruct (halves (ch mod 2) (ba mod 2)) as [-> ->]; [lia|].
    by rewrite <- !Z.div_mod by lia.
Qed.
(** A die on its own: a case for each rank of each channel. *)
Lemma flat_plan :
  is_stacked c = false →
  0 < bank_x p ∧ 0 < bank_y p ∧ bank_x p * bank_y p = banks (dramp c) ∧ numP p = 1 ∧
  dimX p = bank_x p * num_x_grids T ∧ dimY p = bank_y p * num_y_grids T ∧
  num_case p = ranks (sizep c) * channels (sysp c).
Proof.
  unfold is_stacked. intros [HM HB]%orb_false_elim. pose proof Hplan as E. unfold new_Floorplan in E. rewrite HM, HB in E.
  destruct O as [? ? ? ? Hb [? ?]]. assert (0 < banks (dramp c)) by nia.
  destruct (determineXY_divides (bank_asr T) (d64_of_Z 1) (banks (dramp c))) as (bx & Ex & Hbx & Hd); [lia|].
  rewrite Ex in E. cbn [mbind res_bind] in E. rewrite int_div_Ok in E by lia. cbn [mbind res_bind] in E.
  apply bind_Ok_inv in E as (dx & [-> _]%imul_inv & E). apply bind_Ok_inv in E as (dy & [-> _]%imul_inv & E).
  apply bind_Ok_inv in E as (n & [-> _]%imul_inv & E). injection E as <-. cbn. repeat split; nia.
Qed.

Lemma flat_case ch ra :
  is_stacked c = false → 0 ≤ ch < channels (sysp c) → 0 ≤ ra < ranks (sizep c) →
  case_id c ch ra = Ok (ch * ranks (sizep c) + ra) ∧ 0 ≤ ch * ranks (sizep c) + ra < ranks (sizep c) * channels (sysp c) ∧
  (ch * ranks (sizep c) + ra) / ranks (sizep c) = ch ∧ (ch * ranks (sizep c) + ra) mod ranks (sizep c) = ra.
Proof.
  intros Hs Hch Hra. destruct O as [_ _ _ _ _ [Hi _]]. unfold case_id. rewrite Hs.
  rewrite imul_Ok by nia. cbn [mbind res_bind]. rewrite iadd_Ok by nia. split; [done|]. split; [nia|].
  split; [symmetry; apply (Z.div_unique _ _ _ ra) | symmetry; apply (Z.mod_unique _ _ ch)]; lia.
Qed.

(** The banks of one group, row by row or column by column. *)
Lemma bank_flat ba :
  is_stacked c = false → bankgroups (dramp c) = 1 → 0 ≤ ba < banks (dramp c) →
  ∃ x y, MapToBank c T p 0 ba = Ok (x, y) ∧ 0 ≤ x < bank_x p ∧ 0 ≤ y < bank_y p ∧
    ba = if bank_order u =? 0 then y * bank_x p + x else x * bank_y p + y.
Proof.
  intros Hs Hg Hba. destruct (flat_plan Hs) as (Hbx & Hby & Hmul & _). destruct O as [_ _ _ _ _ [_ Hi]].
  unfold is_stacked in Hs. apply orb_false_elim in Hs as [HM HB]. unfold MapToBank. rewrite HM, HB, order_ok, Hg.
  rewrite (imul_Ok 0 (banks_per_group (dramp c))), bind_Ok by lia. rewrite (iadd_Ok _ ba), !bind_Ok, Z.mul_0_l, Z.add_0_l by lia. change (1 <? 1) with false. cbv iota.
  unfold swap. destruct (Z.eqb_spec (bank_order u) 0); rewrite int_div_Ok, bind_Ok, int_rem_Ok, bind_Ok by lia.
  - pose proof (Z.mod_pos_bound ba (bank_x p) Hbx). pose proof (Z.div_mod ba (bank_x p) ltac:(lia)).
    exists (ba mod bank_x p), (ba / bank_x p). split; [done|]. split; [lia|].
    split; [split; [apply Z.div_pos; lia | apply Z.div_lt_upper_bound; lia] | lia].
  - pose proof (Z.mod_pos_bound ba (bank_y p) Hby). pose proof (Z.div_mod ba (bank_y p) ltac:(lia)).
    exists (ba / bank_y p), (ba mod bank_y p). split; [done|].
    split; [split; [apply Z.div_pos; lia | apply Z.div_lt_upper_bound; lia] | lia].
Qed.

(** The squares of four banks, in a line. *)
Lemma bank_groups bg ba :
  is_stacked c = false → suits c p → 1 < bankgroups (dramp c) → 0 ≤ bg < bankgroups (dramp c) → 0 ≤ ba < banks_per_group (dramp c) →
  ∃ x y, MapToBank c T p bg ba = Ok (x, y) ∧ 0 ≤ x < bank_x p ∧ 0 ≤ y < bank_y p ∧
    (if bank_x p <=? bank_y p then bg = y / 2 ∧ ba = if bank_order u =? 0 then 2 * (y mod 2) + x else 2 * x + y mod 2
     else bg = x / 2 ∧ ba = if bank_order u =? 0 then 2 * y + x mod 2 else 2 * (x mod 2) + y).
Proof.
  intros Hs HS Hg Hbg Hba. unfold suits in HS. pose proof Hs as Hs'. unfold is_stacked in Hs'. apply orb_false_elim in Hs' as [HM HB].
  rewrite HM, HB in HS. destruct (Z.ltb_spec 1 (bankgroups (dramp c))) as [_|]; [|lia]. destruct HS as (H4 & Hmin & Hmax).
  destruct O as [_ _ _ _ Hb [_ Hi]]. unfold MapToBank. rewrite HM, HB, order_ok.
  assert (bg * banks_per_group (dramp c) ≤ (bankgroups (dramp c) - 1) * banks_per_group (dramp c)) by (apply Z.mul_le_mono_nonneg_r; lia).
  assert (0 ≤ bg * banks_per_group (dramp c)) by (apply Z.mul_nonneg_nonneg; lia).
  rewrite (imul_Ok bg (banks_per_group (dramp c))), bind_Ok by lia. rewrite (iadd_Ok _ ba), !bind_Ok by lia.
  destruct (Z.ltb_spec 1 (bankgroups (dramp c))) as [_|]; [|lia]. rewrite Z.quot_div_nonneg, Z.rem_mod_nonneg by lia.
  pose proof (Z.mod_pos_bound ba 2 ltac:(lia)). pose proof (Z.div_mod ba 2 ltac:(lia)). assert (0 ≤ ba / 2 < 2) by lia.
  destruct (flat_plan Hs) as (Hbx & Hby & Hmul & _).
  assert (bank_x p < 2 ^ 31 ∧ bank_y p < 2 ^ 31) as [? ?] by nia.
  rewrite (imul_Ok bg 2) by lia. unfold swap.
  destruct (Z.eqb_spec (bank_order u) 0), (Z.leb_spec (bank_x p) (bank_y p)); cbn [fst snd mbind res_bind];
    rewrite iadd_Ok by lia; cbn [mbind res_bind]; eexists _, _; (split; [reflexivity|]); (split; [lia|]); (split; [lia|]).
  - rewrite (Z.add_comm (ba / 2)). destruct (halves bg (ba / 2)) as [-> ->]; lia.
  - rewrite (Z.add_comm (ba mod 2)). destruct (halves bg (ba mod 2)) as [-> ->]; lia.
  - rewrite (Z.add_comm (ba mod 2)). destruct (halves bg (ba mod 2)) as [-> ->]; lia.
  - rewrite (Z.add_comm (ba / 2)). destruct (halves bg (ba / 2)) as [-> ->]; lia.
Qed.
Lemma bank_in_case ch ra bg ba :
  is_stacked c = false → suits c p → coords_ok c ch ra bg ba →
  ∃ x y, MapToBank c T p bg ba = Ok (x, y) ∧ 0 ≤ x < bank_x p ∧ 0 ≤ y < bank_y p ∧
    ∀ n z, bank_on_die c p (mkPlace n z x y) (bank_order u) = (n / ranks (sizep c), n mod ranks (sizep c), bg, ba).
Proof.
  intros Hs HS [_ _ Hbg Hba]. unfold bank_on_die. destruct (Z.ltb_spec 1 (bankgroups (dramp c))) as [Hg|Hg].
  - destruct (bank_groups bg ba Hs HS Hg Hbg Hba) as (x & y & E & Hx' & Hy' & Hd). exists x, y. repeat split; try done; try lia.
    intros n z. cbn [pl_case pl_x pl_y]. by destruct (bank_x p <=? bank_y p), Hd as [-> ->].
  - assert (bankgroups (dramp c) = 1) as Hg1 by lia. assert (bg = 0) as -> by lia.
    destruct (bank_flat ba Hs Hg1) as (x & y & E & Hx' & Hy' & Hd); [destruct O as [? ? ? ? Hb ?]; rewrite Hb, Hg1; lia|].
    exists x, y. repeat split; try done; try lia. intros n z. cbn [pl_case pl_x pl_y]. by rewrite <- Hd.
Qed.

Lemma place_flat ch ra bg ba :
  is_stacked c = false → suits c p → coords_ok c ch ra bg ba → ∃ q, placed ch ra bg ba q.
Proof.
  intros Hs HS Hco. destruct (bank_in_case ch ra bg ba Hs HS Hco) as (x & y & Eb & Hx' & Hy' & Hd).
  destruct (flat_plan Hs) as (Hbx & Hby & Hmul & HP & Hdx & Hdy & Hn). destruct Hco as [Hch Hra _ _].
  destruct (flat_case ch ra Hs Hch Hra) as (Ec & Hc & E1 & E2).
  pose proof Hs as Hs'. unfold is_stacked in Hs'. apply orb_false_elim in Hs' as [HM HB].
  exists (mkPlace (ch * ranks (sizep c) + ra) 0 x y). split; [|split].
  - exists 0, 0, x, y. split; cbn [pl_case pl_z pl_x pl_y]; [done | | split; [done | lia] | | lia | lia].
    + unfold MapToVault. by rewrite HM, HB.
    + unfold MapToZ. by rewrite HM, HB.
  - split; cbn [pl_case pl_z pl_x pl_y]; [lia | rewrite Hs; lia | rewrite Hdx; nia | rewrite Hdy; nia].
  - unfold bank_of. by rewrite HM, HB, Hd, E1, E2.
Qed.

Lemma bank_placed ch ra bg ba : suits c p → coords_ok c ch ra bg ba → ∃ q, placed ch ra bg ba q.
Proof.
  intros HS Hco. destruct (is_stacked c) eqn:Hs; [|by apply place_flat]. unfold is_stacked in Hs.
  destruct (IsHMC (dramp c)) eqn:HM; [by apply place_cube | by apply place_stack].
Qed.
(** The dimensions fit an [int], and so does a vault. *)
Lemma plan_dims : dimX p < 2 ^ 31 ∧ dimY p < 2 ^ 31.
Proof.
  pose proof Hplan as E. unfold new_Floorplan, stacked_plan in E.
  destruct (IsHMC (dramp c)); [|destruct (IsHBM (dramp c))];
    repeat (apply bind_Ok_inv in E as (? & ?%int_chk_inv & E) || apply bind_Ok_inv in E as (? & _ & E));
    injection E as <-; cbn; lia.
Qed.

Lemma plan_offsets :
  0 ≤ bank_x p * num_x_grids T ≤ dimX p ∧ 0 ≤ bank_y p * num_y_grids T ≤ dimY p.
Proof.
  destruct (is_stacked c) eqn:Hs.
  - destruct (IsHMC (dramp c)) eqn:HM.
    + destruct (cube_plan HM) as (vx & vy & _ & ? & ? & _ & _ & -> & -> & _ & -> & -> & _). nia.
    + unfold is_stacked in Hs. rewrite HM in Hs. pose proof Hplan as E. unfold new_Floorplan in E. rewrite HM in E.
      cbn in Hs. rewrite Hs in E. destruct (stacked_dims _ _ _ _ _ _ _ E) as (_ & -> & -> & _ & -> & -> & _). nia.
  - destruct (flat_plan Hs) as (? & ? & _ & _ & -> & -> & _). nia.
Qed.
End Placement.

(** ** Properties *)

(** C24: Every bank has a place of its own.  For an organisation the placement was made
    for, and a configuration whose rows are not tiled, the handlers find a place for every
    bank: on a case, on a layer below the logic layer, within the dimensions of the grid;
    and the channel, the rank, the bank group and the bank can be computed back from the
    place, so that no two banks share one. *)
Theorem bank_place_roundtrip c T p u :
  org_ok c → new_Floorplan c T = Ok p → untiled T = Some u → 0 < num_x_grids T → 0 < num_y_grids T → suits c p →
  ∀ channel rank bankgroup bank, coords_ok c channel rank bankgroup bank →
  ∃ q, place c T p channel rank bankgroup bank = Ok q ∧ on_die c T p q ∧
    bank_of c p u q = (channel, rank, bankgroup, bank).
Proof.
  intros O E U Hx Hy S ch ra bg ba Hco. destruct (bank_placed c T p u O E U Hx Hy ch ra bg ba S Hco)
    as (q & (vx & vy & bx & by_ & Hp) & Hd & Hq).
  exists q. split; [by eapply parts_place | by split].
Qed.

(** DDR4 with four groups of four banks, and a clock of 0.83 ns. *)
Definition ex_ddr4 (width nrows : Z) : Config :=
  ex_config {{ dramp := ex_dram {{ banks := 16; bankgroups := 4; banks_per_group := 4; rows := nrows; device_width := width }} }}.
Definition ex_thermal (c : Config) : ThermalParams :=
  match InitThermalParams (λ _ _ x, x) (λ _ _ s, s) (λ _ _ z, z) (dramp c) (timp c) (d64_lit 83 100) with
  | Ok T => T | Err _ => mkThermalParams d64_zero 0 0 0 0 0 0 d64_zero EmptyString None end.
Definition ex_plan (c : Config) : Floorplan :=
  match new_Floorplan c (ex_thermal c) with Ok p => p | Err _ => mkPlan 0 0 0 None 0 0 0 end.
Definition ex_untiled : UntiledParams :=
  mkUntiled 1 0 8 (d64_lit 1 100) (d64_lit 1 100) (d64_of_Z 40).

Lemma ex_plan_ok :
  let c := ex_ddr4 8 65536 in
  org_ok c ∧ new_Floorplan c (ex_thermal c) = Ok (ex_plan c) ∧ untiled (ex_thermal c) = Some ex_untiled ∧
  suits c (ex_plan c).
Proof.
  cbv zeta. split; [by split|]. split; [apply ok_or; vm_compute; reflexivity|].
  split; [vm_compute; reflexivity|]. vm_compute. repeat split; congruence.
Qed.

Lemma bank_place_roundtrip_witness :
  let c := ex_ddr4 8 65536 in
  ∃ q, place c (ex_thermal c) (ex_plan c) 1 1 3 2 = Ok q ∧ on_die c (ex_thermal c) (ex_plan c) q ∧
    bank_of c (ex_plan c) ex_untiled q = (1, 1, 3, 2).
Proof.
  cbv zeta. destruct ex_plan_ok as (O & E & U & S).
  apply (bank_place_roundtrip (ex_ddr4 8 65536) (ex_thermal (ex_ddr4 8 65536)) (ex_plan (ex_ddr4 8 65536)) ex_untiled);
    [exact O | exact E | exact U | vm_compute; reflexivity | vm_compute; reflexivity | exact S |].
  split; vm_compute; split; congruence.
Defined.

(** With devices of four bits the banks are one column of sixteen, and two banks of each
    square are placed beside the die. *)
Example ex_beside_the_die :
  let c := ex_ddr4 4 131072 in
  place c (ex_thermal c) (ex_plan c) 0 0 0 2 = Ok (mkPlace 0 0 1 0) ∧ num_x_grids (ex_thermal c) = dimX (ex_plan c).
Proof. vm_compute. done. Qed.

(** A device of one bank per group whose rows are many is tiled, and has no bank order. *)
Example ex_tiled :
  let c := ex_config {{ dramp := ex_dram {{ banks := 4; bankgroups := 4; banks_per_group := 1 }} }} in
  place c (ex_thermal c) (ex_plan c) 0 0 0 0 = Err Uninitialised.
Proof. vm_compute. reflexivity. Qed.
