(* ===== verification/Thermal.v ===== *)
(** * The power maps of the thermal model (DRAMsim3/src/thermal.cc)

    For each command the thermal model adds the energy of the command to the cells of the
    bank it addresses, in two maps, of the current epoch and of the whole run; at the end
    of an epoch it adds the background energy.  This file holds the physical address
    mapping, the maps and their updates.  The numerical solver that turns a map into
    temperatures, and the files it prints, are left out.  The theorem: on the organisations
    the floorplan suits, every command finds its cells, each cell ends as the sum of what
    the commands put into it, and they warm only the banks they address. *)

From S2P Require Import Prelude DramCommon DramConfig CFloat CDouble Energy Text DataReader CsrTools CmdTrace Floorplan.
From Stdlib Require Import Ascii String.

Open Scope Z_scope.

(** ** The physical address *)

(** The numbers from [a] to [b], up or down. *)
Definition bit_range (a b : Z) : list Z :=
  if b <? a then (λ k, a - k) <$> seqZ 0 (a - b + 1) else seqZ a (b - a + 1).

(** The positions of a field of the mapping: [n] or [start:end], separated by [-]. *)
Definition bit_pos (s : string) (l : list Z) : res (list Z) :=
  match break_at ":" s with
  | (_, None) => n ← stoi s; Ok (l ++ [n])
  | (start, Some rest) => a ← stoi start; b ← stoi rest; Ok (l ++ bit_range a b)
  end.
Definition field_bits (s : string) (l : list (list Z)) : res (list (list Z)) :=
  toks ← StringSplit s "-"; f ← for_each toks bit_pos []; Ok (l ++ [f]).

(** What [GetPhyAddress] is: the identity, or a function of positions and an offset. *)
Definition PhyMapping : Type := option (list (list Z) * Z).

(** [SetPhyAddressMapping] *)
Definition SetPhyAddressMapping (loc_mapping : string) (BL : Z) : res PhyMapping :=
  if String.eqb loc_mapping EmptyString then Ok None else
  fields ← StringSplit loc_mapping ",";
  if negb (List.length fields =? 6)%nat then Err AbruptExit else
  mapped_pos ← for_each fields field_bits [];
  column_offset ← LogBase2 BL;
  Ok (Some (mapped_pos, column_offset)).

(** Shifts of a [uint64_t]. *)
Definition shift_chk (n : Z) : res Z := if (0 <=? n) && (n <? 64) then Ok n else Err BadShift.

(** The loop over the positions of a field [origin], from its bit [k] on downwards. *)
Fixpoint scatter (origin k : Z) (positions : list Z) (new_hex : Z) : res Z :=
  match positions with
  | [] => Ok new_hex
  | pos :: positions' =>
      k' ← shift_chk (k - 1); pos ← shift_chk pos;
      let this_bit := GetBitInPos (u64 origin) k' in
      scatter origin k' positions' (Z.lor new_hex (u64 (Z.shiftl this_bit pos)))
  end.

(** The loop that reads the new fields, from the last to the first. *)
Fixpoint gather (new_hex pos : Z) (fields : list (list Z)) : res (list Z) :=
  match fields with
  | [] => Ok []
  | f :: fields' =>
      pos' ← shift_chk pos; w ← shift_chk (vsize f);
      l ← gather new_hex (pos + vsize f) fields';
      Ok (l ++ [i32 (ModuloWidth new_hex w pos')])
  end.

Definition GetPhyAddress (m : PhyMapping) (a : Address) : res Address :=
  match m with
  | None => Ok a
  | Some (mapped_pos, column_offset) =>
      let origin := [channel a; rank a; bankgroup a; bank a; row a; column a] in
      new_hex ← for_each (zip origin mapped_pos) (λ '(o, f) h, scatter o (vsize f) f h) 0;
      new_pos ← gather new_hex column_offset (reverse mapped_pos);
      match new_pos with
      | [ch; ra; bg; ba; ro; co] => Ok (mkAddress ch ra bg ba ro co)
      | _ => Err OutOfRange
      end
  end.

(** ** The power maps *)

Record Thermal := mkThermal {
  accu_Pmap : list (list double); cur_Pmap : list (list double); refresh_count : list (list Z);
  background_energy_ : list (list double); avg_logic_power_ : double }.

Local Open Scope double_scope.

(** [+= e] on a cell, and on a cell of both maps. *)
Definition add_cell (n idx : Z) (e : double) (m : list (list double)) : res (list (list double)) :=
  vmod m n (λ l, vmod l idx (λ x, Ok (x ⊞ e))).
Definition heat (n idx : Z) (e : double) (t : Thermal) : res Thermal :=
  a ← add_cell n idx e (accu_Pmap t); b ← add_cell n idx e (cur_Pmap t);
  Ok (t {{ accu_Pmap := a; cur_Pmap := b }}).

Section Thermal.
Variable c : Config.
Variable P : PowerParams.
Variable T : ThermalParams.
Variable p : Floorplan.
Variable GetPhyAddress : Address → res Address.
Let d := dramp c.

(** The parts of the constructor that make the maps; a negative size throws. *)
Definition new_Thermal : res Thermal :=
  a ← imul (numP p) (dimX p); size ← imul a (dimY p);
  n ← imul (channels (sysp c)) (ranks (sizep c));
  if (num_case p <? 0) || (size <? 0) || (n <? 0) || (banks d <? 0) then Err RangeError else
  let map0 := replicate (Z.to_nat (num_case p)) (replicate (Z.to_nat size) d64_zero) in
  Ok {| accu_Pmap := map0; cur_Pmap := map0;
        refresh_count := replicate (Z.to_nat n) (replicate (Z.to_nat (banks d)) 0);
        background_energy_ := replicate (Z.to_nat (channels (sysp c))) (replicate (Z.to_nat (ranks (sizep c))) d64_zero);
        avg_logic_power_ := d64_zero |}.

(** The position of a cell: vaults of [offset] cells, banks of [n] cells, and [grid_id]. *)
Definition grid_place (vault_id offset bank_id n grid_id : Z) : res Z :=
  a ← imul vault_id offset; b ← imul bank_id n; s ← iadd a b; iadd s grid_id.

(** The row of the cell of a column: [col_id] within a tile of rows. *)
Definition grid_row (col_id col_tile_id : Z) : res Z :=
  q ← int_div col_id (mat_dim_y T);
  per_tile ← int_div (num_y_grids T) (row_tile T); o ← imul col_tile_id per_tile;
  iadd q o.

(** [MapToXY]: the body of its inner loop, of its outer loop, and the whole.  The two
    vectors it returns, which are read at the same index, are a list of pairs. *)
Definition xy_cell (vx vy bx by_ grid_id_x col_tile_id bxo byo : Z) (s : list (Z * Z) * Z) : res (list (Z * Z) * Z) :=
  let '(cells, col_id) := s in
  grid_id_y ← grid_row col_id col_tile_id;
  x ← grid_place vx bxo bx (num_x_grids T) grid_id_x;
  y ← grid_place vy byo by_ (num_y_grids T) grid_id_y;
  col_id ← iadd col_id 1;
  Ok (cells ++ [(x, y)], col_id).
Definition xy_burst (vx vy bx by_ grid_id_x col_tile_id : Z) (s : list (Z * Z) * Address) : res (list (Z * Z) * Address) :=
  let '(cells, temp_addr) := s in
  phy_loc ← GetPhyAddress temp_addr;
  col_id ← imul (column phy_loc) (device_width d);
  bxo ← imul (bank_x p) (num_x_grids T); byo ← imul (bank_y p) (num_y_grids T);
  '(cells, _) ← for_loop (Z.to_nat (device_width d)) 0
     (λ _, xy_cell vx vy bx by_ grid_id_x col_tile_id bxo byo) (cells, col_id);
  col ← iadd (column temp_addr) 1;
  Ok (cells, temp_addr {{ column := col }}).
Definition MapToXY (cmd : Command) (vx vy bx by_ : Z) : res (list (Z * Z)) :=
  let row_id := Row cmd in
  col_tile_id ← int_div row_id (tile_row_num T);
  g ← int_div row_id (mat_dim_x T); grid_id_x ← int_div g (row_tile T);
  fst <$> for_loop (Z.to_nat (BL d)) 0 (λ _, xy_burst vx vy bx by_ grid_id_x col_tile_id) ([], addr cmd).

(** [LocationMappingANDaddEnergy] *)
Definition heat_xy (n z_offset : Z) (energy : double) (xy : Z * Z) (t : Thermal) : res Thermal :=
  y_offset ← imul xy.2 (dimX p);
  i ← iadd z_offset y_offset; idx ← iadd i xy.1;
  heat n idx energy t.
Definition LocationMappingANDaddEnergy (channel : Z) (cmd : Command) (n : Z) (add_energy : double) (t : Thermal) : res Thermal :=
  '(vx, vy) ← MapToVault c T p channel;
  '(bx, by_) ← MapToBank c T p (Bankgroup cmd) (Bank cmd);
  xy ← MapToXY cmd vx vy bx by_;
  z ← MapToZ c T p channel (Bank cmd);
  a ← imul z (dimX p); z_offset ← imul a (dimY p);
  let energy := add_energy ⊘ d64_of_Z (device_width d) in
  for_each xy (heat_xy n z_offset energy) t.

(** [LocationMappingANDaddEnergy_RF], for row [row0] of the bank [bank0] of a rank. *)
Definition heat_row (n z_offset x : Z) (energy : double) (_ : Z) (s : Z * Thermal) : res (Z * Thermal) :=
  let '(y, t) := s in
  y_offset ← imul y (dimX p); k ← iadd z_offset y_offset; idx ← iadd k x;
  t ← heat n idx energy t;
  y ← iadd y 1; Ok (y, t).
Definition LocationMappingANDaddEnergy_RF (channel : Z) (cmd : Command) (bank0 row0 n : Z) (add_energy : double) (t : Thermal)
    : res Thermal :=
  bankgroup_id ← int_div bank0 (banks_per_group d);
  bank_id ← int_rem bank0 (banks_per_group d);
  let new_addr := (addr cmd) {{ row := row0; bankgroup := bankgroup_id; bank := bank_id }} in
  '(vx, vy) ← MapToVault c T p channel;
  '(bx, by_) ← MapToBank c T p bankgroup_id bank_id;
  z ← MapToZ c T p channel bank_id;
  phy_addr ← GetPhyAddress new_addr;
  let row_id := row phy_addr in
  col_tile_id ← int_div row_id (tile_row_num T);
  g ← int_div row_id (mat_dim_x T); grid_id_x ← int_div g (row_tile T);
  grid_id_y ← grid_row 0 col_tile_id;
  bxo ← imul (bank_x p) (num_x_grids T); byo ← imul (bank_y p) (num_y_grids T);
  x ← grid_place vx bxo bx (num_x_grids T) grid_id_x;
  y ← grid_place vy byo by_ (num_y_grids T) grid_id_y;
  l ← imul (dimX p) (dimY p); z_offset ← imul z l;
  snd <$> for_loop (Z.to_nat (num_y_grids T)) 0 (heat_row n z_offset x add_energy) (y, t).

(** ** The energy of a command *)

(** The rows that a refresh of the bank [ib] of a rank refreshes, and its counter. *)
Definition refresh_rows (channel : Z) (cmd : Command) (ib n : Z) (add_energy : double) (t : Thermal) : res Thermal :=
  a ← imul channel (ranks (sizep c)); rank_idx ← iadd a (Rank cmd);
  nrr ← of_option Uninitialised (num_row_refresh <$> untiled T);
  l ← vget (refresh_count t) rank_idx; k ← vget l ib;
  row_s ← imul k nrr;
  k' ← iadd k 1; m ← imul k' nrr;
  rc ← vmod (refresh_count t) rank_idx (λ l, vset l ib (if m =? rows d then 0 else k'));
  _ ← iadd row_s nrr;
  for_loop (Z.to_nat nrr) row_s (λ ir, LocationMappingANDaddEnergy_RF channel cmd ib ir n add_energy)
    (t {{ refresh_count := rc }}).

Definition device_scale : double := if is_stacked c then d64_of_Z 1 else d64_of_Z (devices_per_rank (sizep c)).
Definition scaled (energy : double) : double := energy ⊘ d64_of_Z 1000 ⊘ device_scale.
Definition command_increment (k : CommandType) : double :=
  match k with
  | ACTIVATE => act_energy_inc P
  | READ | READ_PRECHARGE => read_energy_inc P
  | WRITE | WRITE_PRECHARGE => write_energy_inc P
  | _ => d64_zero
  end.

(** [UpdateCMDPower] *)
Definition UpdateCMDPower (channel : Z) (cmd : Command) (t : Thermal) : res Thermal :=
  n ← case_id c channel (Rank cmd);
  match cmd_type cmd with
  | REFRESH =>
      for_loop (Z.to_nat (banks d)) 0 (λ ib t,
        nrr ← of_option Uninitialised (num_row_refresh <$> untiled T);
        let energy := ref_energy_inc P ⊘ d64_of_Z nrr ⊘ d64_of_Z (banks d) ⊘ d64_of_Z (num_y_grids T) in
        refresh_rows channel cmd ib n (scaled energy) t) t
  | REFRESH_BANK =>
      nrr ← of_option Uninitialised (num_row_refresh <$> untiled T);
      let energy := refb_energy_inc P ⊘ d64_of_Z nrr ⊘ d64_of_Z (num_y_grids T) in
      refresh_rows channel cmd (Bank cmd) n (scaled energy) t
  | k =>
      let energy := command_increment k in
      if d64_lt d64_zero energy then
        LocationMappingANDaddEnergy channel cmd n (scaled (energy ⊘ d64_of_Z (BL d))) t
      else Ok t
  end.

(** ** The background energy *)

(** [UpdateBackgroundEnergy], [SetLogicPower] *)
Definition UpdateBackgroundEnergy (channel rank : Z) (energy : double) (t : Thermal) : res Thermal :=
  b ← vmod (background_energy_ t) channel (λ l, vset l rank energy); Ok (t {{ background_energy_ := b }}).
Definition SetLogicPower (logic_power : double) (t : Thermal) : Thermal := t {{ avg_logic_power_ := logic_power }}.

(** The map of the epoch, or of the run. *)
Definition on_map (trans : bool) (f : list (list double) → res (list (list double))) (t : Thermal) : res Thermal :=
  if trans then m ← f (cur_Pmap t); Ok (t {{ cur_Pmap := m }}) else m ← f (accu_Pmap t); Ok (t {{ accu_Pmap := m }}).

(** [UpdatePowerMaps] *)
Definition power_case (layers size : Z) (add logic : double) (j : Z) (m : list (list double)) : res (list (list double)) :=
  m ← for_loop (Z.to_nat layers) 0 (λ i, add_cell j i add) m;
  for_loop (Z.to_nat (size - layers)) layers (λ i, add_cell j i logic) m.
Definition UpdatePowerMaps (add_energy : double) (trans : bool) (clk : Z) (t : Thermal) : res Thermal :=
  let period := if trans then d64_of_Z (epoch_period c) else d64_of_u64 clk in
  let logic := avg_logic_power_ t ⊘ d64_of_Z (dimX p) ⊘ d64_of_Z (dimY p) ⊠ period in
  a ← imul (dimX p) (dimY p); layers ← imul a (numP p - 1); size ← imul a (numP p);
  on_map trans (for_loop (Z.to_nat (num_case p)) 0 (power_case layers size add_energy logic)) t.

(** The loop over the cells of a rank, as it is written: it increments the counter [i] of
    the channels and not its own, [k], which stays 0; the epoch adds to cell [k], the end
    of the run to cell [i].  If it ends there were no cells, and [i] is what it was. *)
Fixpoint rank_cells (fuel : nat) (trans : bool) (n size : Z) (e : double) (i k : Z) (t : Thermal) : res Thermal :=
  if k <? size then
    match fuel with
    | O => Err OutOfFuel
    | S f =>
        t ← on_map trans (add_cell n (if trans then k else i) e) t;
        i ← iadd i 1; rank_cells f trans n size e i k t
    end
  else Ok t.
Definition rank_background (fuel : nat) (trans : bool) (i j : Z) (t : Thermal) : res Thermal :=
  a ← imul i (ranks (sizep c)); n ← iadd a j;
  l ← vget (background_energy_ t) i; b ← vget l j;
  s ← imul (dimX p) (dimY p); size ← imul s (numP p);
  let bg_energy := b ⊘ d64_of_Z size in
  rank_cells fuel trans n size (bg_energy ⊘ d64_of_Z 1000 ⊘ d64_of_Z (devices_per_rank (sizep c))) i 0 t.

(** [UpdateEpoch], and the same for the whole run at the start of [PrintFinalPT]. *)
Definition add_background (fuel : nat) (trans : bool) (clk : Z) (t : Thermal) : res Thermal :=
  if is_stacked c then
    let bg_energy := foldl (foldl d64_add) d64_zero (background_energy_ t) in
    s ← imul (dimX p) (dimY p); cells ← imul s (numP p - 1);
    UpdatePowerMaps (bg_energy ⊘ d64_of_Z cells ⊘ d64_of_Z 1000) trans clk t
  else
    for_loop (Z.to_nat (channels (sysp c))) 0 (λ i,
      for_loop (Z.to_nat (ranks (sizep c))) 0 (rank_background fuel trans i)) t.
Definition UpdateEpoch (fuel : nat) (clk : Z) (t : Thermal) : res Thermal := add_background fuel true (epoch_period c) t.
End Thermal.

(** ** Specification *)

Section Warmth.
Context (c : Config) (P : PowerParams) (T : ThermalParams) (p : Floorplan) (G : Address → res Address) (u : UntiledParams).
Let d := dramp c.

Definition map_size : Z := numP p * (dimX p * dimY p).

(** A cell of a map, and the cells of the bank at a place. *)
Definition cell (m : list (list double)) (n idx : Z) : res double := l ← vget m n; vget l idx.
Definition bank_cell (q : Place) (xy : Z * Z) : Z * Z :=
  (pl_case q, pl_z q * (dimX p * dimY p) + ((pl_y q * num_y_grids T + xy.2) * dimX p + (pl_x q * num_x_grids T + xy.1))).
Definition in_grid_xy (xy : Z * Z) : Prop := 0 ≤ xy.1 < num_x_grids T ∧ 0 ≤ xy.2 < num_y_grids T.

(** Maps of the right sizes, and refresh counters below the number of refreshes that
    visit every row. *)
Definition map_wf (m : list (list double)) : Prop := vsize m = num_case p ∧ Forall (λ l, vsize l = map_size) m.
Definition counters_wf (l : list (list Z)) : Prop :=
  vsize l = channels (sysp c) * ranks (sizep c) ∧
  Forall (λ l, vsize l = banks d ∧ Forall (λ k, 0 ≤ k ∧ k * num_row_refresh u < rows d) l) l.
Record thermal_wf (t : Thermal) : Prop := {
  tw_accu : map_wf (accu_Pmap t); tw_cur : map_wf (cur_Pmap t); tw_counters : counters_wf (refresh_count t) }.

(** Energies put into cells, in order, and those of a cell. *)
Definition energies_at (n idx : Z) (l : list (Z * Z * double)) : list double := (filter (λ x, x.1 = (n, idx)) l).*2.

(** Every cell of both maps has had its energies of [l] added, one after the other. *)
Definition adds (l : list (Z * Z * double)) (t t' : Thermal) : Prop := ∀ n idx,
  cell (accu_Pmap t') n idx = (λ v, foldl d64_add v (energies_at n idx l)) <$> cell (accu_Pmap t) n idx ∧
  cell (cur_Pmap t') n idx = (λ v, foldl d64_add v (energies_at n idx l)) <$> cell (cur_Pmap t) n idx.

(** A configuration whose rows and columns are cut into cells without a rest. *)
Record grid_ok : Prop := {
  go_mat : 0 < mat_dim_x T ∧ 0 < mat_dim_y T;
  go_tile : row_tile T = 1 ∧ tile_row_num T = rows d;
  go_rows : rows d = num_x_grids T * mat_dim_x T ∧ rows d < 2 ^ 31;
  go_columns : columns d * device_width d = num_y_grids T * mat_dim_y T ∧ columns d * device_width d < 2 ^ 31;
  go_burst : 0 < device_width d ∧ 0 < BL d;
  go_size : map_size < 2 ^ 31;
  go_refresh : 0 < num_row_refresh u < 2 ^ 31 ∧ rows d mod num_row_refresh u = 0 }.

(** A physical mapping that keeps rows and columns in range. *)
Definition phys_ok : Prop :=
  (∀ a, 0 ≤ row a < rows d → ∃ a', G a = Ok a' ∧ 0 ≤ row a' < rows d) ∧
  (∀ a, 0 ≤ column a < columns d → ∃ a', G a = Ok a' ∧ 0 ≤ column a' < columns d).

(** The commands of a channel.  A refresh of a single bank is of a bank of the first group:
    of another group the code refreshes the wrong bank ([ex_wrong_group]). *)
Definition command_ok (ch : Z) (cmd : Command) : Prop :=
  0 ≤ ch < channels (sysp c) ∧ 0 ≤ Rank cmd < ranks (sizep c) ∧
  (IsRankCMD cmd = true ∨
   coords_ok c ch (Rank cmd) (Bankgroup cmd) (Bank cmd) ∧
   0 ≤ Row cmd < rows d ∧ 0 ≤ Column cmd ∧ Column cmd + BL d ≤ columns d) ∧
  (cmd_type cmd = REFRESH_BANK → Bankgroup cmd = 0).

(** *** The energies of the commands *)

Definition phys (a : Address) : Address := match G a with Ok a' => a' | Err _ => a end.
Definition bank_place (ch ra bg ba : Z) : Place :=
  match place c T p ch ra bg ba with Ok q => q | Err _ => mkPlace 0 0 0 0 end.

(** Where in its bank a command warms: [device_width] cells, by their columns, for each of
    the [BL] bursts of an access, and all the cells of a refreshed row. *)
Definition burst_grid (a : Address) (x k : Z) : list (Z * Z) :=
  (λ j, (x, (column (phys (a {{ column := column a + k }})) * device_width d + j) / mat_dim_y T)) <$> seqZ 0 (device_width d).
Definition access_grid (cmd : Command) : list (Z * Z) :=
  List.concat (burst_grid (addr cmd) (Row cmd / mat_dim_x T) <$> seqZ 0 (BL d)).
Definition row_grid (a : Address) : list (Z * Z) := (λ y, (row (phys a) / mat_dim_x T, y)) <$> seqZ 0 (num_y_grids T).

(** The refreshes of a bank among commands, and which refresh of the bank the next one is,
    in the round of refreshes that visits every row. *)
Definition refreshes (ch ra bg ba : Z) (x : Z * Command) : bool :=
  (x.1 =? ch) && (Rank x.2 =? ra) &&
  match cmd_type x.2 with
  | REFRESH => true | REFRESH_BANK => (Bankgroup x.2 =? bg) && (Bank x.2 =? ba) | _ => false end.
Definition refresh_round (prev : list (Z * Command)) (ch ra bg ba : Z) : Z :=
  vsize (filter (λ x, refreshes ch ra bg ba x = true) prev) mod (rows d / num_row_refresh u).
Definition refresh_warms (q : Place) (a : Address) (bg ba k : Z) (e : double) : list (Z * Z * double) :=
  List.concat ((λ r, (λ xy, (bank_cell q xy, e)) <$> row_grid (a {{ row := r; bankgroup := bg; bank := ba }}))
    <$> seqZ (k * num_row_refresh u) (num_row_refresh u)).

(** The cells that a command warms, with the energies, after the commands [prev]. *)
Definition rank_warms (prev : list (Z * Command)) (ch : Z) (cmd : Command) (e : double) (ib : Z) : list (Z * Z * double) :=
  let bg := ib / banks_per_group d in let ba := ib mod banks_per_group d in
  refresh_warms (bank_place ch (Rank cmd) bg ba) (addr cmd) bg ba (refresh_round prev ch (Rank cmd) bg ba) e.
Definition warms (prev : list (Z * Command)) (x : Z * Command) : list (Z * Z * double) :=
  let '(ch, cmd) := x in
  let own := bank_place ch (Rank cmd) (Bankgroup cmd) (Bank cmd) in
  match cmd_type cmd with
  | REFRESH =>
      let e := scaled c (ref_energy_inc P ⊘ d64_of_Z (num_row_refresh u) ⊘ d64_of_Z (banks d) ⊘ d64_of_Z (num_y_grids T)) in
      List.concat (rank_warms prev ch cmd e <$> seqZ 0 (banks d))
  | REFRESH_BANK =>
      refresh_warms own (addr cmd) (Bankgroup cmd) (Bank cmd) (refresh_round prev ch (Rank cmd) (Bankgroup cmd) (Bank cmd))
        (scaled c (refb_energy_inc P ⊘ d64_of_Z (num_row_refresh u) ⊘ d64_of_Z (num_y_grids T)))
  | k =>
      let energy := command_increment P k in
      if d64_lt d64_zero energy then
        (λ xy, (bank_cell own xy, scaled c (energy ⊘ d64_of_Z (BL d)) ⊘ d64_of_Z (device_width d))) <$> access_grid cmd
      else []
  end.
Fixpoint all_warms (prev cmds : list (Z * Command)) : list (Z * Z * double) :=
  match cmds with [] => [] | x :: cmds' => warms prev x ++ all_warms (prev ++ [x]) cmds' end.

(** A cell of a bank that a command addresses: of any bank of its rank for a refresh. *)
Definition concerns (x : Z * Command) (n idx : Z) : Prop :=
  ∃ bg ba q xy, place c T p x.1 (Rank x.2) bg ba = Ok q ∧ in_grid_xy xy ∧ (n, idx) = bank_cell q xy ∧
    (cmd_type x.2 = REFRESH ∧ coords_ok c x.1 (Rank x.2) bg ba ∨ bg = Bankgroup x.2 ∧ ba = Bank x.2).

(** ** Lemmas *)

Context (O : org_ok c) (Hplan : new_Floorplan c T = Ok p) (Hu : untiled T = Some u).
Context (Hx : 0 < num_x_grids T) (Hy : 0 < num_y_grids T) (HS : suits c p) (HG : grid_ok).

(** What warming leaves: the energies added, the refresh counters as they were. *)
Definition warmed (l : list (Z * Z * double)) (t t' : Thermal) : Prop :=
  thermal_wf t → thermal_wf t' ∧ adds l t t' ∧ refresh_count t' = refresh_count t.

Lemma energies_at_app n idx l1 l2 : energies_at n idx (l1 ++ l2) = energies_at n idx l1 ++ energies_at n idx l2.
Proof. unfold energies_at. by rewrite filter_app, fmap_app. Qed.

Lemma adds_nil t t' : accu_Pmap t' = accu_Pmap t → cur_Pmap t' = cur_Pmap t → adds [] t t'.
Proof. intros E1 E2 n idx. rewrite E1, E2. by destruct (cell (accu_Pmap t) n idx), (cell (cur_Pmap t) n idx). Qed.

Lemma adds_app l1 l2 t1 t2 t3 : adds l1 t1 t2 → adds l2 t2 t3 → adds (l1 ++ l2) t1 t3.
Proof.
  intros H1 H2 n idx. destruct (H1 n idx) as [E1 E2], (H2 n idx) as [E3 E4]. rewrite E3, E1, E4, E2, energies_at_app.
  split; [destruct (cell (accu_Pmap t1) n idx) | destruct (cell (cur_Pmap t1) n idx)]; cbn; by rewrite ?foldl_app.
Qed.

Lemma warmed_nil t : warmed [] t t.
Proof. intros W. split; [done|]. split; [by apply adds_nil | done]. Qed.
Lemma warmed_app l1 l2 t1 t2 t3 : warmed l1 t1 t2 → warmed l2 t2 t3 → warmed (l1 ++ l2) t1 t3.
Proof.
  intros H1 H2 W1. destruct (H1 W1) as (W2 & A1 & C1), (H2 W2) as (W3 & A2 & C2).
  split; [done|]. split; [by eapply adds_app | congruence].
Qed.

Lemma add_cell_ok n idx e m :
  map_wf m → 0 ≤ n < num_case p → 0 ≤ idx < map_size →
  ∃ m', add_cell n idx e m = Ok m' ∧ map_wf m' ∧
    ∀ n' i', cell m' n' i' = (λ v, foldl d64_add v (energies_at n' i' [(n, idx, e)])) <$> cell m n' i'.
Proof.
  intros [Hm Hl] Hn Hi. destruct (vget_is_Ok m n) as (l & El); [lia|].
  assert (vsize l = map_size) as Hsl.
  { rewrite Forall_forall in Hl. apply Hl. apply vget_lookup in El as [_ El]. by eapply list_elem_of_lookup_2. }
  destruct (vget_is_Ok l idx) as (x & Ex); [lia|].
  assert (vmod l idx (λ x, Ok (x ⊞ e)) = Ok (<[Z.to_nat idx := x ⊞ e]> l)) as E1 by by eapply vmod_Ok.
  exists (<[Z.to_nat n := <[Z.to_nat idx := x ⊞ e]> l]> m). split; [by eapply vmod_Ok|]. split; [split|].
  - by rewrite vsize_insert.
  - apply Forall_insert; [done|]. by rewrite vsize_insert.
  - intros n' i'. unfold cell, energies_at. rewrite filter_cons, filter_nil. cbn [fst].
    rewrite vget_insert by lia. destruct (decide (n' = n)) as [->|Hne].
    + rewrite El. cbn [mbind res_bind]. rewrite vget_insert by lia. destruct (decide (i' = idx)) as [->|Hne].
      * rewrite decide_True by done. rewrite Ex. done.
      * rewrite decide_False by congruence. cbn. by destruct (vget l i').
    + rewrite decide_False by congruence. cbn. by destruct (l ← vget m n'; vget l i').
Qed.

Lemma heat_ok n idx e t :
  thermal_wf t → 0 ≤ n < num_case p → 0 ≤ idx < map_size → ∃ t', heat n idx e t = Ok t' ∧ warmed [(n, idx, e)] t t'.
Proof.
  intros [W1 W2 W3] Hn Hi. destruct (add_cell_ok n idx e _ W1 Hn Hi) as (a & Ea & Wa & Ha).
  destruct (add_cell_ok n idx e _ W2 Hn Hi) as (b & Eb & Wb & Hb).
  unfold heat. rewrite Ea, Eb. cbn [mbind res_bind]. eexists. split; [reflexivity|]. intros _. split; [by split|].
  split; [intros n' i'; by rewrite <- Ha, <- Hb | done].
Qed.

(** A cell of a bank. *)
Lemma heat_bank q xy e t :
  thermal_wf t → on_die c T p q → in_grid_xy xy →
  0 ≤ (bank_cell q xy).2 < map_size ∧
  ∃ t', heat (pl_case q) (bank_cell q xy).2 e t = Ok t' ∧ warmed [(bank_cell q xy, e)] t t'.
Proof.
  intros W [Hc Hz [Hx0 Hx1] [Hy0 Hy1]] [Hxr Hyr]. destruct xy as [x y]. cbn [fst snd bank_cell] in *.
  assert (0 ≤ pl_z q < numP p) as Hz' by (destruct (is_stacked c); lia).
  set (X := pl_x q * num_x_grids T + x) in *. set (Y := pl_y q * num_y_grids T + y) in *.
  assert (0 ≤ X < dimX p) as HX by (unfold X; nia). assert (0 ≤ Y < dimY p) as HY by (unfold Y; nia).
  assert (0 ≤ Y * dimX p + X < dimX p * dimY p) as HYX by nia.
  set (idx := _ + _). assert (0 ≤ idx < map_size) as Hi by (unfold idx, map_size; nia). split; [done|].
  by apply heat_ok.
Qed.

(** The terms of the index of a cell. *)
Lemma bank_index q x y :
  on_die c T p q → 0 ≤ x < num_x_grids T → 0 ≤ y < num_y_grids T →
  0 ≤ (pl_y q * num_y_grids T + y) * dimX p ∧ 0 ≤ pl_x q * num_x_grids T + x ∧
  pl_z q * (dimX p * dimY p) + ((pl_y q * num_y_grids T + y) * dimX p + (pl_x q * num_x_grids T + x)) < map_size ∧
  0 ≤ pl_z q * dimX p ≤ pl_z q * (dimX p * dimY p) ∧ 0 ≤ dimX p * dimY p ≤ map_size.
Proof.
  intros [Hc Hz [Hx0 Hx1] [Hy0 Hy1]] Hxr Hyr.
  assert (0 ≤ pl_z q < numP p) as Hz' by (destruct (is_stacked c); lia).
  set (X := pl_x q * num_x_grids T + x) in *. set (Y := pl_y q * num_y_grids T + y) in *.
  assert (0 ≤ X < dimX p) as HX by (unfold X; nia). assert (0 ≤ Y < dimY p) as HY by (unfold Y; nia).
  assert (0 ≤ Y * dimX p + X < dimX p * dimY p) as HYX by nia.
  assert (0 ≤ pl_z q * dimX p) by nia. unfold map_size. repeat split; nia.
Qed.

(** The position of a cell of a bank. *)
Lemma grid_place_ok v b B D n a g :
  0 ≤ v → 0 ≤ b → 0 ≤ B * n ≤ D → D < 2 ^ 31 → 0 < n → a = v * B + b → (a + 1) * n ≤ D → 0 ≤ g < n →
  grid_place v (B * n) b n g = Ok (a * n + g).
Proof.
  intros Hv Hb HB HD Hn Ha HaD Hg. assert (0 ≤ v * (B * n)) by nia. assert (0 ≤ b * n) by nia.
  assert (a * n = v * (B * n) + b * n) as Ean by nia. assert ((a + 1) * n = a * n + n) as E1 by lia.
  unfold grid_place. rewrite (imul_Ok v), bind_Ok, (imul_Ok b), bind_Ok by lia. rewrite iadd_Ok, bind_Ok by lia.
  rewrite iadd_Ok by lia. by rewrite Ean.
Qed.

(** The column of cells of a row, and the row of cells of a column. *)
Lemma grid_column_ok r :
  0 ≤ r < rows d →
  int_div r (tile_row_num T) = Ok 0 ∧ int_div r (mat_dim_x T) = Ok (r / mat_dim_x T) ∧
  int_div (r / mat_dim_x T) (row_tile T) = Ok (r / mat_dim_x T) ∧ 0 ≤ r / mat_dim_x T < num_x_grids T.
Proof.
  intros Hr. destruct HG as [[Hmx _] [Ht Htr] [Hrows Hi] _ _ _ _]. rewrite Ht, Htr.
  assert (0 ≤ r / mat_dim_x T < num_x_grids T) as Hq by (split; [apply Z.div_pos; lia | apply Z.div_lt_upper_bound; lia]).
  assert (num_x_grids T ≤ rows d) by nia. rewrite !int_div_Ok by lia. rewrite Z.div_1_r, Z.div_small by lia. done.
Qed.

Lemma grid_row_ok col : 0 ≤ col < columns d * device_width d → grid_row T col 0 = Ok (col / mat_dim_y T) ∧ 0 ≤ col / mat_dim_y T < num_y_grids T.
Proof.
  intros Hc. destruct HG as [[_ Hmy] [Ht _] _ [Hcols Hi] _ _ _]. unfold grid_row. rewrite Ht.
  assert (0 ≤ col / mat_dim_y T < num_y_grids T) as Hq by (split; [apply Z.div_pos; lia | apply Z.div_lt_upper_bound; lia]).
  assert (num_y_grids T ≤ columns d * device_width d) by nia. split; [|done].
  rewrite (int_div_Ok col), (int_div_Ok (num_y_grids T)) by lia. cbn [mbind res_bind].
  rewrite imul_Ok by lia. cbn [mbind res_bind]. rewrite iadd_Ok by lia. f_equal. lia.
Qed.

(** The cells of a bank, as pairs of coordinates of the die. *)
Definition die_xy (q : Place) (xy : Z * Z) : Z * Z := (pl_x q * num_x_grids T + xy.1, pl_y q * num_y_grids T + xy.2).

Lemma seqZ_snoc i : 0 ≤ i → seqZ 0 (i + 1) = seqZ 0 i ++ [i].
Proof. intros Hi. rewrite seqZ_app by lia. by rewrite Z.add_0_l. Qed.

Section Access.
Context (ch ra bg ba vx vy bx by_ : Z) (q : Place).
Context (Hpa : parts c T p ch ra bg ba vx vy bx by_ q) (Hod : on_die c T p q).

Lemma place_x g : 0 ≤ g < num_x_grids T → grid_place vx (bank_x p * num_x_grids T) bx (num_x_grids T) g = Ok (pl_x q * num_x_grids T + g).
Proof.
  intros Hg. destruct Hpa as [_ (_ & ? & ?) (_ & ? & ?) _ Ex _], Hod as [_ _ [? ?] _].
  destruct (plan_dims c T p Hplan), (plan_offsets c T p O Hplan Hx Hy) as [? ?]. by eapply grid_place_ok.
Qed.
Lemma place_y g : 0 ≤ g < num_y_grids T → grid_place vy (bank_y p * num_y_grids T) by_ (num_y_grids T) g = Ok (pl_y q * num_y_grids T + g).
Proof.
  intros Hg. destruct Hpa as [_ (_ & ? & ?) (_ & ? & ?) _ _ Ey], Hod as [_ _ _ [? ?]].
  destruct (plan_dims c T p Hplan), (plan_offsets c T p O Hplan Hx Hy) as [? ?]. by eapply grid_place_ok.
Qed.

Lemma xy_burst_ok gx cells a k :
  phys_ok → 0 ≤ gx < num_x_grids T → 0 ≤ column a + k < columns d →
  xy_burst c T p G vx vy bx by_ gx 0 (cells, a {{ column := column a + k }}) =
    Ok (cells ++ (die_xy q <$> burst_grid a gx k), a {{ column := column a + (k + 1) }}) ∧
  Forall in_grid_xy (burst_grid a gx k).
Proof.
  intros [_ HP] Hgx Ha. set (ak := a {{ column := column a + k }}). assert (column ak = column a + k) as Eck by (by destruct a).
  destruct (HP ak) as (a' & Ea & Ha'); [by rewrite Eck|]. unfold xy_burst, burst_grid, phys. fold ak. rewrite Ea. fold d. cbn [mbind res_bind].
  destruct HG as [_ _ _ [Hcols Hi] [Hdw _] _ _].
  assert (0 ≤ column a' * device_width d ∧ column a' * device_width d + device_width d ≤ columns d * device_width d) as [? ?] by nia.
  assert (Forall in_grid_xy ((λ j, (gx, (column a' * device_width d + j) / mat_dim_y T)) <$> seqZ 0 (device_width d))) as Hin.
  { apply Forall_fmap, Forall_forall. intros j Hj%elem_of_seqZ. split; cbn; [done|]. apply grid_row_ok. lia. }
  split; [|exact Hin].
  destruct (plan_dims c T p Hplan), (plan_offsets c T p O Hplan Hx Hy) as [? ?].
  rewrite (imul_Ok (column a')), (imul_Ok (bank_x p)), (imul_Ok (bank_y p)) by lia. cbn [mbind res_bind].
  destruct (for_loop_inv (λ i s, s = (cells ++ (die_xy q <$> ((λ j, (gx, (column a' * device_width d + j) / mat_dim_y T)) <$> seqZ 0 i)),
      column a' * device_width d + i)) (Z.to_nat (device_width d)) 0
    (λ _, xy_cell T vx vy bx by_ gx 0 (bank_x p * num_x_grids T) (bank_y p * num_y_grids T)) (cells, column a' * device_width d))
    as (r & E & ->).
  - cbn. by rewrite app_nil_r, Z.add_0_r.
  - intros i s Hi' ->. unfold xy_cell.
    destruct (grid_row_ok (column a' * device_width d + i)) as [-> Hgy]; [lia|]. cbn [mbind res_bind].
    rewrite place_x, place_y by done. cbn [mbind res_bind]. rewrite iadd_Ok by lia. cbn [mbind res_bind].
    eexists. split; [reflexivity|]. rewrite seqZ_snoc, !fmap_app, app_assoc by lia. cbn. by rewrite Z.add_assoc.
  - fold d. rewrite E. cbn [mbind res_bind]. assert (columns d ≤ columns d * device_width d) by nia.
    rewrite Eck, iadd_Ok by lia. cbn [mbind res_bind]. rewrite Z2Nat.id, Z.add_0_l by lia. unfold ak. f_equal. f_equal.
    destruct a. cbn. f_equal. lia.
Qed.

Lemma MapToXY_ok cmd :
  phys_ok → 0 ≤ Row cmd < rows d → 0 ≤ Column cmd → Column cmd + BL d ≤ columns d →
  MapToXY c T p G cmd vx vy bx by_ = Ok (die_xy q <$> access_grid cmd) ∧ Forall in_grid_xy (access_grid cmd).
Proof.
  intros HP Hr Hc0 Hc1. destruct (grid_column_ok _ Hr) as (E1 & E2 & E3 & Hg). unfold MapToXY. fold d. rewrite E1, E2.
  cbn [mbind res_bind]. rewrite E3. cbn [mbind res_bind]. destruct HG as [_ _ _ _ [_ Hbl] _ _]. unfold access_grid.
  set (gx := Row cmd / mat_dim_x T) in *. unfold Column in *.
  destruct (for_loop_inv (λ i s, s = (die_xy q <$> List.concat (burst_grid (addr cmd) gx <$> seqZ 0 i),
      (addr cmd) {{ column := column (addr cmd) + i }}) ∧ Forall in_grid_xy (List.concat (burst_grid (addr cmd) gx <$> seqZ 0 i)))
    (Z.to_nat (BL d)) 0 (λ _, xy_burst c T p G vx vy bx by_ gx 0) ([], addr cmd)) as (r & E & -> & Hin).
  - cbn. rewrite Z.add_0_r. split; [by destruct (addr cmd) | by apply Forall_nil].
  - intros i s Hi [-> Hin]. destruct (xy_burst_ok gx (die_xy q <$> List.concat (burst_grid (addr cmd) gx <$> seqZ 0 i)) (addr cmd) i HP Hg)
      as [E Hb]; [lia|]. eexists. split; [exact E|].
    rewrite seqZ_snoc, fmap_app, concat_app, fmap_app by lia. cbn [fmap list_fmap List.concat]. rewrite app_nil_r.
    split; [done|]. by apply Forall_app.
  - rewrite Z2Nat.id, Z.add_0_l in * by lia. fold d. rewrite E. by split.
Qed.

(** The index of a cell, and the energy added to it. *)
Lemma heat_xy_ok xy e t :
  thermal_wf t → in_grid_xy xy →
  ∃ t', heat_xy p (pl_case q) (pl_z q * (dimX p * dimY p)) e (die_xy q xy) t = Ok t' ∧ warmed [(bank_cell q xy, e)] t t'.
Proof.
  intros W Hxy. pose proof Hxy as [Hxr Hyr]. destruct (bank_index q xy.1 xy.2 Hod Hxr Hyr) as (I1 & I2 & I3 & I4 & I5).
  destruct (heat_bank q xy e t W Hod Hxy) as (_ & t' & E & S). cbn [bank_cell snd] in E.
  pose proof (go_size HG). exists t'. split; [|done]. unfold heat_xy, die_xy. cbn [fst snd].
  rewrite imul_Ok by lia. cbn [mbind res_bind]. rewrite iadd_Ok by lia. cbn [mbind res_bind]. rewrite iadd_Ok by lia.
  cbn [mbind res_bind]. rewrite <- Z.add_assoc. exact E.
Qed.

Lemma heat_cells_ok l e t :
  Forall in_grid_xy l → thermal_wf t →
  ∃ t', for_each (die_xy q <$> l) (heat_xy p (pl_case q) (pl_z q * (dimX p * dimY p)) e) t = Ok t' ∧
    warmed ((λ xy, (bank_cell q xy, e)) <$> l) t t'.
Proof.
  intros Hl. revert t. induction Hl as [|xy l Hxy Hl IH]; intros t W; [exists t; split; [done | apply warmed_nil]|].
  cbn [fmap list_fmap for_each]. destruct (heat_xy_ok xy e t W Hxy) as (t1 & -> & S1). cbn [mbind res_bind].
  destruct (IH t1 (proj1 (S1 W))) as (t2 & E2 & S2). exists t2. split; [done|]. exact (warmed_app [_] _ _ _ _ S1 S2).
Qed.

Lemma layer_offset :
  (a ← imul (pl_z q) (dimX p); imul a (dimY p)) = Ok (pl_z q * (dimX p * dimY p)) ∧
  (l ← imul (dimX p) (dimY p); imul (pl_z q) l) = Ok (pl_z q * (dimX p * dimY p)).
Proof.
  destruct (bank_index q 0 0 Hod) as (I1 & I2 & I3 & I4 & I5); [lia..|]. pose proof (go_size HG).
  rewrite !imul_Ok by lia. cbn [mbind res_bind]. rewrite !imul_Ok by lia. by rewrite Z.mul_assoc.
Qed.

Lemma access_ok cmd e t :
  phys_ok → Bankgroup cmd = bg → Bank cmd = ba → 0 ≤ Row cmd < rows d → 0 ≤ Column cmd → Column cmd + BL d ≤ columns d →
  thermal_wf t →
  ∃ t', LocationMappingANDaddEnergy c T p G ch cmd (pl_case q) e t = Ok t' ∧
    warmed ((λ xy, (bank_cell q xy, e ⊘ d64_of_Z (device_width d))) <$> access_grid cmd) t t'.
Proof.
  intros HP Ebg Eba Hr Hc0 Hc1 W. destruct (MapToXY_ok cmd HP Hr Hc0 Hc1) as [Exy Hxy].
  destruct Hpa as [_ (Ev & _) (Eb & _) Ez _ _]. unfold LocationMappingANDaddEnergy. rewrite Ev, Ebg, Eba, Eb.
  cbn [mbind res_bind]. rewrite Exy. cbn [mbind res_bind]. rewrite Ez. cbn [mbind res_bind].
  destruct layer_offset as [El _]. apply bind_Ok_inv in El as (a & -> & El). cbn [mbind res_bind]. rewrite El.
  cbn [mbind res_bind]. by apply heat_cells_ok.
Qed.

(** A refreshed row: a column of cells. *)
Lemma row_grid_in a : phys_ok → 0 ≤ row a < rows d → Forall in_grid_xy (row_grid a).
Proof.
  intros [HP _] Ha. destruct (HP a Ha) as (a' & Ea & Ha'). unfold row_grid, phys. rewrite Ea.
  destruct (grid_column_ok _ Ha') as (_ & _ & _ & Hg). apply Forall_fmap, Forall_forall. intros y Hy'%elem_of_seqZ. split; cbn; lia.
Qed.

Lemma refreshed_row_ok cmd bank0 row0 e t :
  phys_ok → bank0 = bg * banks_per_group d + ba → 0 ≤ bg → 0 ≤ ba < banks_per_group d → bank0 < 2 ^ 31 →
  0 ≤ row0 < rows d → thermal_wf t →
  ∃ t', LocationMappingANDaddEnergy_RF c T p G ch cmd bank0 row0 (pl_case q) e t = Ok t' ∧
    warmed ((λ xy, (bank_cell q xy, e)) <$> row_grid ((addr cmd) {{ row := row0; bankgroup := bg; bank := ba }})) t t'.
Proof.
  intros [HP _] Eb0 Hbg Hba Hb31 Hr W. assert (0 ≤ bank0) by nia.
  assert (bank0 / banks_per_group d = bg ∧ bank0 mod banks_per_group d = ba) as [Eg Em].
  { split; [symmetry; apply (Z.div_unique _ _ _ ba) | symmetry; apply (Z.mod_unique _ _ bg)]; lia. }
  destruct Hpa as [_ (Ev & _) (Eb & _) Ez _ _]. unfold LocationMappingANDaddEnergy_RF. fold d.
  rewrite (int_div_Ok bank0), bind_Ok, (int_rem_Ok bank0), bind_Ok, Eg, Em, Ev, bind_Ok by lia. rewrite Eb, bind_Ok.
  rewrite Ez, bind_Ok. set (new_addr := (addr cmd) {{ row := row0; bankgroup := bg; bank := ba }}).
  assert (row new_addr = row0) as Erow by (unfold new_addr; by destruct (addr cmd)).
  destruct (HP new_addr) as (a' & Ea' & Ha'); [by rewrite Erow|]. unfold row_grid, phys. rewrite Ea'.
  destruct (grid_column_ok _ Ha') as (E1 & E2 & E3 & Hg). rewrite bind_Ok, E1, bind_Ok, E2, bind_Ok, E3, bind_Ok.
  destruct HG as [[_ Hmy] _ _ [Hcols Hci] [Hdw _] Hsize _].
  destruct (grid_row_ok 0) as [-> _]; [assert (0 < columns d * device_width d) by nia; lia|].
  rewrite Z.div_0_l, bind_Ok by lia.
  destruct (plan_dims c T p Hplan), (plan_offsets c T p O Hplan Hx Hy) as [? ?].
  rewrite (imul_Ok (bank_x p)), (imul_Ok (bank_y p)), !bind_Ok, place_x, bind_Ok, place_y, bind_Ok by lia.
  destruct layer_offset as [_ El]. apply bind_Ok_inv in El as (l & -> & El). rewrite bind_Ok, El, bind_Ok.
  set (x := row a' / mat_dim_x T) in *.
  destruct (for_loop_inv (λ i s, s.1 = pl_y q * num_y_grids T + 0 + i ∧
      warmed ((λ xy, (bank_cell q xy, e)) <$> ((λ y, (x, y)) <$> seqZ 0 i)) t s.2)
    (Z.to_nat (num_y_grids T)) 0 (heat_row p (pl_case q) (pl_z q * (dimX p * dimY p)) (pl_x q * num_x_grids T + x) e)
    (pl_y q * num_y_grids T + 0, t)) as ([y' t'] & E & [_ S']).
  - cbn [fst snd]. split; [lia | apply warmed_nil].
  - intros i [y1 t1] Hi (Ey & S1). cbn [fst snd] in *. subst y1. rewrite Z.add_0_r.
    destruct (heat_xy_ok (x, i) e t1 (proj1 (S1 W))) as (t2 & E & S2); [split; cbn; lia|].
    unfold heat_row. unfold heat_xy in E. cbn [fst snd die_xy] in E. apply bind_Ok_inv in E as (yo & -> & E). rewrite bind_Ok.
    apply bind_Ok_inv in E as (k & -> & E). rewrite bind_Ok. apply bind_Ok_inv in E as (idx & -> & E).
    rewrite bind_Ok, E, bind_Ok. destruct Hod as [_ _ _ [Hy0 Hy1]]. rewrite iadd_Ok by nia. rewrite bind_Ok.
    eexists. split; [reflexivity|]. cbn [fst snd]. split; [lia|].
    rewrite seqZ_snoc, !fmap_app by lia. exact (warmed_app _ [_] _ _ _ S1 S2).
  - exists t'. rewrite E. rewrite Z2Nat.id, Z.add_0_l in S' by lia. by split.
Qed.
End Access.

(** ** Refreshes *)

(** The counter of a bank, and all of them. *)
Definition count_of (t : Thermal) (ch ra bg ba : Z) : res Z :=
  l ← vget (refresh_count t) (ch * ranks (sizep c) + ra); vget l (bg * banks_per_group d + ba).
Definition counted (f : Z → Z → Z → Z → Z) (t : Thermal) : Prop :=
  ∀ ch ra bg ba, coords_ok c ch ra bg ba → count_of t ch ra bg ba = Ok (f ch ra bg ba).

(** The counters after one more refresh of a bank. *)
Definition bump (f : Z → Z → Z → Z → Z) (ch ra bg ba : Z) : Z → Z → Z → Z → Z := λ ch' ra' bg' ba',
  if decide ((ch', ra', bg', ba') = (ch, ra, bg, ba))
  then (f ch' ra' bg' ba' + 1) mod (rows d / num_row_refresh u) else f ch' ra' bg' ba'.

Lemma counted_ext f g t :
  (∀ ch ra bg ba, coords_ok c ch ra bg ba → f ch ra bg ba = g ch ra bg ba) → counted f t → counted g t.
Proof. intros He Hf ch ra bg ba Hco. rewrite <- He by done. by apply Hf. Qed.

Lemma bank_index_inj bg ba bg' ba' :
  0 ≤ ba < banks_per_group d → 0 ≤ ba' < banks_per_group d →
  bg * banks_per_group d + ba = bg' * banks_per_group d + ba' → bg = bg' ∧ ba = ba'.
Proof. intros H1 H2 E. assert (bg = bg') as -> by nia. lia. Qed.

(** The counter of a bank: the rows of the next refresh exist, and it goes round. *)
Lemma counter_step t f ch ra bg ba :
  thermal_wf t → counted f t → coords_ok c ch ra bg ba →
  let k := f ch ra bg ba in let ri := ch * ranks (sizep c) + ra in let ib := bg * banks_per_group d + ba in
  ∃ inner, vget (refresh_count t) ri = Ok inner ∧ vget inner ib = Ok k ∧ 0 ≤ k ∧
    k * num_row_refresh u + num_row_refresh u ≤ rows d ∧
    ∃ rc, vmod (refresh_count t) ri (λ l, vset l ib (if (k + 1) * num_row_refresh u =? rows d then 0 else k + 1)) = Ok rc ∧
      counters_wf rc ∧ counted (bump f ch ra bg ba) (t {{ refresh_count := rc }}).
Proof.
  intros [_ _ [Hl Ha]] Hf Hco k ri ib. pose proof (Hf _ _ _ _ Hco) as Hk. unfold count_of in Hk. fold ri ib k in Hk.
  apply bind_Ok_inv in Hk as (inner & Ei & Ek). pose proof (vget_range _ _ _ Ei). pose proof (vget_range _ _ _ Ek).
  assert (vsize inner = banks d ∧ Forall (λ k, 0 ≤ k ∧ k * num_row_refresh u < rows d) inner) as [Hs Hks].
  { rewrite Forall_forall in Ha. apply Ha. apply vget_lookup in Ei as [_ Ei]. by eapply list_elem_of_lookup_2. }
  assert (0 ≤ k ∧ k * num_row_refresh u < rows d) as [Hk0 Hk1].
  { rewrite Forall_forall in Hks. apply Hks. pose proof Ek as Ek'. apply vget_lookup in Ek' as [_ Ek']. by eapply list_elem_of_lookup_2. }
  destruct (go_refresh HG) as [Hn Hmod]. apply Z.div_exact in Hmod; [|lia].
  set (m := rows d / num_row_refresh u) in *. assert (k < m) by nia.
  exists inner. split; [done|]. split; [done|]. split; [done|]. split; [nia|].
  set (k' := if _ =? _ then _ else _). assert (k' = (k + 1) mod m) as Ek'.
  { unfold k'. destruct (Z.eqb_spec ((k + 1) * num_row_refresh u) (rows d)); [|rewrite Z.mod_small by nia; done].
    assert (k + 1 = m) as -> by nia. by rewrite Z.mod_same by lia. }
  assert (0 ≤ k' ∧ k' * num_row_refresh u < rows d) as Hk'.
  { rewrite Ek'. pose proof (Z.mod_pos_bound (k + 1) m ltac:(lia)). nia. }
  eexists. split; [eapply vmod_Ok; [done | apply vset_Ok; lia]|]. split; [split|].
  - by rewrite vsize_insert.
  - apply Forall_insert; [done|]. rewrite vsize_insert. split; [done | by apply Forall_insert].
  - intros ch' ra' bg' ba' Hco'. pose proof (Hf _ _ _ _ Hco') as Hk2. unfold count_of in Hk2 |- *.
    assert (∀ x, refresh_count (t {{ refresh_count := x }}) = x) as -> by (by destruct t).
    destruct Hco as [C1 C2 C3 C4], Hco' as [D1 D2 D3 D4]. fold d in C3, C4, D3, D4.
    rewrite vget_insert by lia. unfold bump. destruct (decide (ch' * ranks (sizep c) + ra' = ri)) as [Er|Er]; cycle 1.
    { rewrite decide_False; [exact Hk2|]. intros [= -> -> _ _]. by destruct Er. }
    assert (ch' = ch ∧ ra' = ra) as [-> ->] by (unfold ri in Er; assert (ch' = ch) as -> by nia; lia).
    fold ri in Hk2. rewrite Ei in Hk2. cbn [mbind res_bind] in Hk2 |- *. rewrite vget_insert by lia.
    destruct (decide (bg' * banks_per_group d + ba' = ib)) as [Eb|Eb]; cycle 1.
    { rewrite decide_False; [exact Hk2|]. intros [= -> ->]. by destruct Eb. }
    apply bank_index_inj in Eb as [-> ->]; [|done..]. rewrite decide_True by done. by rewrite Ek'.
Qed.

Lemma rank_index ch ra :
  0 ≤ ch < channels (sysp c) → 0 ≤ ra < ranks (sizep c) →
  (a ← imul ch (ranks (sizep c)); iadd a ra) = Ok (ch * ranks (sizep c) + ra) ∧
  0 ≤ ch * ranks (sizep c) + ra < channels (sysp c) * ranks (sizep c).
Proof.
  intros Hch Hra. destruct O as [_ _ _ _ _ [Hi _]]. rewrite imul_Ok by nia. cbn [mbind res_bind].
  rewrite iadd_Ok by nia. split; [done | nia].
Qed.

Lemma seqZ_snoc_from a n : 0 ≤ n → seqZ a (n + 1) = seqZ a n ++ [a + n].
Proof. intros Hn. by rewrite seqZ_app by lia. Qed.

(** A refresh of a bank warms the rows of its turn. *)
Lemma refresh_rows_ok ch bg ba cmd e t q f :
  phys_ok → coords_ok c ch (Rank cmd) bg ba → placed c T p u ch (Rank cmd) bg ba q → thermal_wf t → counted f t →
  ∃ t', refresh_rows c T p G ch cmd (bg * banks_per_group d + ba) (pl_case q) e t = Ok t' ∧ thermal_wf t' ∧
    adds (refresh_warms q (addr cmd) bg ba (f ch (Rank cmd) bg ba) e) t t' ∧ counted (bump f ch (Rank cmd) bg ba) t'.
Proof.
  intros HP Hco ((vx & vy & bx & by_ & Hpa) & Hod & _) W Hf.
  destruct (counter_step t f ch (Rank cmd) bg ba W Hf Hco) as (inner & E1 & E2 & Hk0 & Hk1 & rc & E3 & W3 & C3).
  set (k := f ch (Rank cmd) bg ba) in *. set (ib := bg * banks_per_group d + ba) in *.
  destruct Hco as [Hch Hra Hbg Hba]. destruct (oo_int c O) as [_ Hb31]. pose proof (oo_banks c O) as Hb.
  fold d in Hb, Hb31, Hbg, Hba. assert (0 ≤ ib < banks d) as Hib by (unfold ib; rewrite Hb; nia).
  destruct (rank_index ch (Rank cmd) Hch Hra) as [Eri Hri]. set (ri := ch * ranks (sizep c) + Rank cmd) in *.
  destruct (go_refresh HG) as [Hn _]. destruct (go_rows HG) as [_ Hrows].
  assert (0 ≤ k * num_row_refresh u) by nia. assert (k + 1 ≤ (k + 1) * num_row_refresh u) by nia.
  unfold refresh_rows. fold d. apply bind_Ok_inv in Eri as (a & -> & Eri). rewrite bind_Ok, Eri, bind_Ok, Hu.
  cbn [fmap option_fmap option_map of_option mbind res_bind]. rewrite E1. cbn [mbind res_bind]. rewrite E2. cbn [mbind res_bind].
  rewrite imul_Ok, bind_Ok, (iadd_Ok k), bind_Ok, (imul_Ok (k + 1)), bind_Ok, E3, bind_Ok, iadd_Ok, bind_Ok by lia.
  set (t0 := t {{ refresh_count := rc }}). assert (thermal_wf t0) as W0 by (destruct W as [W1 W2 _]; by split).
  unfold refresh_warms. set (F := λ r, (λ xy, (bank_cell q xy, e)) <$> row_grid ((addr cmd) {{ row := r; bankgroup := bg; bank := ba }})).
  set (a0 := k * num_row_refresh u) in *.
  destruct (for_loop_inv (λ ir s, 0 ≤ ir - a0 ∧ warmed (List.concat (F <$> seqZ a0 (ir - a0))) t0 s) (Z.to_nat (num_row_refresh u)) a0
    (λ ir, LocationMappingANDaddEnergy_RF c T p G ch cmd ib ir (pl_case q) e) t0) as (t' & E & _ & S').
  - rewrite Z.sub_diag. split; [lia | apply warmed_nil].
  - intros ir t1 Hir [Hd S1].
    destruct (refreshed_row_ok ch (Rank cmd) bg ba vx vy bx by_ q Hpa Hod cmd ib ir e t1 HP) as (t2 & E & S2);
      try done; try lia; [apply (S1 W0)|].
    exists t2. split; [done|]. split; [lia|]. replace (ir + 1 - a0) with (ir - a0 + 1) by lia.
    rewrite seqZ_snoc_from, fmap_app, concat_app by lia. replace (a0 + (ir - a0)) with ir by lia.
    cbn [fmap list_fmap List.concat]. rewrite app_nil_r. by eapply warmed_app.
  - exists t'. split; [exact E|]. destruct (S' W0) as (W' & A' & C'). split; [done|].
    replace (a0 + Z.of_nat (Z.to_nat (num_row_refresh u)) - a0) with (num_row_refresh u) in A' by lia. split; [exact A'|].
    intros ch' ra' bg' ba' Hco'. unfold count_of. rewrite C'. by apply C3.
Qed.

Lemma refresh_round_snoc prev x ch ra bg ba :
  refresh_round (prev ++ [x]) ch ra bg ba =
    if refreshes ch ra bg ba x then (refresh_round prev ch ra bg ba + 1) mod (rows d / num_row_refresh u)
    else refresh_round prev ch ra bg ba.
Proof.
  unfold refresh_round. rewrite filter_app, vsize_app, filter_cons, filter_nil.
  destruct (refreshes ch ra bg ba x).
  - rewrite decide_True by done. by rewrite Zplus_mod_idemp_l.
  - rewrite decide_False by done. by rewrite Z.add_0_r.
Qed.

Lemma placed_at ch ra bg ba q : placed c T p u ch ra bg ba q → bank_place ch ra bg ba = q.
Proof. intros ((vx & vy & bx & by_ & Hpa) & _). unfold bank_place. by rewrite (parts_place _ _ _ _ _ _ _ _ _ _ _ _ Hpa). Qed.

Lemma placed_case ch ra bg ba q : placed c T p u ch ra bg ba q → case_id c ch ra = Ok (pl_case q).
Proof. intros ((? & ? & ? & ? & [Ec _ _ _ _ _]) & _). exact Ec. Qed.

(** The banks of a rank by their number. *)
Lemma nth_bank ch ra ib :
  0 ≤ ch < channels (sysp c) → 0 ≤ ra < ranks (sizep c) → 0 ≤ ib < banks d →
  let bg := ib / banks_per_group d in let ba := ib mod banks_per_group d in
  coords_ok c ch ra bg ba ∧ ib = bg * banks_per_group d + ba.
Proof.
  intros Hch Hra Hib bg ba. destruct O as [_ _ Hg Hbpg Hb _]. fold d in Hg, Hbpg, Hb.
  pose proof (Z.div_mod ib (banks_per_group d) ltac:(lia)). pose proof (Z.mod_pos_bound ib (banks_per_group d) Hbpg).
  assert (ib = bg * banks_per_group d + ba ∧ 0 ≤ ba < banks_per_group d) as [E Hba] by (unfold bg, ba; lia).
  assert (0 ≤ bg < bankgroups d) as Hbg by (split; [by apply Z.div_pos; lia | apply Z.div_lt_upper_bound; lia]).
  clearbody bg ba. by split.
Qed.

(** A refresh of a rank goes over its banks. *)
Lemma rank_refresh_ok prev ch cmd n e t :
  phys_ok → 0 ≤ ch < channels (sysp c) → 0 ≤ Rank cmd < ranks (sizep c) → cmd_type cmd = REFRESH →
  case_id c ch (Rank cmd) = Ok n → thermal_wf t → counted (refresh_round prev) t →
  ∃ t', for_loop (Z.to_nat (banks d)) 0 (λ ib, refresh_rows c T p G ch cmd ib n e) t = Ok t' ∧ thermal_wf t' ∧
    adds (List.concat (rank_warms prev ch cmd e <$> seqZ 0 (banks d))) t t' ∧ counted (refresh_round (prev ++ [(ch, cmd)])) t'.
Proof.
  intros HP Hch Hra Hk En W Hf. pose proof (oo_banks c O) as Hbanks. pose proof (oo_groups c O) as Hgs.
  pose proof (oo_banks_per_group c O) as Hpg. fold d in Hbanks, Hgs, Hpg. assert (0 ≤ banks d) by (rewrite Hbanks; nia).
  set (fi := λ i ch' ra' bg' ba', if decide (ch' = ch ∧ ra' = Rank cmd ∧ bg' * banks_per_group d + ba' < i)
    then (refresh_round prev ch' ra' bg' ba' + 1) mod (rows d / num_row_refresh u) else refresh_round prev ch' ra' bg' ba').
  destruct (for_loop_inv (λ i s, 0 ≤ i ∧ thermal_wf s ∧ adds (List.concat (rank_warms prev ch cmd e <$> seqZ 0 i)) t s ∧ counted (fi i) s)
    (Z.to_nat (banks d)) 0 (λ ib, refresh_rows c T p G ch cmd ib n e) t) as (t' & E & _ & W' & A' & C').
  - split; [lia|]. split; [done|]. split; [by apply adds_nil|]. eapply counted_ext; [|exact Hf].
    intros ch' ra' bg' ba' [_ _ H1 H2]. unfold fi. fold d in H1, H2. rewrite decide_False; [done|]. intros (_ & _ & ?). nia.
  - intros ib t1 Hib (Hi0 & W1 & A1 & C1). destruct (nth_bank ch (Rank cmd) ib Hch Hra) as [Hco Eib]; [lia|].
    set (bg := ib / banks_per_group d) in *. set (ba := ib mod banks_per_group d) in *.
    destruct (bank_placed c T p u O Hplan Hu Hx Hy _ _ _ _ HS Hco) as (q & Hq).
    destruct (refresh_rows_ok ch bg ba cmd e t1 q _ HP Hco Hq W1 C1) as (t2 & E & W2 & A2 & C2).
    rewrite <- Eib in E. pose proof (placed_case _ _ _ _ _ Hq) as Ec. rewrite En in Ec. injection Ec as ->.
    exists t2. split; [done|]. split; [lia|]. split; [done|]. split.
    + rewrite seqZ_snoc, fmap_app, concat_app by lia. cbn [fmap list_fmap List.concat]. rewrite app_nil_r.
      eapply adds_app; [exact A1|]. unfold rank_warms. fold bg ba. rewrite (placed_at _ _ _ _ _ Hq).
      assert (fi ib ch (Rank cmd) bg ba = refresh_round prev ch (Rank cmd) bg ba) as <-; [|exact A2].
      unfold fi. rewrite decide_False; [done|]. lia.
    + eapply counted_ext; [|exact C2]. intros ch' ra' bg' ba' [_ _ H1 H2]. fold d in H1, H2. destruct Hco as [_ _ H3 H4]. fold d in H3, H4.
      unfold bump, fi. case_decide as Hd1.
      * injection Hd1 as -> -> -> ->. rewrite decide_False by lia. rewrite decide_True by lia. done.
      * case_decide as Hd2; case_decide as Hd3; try done; [lia|]. destruct Hd3 as (-> & -> & Hd3).
        assert (bg' * banks_per_group d + ba' = bg * banks_per_group d + ba) as Ed by (destruct (decide (bg' * banks_per_group d + ba' < ib)); [by destruct Hd2|lia]).
        apply bank_index_inj in Ed as [-> ->]; [by destruct Hd1 | done..].
  - exists t'. rewrite Z2Nat.id, Z.add_0_l in A', C' by lia. split; [done|]. split; [done|]. split; [exact A'|].
    eapply counted_ext; [|exact C']. intros ch' ra' bg' ba' [_ _ H1 H2]. fold d in H1, H2.
    rewrite refresh_round_snoc. unfold fi, refreshes. cbn [fst snd]. rewrite Hk, andb_true_r.
    assert (bg' * banks_per_group d + ba' < banks d) by (rewrite Hbanks; nia).
    destruct (Z.eqb_spec ch ch') as [->|]; [|rewrite decide_False; [done|by intros [? _]]].
    destruct (Z.eqb_spec (Rank cmd) ra') as [->|]; [|rewrite decide_False; [done|by intros (_ & ? & _)]].
    by rewrite decide_True.
Qed.

Lemma unrefreshed prev ch cmd t :
  cmd_type cmd ≠ REFRESH → cmd_type cmd ≠ REFRESH_BANK → counted (refresh_round prev) t → counted (refresh_round (prev ++ [(ch, cmd)])) t.
Proof.
  intros H1 H2. apply counted_ext. intros ch' ra' bg' ba' _. rewrite refresh_round_snoc. unfold refreshes. cbn [fst snd].
  destruct (cmd_type cmd); by rewrite ?andb_false_r.
Qed.

(** A command of a bank. *)
Lemma bank_command_ok prev ch cmd t :
  phys_ok → command_ok ch cmd → IsRankCMD cmd ≠ true → thermal_wf t → counted (refresh_round prev) t →
  ∃ t', UpdateCMDPower c P T p G ch cmd t = Ok t' ∧ thermal_wf t' ∧ adds (warms prev (ch, cmd)) t t' ∧
    counted (refresh_round (prev ++ [(ch, cmd)])) t'.
Proof.
  intros HP (Hch & Hra & Hcmd & Hbg0) Hrk W Hf. destruct Hcmd as [|(Hco & Hr & Hc0 & Hc1)]; [done|].
  destruct (bank_placed c T p u O Hplan Hu Hx Hy _ _ _ _ HS Hco) as (q & Hq). pose proof (placed_case _ _ _ _ _ Hq) as En.
  unfold UpdateCMDPower. fold d. rewrite En, Hu. cbn [fmap option_fmap option_map of_option mbind res_bind].
  unfold warms. rewrite (placed_at _ _ _ _ _ Hq). destruct (decide (cmd_type cmd = REFRESH_BANK)) as [Hk|Hk].
  - rewrite Hk. specialize (Hbg0 Hk). rewrite Hbg0 in *.
    destruct (refresh_rows_ok ch 0 (Bank cmd) cmd (scaled c (refb_energy_inc P ⊘ d64_of_Z (num_row_refresh u) ⊘ d64_of_Z (num_y_grids T)))
      t q _ HP Hco Hq W Hf) as (t' & E & W' & A' & C').
    exists t'. split; [exact E|]. split; [done|]. split; [exact A'|]. eapply counted_ext; [|exact C'].
    intros ch' ra' bg' ba' _. rewrite refresh_round_snoc. unfold bump, refreshes. cbn [fst snd]. rewrite Hk, Hbg0.
    case_decide as Hd; [injection Hd as -> -> -> ->; by rewrite !Z.eqb_refl|].
    destruct (Z.eqb_spec ch ch') as [->|], (Z.eqb_spec (Rank cmd) ra') as [<-|], (Z.eqb_spec 0 bg') as [<-|],
      (Z.eqb_spec (Bank cmd) ba') as [<-|]; done.
  - assert (∀ k, ∃ t', (if d64_lt d64_zero (command_increment P k) then
      LocationMappingANDaddEnergy c T p G ch cmd (pl_case q) (scaled c (command_increment P k ⊘ d64_of_Z (BL d))) t else Ok t) = Ok t' ∧
      thermal_wf t' ∧ adds (if d64_lt d64_zero (command_increment P k) then
        (λ xy, (bank_cell q xy, scaled c (command_increment P k ⊘ d64_of_Z (BL d)) ⊘ d64_of_Z (device_width d))) <$> access_grid cmd
      else []) t t' ∧ counted (refresh_round (prev ++ [(ch, cmd)])) t') as Hacc.
    { intros k. assert (counted (refresh_round (prev ++ [(ch, cmd)])) t) as Hf'
        by (apply unrefreshed; [unfold IsRankCMD in Hrk; by intros Hk'; rewrite Hk' in Hrk | done | done]).
      destruct (d64_lt _ _); [|exists t; split; [done|]; split; [done|]; split; [by apply adds_nil | done]].
      pose proof Hq as ((vx & vy & bx & by_ & Hpa) & Hod & _).
      destruct (access_ok _ _ _ _ _ _ _ _ q Hpa Hod cmd (scaled c (command_increment P k ⊘ d64_of_Z (BL d))) t HP) as (t' & E & S); try done.
      destruct (S W) as (W' & A' & C'). exists t'. split; [done|]. split; [done|]. split; [exact A'|].
      intros ch' ra' bg' ba' Hco'. unfold count_of. rewrite C'. by apply Hf'. }
    unfold IsRankCMD in Hrk. destruct (cmd_type cmd) eqn:Ek; try (by destruct Hrk); try done; apply Hacc.
Qed.

Lemma command_warms prev ch cmd t :
  phys_ok → command_ok ch cmd → thermal_wf t → counted (refresh_round prev) t →
  ∃ t', UpdateCMDPower c P T p G ch cmd t = Ok t' ∧ thermal_wf t' ∧ adds (warms prev (ch, cmd)) t t' ∧
    counted (refresh_round (prev ++ [(ch, cmd)])) t'.
Proof.
  intros HP Hcmd W Hf. destruct (decide (IsRankCMD cmd = true)) as [Hrk|Hrk]; [|by apply bank_command_ok].
  destruct Hcmd as (Hch & Hra & _). unfold UpdateCMDPower. fold d.
  assert (∃ n, case_id c ch (Rank cmd) = Ok n) as (n & En).
  { unfold case_id. destruct (is_stacked c); [by eexists|]. destruct (rank_index ch (Rank cmd) Hch Hra) as [E _]. by eexists. }
  rewrite En, Hu. cbn [fmap option_fmap option_map of_option mbind res_bind]. unfold warms.
  unfold IsRankCMD in Hrk. destruct (cmd_type cmd) eqn:Hk; try discriminate Hrk; [by apply rank_refresh_ok|..];
    (exists t; split; [reflexivity|]; split; [done|]; split; [by apply adds_nil | apply unrefreshed; [by rewrite Hk.. | done]]).
Qed.

(** A command warms cells of the banks that it addresses, and no others. *)
Lemma refresh_warms_in q a bg ba k e z :
  phys_ok → 0 ≤ k → k * num_row_refresh u + num_row_refresh u ≤ rows d → z ∈ refresh_warms q a bg ba k e →
  ∃ xy, in_grid_xy xy ∧ z.1 = bank_cell q xy.
Proof.
  intros HP H0 Hk Hz. destruct (go_refresh HG) as [Hn _]. unfold refresh_warms in Hz. apply list_elem_of_In, in_concat in Hz as (l & Hl & Hz).
  apply list_elem_of_In, list_elem_of_fmap in Hl as (r & -> & Hr%elem_of_seqZ). apply list_elem_of_In, list_elem_of_fmap in Hz as (xy & -> & Hxy).
  exists xy. split; [|done]. set (a' := a {{ row := r; bankgroup := bg; bank := ba }}) in *.
  assert (row a' = r) as Er by (unfold a'; by destruct a). assert (0 ≤ k * num_row_refresh u) by nia.
  pose proof (row_grid_in a' HP ltac:(lia)) as Hin. rewrite Forall_forall in Hin. by apply Hin.
Qed.

Lemma refresh_round_rows prev ch ra bg ba :
  let k := refresh_round prev ch ra bg ba in 0 ≤ k ∧ k * num_row_refresh u + num_row_refresh u ≤ rows d.
Proof.
  cbv zeta. unfold refresh_round. destruct (go_refresh HG) as [Hn Hmod]. destruct (go_rows HG) as [Hr _], (go_mat HG) as [? _].
  apply Z.div_exact in Hmod; [|lia]. assert (0 < rows d) by nia. set (m := rows d / num_row_refresh u) in *. assert (0 < m) by nia.
  pose proof (Z.mod_pos_bound (vsize (filter (λ x, refreshes ch ra bg ba x = true) prev)) m ltac:(lia)). nia.
Qed.

Lemma warms_concern prev x z : phys_ok → command_ok x.1 x.2 → z ∈ warms prev x → concerns x z.1.1 z.1.2.
Proof.
  intros HP. destruct x as [ch cmd]. cbn [fst snd]. intros (Hch & Hra & Hcmd & _) Hz.
  assert (∀ bg ba q, placed c T p u ch (Rank cmd) bg ba q → ∀ xy, in_grid_xy xy ∧ z.1 = bank_cell q xy →
    (cmd_type cmd = REFRESH ∧ coords_ok c ch (Rank cmd) bg ba ∨ bg = Bankgroup cmd ∧ ba = Bank cmd) → concerns (ch, cmd) z.1.1 z.1.2) as Hin.
  { intros bg ba q ((vx & vy & bx & by_ & Hpa) & _) xy [Hxy Ez] Hw. exists bg, ba, q, xy. cbn [fst snd].
    split; [by eapply parts_place|]. split; [done|]. split; [by destruct z as [[] ?] | done]. }
  unfold warms in Hz. destruct (decide (IsRankCMD cmd = true)) as [Hrk|Hrk].
  - unfold IsRankCMD in Hrk. destruct (cmd_type cmd) eqn:Hk; try discriminate Hrk; cbn [command_increment] in Hz;
      try (by apply list_elem_of_In in Hz).
    apply list_elem_of_In, in_concat in Hz as (l & Hl & Hz). apply list_elem_of_In, list_elem_of_fmap in Hl as (ib & -> & Hib%elem_of_seqZ).
    destruct (nth_bank ch (Rank cmd) ib Hch Hra ltac:(lia)) as [Hco _]. unfold rank_warms in Hz.
    destruct (bank_placed c T p u O Hplan Hu Hx Hy _ _ _ _ HS Hco) as (q & Hq). rewrite (placed_at _ _ _ _ _ Hq) in Hz.
    destruct (refresh_round_rows prev ch (Rank cmd) (ib / banks_per_group d) (ib mod banks_per_group d)) as [H1 H2].
    destruct (refresh_warms_in _ _ _ _ _ _ _ HP H1 H2 (proj2 (list_elem_of_In _ _) Hz)) as (xy & Hxy). eapply Hin; eauto.
  - destruct Hcmd as [|(Hco & Hr & Hc0 & Hc1)]; [done|].
    destruct (bank_placed c T p u O Hplan Hu Hx Hy _ _ _ _ HS Hco) as (q & Hq). rewrite (placed_at _ _ _ _ _ Hq) in Hz.
    destruct (decide (cmd_type cmd = REFRESH_BANK)) as [Hk|Hk].
    + rewrite Hk in Hz. destruct (refresh_round_rows prev ch (Rank cmd) (Bankgroup cmd) (Bank cmd)) as [H1 H2].
      destruct (refresh_warms_in _ _ _ _ _ _ _ HP H1 H2 Hz) as (xy & Hxy). eapply Hin; eauto.
    + assert (∀ k e, z ∈ (if d64_lt d64_zero k then (λ xy, (bank_cell q xy, e)) <$> access_grid cmd else []) → concerns (ch, cmd) z.1.1 z.1.2) as Hacc.
      { intros k e Hze. destruct (d64_lt d64_zero k); [|by apply not_elem_of_nil in Hze]. apply list_elem_of_fmap in Hze as (xy & -> & Hxy).
        pose proof Hq as ((vx & vy & bx & by_ & Hpa) & Hod & _).
        destruct (MapToXY_ok _ _ _ _ _ _ _ _ _ Hpa Hod cmd HP Hr Hc0 Hc1) as [_ Hg]. rewrite Forall_forall in Hg.
        eapply Hin; eauto. }
      unfold IsRankCMD in Hrk. destruct (cmd_type cmd) eqn:Ek; try (by destruct Hrk); try done; by eapply Hacc.
Qed.
End Warmth.

(** ** Physical mappings *)

Lemma phys_ok_identity c : phys_ok c (GetPhyAddress None).
Proof. split; intros a Ha; by exists a. Qed.

Lemma ModuloWidth_low a w pos : 0 ≤ a < 2 ^ 64 → 0 ≤ pos → 0 ≤ w ≤ 31 → ModuloWidth a w pos = Z.shiftr a pos mod 2 ^ w.
Proof.
  intros Ha Hp Hw. unfold ModuloWidth. set (b := Z.shiftr a pos).
  assert (0 ≤ b < 2 ^ 64) as Hb.
  { unfold b. rewrite Z.shiftr_div_pow2 by lia. pose proof (Z.pow_pos_nonneg 2 pos ltac:(lia) Hp).
    split; [apply Z.div_pos; lia | apply Z.div_lt_upper_bound; nia]. }
  pose proof (Z.pow_pos_nonneg 2 w ltac:(lia) ltac:(lia)). pose proof (Z.pow_le_mono_r 2 w 31 ltac:(lia) ltac:(lia)).
  rewrite <- Z.ldiff_ones_r by lia.
  assert (Z.lxor b (Z.ldiff b (Z.ones w)) = b mod 2 ^ w) as E.
  { rewrite <- Z.land_ones by lia. apply Z.bits_inj'. intros n _. rewrite Z.lxor_spec, Z.ldiff_spec, Z.land_spec.
    by destruct (Z.testbit b n), (Z.testbit (Z.ones w) n). }
  assert (Z.ldiff b (Z.ones w) = b - b mod 2 ^ w) as El.
  { rewrite Z.ldiff_ones_r, Z.shiftl_mul_pow2, Z.shiftr_div_pow2 by lia. pose proof (Z.div_mod b (2 ^ w)). lia. }
  pose proof (Z.mod_pos_bound b (2 ^ w) ltac:(lia)). pose proof (Z.mod_le b (2 ^ w) ltac:(lia) ltac:(lia)).
  rewrite u64_small by lia. rewrite E, Z.mod_small by lia. done.
Qed.

(** A mapping of six fields whose positions and widths fit the address, and whose rows
    and columns are those of a bank. *)
Record mapping_ok (c : Config) (m : list (list Z)) (off : Z) : Prop := {
  mo_fields : List.length m = 6%nat;
  mo_positions : Forall (Forall (λ k, 0 ≤ k < 64)) m;
  mo_widths : Forall (λ f, vsize f ≤ 31) m;
  mo_total : 0 ≤ off ∧ off + vsize (List.concat m) < 64;
  mo_row : 2 ^ vsize (nth 4 m []) ≤ rows (dramp c);
  mo_column : 2 ^ vsize (nth 5 m []) ≤ columns (dramp c) }.

Lemma scatter_ok o k f h :
  Forall (λ k, 0 ≤ k < 64) f → vsize f = k → k ≤ 64 → 0 ≤ h < 2 ^ 64 → ∃ h', scatter o k f h = Ok h' ∧ 0 ≤ h' < 2 ^ 64.
Proof.
  intros Hf. revert k h. induction Hf as [|x f Hx Hf IH]; intros k h Hk H64 Hh; [by exists h|].
  rewrite vsize_cons in Hk. pose proof (vsize_nonneg f). cbn [scatter]. unfold shift_chk.
  destruct (Z.leb_spec 0 (k - 1)), (Z.ltb_spec (k - 1) 64), (Z.leb_spec 0 x), (Z.ltb_spec x 64); try lia.
  cbn [andb mbind res_bind]. apply IH; [lia | lia |]. set (b := u64 _). assert (0 ≤ b < 2 ^ 64) as Hb by apply u64_range.
  assert (0 ≤ Z.lor h b) by (apply Z.lor_nonneg; lia). split; [done|].
  destruct (Z.eq_dec (Z.lor h b) 0) as [->|]; [lia|]. apply Z.log2_lt_pow2; [lia|]. rewrite Z.log2_lor by lia.
  apply Z.max_lub_lt; (match goal with |- Z.log2 ?z < _ => destruct (Z.eq_dec z 0) as [->|]; [cbn; lia|] end);
    apply Z.log2_lt_pow2; lia.
Qed.

Lemma scatters_ok l h :
  Forall (λ x : Z * list Z, Forall (λ k, 0 ≤ k < 64) x.2 ∧ vsize x.2 ≤ 31) l → 0 ≤ h < 2 ^ 64 →
  ∃ h', for_each l (λ '(o, f) h, scatter o (vsize f) f h) h = Ok h' ∧ 0 ≤ h' < 2 ^ 64.
Proof.
  intros Hl. revert h. induction Hl as [|[o f] l [Hp Hw] Hl IH]; intros h Hh; [by exists h|].
  cbn [for_each fst snd] in *. destruct (scatter_ok o (vsize f) f h) as (h1 & -> & H1); [done | done | lia | done |].
  cbn [mbind res_bind]. by apply IH.
Qed.

(** The fields that are read: below the powers of two of their widths, in order. *)
Lemma gather_ok h pos fs :
  0 ≤ h < 2 ^ 64 → 0 ≤ pos → pos + vsize (List.concat fs) < 64 → Forall (λ f, vsize f ≤ 31) fs →
  ∃ l, gather h pos fs = Ok l ∧ Forall2 (λ f x, 0 ≤ x < 2 ^ vsize f) (reverse fs) l.
Proof.
  intros Hh Hp Ht Hw. revert pos Hp Ht. induction Hw as [|f fs Hf Hw IH]; intros pos Hp Ht.
  { exists []. split; [done | constructor]. }
  cbn [gather List.concat] in *. rewrite vsize_app in Ht. pose proof (vsize_nonneg f). pose proof (vsize_nonneg (List.concat fs)).
  unfold shift_chk.
  destruct (Z.leb_spec 0 pos), (Z.ltb_spec pos 64), (Z.leb_spec 0 (vsize f)), (Z.ltb_spec (vsize f) 64); try lia.
  cbn [andb mbind res_bind]. destruct (IH (pos + vsize f)) as (l & -> & Hl); [lia | lia |]. cbn [mbind res_bind].
  eexists. split; [reflexivity|]. rewrite reverse_cons. apply Forall2_app; [done|]. constructor; [|constructor].
  rewrite ModuloWidth_low by lia. pose proof (Z.pow_pos_nonneg 2 (vsize f) ltac:(lia) ltac:(lia)).
  pose proof (Z.pow_le_mono_r 2 (vsize f) 31 ltac:(lia) ltac:(lia)).
  pose proof (Z.mod_pos_bound (Z.shiftr h pos) (2 ^ vsize f) ltac:(lia)). rewrite i32_small by lia. lia.
Qed.

Lemma phys_ok_mapped c m off : mapping_ok c m off → phys_ok c (GetPhyAddress (Some (m, off))).
Proof.
  intros [H6 Hp Hw [Ho Ht] Hr Hc].
  assert (∀ a, ∃ a', GetPhyAddress (Some (m, off)) a = Ok a' ∧ 0 ≤ row a' < rows (dramp c) ∧ 0 ≤ column a' < columns (dramp c)) as H.
  2: { split; intros a _; destruct (H a) as (a' & E & ? & ?); by exists a'. }
  intros a. unfold GetPhyAddress. do 7 (destruct m as [|? m]; try discriminate H6).
  repeat match goal with H : Forall _ (_ :: _) |- _ => apply Forall_cons in H as [? H] end.
  match goal with |- context [for_each ?l] => destruct (scatters_ok l 0) as (h & -> & Hh) end.
  { cbn [zip zip_with]. repeat constructor; done. }
  { lia. }
  cbn [mbind res_bind].
  match goal with |- context [gather h off ?fs] => destruct (gather_ok h off fs Hh Ho) as (new & -> & Hnew) end.
  { eapply Z.le_lt_trans; [|exact Ht]. apply Z.add_le_mono_l, Z.eq_le_incl. unfold vsize. f_equal.
    cbn. rewrite !length_app. cbn. lia. }
  { cbn. repeat constructor; done. }
  rewrite reverse_involutive in Hnew. do 6 (apply Forall2_cons_inv_l in Hnew as (? & ? & ? & Hnew & ->)).
  apply Forall2_nil_inv_l in Hnew as ->. cbn [mbind res_bind]. eexists. split; [reflexivity|]. cbn [row column nth] in *. lia.
Qed.

(** ** Runs *)

(** A thermal calculator on an organisation its floorplan suits. *)
Record thermal_setup (c : Config) (T : ThermalParams) (p : Floorplan) (u : UntiledParams) : Prop := {
  ts_org : org_ok c; ts_plan : new_Floorplan c T = Ok p; ts_untiled : untiled T = Some u;
  ts_grid : 0 < num_x_grids T ∧ 0 < num_y_grids T; ts_suits : suits c p; ts_cells : grid_ok c T p u }.

Lemma new_maps_wf c T p u t :
  thermal_setup c T p u → new_Thermal c p = Ok t → thermal_wf c p u t.
Proof.
  intros [O E U [Gx Gy] S G] Hn. unfold new_Thermal in Hn.
  apply bind_Ok_inv in Hn as (a & [-> _]%imul_inv & Hn). apply bind_Ok_inv in Hn as (s & [-> _]%imul_inv & Hn).
  apply bind_Ok_inv in Hn as (n & [-> _]%imul_inv & Hn).
  destruct (Z.ltb_spec (num_case p) 0), (Z.ltb_spec (numP p * dimX p * dimY p) 0),
    (Z.ltb_spec (channels (sysp c) * ranks (sizep c)) 0), (Z.ltb_spec (banks (dramp c)) 0); try done.
  injection Hn as <-. rewrite <- Z.mul_assoc in *. fold (map_size p) in *.
  assert (∀ A (x : A) k, 0 ≤ k → vsize (replicate (Z.to_nat k) x) = k) as Hrep
    by (intros A x k Hk; unfold vsize; rewrite length_replicate; lia).
  assert (map_wf p (replicate (Z.to_nat (num_case p)) (replicate (Z.to_nat (map_size p)) d64_zero))) as Hm.
  { split; [by apply Hrep|]. apply Forall_replicate. by apply Hrep. }
  split; [exact Hm | exact Hm |]. cbn [refresh_count]. split; [by apply Hrep|]. apply Forall_replicate.
  split; [by apply Hrep|]. apply Forall_replicate. destruct (go_rows _ _ _ _ G) as [Hr _], (go_mat _ _ _ _ G) as [? _].
  rewrite Hr. split; [lia | nia].
Qed.

(** The commands of a run, one after the other. *)
Definition thermal_run (c : Config) (P : PowerParams) (T : ThermalParams) (p : Floorplan) (G : Address → res Address)
    (cmds : list (Z * Command)) (t : Thermal) : res Thermal :=
  for_each cmds (λ '(ch, cmd), UpdateCMDPower c P T p G ch cmd) t.

Lemma thermal_run_ok c P T p u G prev cmds t :
  thermal_setup c T p u → phys_ok c G → Forall (λ x, command_ok c x.1 x.2) cmds → thermal_wf c p u t →
  counted c (refresh_round c u prev) t →
  ∃ t', thermal_run c P T p G cmds t = Ok t' ∧ thermal_wf c p u t' ∧ adds (all_warms c P T p G u prev cmds) t t'.
Proof.
  intros HS HP Hc. pose proof HS as [O E U [Gx Gy] S Gr]. revert prev t.
  induction Hc as [|[ch cmd] cmds Hcmd Hc IH]; intros prev t W Hf; [exists t; split; [done|]; split; [done | by apply adds_nil]|].
  destruct (command_warms c P T p G u O E U Gx Gy S Gr prev ch cmd t HP Hcmd W Hf) as (t1 & E1 & W1 & A1 & C1).
  destruct (IH _ t1 W1 C1) as (t2 & E2 & W2 & A2). exists t2. unfold thermal_run. cbn [for_each]. rewrite E1. cbn [mbind res_bind].
  split; [exact E2|]. split; [done|]. by eapply adds_app.
Qed.

(** Fresh maps hold zeros, and fresh counters too. *)
Lemma new_maps_zero c T p u t :
  thermal_setup c T p u → new_Thermal c p = Ok t →
  counted c (refresh_round c u []) t ∧
  ∀ n idx, 0 ≤ n < num_case p → 0 ≤ idx < map_size p →
    cell (accu_Pmap t) n idx = Ok d64_zero ∧ cell (cur_Pmap t) n idx = Ok d64_zero.
Proof.
  intros [O E U [Gx Gy] S G] Hn. unfold new_Thermal in Hn.
  apply bind_Ok_inv in Hn as (a & [-> _]%imul_inv & Hn). apply bind_Ok_inv in Hn as (s & [-> _]%imul_inv & Hn).
  apply bind_Ok_inv in Hn as (n & [-> _]%imul_inv & Hn). destruct (_ || _); [done|]. injection Hn as <-.
  assert (∀ A (x : A) k i, 0 ≤ i < k → vget (replicate (Z.to_nat k) x) i = Ok x) as Hrep.
  { intros A x k i Hi. apply vget_lookup. split; [lia|]. apply lookup_replicate_2. lia. }
  split.
  - intros ch ra bg ba [H1 H2 H3 H4]. unfold count_of. cbn [refresh_count].
    rewrite Hrep, bind_Ok, Hrep; [unfold refresh_round; rewrite filter_nil; by rewrite Zmod_0_l|rewrite (oo_banks c O); nia|nia].
  - intros n idx Hnr Hi. unfold map_size in Hi. unfold cell. cbn [accu_Pmap cur_Pmap].
    rewrite Hrep, bind_Ok, Hrep by (done || nia). done.
Qed.

(** The loops of the background energy of the memories that are not stacked never end. *)
Lemma rank_cells_endless fuel trans n size e i k t t' :
  k < size → rank_cells fuel trans n size e i k t ≠ Ok t'.
Proof.
  intros Hk. revert i t. induction fuel as [|f IH]; intros i t; cbn [rank_cells]; destruct (Z.ltb_spec k size); try lia; [done|].
  intros (t1 & _ & E)%bind_Ok_inv. apply bind_Ok_inv in E as (i' & _ & E). by eapply IH.
Qed.

Lemma background_endless c T p u fuel trans clk t t' :
  thermal_setup c T p u → is_stacked c = false → add_background c p fuel trans clk t ≠ Ok t'.
Proof.
  intros [O E U [Gx Gy] S G] Hs. unfold add_background. rewrite Hs. destruct (flat_plan c T p O E Hs)
    as (Hbx & Hby & _ & HP & Hdx & Hdy & _). pose proof (oo_channels c O). pose proof (oo_ranks c O).
  destruct (Z.to_nat (channels (sysp c))) as [|nc] eqn:Ec; [lia|]. destruct (Z.to_nat (ranks (sizep c))) as [|nr] eqn:Er; [lia|].
  cbn [for_loop]. intros (t1 & (t2 & Eb & _)%bind_Ok_inv & _)%bind_Ok_inv. unfold rank_background in Eb.
  do 4 (apply bind_Ok_inv in Eb as (? & _ & Eb)). apply bind_Ok_inv in Eb as (a & [-> _]%imul_inv & Eb).
  apply bind_Ok_inv in Eb as (size & [-> _]%imul_inv & Eb).
  revert Eb. apply rank_cells_endless. rewrite HP, Hdx, Hdy. nia.
Qed.

(** ** Properties *)

(** C23: Every command warms exactly its cells.  Take an organisation that the floorplan
    suits, whose rows and columns are cut into cells without a rest, whose rows are not
    tiled and whose refreshes visit every row, and commands within it; a refresh of a
    single bank is of one of the first group, since of another group the code warms the
    wrong bank.  Then any sequence of them is added to fresh maps without leaving a table
    or a map, and every cell of both maps ends as the sum, in order, of the energies that
    [all_warms] puts into it: for an access, its energy cut by bursts, devices and bits,
    on the cells of its row and of the columns of each of its bursts; for the [k]-th
    refresh of a bank, its share on every cell of the [k]-th rows, modulo the round.  And
    each of these cells lies in the bank, or for a refresh in a bank of the rank, that the
    command addresses. *)
Theorem commands_warm_their_banks c P T p u G cmds t0 :
  thermal_setup c T p u → phys_ok c G → new_Thermal c p = Ok t0 → Forall (λ x, command_ok c x.1 x.2) cmds →
  (∃ t, thermal_run c P T p G cmds t0 = Ok t ∧
    ∀ n idx, 0 ≤ n < num_case p → 0 ≤ idx < map_size p →
      let sum := foldl d64_add d64_zero (energies_at n idx (all_warms c P T p G u [] cmds)) in
      cell (accu_Pmap t) n idx = Ok sum ∧ cell (cur_Pmap t) n idx = Ok sum) ∧
  ∀ prev x z, x ∈ cmds → z ∈ warms c P T p G u prev x → concerns c T p x z.1.1 z.1.2.
Proof.
  intros HS HP Hn Hc. destruct (new_maps_zero c T p u t0 HS Hn) as [Hf Hz]. split.
  - destruct (thermal_run_ok c P T p u G [] cmds t0 HS HP Hc) as (t & E & _ & A); [by eapply new_maps_wf | done|].
    exists t. split; [done|]. intros n idx Hnr Hi. destruct (A n idx) as [A1 A2], (Hz n idx Hnr Hi) as [Z1 Z2].
    by rewrite A1, A2, Z1, Z2.
  - intros prev x z Hx Hzx. rewrite Forall_forall in Hc. pose proof HS as [O E U [Gx Gy] S Gr]. by eapply warms_concern; eauto.
Qed.

Definition ex_c : Config := ex_ddr4 8 65536.
Lemma ex_setup : thermal_setup ex_c (ex_thermal ex_c) (ex_plan ex_c) ex_untiled.
Proof.
  destruct ex_plan_ok as (O & E & U & S). split; [exact O | exact E | exact U | | exact S |].
  - split; vm_compute; reflexivity.
  - split; vm_compute; repeat split; congruence.
Qed.

(** The location mapping of DDR4_8Gb_x8_2400.ini. *)
Definition ex_mapping : PhyMapping :=
  match SetPhyAddressMapping "33,33,32-31,30-29,26:13-27-28,12:3" 8 with Ok m => m | Err _ => None end.
Lemma ex_mapping_ok : phys_ok ex_c (GetPhyAddress ex_mapping).
Proof. apply phys_ok_mapped. split; vm_compute; repeat constructor; congruence. Qed.

Definition ex_thermal_state : Thermal :=
  match new_Thermal ex_c (ex_plan ex_c) with Ok t => t | Err _ => mkThermal [] [] [] [] d64_zero end.
Definition ex_commands : list (Z * Command) :=
  [(0, mkCommand ACTIVATE (mkAddress 0 1 2 3 4660 5) 0); (0, mkCommand READ (mkAddress 0 1 2 3 4660 5) 0);
   (0, mkCommand REFRESH_BANK (mkAddress 0 0 0 2 0 0) 0)].

(** The activation and the read put 128 energies into one cell, and the refresh two into
    a cell of its bank. *)
Definition ex_cells : list (Z * Z * double) :=
  [(1, 20617, SpecFloat.S754_finite false 8506398976177406 (-53)); (0, 128, SpecFloat.S754_finite true 8214565720323785 (-59))].

Lemma commands_warm_their_banks_witness :
  ∃ t, thermal_run ex_c ex_power (ex_thermal ex_c) (ex_plan ex_c) (GetPhyAddress ex_mapping) ex_commands ex_thermal_state = Ok t ∧
    Forall (λ x, cell (accu_Pmap t) x.1.1 x.1.2 = Ok x.2 ∧ cell (cur_Pmap t) x.1.1 x.1.2 = Ok x.2) ex_cells.
Proof.
  destruct (commands_warm_their_banks ex_c ex_power (ex_thermal ex_c) (ex_plan ex_c) ex_untiled (GetPhyAddress ex_mapping)
    ex_commands ex_thermal_state ex_setup ex_mapping_ok) as [(t & E & H) _].
  - apply ok_or. vm_compute. reflexivity.
  - repeat (apply Forall_cons; split); [..|by apply Forall_nil];
      (split; [|split; [|split; [right; split; [split|split; [|split]]|]]]); vm_compute; try split; congruence.
  - exists t. split; [exact E|]. repeat (apply Forall_cons; split); [..|by apply Forall_nil]; cbn [fst snd].
    + specialize (H 1 20617 ltac:(vm_compute; split; congruence) ltac:(vm_compute; split; congruence)).
      replace (SpecFloat.S754_finite false 8506398976177406 (-53)) with (foldl d64_add d64_zero (energies_at 1 20617
        (all_warms ex_c ex_power (ex_thermal ex_c) (ex_plan ex_c) (GetPhyAddress ex_mapping) ex_untiled [] ex_commands)))
        by (vm_compute; reflexivity). exact H.
    + specialize (H 0 128 ltac:(vm_compute; split; congruence) ltac:(vm_compute; split; congruence)).
      replace (SpecFloat.S754_finite true 8214565720323785 (-59)) with (foldl d64_add d64_zero (energies_at 0 128
        (all_warms ex_c ex_power (ex_thermal ex_c) (ex_plan ex_c) (GetPhyAddress ex_mapping) ex_untiled [] ex_commands)))
        by (vm_compute; reflexivity). exact H.
Defined.

(** The same refresh of the second group warms that bank of the first group, and not its own. *)
Example ex_wrong_group :
  let own := bank_place ex_c (ex_thermal ex_c) (ex_plan ex_c) 0 0 1 2 in
  bank_cell (ex_thermal ex_c) (ex_plan ex_c) (bank_place ex_c (ex_thermal ex_c) (ex_plan ex_c) 0 0 0 2) (0, 0) = (0, 128) ∧
  match thermal_run ex_c ex_power (ex_thermal ex_c) (ex_plan ex_c) (GetPhyAddress ex_mapping)
    [(0, mkCommand REFRESH_BANK (mkAddress 0 0 1 2 0 0) 0)] ex_thermal_state with
  | Ok t =>
      cell (cur_Pmap t) 0 128 = Ok (SpecFloat.S754_finite true 8214565720323785 (-59)) ∧
      forallb (λ xy, let z := bank_cell (ex_thermal ex_c) (ex_plan ex_c) own xy in
        match cell (cur_Pmap t) z.1 z.2 with Ok e => bool_decide (e = d64_zero) | Err _ => false end)
        (row_grid (ex_thermal ex_c) (GetPhyAddress ex_mapping) (mkAddress 0 0 1 2 0 0)) = true
  | Err _ => False
  end.
Proof. vm_compute. done. Qed.

(** With a clock of 1 ns a refresh covers ten of the 65536 rows, and passes their end into
    the cells of another bank. *)
Definition ex_passing : ThermalParams :=
  match InitThermalParams (λ _ _ x, x) (λ _ _ s, s) (λ _ _ z, z) (dramp ex_c) (timp ex_c) (d64_of_Z 1) with
  | Ok T => T | Err _ => ex_thermal ex_c end.
Example ex_refresh_passes :
  let t := ex_thermal_state {{ refresh_count := replicate 4 (replicate 16 6553) }} in
  (num_row_refresh <$> untiled ex_passing) = Some 10 ∧
  match refresh_rows ex_c ex_passing (ex_plan ex_c) Ok 0 (mkCommand REFRESH (mkAddress 0 0 0 0 0 0) 0) 0 0 (d64_of_Z 1) t with
  | Ok t' => take 1 (refresh_count t') !! 0%nat ≫= head = Some 6554 ∧
             cell (cur_Pmap t') 0 (num_y_grids ex_passing * dimX (ex_plan ex_c) + num_x_grids ex_passing) = Ok (d64_of_Z 4)
  | Err _ => False
  end.
Proof. vm_compute. done. Qed.

(** The last burst of a row reaches the third of the sixteen rows of cells of its bank:
    the columns of an address count bursts. *)
Example ex_columns_count_bursts :
  num_y_grids (ex_thermal ex_c) = 16 ∧
  match MapToXY ex_c (ex_thermal ex_c) (ex_plan ex_c) Ok (mkCommand READ (mkAddress 0 0 0 0 0 127) 0) 0 0 0 0 with
  | Ok l => forallb (λ xy, xy.2 <=? 2) l = true
  | Err _ => False
  end.
Proof. vm_compute. done. Qed.
