(* ===== verification/Tiling.v ===== *)
(** * The recursive tiling tools (CSR_converter/recursive_tiling_maker*.cpp)

    A tree of rectangles (rows [fromStart..fromEnd], columns [toStart..toEnd]) is split
    where a configuration says so; its leaves, in order, are the tiles, which are written
    below one another as a CSR file.  The three tools differ in the tree (two of them
    split into quarters, up to three times; [uni_directed] makes three parts) and in the
    order of the leaves ([reschedule] sorts them by their first column).  A node's rows
    [new_csr] are kept beside the rectangle of its leaf, in the list of the leaves.
    The theorem: whatever the configuration, the leaves cover the matrix, and the file
    written holds every edge exactly once, in the row of its vertex in the first leaf
    that contains it. *)

From S2P Require Import Prelude CFloat Common Text DataReader CsrTools.
From Stdlib Require Import Ascii String.

Open Scope Z_scope.

Record Rect := mkRect { fromStart : Z; fromEnd : Z; toStart : Z; toEnd : Z }.

(** [struct Node] *)
Inductive Node := mkNode (rect : Rect) (child : list Node).

Definition rect (n : Node) : Rect := let '(mkNode r _) := n in r.

(** [newNode], and the rows it makes. *)
Definition newNode (fs fe ts te : Z) : Node := mkNode (mkRect fs fe ts te) [].
Definition new_rows (r : Rect) : list (list Z) :=
  replicate (Z.to_nat (u64 (u64 (fromEnd r - fromStart r) + 1))) [].

(** [inThisNode] *)
Definition inThisNode (r : Rect) (from to : Z) : bool :=
  (fromStart r <=? from) && (from <=? fromEnd r) && ((toStart r <=? to) && (to <=? toEnd r)).

(** [getLeavesInorder] *)
Fixpoint getLeavesInorder (n : Node) : list Rect :=
  match n with
  | mkNode r [] => [r]
  | mkNode _ c => List.flat_map getLeavesInorder c
  end.

(** [ceil((a + b) / 2)]: the quotient, through [double]. *)
Definition half (a b : Z) : res Z := u64_of_float (float_of_uint 53 (u64 (a + b) / 2)).

(** The four parts that are pushed as children of a node. *)
Definition quarters (r : Rect) : res (list Node) :=
  fq ← half (fromStart r) (fromEnd r);
  tq ← half (toStart r) (toEnd r);
  Ok [newNode (fromStart r) fq (toStart r) tq;
      newNode (u64 (fq + 1)) (fromEnd r) (toStart r) tq;
      newNode (fromStart r) fq (u64 (tq + 1)) (toEnd r);
      newNode (u64 (fq + 1)) (fromEnd r) (u64 (tq + 1)) (toEnd r)].
Definition push_quarters (n : Node) : res Node :=
  let '(mkNode r c) := n in q ← quarters r; Ok (mkNode r (c ++ q)).

(** A change of the child [i] of a node. *)
Definition on_child (i : Z) (f : Node → res Node) (n : Node) : res Node :=
  let '(mkNode r c) := n in c ← vmod c i f; Ok (mkNode r c).

(** [configReader >> temp]; a failed extraction leaves [temp] without a value. *)
Definition read_u64 (s : string) : res (Z * string) :=
  let '(neg, s) := sign (skip_space s) in
  let '(v, n, rest) := digits 10 s 0 0 in
  if n =? 0 then Err InvalidArgument
  else if 2 ^ 64 <=? v then Err RangeError
  else Ok (if (neg : bool) then u64 (- v) else v, rest).
Fixpoint read_n (n : nat) (s : string) : res (list Z * string) :=
  match n with
  | O => Ok ([], s)
  | S n' => '(x, s) ← read_u64 s; '(l, s) ← read_n n' s; Ok (x :: l, s)
  end.

(** The second depth: the child [firstDepth] of the node is split once for each 1 read. *)
Definition second_depth (firstDepth : Z) (n : Node) (cfg : string) : res (Node * string) :=
  n ← push_quarters n;
  '(temps, cfg) ← read_n 4 cfg;
  n ← for_each temps (λ temp n, if temp =? 1 then on_child firstDepth push_quarters n else Ok n) n;
  Ok (n, cfg).

(** The turn of the loop over the first depth. *)
Definition first_depth (ids : list Z) (firstDepth : Z) (s : Node * string) : res (Node * string) :=
  let '(mkNode r c, cfg) := s in
  id ← vget ids firstDepth;
  if id =? 1 then
    n ← vget c firstDepth;
    '(n, cfg) ← second_depth firstDepth n cfg;
    c ← vset c firstDepth n;
    Ok (mkNode r c, cfg)
  else Ok (mkNode r c, cfg).

(** The tree of the first two tools. *)
Definition build_tree (vertex_num : Z) (cfg : string) : res Node :=
  let root := newNode 0 vertex_num 0 vertex_num in
  '(ids, cfg) ← read_n 4 cfg;
  root ← (if existsb (λ x, x =? 1) ids then push_quarters root else Ok root);
  '(root, _) ← for_each [0; 1; 2; 3] (first_depth ids) (root, cfg);
  Ok root.

(** The tree of [recursive_tiling_maker_uni_directed]. *)
Definition build_uni (vertex_num : Z) (cfg : string) : res Node :=
  let root := newNode 0 vertex_num 0 vertex_num in
  '(ids, _) ← read_n 4 cfg;
  if existsb (λ x, x =? 1) ids then
    q2 ← half 0 vertex_num;
    Ok (mkNode (rect root) [newNode 0 q2 0 q2;
                            newNode (u64 (q2 + 1)) vertex_num 0 vertex_num;
                            newNode 0 q2 (u64 (q2 + 1)) vertex_num])
  else Ok root.

(** [idxSet.insert], and the leaves in the order of their first columns. *)
Fixpoint set_insert (x : Z) (l : list Z) : list Z :=
  match l with
  | [] => [x]
  | y :: l' => if x <? y then x :: l else if x =? y then l else y :: set_insert x l'
  end.
Definition schedLeaves (leaves : list Rect) : list Rect :=
  let idxSet := foldl (λ l p, set_insert (toStart p) l) [] leaves in
  List.flat_map (λ s, List.filter (λ p, toStart p =? s) leaves) idxSet.

(** The leaf an edge goes to: the first that contains it, the last if none does. *)
Fixpoint target (leaves : list Rect) (from to k : Z) : Z :=
  match leaves with
  | [] => k - 1
  | r :: l => if inThisNode r from to then k else target l from to (k + 1)
  end.

(** The leaves with their rows; an edge is pushed to the row of its vertex. *)
Abbreviation Leaves := (list (Rect * list (list Z))).
Definition tile_place (from to : Z) (s : Leaves) : res Leaves :=
  vmod s (target (fst <$> s) from to 0) (λ '(r, rows),
    rows ← vmod rows (u64 (from - fromStart r)) (λ l, Ok (l ++ [to])); Ok (r, rows)).

(** What is written once the tree and the order of its leaves are known: the CSR file
    and the file of the sizes.  Without a CSR file the rows stay empty. *)
Definition write_tiles (vertex_num : Z) (leaves : list Rect) (file : option string)
    : res (string * string) :=
  let s := (λ r, (r, new_rows r)) <$> leaves in
  s ← match file with
      | Some text =>
          '(row, es, tmp) ← read_lines text;
          '(s, _, _) ← all_edges tile_place vertex_num row (s, es, tmp); Ok s
      | None => Ok s
      end;
  let new_csr := List.concat (snd <$> s) in
  Ok (csr_text new_csr,
      ("256" ++ String newline ("256" ++ String newline
         (print_u64 (vsize new_csr) ++ String newline EmptyString)))%string).

(** The three programs. *)
Definition recursive_tiling (vertex_num : Z) (cfg : string) (file : option string) :=
  root ← build_tree vertex_num cfg;
  write_tiles vertex_num (getLeavesInorder root) file.
Definition recursive_tiling_reschedule (vertex_num : Z) (cfg : string) (file : option string) :=
  root ← build_tree vertex_num cfg;
  write_tiles vertex_num (schedLeaves (getLeavesInorder root)) file.
Definition recursive_tiling_uni_directed (vertex_num : Z) (cfg : string) (file : option string) :=
  root ← build_uni vertex_num cfg;
  write_tiles vertex_num (getLeavesInorder root) file.

(** ** Specification *)

(** The rows of the leaf [k]: of each of its vertices the columns of which it is the target. *)
Definition leaf_rows (leaves : list Rect) (rows : list (list Z)) (k : nat) (r : Rect) : list (list Z) :=
  (λ from, filter (λ to, target leaves from to 0 = Z.of_nat k) (default [] (rows !! Z.to_nat from)))
    <$> seqZ (fromStart r) (fromEnd r - fromStart r + 1).
Definition tiled_rows (leaves : list Rect) (rows : list (list Z)) : list (list Z) :=
  List.concat (imap (leaf_rows leaves rows) leaves).

(** Some leaf contains every pair up to [v]. *)
Definition covers (leaves : list Rect) (v : Z) : Prop :=
  ∀ from to, 0 ≤ from ≤ v → 0 ≤ to ≤ v → existsb (λ r, inThisNode r from to) leaves = true.

(** Rectangles within the matrix; a part may be empty. *)
Definition rect_ok (v : Z) (r : Rect) : Prop :=
  0 ≤ fromStart r ≤ fromEnd r + 1 ∧ 0 ≤ fromEnd r ≤ v ∧ 0 ≤ toStart r ≤ toEnd r + 1 ∧ 0 ≤ toEnd r ≤ v.

Inductive node_ok (v : Z) : Node → Prop :=
  node_ok_intro r c : rect_ok v r → Forall (node_ok v) c → node_ok v (mkNode r c).

(** ** Trees *)

Lemma node_ind' (Q : Node → Prop) :
  (∀ r c, Forall Q c → Q (mkNode r c)) → ∀ n, Q n.
Proof. intros HQ. fix IH 1. intros [r c]. apply HQ. induction c as [|x c IHc]; constructor; [apply IH | exact IHc]. Qed.

Lemma leaves_ok v n : node_ok v n → Forall (rect_ok v) (getLeavesInorder n).
Proof.
  induction n as [r c IH] using node_ind'. intros Hn. inversion Hn as [? ? Hr Hc]; subst.
  destruct c as [|x c]; [by constructor|]. cbn [getLeavesInorder]. revert IH Hc. generalize (x :: c).
  induction 1 as [|y l Hy Hl IHl]; intros Hc; [constructor|]. apply Forall_cons in Hc as [Hy' Hc].
  cbn [List.flat_map]. apply Forall_app. split; [by apply Hy | by apply IHl].
Qed.

(** [n'] contains what [n] does. *)
Definition grown (n n' : Node) : Prop :=
  rect n' = rect n ∧
  ∀ from to, existsb (λ r, inThisNode r from to) (getLeavesInorder n) = true →
    existsb (λ r, inThisNode r from to) (getLeavesInorder n') = true.

#[global] Instance grown_preorder : PreOrder grown.
Proof. split; [by intros n|]. intros n1 n2 n3 [E1 H1] [E2 H2]. split; [congruence | auto]. Qed.

Lemma existsb_flat_map {A B} (f : B → bool) (g : A → list B) (l : list A) :
  existsb f (List.flat_map g l) = existsb (λ x, existsb f (g x)) l.
Proof. induction l as [|x l IH]; [done|]. cbn. by rewrite existsb_app, IH. Qed.

Lemma leaves_exists f r c :
  existsb f (getLeavesInorder (mkNode r c)) =
    if qempty c then f r else existsb (λ x, existsb f (getLeavesInorder x)) c.
Proof. destruct c as [|x c]; [apply orb_false_r|]. cbn [getLeavesInorder qempty]. by rewrite existsb_flat_map. Qed.

Lemma half_exact a b : 0 ≤ a → 0 ≤ b → a + b < 2 ^ 53 → half a b = Ok ((a + b) / 2).
Proof.
  intros Ha Hb Hs. unfold half. rewrite u64_small by lia.
  assert (0 ≤ (a + b) / 2 < 2 ^ 53) as Hn by (split; [apply Z.div_pos; lia | apply Z.div_lt_upper_bound; lia]).
  set (n := (a + b) / 2) in *. destruct (Z.eqb_spec n 0) as [->|Hne]; [reflexivity|].
  destruct (float_of_uint_exact 53 n) as [-> Hl]; [lia..|]. unfold u64_of_float.
  set (j := 53 - 1 - Z.log2 n) in *. pose proof (pow2_pos j Hl).
  assert ((if 0 <=? - j then n * 2 ^ j * 2 ^ (- j) else Z.quot (n * 2 ^ j) (2 ^ (- - j))) = n) as ->.
  { destruct (Z.leb_spec 0 (- j)).
    - replace j with 0 by lia. change (2 ^ 0) with 1. change (2 ^ (- 0)) with 1. lia.
    - rewrite Z.opp_involutive, Z.quot_mul; lia. }
  destruct (Z.leb_spec 0 n), (Z.ltb_spec n (2 ^ 64)); cbn; done || lia.
Qed.

Section Trees.
Variable v : Z.
Hypothesis Hv : 0 ≤ v < 2 ^ 52.

(** A node that may replace [n]. *)
Definition good (n n' : Node) : Prop := node_ok v n' ∧ grown n n'.

Lemma half_ok s e : 0 ≤ s ≤ e + 1 → 0 ≤ e ≤ v →
  ∃ m, half s e = Ok m ∧ u64 (m + 1) = m + 1 ∧ s - 1 ≤ m ≤ e ∧ 0 ≤ m.
Proof.
  intros Hs He. exists ((s + e) / 2). rewrite half_exact by lia. split; [done|].
  assert (s - 1 ≤ (s + e) / 2) by (apply Z.div_le_lower_bound; lia).
  assert ((s + e) / 2 < e + 1) by (apply Z.div_lt_upper_bound; lia).
  assert (0 ≤ (s + e) / 2) by (apply Z.div_pos; lia). rewrite u64_small by lia. lia.
Qed.

Lemma quarters_ok r :
  rect_ok v r →
  ∃ q, quarters r = Ok q ∧ q ≠ [] ∧ Forall (node_ok v) q ∧
    ∀ from to, inThisNode r from to = true →
      existsb (λ x, existsb (λ r, inThisNode r from to) (getLeavesInorder x)) q = true.
Proof.
  intros (H1 & H2 & H3 & H4). unfold quarters.
  destruct (half_ok (fromStart r) (fromEnd r) H1 H2) as (fq & -> & Ef & Hf & Hf0).
  destruct (half_ok (toStart r) (toEnd r) H3 H4) as (tq & -> & Et & Ht & Ht0).
  rewrite !bind_Ok, Ef, Et. eexists. split; [done|]. split; [done|]. split.
  - repeat constructor; cbn; lia.
  - intros from to. unfold inThisNode. rewrite !andb_true_iff, !Z.leb_le. intros Hin. cbn.
    rewrite !orb_false_r, !orb_true_iff, !andb_true_iff, !Z.leb_le.
    destruct (Z.le_gt_cases from fq), (Z.le_gt_cases to tq); lia.
Qed.

Lemma push_quarters_ok n : node_ok v n → ∃ n', push_quarters n = Ok n' ∧ good n n'.
Proof.
  intros Hn. destruct n as [r c]. inversion Hn as [? ? Hr Hc]; subst. cbn [push_quarters].
  destruct (quarters_ok r Hr) as (q & -> & Hq & Hqok & Hqc). rewrite bind_Ok. eexists. split; [done|]. split.
  { constructor; [done | by apply Forall_app]. }
  split; [done|]. intros from to. rewrite !leaves_exists. destruct c as [|x c]; cbn [qempty app].
  - destruct q; [done|]. cbn [qempty]. apply Hqc.
  - intros H. change (x :: (c ++ q)) with ((x :: c) ++ q). by rewrite existsb_app, H.
Qed.

Lemma replace_child_ok r c i x x' :
  node_ok v (mkNode r c) → c !! i = Some x → good x x' → good (mkNode r c) (mkNode r (<[i := x']> c)).
Proof.
  intros Hn Hi [Hx' [_ Hg]]. inversion Hn as [? ? Hr Hc]; subst. split; [constructor; [done | by apply Forall_insert]|].
  split; [done|]. intros from to. rewrite !leaves_exists. destruct c as [|y c]; [done|].
  assert (qempty (<[i := x']> (y :: c)) = false) as -> by by destruct i. cbn [qempty].
  rewrite !existsb_exists. intros (z & Hz & Ez). apply list_elem_of_In, list_elem_of_lookup in Hz as [j Hj].
  destruct (decide (i = j)) as [->|].
  - rewrite Hi in Hj. injection Hj as ->. exists x'. split; [|by apply Hg].
    apply list_elem_of_In. eapply list_elem_of_lookup_2. apply list_lookup_insert_eq. by eapply lookup_lt_Some.
  - exists z. split; [|done]. apply list_elem_of_In. eapply list_elem_of_lookup_2. by rewrite list_lookup_insert_ne.
Qed.

Lemma on_child_good i f n n' :
  node_ok v n → (∀ x x', node_ok v x → f x = Ok x' → good x x') → on_child i f n = Ok n' → good n n'.
Proof.
  intros Hn Hf E. destruct n as [r c]. cbn [on_child] in E. apply bind_Ok_inv in E as (c' & Ec & E). injection E as <-.
  apply vmod_inv in Ec as (x & x' & [_ Hx]%vget_lookup & Ex & _ & ->).
  apply (replace_child_ok r c _ x x' Hn Hx). apply Hf; [|done]. inversion Hn as [? ? _ Hc]; subst.
  by eapply Forall_lookup_1.
Qed.

Lemma push_quarters_good n n' : node_ok v n → push_quarters n = Ok n' → good n n'.
Proof. intros Hn E. destruct (push_quarters_ok n Hn) as (n2 & E2 & G). rewrite E in E2. by injection E2 as <-. Qed.

Lemma good_refl n : node_ok v n → good n n.
Proof. by split. Qed.

Lemma good_trans n1 n2 n3 : good n1 n2 → good n2 n3 → good n1 n3.
Proof. intros [_ H1] [H2 H3]. split; [done | by etrans]. Qed.

Lemma second_depth_good d n cfg n' cfg' :
  node_ok v n → second_depth d n cfg = Ok (n', cfg') → good n n'.
Proof.
  intros Hn E. unfold second_depth in E. apply bind_Ok_inv in E as (n1 & E1 & E).
  apply bind_Ok_inv in E as ([temps cfg1] & _ & E). apply bind_Ok_inv in E as (n2 & E2 & E). injection E as <- _.
  apply push_quarters_good in E1 as G1; [|done]. apply (good_trans _ n1); [done|]. destruct G1 as [Hn1 _]. clear -Hv Hn1 E2.
  revert n1 Hn1 E2. induction temps as [|t temps IH]; intros n1 Hn1 E2; cbn [for_each] in E2.
  { injection E2 as <-. by apply good_refl. }
  apply bind_Ok_inv in E2 as (n3 & E3 & E2).
  assert (good n1 n3) as G3.
  { destruct (t =? 1); [|injection E3 as <-; by apply good_refl].
    eapply on_child_good; [done | | exact E3]. intros x x'. apply push_quarters_good. }
  apply (good_trans _ n3); [done|]. apply (IH n3); [by destruct G3 | done].
Qed.

Lemma first_depth_good ids d n cfg n' cfg' :
  node_ok v n → first_depth ids d (n, cfg) = Ok (n', cfg') → good n n'.
Proof.
  intros Hn E. destruct n as [r c]. cbn [first_depth] in E. apply bind_Ok_inv in E as (id & _ & E).
  destruct (id =? 1); [|injection E as <- _; by apply good_refl].
  apply bind_Ok_inv in E as (x & Ex & E). apply bind_Ok_inv in E as ([x' cfg1] & Ex' & E).
  apply bind_Ok_inv in E as (c' & Ec & E). injection E as <- _. apply vset_inv in Ec as [_ ->].
  apply vget_lookup in Ex as [_ Ex]. apply (replace_child_ok r c _ x x' Hn Ex).
  apply (second_depth_good d x cfg x' cfg1); [|done]. inversion Hn as [? ? _ Hc]; subst. by eapply Forall_lookup_1.
Qed.

Lemma root_ok : node_ok v (newNode 0 v 0 v).
Proof. constructor; [|constructor]. unfold rect_ok. cbn. lia. Qed.

Lemma good_root n : good (newNode 0 v 0 v) n → Forall (rect_ok v) (getLeavesInorder n) ∧ covers (getLeavesInorder n) v.
Proof.
  intros [Hn [_ Hg]]. split; [by apply leaves_ok|]. intros from to Hf Ht. apply Hg. cbn. unfold inThisNode. cbn.
  rewrite orb_false_r, !andb_true_iff, !Z.leb_le. lia.
Qed.

Lemma build_tree_good cfg root : build_tree v cfg = Ok root → good (newNode 0 v 0 v) root.
Proof.
  unfold build_tree. intros E. apply bind_Ok_inv in E as ([ids cfg1] & _ & E).
  apply bind_Ok_inv in E as (n1 & E1 & E). apply bind_Ok_inv in E as ([n2 cfg2] & E2 & E). injection E as <-.
  assert (good (newNode 0 v 0 v) n1) as G1.
  { destruct (existsb _ ids); [by apply push_quarters_good, E1; apply root_ok | injection E1 as <-; apply good_refl, root_ok]. }
  apply (good_trans _ n1); [done|]. destruct G1 as [Hn1 _]. clear -Hv Hn1 E2. revert n1 cfg1 Hn1 E2.
  induction [0; 1; 2; 3] as [|d l IH]; intros n1 cfg1 Hn1 E2; cbn [for_each] in E2.
  { injection E2 as <- _. by apply good_refl. }
  apply bind_Ok_inv in E2 as ([n3 cfg3] & E3 & E2). apply first_depth_good in E3 as G3; [|done].
  apply (good_trans _ n3); [done|]. apply (IH n3 cfg3); [by destruct G3 | done].
Qed.

Lemma build_uni_good cfg root : build_uni v cfg = Ok root → good (newNode 0 v 0 v) root.
Proof.
  unfold build_uni. intros E. apply bind_Ok_inv in E as ([ids cfg1] & _ & E).
  destruct (existsb _ ids); [|injection E as <-; apply good_refl, root_ok].
  destruct (half_ok 0 v) as (q & Eq & Ep & Hq & Hq0); [lia..|]. rewrite Eq, bind_Ok, Ep in E. injection E as <-. split.
  - constructor; [unfold rect_ok; cbn; lia|]. repeat constructor; cbn; lia.
  - split; [done|]. intros from to. cbn. unfold inThisNode. cbn.
    rewrite !orb_false_r, !orb_true_iff, !andb_true_iff, !Z.leb_le. intros Hin.
    destruct (Z.le_gt_cases from q), (Z.le_gt_cases to q); lia.
Qed.
End Trees.

(** ** Distribution of the edges *)

(** Rows come about one edge at a time. *)
Lemma rows_ind (ok : Z → Prop) n (Q : list (list Z) → Prop) rows :
  Q (replicate n []) →
  (∀ i c rows r, List.length rows = n → rows !! i = Some r → ok c → Q rows → Q (<[i := r ++ [c]]> rows)) →
  List.length rows = n → Forall ok (List.concat rows) → Q rows.
Proof.
  intros H0 HS. assert (∀ rest before, List.length (before ++ rest) = n → Forall ok (List.concat rest) →
    Q (before ++ replicate (List.length rest) []) → Q (before ++ rest)) as Hrest.
  { induction rest as [|r rest IH]; intros before Hl Hok HQ; [done|].
    cbn [List.concat List.length replicate] in Hok, HQ. apply Forall_app in Hok as [Hr Hok].
    assert (∀ r p, Forall ok r → Q (before ++ p :: replicate (List.length rest) []) →
      Q (before ++ (p ++ r) :: replicate (List.length rest) [])) as Hrow.
    { clear -HS Hl. induction r0 as [|c r0 IHr]; intros p Hok HQ; [by rewrite app_nil_r|].
      apply Forall_cons in Hok as [Hc Hok]. replace (p ++ c :: r0) with ((p ++ [c]) ++ r0) by by rewrite <- app_assoc.
      apply IHr; [done|]. replace (before ++ (p ++ [c]) :: replicate (List.length rest) []) with
        (<[List.length before := p ++ [c]]> (before ++ p :: replicate (List.length rest) []))
        by by rewrite insert_app_r_alt, Nat.sub_diag by lia.
      apply HS; [| by apply list_lookup_middle | done | done].
      rewrite length_app in *. cbn in *. by rewrite length_replicate. }
    specialize (Hrow r [] Hr HQ). cbn [app] in Hrow. replace (before ++ r :: rest) with ((before ++ [r]) ++ rest) by by rewrite <- app_assoc.
    apply IH; [by rewrite <- app_assoc | done | by rewrite <- app_assoc]. }
  intros Hl Hok. apply (Hrest rows []); [done | done | by rewrite Hl].
Qed.

Lemma target_spec leaves from to k0 :
  existsb (λ r, inThisNode r from to) leaves = true →
  ∃ k r, target leaves from to k0 = k0 + Z.of_nat k ∧ leaves !! k = Some r ∧ inThisNode r from to = true.
Proof.
  revert k0. induction leaves as [|r leaves IH]; intros k0 H; [done|]. cbn [existsb target] in *.
  destruct (inThisNode r from to) eqn:E; [exists 0%nat, r; split; [lia | done]|].
  destruct (IH (k0 + 1) H) as (k & r' & -> & Hk & E'). exists (S k), r'. split; [lia | done].
Qed.

Lemma concat_concat {A} (l : list (list (list A))) : List.concat (List.concat l) = List.concat (@List.concat A <$> l).
Proof. induction l as [|x l IH]; [done|]. cbn [List.concat fmap list_fmap]. by rewrite concat_app, IH. Qed.

Lemma concat_replicate_nil {A} n : List.concat (replicate n (@nil A)) = [].
Proof. induction n as [|n IH]; [done | exact IH]. Qed.

Section Distribute.
Variables (leaves : list Rect) (v : Z).
Hypothesis Hv : 0 ≤ v < 2 ^ 52.
Hypothesis Hok : Forall (rect_ok v) leaves.
Hypothesis Hc : covers leaves v.

Definition leaf_row (rows : list (list Z)) (k : nat) (from : Z) : list Z :=
  filter (λ to, target leaves from to 0 = Z.of_nat k) (default [] (rows !! Z.to_nat from)).

Lemma leaf_row_insert rows i r c k from :
  rows !! i = Some r → 0 ≤ from →
  leaf_row (<[i := r ++ [c]]> rows) k from =
    leaf_row rows k from ++ (if decide (from = Z.of_nat i ∧ target leaves from c 0 = Z.of_nat k) then [c] else []).
Proof.
  intros Hi Hf. unfold leaf_row. destruct (decide (from = Z.of_nat i)) as [->|Hne].
  - rewrite Nat2Z.id, list_lookup_insert_eq, Hi by (by eapply lookup_lt_Some). unfold default. cbn [from_option]. unfold id.
    rewrite filter_app. f_equal. destruct (decide (target leaves (Z.of_nat i) c 0 = Z.of_nat k)) as [E|E].
    + rewrite filter_cons_True, decide_True by done. done.
    + rewrite filter_cons_False, decide_False by naive_solver. done.
  - rewrite list_lookup_insert_ne by lia. rewrite decide_False by naive_solver. by rewrite app_nil_r.
Qed.

Definition leaf_state (rows : list (list Z)) : Leaves := imap (λ k r, (r, leaf_rows leaves rows k r)) leaves.

Lemma leaf_rows_lookup rows k r j :
  leaf_rows leaves rows k r !! j =
    if decide (Z.of_nat j < fromEnd r - fromStart r + 1) then Some (leaf_row rows k (fromStart r + Z.of_nat j)) else None.
Proof.
  unfold leaf_rows. rewrite list_lookup_fmap. case_decide; [by rewrite lookup_seqZ_lt | by rewrite lookup_seqZ_ge by lia].
Qed.

(** What a new edge changes. *)
Lemma leaf_state_insert rows i r c k rc :
  List.length rows = Z.to_nat v → rows !! i = Some r → 0 ≤ c ≤ v →
  target leaves (Z.of_nat i) c 0 = Z.of_nat k → leaves !! k = Some rc → inThisNode rc (Z.of_nat i) c = true →
  let j := Z.to_nat (Z.of_nat i - fromStart rc) in
  leaf_rows leaves rows k rc !! j = Some (leaf_row rows k (Z.of_nat i)) ∧
  leaf_state (<[i := r ++ [c]]> rows) =
    <[k := (rc, <[j := leaf_row rows k (Z.of_nat i) ++ [c]]> (leaf_rows leaves rows k rc))]> (leaf_state rows).
Proof.
  intros Hl Hi Hcv Ht Hk Hin j. pose proof (Forall_lookup_1 _ _ _ _ Hok Hk) as (R1 & R2 & R3 & R4).
  unfold inThisNode in Hin. rewrite !andb_true_iff, !Z.leb_le in Hin.
  assert (fromStart rc + Z.of_nat j = Z.of_nat i) as Ej by lia.
  split; [rewrite leaf_rows_lookup, decide_True by lia; by rewrite Ej|].
  apply list_eq. intros k'. unfold leaf_state. rewrite list_lookup_imap. destruct (decide (k' = k)) as [->|Hne].
  - rewrite list_lookup_insert_eq by (rewrite length_imap; by eapply lookup_lt_Some). rewrite Hk. cbn. do 2 f_equal.
    apply list_eq. intros j'. rewrite leaf_rows_lookup. destruct (decide (j' = j)) as [->|Hnj].
    + rewrite decide_True by lia. rewrite list_lookup_insert_eq.
      2:{ unfold leaf_rows. rewrite length_fmap, length_seqZ. lia. }
      rewrite Ej, (leaf_row_insert rows i r c) by (done || lia). rewrite decide_True by done. done.
    + rewrite list_lookup_insert_ne, leaf_rows_lookup by done. case_decide; [|done].
      rewrite (leaf_row_insert rows i r c) by (done || lia). rewrite decide_False by lia. by rewrite app_nil_r.
  - rewrite list_lookup_insert_ne, list_lookup_imap by done. destruct (leaves !! k') as [r'|] eqn:Er; [|done]. cbn. do 2 f_equal.
    apply list_eq. intros j'. rewrite !leaf_rows_lookup. case_decide; [|done].
    pose proof (Forall_lookup_1 _ _ _ _ Hok Er) as (Q1 & _).
    rewrite (leaf_row_insert rows i r c) by (done || lia). rewrite decide_False, app_nil_r; [done|].
    intros [Ei Et]. rewrite Ei, Ht in Et. lia.
Qed.

(** The leaf of an edge. *)
Lemma edge_leaf i c :
  (i < Z.to_nat v)%nat → 0 ≤ c ≤ v →
  ∃ k rc, target leaves (Z.of_nat i) c 0 = Z.of_nat k ∧ leaves !! k = Some rc ∧ inThisNode rc (Z.of_nat i) c = true.
Proof.
  intros Hi Hcv. destruct (target_spec leaves (Z.of_nat i) c 0) as (k & rc & E & Hk & Hin); [apply Hc; lia|].
  exists k, rc. done.
Qed.

Lemma tile_place_ok i c rows r :
  List.length rows = Z.to_nat v → rows !! i = Some r → 0 ≤ c ≤ v →
  tile_place (Z.of_nat i) c (leaf_state rows) = Ok (leaf_state (<[i := r ++ [c]]> rows)).
Proof.
  intros Hl Hi Hcv. destruct (edge_leaf i c) as (k & rc & Ht & Hk & Hin); [apply lookup_lt_Some in Hi; lia | done|].
  destruct (leaf_state_insert rows i r c k rc Hl Hi Hcv Ht Hk Hin) as [Hj ->].
  unfold tile_place. assert (fst <$> leaf_state rows = leaves) as ->.
  { unfold leaf_state. rewrite fmap_imap. apply list_eq. intros n.
    rewrite list_lookup_imap. by destruct (leaves !! n). }
  rewrite Ht. pose proof (Forall_lookup_1 _ _ _ _ Hok Hk) as (R1 & R2 & _).
  unfold inThisNode in Hin. rewrite !andb_true_iff, !Z.leb_le in Hin.
  rewrite (vmod_Ok _ _ _ (rc, leaf_rows leaves rows k rc)
    (rc, <[Z.to_nat (Z.of_nat i - fromStart rc) := leaf_row rows k (Z.of_nat i) ++ [c]]> (leaf_rows leaves rows k rc))).
  - by rewrite Nat2Z.id.
  - apply vget_lookup. split; [lia|]. rewrite Nat2Z.id. unfold leaf_state. by rewrite list_lookup_imap, Hk.
  - rewrite u64_small by lia. rewrite (vmod_Ok _ _ _ (leaf_row rows k (Z.of_nat i)) (leaf_row rows k (Z.of_nat i) ++ [c]));
      [done | | done]. apply vget_lookup. split; [lia | done].
Qed.

Lemma leaf_state_empty n : leaf_state (replicate n []) = (λ r, (r, new_rows r)) <$> leaves.
Proof.
  unfold leaf_state. apply list_eq. intros k. rewrite list_lookup_imap, list_lookup_fmap.
  destruct (leaves !! k) as [r|] eqn:Hk; [|done]. cbn. do 2 f_equal.
  pose proof (Forall_lookup_1 _ _ _ _ Hok Hk) as (R1 & R2 & _). unfold new_rows.
  assert (u64 (u64 (fromEnd r - fromStart r) + 1) = fromEnd r - fromStart r + 1) as ->.
  { unfold u64. rewrite Z.add_mod_idemp_l by done. apply Z.mod_small. lia. }
  apply list_eq. intros j. rewrite leaf_rows_lookup. case_decide.
  - rewrite lookup_replicate_2 by lia. f_equal. unfold leaf_row.
    destruct (replicate n [] !! Z.to_nat (fromStart r + Z.of_nat j)) as [l|] eqn:E; [|done].
    apply lookup_replicate in E as [-> _]. done.
  - symmetry. apply lookup_ge_None. rewrite length_replicate. lia.
Qed.

Lemma tiled_rows_perm rows :
  List.length rows = Z.to_nat v → Forall (λ c, 0 ≤ c ≤ v) (List.concat rows) →
  List.concat (tiled_rows leaves rows) ≡ₚ List.concat rows.
Proof.
  intros Hl Hcv. assert (∀ rows, List.concat (tiled_rows leaves rows) =
    List.concat ((λ p : Rect * list (list Z), List.concat (snd p)) <$> leaf_state rows)) as Et.
  { intros rs. unfold tiled_rows, leaf_state. rewrite concat_concat, !fmap_imap. done. }
  apply (rows_ind (λ c, 0 ≤ c ≤ v) (Z.to_nat v)
    (λ rows, List.concat (tiled_rows leaves rows) ≡ₚ List.concat rows)); [| | done | done].
  - rewrite Et, leaf_state_empty, concat_replicate_nil. clear. induction leaves as [|r l IH]; [done|].
    cbn [fmap list_fmap List.concat snd]. unfold new_rows at 1. rewrite concat_replicate_nil. exact IH.
  - intros i c rs r Hlr Hi Hcr IH. destruct (edge_leaf i c) as (k & rc & Ht & Hk & Hin);
      [apply lookup_lt_Some in Hi; lia | done|].
    destruct (leaf_state_insert rs i r c k rc Hlr Hi Hcr Ht Hk Hin) as [Hj Es]. rewrite Et, Es.
    pose proof (concat_insert_perm (λ p : Rect * list (list Z), List.concat (snd p)) (leaf_state rs) k
      (rc, leaf_rows leaves rs k rc) (rc, <[Z.to_nat (Z.of_nat i - fromStart rc) := leaf_row rs k (Z.of_nat i) ++ [c]]>
        (leaf_rows leaves rs k rc)) [] [c]) as H.
    rewrite !app_nil_r in H. rewrite H; [| by unfold leaf_state; rewrite list_lookup_imap, Hk |].
    + rewrite <- Et, IH. symmetry. by apply concat_insert_snoc.
    + cbn [snd]. by apply concat_insert_snoc.
Qed.
End Distribute.

(** What the tools write once the leaves are known. *)
Lemma write_tiles_ok text rows v leaves :
  csr_file text rows → v = vsize rows → v < 2 ^ 52 → Forall (λ c, 0 ≤ c ≤ v) (List.concat rows) →
  vsize (List.concat rows) < 2 ^ 64 → Forall (rect_ok v) leaves → covers leaves v →
  let new_csr := tiled_rows leaves rows in
  (∃ sizes, write_tiles v leaves (Some text) = Ok (csr_text new_csr, sizes)) ∧
  List.concat new_csr ≡ₚ List.concat rows.
Proof.
  intros Hf Ev Hv Hcv Hs Hok Hcov new_csr. pose proof (vsize_nonneg rows).
  assert (List.length rows = Z.to_nat v) as El by (unfold vsize in Ev; lia).
  split; [|apply (tiled_rows_perm leaves v); done || lia].
  destruct (all_edges_file tile_place (leaf_state leaves) (λ c, 0 ≤ c ≤ v) text rows v)
    as (row & es & tmp & es' & tmp' & Er & E); [done..| |].
  { intros i c rows' r Hl Hi Hc'. apply (tile_place_ok leaves v); (done || lia || congruence). }
  eexists. unfold write_tiles. rewrite Er, bind_Ok. rewrite (leaf_state_empty leaves v) in E by (done || lia).
  rewrite E, !bind_Ok. assert (List.concat (snd <$> leaf_state leaves rows) = new_csr) as ->.
  { unfold new_csr, tiled_rows, leaf_state. by rewrite fmap_imap. }
  reflexivity.
Qed.

(** The leaves in the order of their first columns. *)
Lemma set_insert_elem x y l : y ∈ set_insert x l ↔ y = x ∨ y ∈ l.
Proof.
  induction l as [|z l IH]; cbn [set_insert]; [set_solver|].
  destruct (Z.ltb_spec x z); [set_solver|]. destruct (Z.eqb_spec x z) as [->|]; set_solver.
Qed.

Lemma idx_set_elem (leaves : list Rect) l y :
  y ∈ foldl (λ l p, set_insert (toStart p) l) l leaves ↔ y ∈ l ∨ y ∈ toStart <$> leaves.
Proof.
  revert l. induction leaves as [|r leaves IH]; intros l; cbn [foldl fmap list_fmap]; [set_solver|].
  rewrite IH, set_insert_elem. set_solver.
Qed.

Lemma sched_elem leaves r : r ∈ schedLeaves leaves ↔ r ∈ leaves.
Proof.
  unfold schedLeaves. rewrite list_elem_of_In, in_flat_map. split.
  - intros (s & _ & Hr). apply filter_In in Hr as [Hr _]. by apply list_elem_of_In.
  - intros Hr. exists (toStart r). rewrite <- list_elem_of_In, idx_set_elem, filter_In, Z.eqb_eq, <- list_elem_of_In.
    split; [right; by apply list_elem_of_fmap_2|done].
Qed.

Lemma sched_ok v leaves :
  Forall (rect_ok v) leaves → covers leaves v →
  Forall (rect_ok v) (schedLeaves leaves) ∧ covers (schedLeaves leaves) v.
Proof.
  intros Hok Hc. split.
  - apply Forall_forall. intros r Hr. rewrite Forall_forall in Hok. apply Hok. by apply sched_elem.
  - intros from to Hf Ht. specialize (Hc from to Hf Ht). rewrite existsb_exists in *. destruct Hc as (r & Hr & E).
    exists r. split; [|done]. apply list_elem_of_In, sched_elem. by apply list_elem_of_In.
Qed.

(** ** Properties *)

(** C40: the three recursive tiling tools, on any configuration for which they build a
    tree: the leaves of the tree cover the matrix, and on a file that holds a matrix of
    [v] rows, with columns up to [v], each tool writes the rows of its leaves below one
    another, in its order of the leaves; row [from] of a leaf has, in their order, the
    columns of vertex [from] of which the leaf is the first to contain the edge; so every
    edge is written exactly once. *)
Theorem recursive_tiles v cfg root text rows :
  csr_file text rows → v = vsize rows → v < 2 ^ 52 → Forall (λ c, 0 ≤ c ≤ v) (List.concat rows) →
  vsize (List.concat rows) < 2 ^ 64 →
  let writes tool leaves :=
    (∃ sizes, tool v cfg (Some text) = Ok (csr_text (tiled_rows leaves rows), sizes)) ∧
    covers leaves v ∧ List.concat (tiled_rows leaves rows) ≡ₚ List.concat rows in
  (build_tree v cfg = Ok root →
     writes recursive_tiling (getLeavesInorder root) ∧
     writes recursive_tiling_reschedule (schedLeaves (getLeavesInorder root))) ∧
  (build_uni v cfg = Ok root → writes recursive_tiling_uni_directed (getLeavesInorder root)).
Proof.
  intros Hf Ev Hv Hcv Hs writes. pose proof (vsize_nonneg rows).
  assert (∀ leaves, Forall (rect_ok v) leaves → covers leaves v →
    (∃ sizes, write_tiles v leaves (Some text) = Ok (csr_text (tiled_rows leaves rows), sizes)) ∧
    covers leaves v ∧ List.concat (tiled_rows leaves rows) ≡ₚ List.concat rows) as Hw.
  { intros leaves Hok Hc. destruct (write_tiles_ok text rows v leaves) as [H1 H2]; done. }
  subst writes. cbv beta. unfold recursive_tiling, recursive_tiling_reschedule, recursive_tiling_uni_directed. split; intros E.
  - apply (build_tree_good v) in E as G; [|lia]. apply good_root in G as [Hok Hc].
    destruct (sched_ok v _ Hok Hc) as [Hok' Hc']. rewrite E. split; by apply Hw.
  - apply (build_uni_good v) in E as G; [|lia]. apply good_root in G as [Hok Hc]. rewrite E. by apply Hw.
Qed.

(** ** Concrete runs *)

(** The second line of the configuration does not say which part of the block is split:
    the part with the number of the block is. *)
Example second_line_position :
  build_tree 7 "1 -1 -1 -1  -1 -1 -1 1" = build_tree 7 "1 -1 -1 -1  1 -1 -1 -1".
Proof. vm_compute. reflexivity. Qed.

Lemma recursive_tiles_witness :
  ∃ leaves sizes, recursive_tiling 4 "1 -1 -1 -1 -1 -1 -1 -1" (Some (csr_text ex_rows)) =
    Ok (csr_text (tiled_rows leaves ex_rows), sizes) ∧
    tiled_rows leaves ex_rows =
      [[1]; [0]; []; []; []; []; [2; 0]; []; [3]; []; []; [3]; []] ∧
    List.concat (tiled_rows leaves ex_rows) ≡ₚ List.concat ex_rows.
Proof.
  destruct (recursive_tiles 4 "1 -1 -1 -1 -1 -1 -1 -1"
    (match build_tree 4 "1 -1 -1 -1 -1 -1 -1 -1" with Ok r => r | Err _ => newNode 0 0 0 0 end)
    (csr_text ex_rows) ex_rows) as [H _].
  - exact ex_csr_file.
  - reflexivity.
  - done.
  - by repeat constructor.
  - done.
  - destruct H as [((sizes & E) & _ & Hp) _]; [vm_compute; reflexivity|].
    eexists _, sizes. split; [exact E|]. split; [vm_compute; reflexivity | exact Hp].
Defined.
