(* ===== verification/DynTiling.v ===== *)
(** * The unequal tilings (CSR_converter/vtmake_dynamic_vt_*.cpp)

    Five variants of the tool [vt].  Each cuts the matrix into two by two blocks, splits
    one of them (two of them in [vt_0_3]) once more, and puts the blocks below one
    another.  They differ in [dyn_target], the row of the result an edge goes to, which
    they compute with [float] and [double] products.  [blocks] describes the same placement
    without them, by the rectangles of the matrix and where each is put.  The theorem, for a
    multiple of four vertices: the computed rows are those of the rectangles, so a tool
    writes every edge once, in the row of its block, and goes wrong on an edge in none, which
    there are in [vt_1], [vt_3] and [vt_0_3]. *)

From S2P Require Import Prelude CFloat Common Text DataReader CsrTools.
From Stdlib Require Import Ascii String.

Open Scope Z_scope.

(** ** Floating-point sums *)

Definition dyadic_add (x y : dyadic) : dyadic :=
  let e := Z.min (snd x) (snd y) in (fst x * 2 ^ (snd x - e) + fst y * 2 ^ (snd y - e), e).

(** A sum rounded to [p] bits. *)
Definition float_add (p : Z) (x y : dyadic) : dyadic :=
  let '(m, e) := dyadic_add x y in
  let '(m', e') := round_quot p (Z.abs m * 2 ^ Z.max 0 e) (2 ^ Z.max 0 (- e)) in (Z.sgn m * m', e').

Definition dbl (n : Z) : dyadic := float_of_uint 53 n.
Definition dmul (x y : dyadic) : dyadic := float_mul 53 x y.
Definition dadd (x y : dyadic) : dyadic := float_add 53 x y.

(** ** The tools *)

Inductive DynTool := VT_0 | VT_1 | VT_2 | VT_3 | VT_0_3.

Definition dyn_tile_num : Z := 2.

(** [edge / ceil((float)(v_num/2))]; a division by zero has no value to convert. *)
Definition half_quot (v_num edge : Z) : res dyadic :=
  if v_num / 2 =? 0 then Err FloatRange
  else Ok (float_div 24 (float_of_uint 24 edge) (float_of_uint 24 (v_num / 2))).

(** [if (index == tile_num) index--] *)
Definition last_tile (index : Z) : Z := if index =? dyn_tile_num then index - 1 else index.

(** The index into [new_csr] that each tool computes for the edge [edge] of the vertex [i]. *)
Definition vt_0_target (v v_num i edge : Z) : res Z :=
  if i <=? v / 2 then
    q ← half_quot v_num edge; index ← u64_of_float q;
    if 2 <=? edge then u64_of_float (dadd (dbl i) (dmul (3, -1) (dbl v)))
    else u64_of_float (dadd (dbl i) (dmul (dmul (1, -1) (dbl v)) (dbl (last_tile index))))
  else
    index ← udiv edge v_num;
    u64_of_float (dadd (dadd (dmul (1, -1) (dbl v)) (dbl i)) (dbl (u64 (v * last_tile index)))).

Definition vt_1_target (v v_num i edge : Z) : res Z :=
  if i <=? v / 2 then
    q ← half_quot v_num edge; index ← u64_of_float (float_add 24 q (-2, 0));
    if v / 2 <=? edge then
      u64_of_float (dadd (dbl (u64 (i + v))) (dmul (dmul (1, -1) (dbl v)) (dbl (last_tile index))))
    else Ok i
  else
    index ← udiv edge v_num;
    u64_of_float (dadd (dbl i) (dmul (dmul (dbl v) (3, -1)) (dbl (last_tile index)))).

Definition vt_2_target (v v_num i edge : Z) : res Z :=
  if i <=? v / 2 then
    index ← udiv edge v_num;
    u64_of_float (dadd (dbl i) (dmul (dmul (3, -1) (dbl v)) (dbl (last_tile index))))
  else
    q ← half_quot v_num edge; index ← u64_of_float q;
    if v / 2 <=? edge then u64_of_float (dadd (dbl i) (dmul (3, -1) (dbl v)))
    else Ok (u64 (i + u64 (v / 2 * last_tile index))).

Definition vt_3_target (v v_num i edge : Z) : res Z :=
  if i <=? v / 2 then
    index ← udiv edge v_num; Ok (u64 (i + u64 (v * last_tile index)))
  else
    q ← half_quot v_num edge; index ← u64_of_float (float_add 24 q (-2, 0));
    if v / 2 <=? edge then u64_of_float (dadd (dbl i) (dmul (3, -1) (dbl v)))
    else Ok (u64 (i + u64 (v / 2 * last_tile index))).

Definition vt_0_3_target (v v_num i edge : Z) : res Z :=
  let three_quarters := u64 (v * 3) / 4 in
  if i <? v / 2 then
    if edge <? v / 4 then Ok i
    else if edge <? v / 2 then Ok (u64 (i + v / 2))
    else u64_of_float (dadd (dbl i) (dmul (dbl v) (3, -1)))
  else if i <? three_quarters then
    if edge <? v / 2 then Ok (u64 (i + v / 2))
    else if edge <? three_quarters then u64_of_float (dadd (dbl i) (dmul (dbl v) (3, -1)))
    else Ok (u64 (i + u64 (v * 2)))
  else
    if edge <? v / 2 then Ok (u64 (i + v / 2))
    else if edge <? three_quarters then u64_of_float (dadd (dbl i) (dmul (dbl v) (7, -2)))
    else u64_of_float (dadd (dbl i) (dmul (dbl v) (9, -2))).

Definition dyn_target (tool : DynTool) : Z → Z → Z → Z → res Z :=
  match tool with
  | VT_0 => vt_0_target
  | VT_1 => vt_1_target
  | VT_2 => vt_2_target
  | VT_3 => vt_3_target
  | VT_0_3 => vt_0_3_target
  end.

Definition dyn_place (tool : DynTool) (v v_num i edge : Z) (new_csr : list (list Z)) : res (list (list Z)) :=
  k ← dyn_target tool v v_num i edge; vmod new_csr k (λ r, Ok (r ++ [edge])).

(** The rows the loops [i < v * (tile_num+0.5)] or [i < v * (tile_num+1)] make, and the index
    the output takes for the last one. *)
Definition dyn_rows (tool : DynTool) (v : Z) : Z :=
  match tool with VT_0_3 => u64 (v * (dyn_tile_num + 1)) | _ => ceil_dyadic (dmul (dbl v) (5, -1)) end.
Definition dyn_last (tool : DynTool) (v : Z) : res Z :=
  match tool with
  | VT_0_3 => Ok (u64 (u64 (v * (dyn_tile_num + 1)) - 1))
  | _ => u64_of_float (dadd (dmul (dbl v) (5, -1)) (-1, 0))
  end.

(** The loops of the output, from row [i]. *)
Fixpoint dyn_pointers (last i acc : Z) (rows : list (list Z)) : string :=
  match rows with
  | [] => String newline EmptyString
  | r :: rows' =>
      let acc := u64 (acc + vsize r) in
      (print_u64 acc ++ (if (i =? last)%Z then EmptyString else " ") ++ dyn_pointers last (i + 1)%Z acc rows')%string
  end.
Fixpoint dyn_edges (last i : Z) (rows : list (list Z)) : string :=
  match rows with
  | [] => EmptyString
  | r :: rows' => (print_row (i =? last)%Z r ++ dyn_edges last (i + 1)%Z rows')%string
  end.
Definition dyn_text (last : Z) (rows : list (list Z)) : string :=
  ("0 " ++ dyn_pointers last 0 0 rows ++ dyn_edges last 0 rows)%string.

(** [main]: what it writes, if it can open the file. *)
Definition vtmake_dynamic (tool : DynTool) (v : Z) (file : option string) : res (option string) :=
  v_num ← ceil_float v dyn_tile_num;
  match file with
  | None => Ok None
  | Some text =>
      '(row, es, tmp) ← read_lines text;
      '(new_csr, _, _) ← all_edges (dyn_place tool v v_num) v row (replicate (Z.to_nat (dyn_rows tool v)) [], es, tmp);
      last ← dyn_last tool v;
      Ok (Some (dyn_text last new_csr))
  end.

(** ** Specification *)

(** The edges of a matrix, with their vertices, in the order of the file. *)
Fixpoint edges_from (i : Z) (rows : list (list Z)) : list (Z * Z) :=
  match rows with [] => [] | r :: rows' => (pair i <$> r) ++ edges_from (i + 1) rows' end.

(** A rectangle of the matrix, and the row of the result that holds its first row. *)
Record Block := mkBlock { b_rows : Z * Z; b_columns : Z * Z; b_at : Z }.
Definition in_block (b : Block) (e : Z * Z) : bool :=
  ((b_rows b).1 <=? e.1) && (e.1 <? (b_rows b).2) && ((b_columns b).1 <=? e.2) && (e.2 <? (b_columns b).2).

(** The blocks of each tool, for [4 * k] vertices.  The upper blocks of the first four take
    one row more than a half. *)
Definition blocks (tool : DynTool) (k : Z) : list Block :=
  let upper := (0, 2 * k + 1) in let lower := (2 * k + 1, 4 * k) in
  let left := (0, 2 * k) in let right := (2 * k, 4 * k) in
  match tool with
  | VT_0 => [mkBlock upper (0, 2) 0; mkBlock upper (2, 4 * k) (6 * k); mkBlock lower left (4 * k + 1); mkBlock lower right (8 * k + 1)]
  | VT_1 => [mkBlock upper (k + 1, 2 * k) 0; mkBlock upper (2 * k, 3 * k) (4 * k); mkBlock upper (3 * k, 4 * k) (6 * k);
             mkBlock lower left (2 * k + 1); mkBlock lower right (8 * k + 1)]
  | VT_2 => [mkBlock upper left 0; mkBlock upper right (6 * k); mkBlock lower (0, k) (2 * k + 1);
             mkBlock lower (k, 2 * k) (4 * k + 1); mkBlock lower right (8 * k + 1)]
  | VT_3 => [mkBlock upper left 0; mkBlock upper right (4 * k); mkBlock lower (k + 1, 2 * k) (2 * k + 1);
             mkBlock lower right (8 * k + 1)]
  | VT_0_3 => [mkBlock (0, 2 * k) (0, k) 0; mkBlock (0, 2 * k) (k, 2 * k) (2 * k); mkBlock (0, 2 * k) right (6 * k);
               mkBlock (2 * k, 3 * k) left (4 * k); mkBlock (2 * k, 3 * k) (2 * k, 3 * k) (8 * k);
               mkBlock (2 * k, 3 * k) (3 * k, 4 * k) (10 * k);
               mkBlock (3 * k, 4 * k) left (5 * k); mkBlock (3 * k, 4 * k) (2 * k, 3 * k) (10 * k)]
  end.

(** The row of an edge: that of its vertex in the block of the edge, if it is in one. *)
Fixpoint block_row (bs : list Block) (e : Z * Z) : option Z :=
  match bs with
  | [] => None
  | b :: bs' => if in_block b e then Some (b_at b + (e.1 - (b_rows b).1)) else block_row bs' e
  end.

(** The columns of the edges that go to row [k]. *)
Definition row_of (to : Z * Z → option Z) (es : list (Z * Z)) (k : Z) : list Z :=
  snd <$> filter (λ e, to e = Some k) es.
Definition arranged (to : Z * Z → option Z) (n : Z) (es : list (Z * Z)) : list (list Z) :=
  row_of to es <$> seqZ 0 n.

(** ** Reading, whatever is done with the edges *)

Section Edges.
Context {S : Type} (place : Z → Z → S → res S).

Abbreviation place_all es := (for_each es (λ e, place (fst e) (snd e))).

(** After a loop over tokens: what it did with the state, and the stream. *)
Definition follows (more : list Z) (r : res S) (r' : res (S * Stream * string)) : Prop :=
  match r with
  | Ok s => ∃ toks es tmp, r' = Ok (s, es, tmp) ∧ Forall2 is_token toks more ∧ token_stream toks es
  | Err f => r' = Err f
  end.

Lemma vertex_edges_run i r more toks es tmp k s :
  Forall2 is_token toks (r ++ more) → token_stream toks es →
  follows more (place_all (pair i <$> r) s) (for_loop (List.length r) k (λ _, edge_step place i) (s, es, tmp)).
Proof.
  revert toks es tmp k s. induction r as [|c r IH]; intros toks es tmp k s Ht Hs; [by exists toks, es, tmp|].
  apply Forall2_cons_inv_r in Ht as (t & toks' & Ht & Ht' & ->).
  destruct (token_next t c toks' es tmp Ht Hs) as (es' & E & Hs'). destruct Ht as [Hd Hc].
  cbn [List.length for_loop fmap list_fmap for_each fst snd].
  assert (edge_step place i (s, es, tmp) = s' ← place i c s; Ok (s', es', t)) as ->.
  { unfold edge_step, next_edge. rewrite E. cbv beta iota. by rewrite (stoull_decimal t c), !bind_Ok by done. }
  destruct (place i c s) as [s'|f]; [|done]. rewrite !bind_Ok. by apply (IH toks').
Qed.

Lemma vertices_edges_run before rest toks es tmp s :
  vsize (List.concat (before ++ rest)) < 2 ^ 64 → Forall2 is_token toks (List.concat rest) → token_stream toks es →
  follows [] (place_all (edges_from (vsize before) rest) s)
    (for_loop (List.length rest) (vsize before) (vertex_step place (0 :: row_ptrs 0 (before ++ rest))) (s, es, tmp)).
Proof.
  revert before toks es tmp s. induction rest as [|r rest IH]; intros before toks es tmp s Hs Ht Hst; [by exists toks, es, tmp|].
  cbn [List.length for_loop edges_from]. cbn [List.concat] in Ht. pose proof Hs as Hs'.
  rewrite concat_app in Hs. cbn [List.concat] in Hs. rewrite !vsize_app in Hs.
  pose proof (vsize_nonneg r). pose proof (vsize_nonneg (List.concat before)). pose proof (vsize_nonneg (List.concat rest)).
  rewrite (vertex_step_run place before r rest) by lia. rewrite for_each_app.
  pose proof (vertex_edges_run (vsize before) r (List.concat rest) toks es tmp 0 s Ht Hst) as Hf.
  destruct (for_each (pair (vsize before) <$> r) _ s) as [s1|f]; cbn [follows] in Hf; [|by rewrite Hf].
  destruct Hf as (toks' & es' & tmp' & -> & Ht' & Hst'). rewrite !bind_Ok.
  replace (before ++ r :: rest) with ((before ++ [r]) ++ rest) in * by (by rewrite <- app_assoc).
  replace (vsize before + 1) with (vsize (before ++ [r])) by (by rewrite vsize_app). by apply (IH _ toks').
Qed.

(** The loops over a file do with its edges what [place] does. *)
Lemma all_edges_run text rows s :
  csr_file text rows → vsize (List.concat rows) < 2 ^ 64 →
  ∃ row es tmp, read_lines text = Ok (row, es, tmp) ∧
    follows [] (place_all (edges_from 0 rows) s) (all_edges place (vsize rows) row (s, es, tmp)).
Proof.
  intros Hf Hs. destruct (read_lines_file text rows Hf) as (toks & es & tmp & E & Ht & Hst).
  exists (0 :: row_ptrs 0 rows), es, tmp. split; [done|]. unfold all_edges, vsize. rewrite Nat2Z.id.
  by apply (vertices_edges_run [] rows toks).
Qed.
End Edges.

(** ** Placing *)

Section Place.
Variables (target : Z * Z → res Z) (to : Z * Z → option Z) (n : Z).
Hypothesis Hn : 0 ≤ n.

Abbreviation put := (λ (e : Z * Z) s, k ← target e; vmod s k (λ r, Ok (r ++ [snd e]))).

Definition in_rows (e : Z * Z) : Prop := ∃ k, target e = Ok k ∧ to e = Some k ∧ 0 ≤ k < n.
Definition no_row (e : Z * Z) : Prop := ∀ k, target e = Ok k → ¬ 0 ≤ k < n.

Lemma arranged_snoc es e k :
  to e = Some k → 0 ≤ k < n →
  <[Z.to_nat k := row_of to es k ++ [snd e]]> (arranged to n es) = arranged to n (es ++ [e]).
Proof.
  intros E Hk. unfold arranged. apply list_eq. intros j. rewrite list_lookup_fmap.
  destruct (decide (j = Z.to_nat k)) as [->|Hj].
  - rewrite list_lookup_insert_eq by (rewrite length_fmap, length_seqZ; lia). rewrite lookup_seqZ_lt by lia. cbn.
    rewrite Z2Nat.id by lia. unfold row_of. by rewrite filter_app, filter_cons_True, fmap_app.
  - rewrite list_lookup_insert_ne by done. rewrite list_lookup_fmap. destruct (seqZ 0 n !! j) as [x|] eqn:Ex; [|done].
    apply lookup_seqZ in Ex as [-> Hx]. cbn. unfold row_of. rewrite filter_app, filter_cons_False, fmap_app; [|rewrite E; intros [=]; lia].
    cbn. by rewrite app_nil_r.
Qed.

Lemma put_all es pre :
  Forall in_rows es → for_each es put (arranged to n pre) = Ok (arranged to n (pre ++ es)).
Proof.
  intros H. revert pre. induction H as [|e es (k & E & Et & Hk) _ IH]; intros pre; cbn [for_each]; [by rewrite app_nil_r|].
  rewrite E, bind_Ok. rewrite (vmod_Ok _ _ _ (row_of to pre k) (row_of to pre k ++ [snd e])); [| |done]; cycle 1.
  { apply vget_lookup. split; [lia|]. unfold arranged. rewrite list_lookup_fmap, lookup_seqZ_lt by lia. cbn. by rewrite Z2Nat.id by lia. }
  rewrite bind_Ok, arranged_snoc by done. rewrite IH. by rewrite <- app_assoc.
Qed.

Lemma put_bad es e s : e ∈ es → no_row e → vsize s = n → ∃ f, for_each es put s = Err f.
Proof.
  intros He Hb. revert s. induction es as [|x es IH]; intros s Hs; [by apply elem_of_nil in He|]. cbn [for_each].
  destruct (target x) as [k|f] eqn:E; cbn [mbind res_bind]; [|by exists f].
  destruct (vmod s k _) as [s'|f] eqn:Ev; [|by exists f]. cbn [mbind res_bind].
  apply vmod_inv in Ev as (y & y' & _ & _ & Hk & ->). apply elem_of_cons in He as [->|He].
  - destruct (Hb k E). lia.
  - apply IH; [done|]. by rewrite vsize_insert.
Qed.

(** Every edge is in one of the rows. *)
Lemma arranged_perm es : Forall in_rows es → List.concat (arranged to n es) ≡ₚ snd <$> es.
Proof.
  intros H. unfold arranged, row_of. set (f e := default (-1) (to e)).
  trans (snd <$> List.concat ((λ t, filter (λ e, f e = t) es) <$> seqZ 0 (Z.of_nat (Z.to_nat n)))).
  - rewrite Z2Nat.id by done. assert (∀ k, 0 ≤ k → filter (λ e, to e = Some k) es = filter (λ e, f e = k) es) as Hk.
    { intros k Hk. apply list_filter_iff. intros e. unfold f. destruct (to e); cbn; split; congruence || lia || done. }
    assert (Forall (λ k, 0 ≤ k) (seqZ 0 n)) as H0 by (apply Forall_forall; intros k ?%elem_of_seqZ; lia).
    induction H0 as [|k l Hk0 H0 IH]; [done|]. cbn [fmap list_fmap List.concat]. rewrite Hk by done.
    rewrite fmap_app. by rewrite IH.
  - apply fmap_Permutation, classes_perm. eapply Forall_impl; [exact H|]. intros e (k & _ & E & Hk). unfold f. rewrite E. cbn. lia.
Qed.
End Place.

Lemma edges_from_snd i rows : snd <$> edges_from i rows = List.concat rows.
Proof.
  revert i. induction rows as [|r rows IH]; intros i; [done|]. cbn [edges_from List.concat]. rewrite fmap_app, IH.
  f_equal. induction r as [|c r IHr]; [done|]. cbn. by f_equal.
Qed.

Lemma edges_from_range i rows e : e ∈ edges_from i rows → i ≤ fst e < i + vsize rows.
Proof.
  revert i. induction rows as [|r rows IH]; intros i He; [by apply elem_of_nil in He|]. cbn [edges_from] in He.
  rewrite vsize_cons. pose proof (vsize_nonneg rows). apply elem_of_app in He as [(c & -> & _)%list_elem_of_fmap|He]; [cbn; lia|].
  apply IH in He. lia.
Qed.

(** ** The rows and the output *)

(** A product with a fraction that leaves an integer is exact. *)
Lemma dmul_part t w k :
  0 ≤ t → 0 < w → 0 < k → 2 ^ t * w < 2 ^ 53 → dmul (dbl (2 ^ t * w)) (k, - t) = dbl (k * w).
Proof.
  intros Ht Hw Hk Hs. pose proof (pow2_pos t Ht). unfold dmul, dbl, float_mul.
  destruct (float_of_uint_exact 53 (2 ^ t * w)) as [-> Hj]; [nia..|].
  set (j := 53 - 1 - Z.log2 (2 ^ t * w)) in *. cbn [fst snd]. unfold scale_num, scale_den, float_of_uint.
  rewrite Z.opp_involutive, Z.max_l, Z.max_r, Z.mul_1_l by lia. change (2 ^ 0) with 1.
  rewrite <- (round_quot_pow2 53 (k * w) (j + t)) by nia. f_equal; [rewrite Z.pow_add_r by lia; ring | f_equal; lia].
Qed.

Lemma dmul_half w k : 0 < w → 0 < k → 2 * w < 2 ^ 53 → dmul (dbl (2 * w)) (k, -1) = dbl (k * w).
Proof. intros. by apply (dmul_part 1). Qed.

Lemma dmul_comm x y : dmul x y = dmul y x.
Proof. unfold dmul, float_mul. by rewrite (Z.mul_comm x.1), (Z.add_comm x.2). Qed.

Lemma dmul_exact a b : 0 < a → 0 ≤ b → a * b < 2 ^ 53 → dmul (dbl a) (dbl b) = dbl (a * b).
Proof.
  intros Ha Hb Hs. destruct (Z.eq_dec b 0) as [->|]; [|by apply float_mul_exact; lia].
  rewrite Z.mul_0_r. unfold dmul, float_mul. change (dbl 0) with (0, 0). cbn [fst]. rewrite Z.mul_0_r. done.
Qed.

(** So is a sum. *)
Lemma dbl_form a : 0 ≤ a < 2 ^ 53 → ∃ j, dbl a = (a * 2 ^ j, - j) ∧ 0 ≤ j.
Proof.
  intros Ha. destruct (Z.eq_dec a 0) as [->|]; [by exists 0|]. unfold dbl.
  destruct (float_of_uint_exact 53 a) as [-> Hj]; [lia..|]. by eexists.
Qed.

Lemma dadd_exact a b : 0 ≤ a → 0 ≤ b → a + b < 2 ^ 53 → dadd (dbl a) (dbl b) = dbl (a + b).
Proof.
  intros Ha Hb Hs. unfold dadd, float_add. destruct (dbl_form a) as (j & -> & Hj); [lia|].
  destruct (dbl_form b) as (k & -> & Hk); [lia|]. unfold dyadic_add. cbn [fst snd]. set (e := Z.min (- j) (- k)).
  assert (a * 2 ^ j * 2 ^ (- j - e) + b * 2 ^ k * 2 ^ (- k - e) = (a + b) * 2 ^ (- e)) as ->.
  { rewrite <- !Z.mul_assoc, <- !Z.pow_add_r by lia. replace (j + (- j - e)) with (- e) by lia.
    replace (k + (- k - e)) with (- e) by lia. ring. }
  pose proof (pow2_pos (- e)). rewrite Z.max_l, Z.max_r, Z.abs_eq, Z.mul_1_r by nia.
  destruct (Z.eq_dec (a + b) 0) as [E|]; [by rewrite E|].
  rewrite round_quot_pow2 by lia. unfold dbl, float_of_uint. destruct (round_quot 53 (a + b) 1) as [m' e'].
  rewrite Z.sgn_pos by nia. by rewrite Z.mul_1_l.
Qed.

Lemma dbl_ceil a : 0 < a < 2 ^ 53 → ceil_dyadic (dbl a) = a.
Proof.
  intros Ha. unfold dbl. destruct (float_of_uint_exact 53 a) as [-> Hj]; [lia..|]. unfold ceil_dyadic.
  set (j := 53 - 1 - Z.log2 a) in *. pose proof (pow2_pos j Hj). destruct (Z.leb_spec 0 (- j)).
  - replace j with 0 by lia. cbn. lia.
  - rewrite Z.opp_involutive, <- Z.mul_opp_l, Z.div_mul; lia.
Qed.

Lemma dbl_u64 a : 0 ≤ a < 2 ^ 53 → u64_of_float (dbl a) = Ok a.
Proof.
  intros Ha. destruct (Z.eq_dec a 0) as [->|]; [done|]. unfold dbl.
  destruct (float_of_uint_exact 53 a) as [-> Hj]; [lia..|]. unfold u64_of_float.
  set (j := 53 - 1 - Z.log2 a) in *. pose proof (pow2_pos j Hj).
  assert ((if 0 <=? - j then a * 2 ^ j * 2 ^ (- j) else Z.quot (a * 2 ^ j) (2 ^ (- - j))) = a) as ->.
  { destruct (Z.leb_spec 0 (- j)); [replace j with 0 by lia; cbn; lia|]. rewrite Z.opp_involutive. apply Z.quot_mul. lia. }
  destruct (Z.leb_spec 0 a), (Z.ltb_spec a (2 ^ 64)); done || lia.
Qed.

Lemma dadd_pred a : 0 < a < 2 ^ 53 → dadd (dbl a) (-1, 0) = dbl (a - 1).
Proof.
  intros Ha. unfold dadd, float_add, dbl. destruct (float_of_uint_exact 53 a) as [-> Hj]; [lia..|].
  set (j := 53 - 1 - Z.log2 a) in *. unfold dyadic_add. cbn [fst snd]. rewrite Z.min_l by lia.
  replace (- j - - j) with 0 by lia. replace (0 - - j) with j by lia.
  pose proof (pow2_pos j Hj). rewrite Z.mul_1_r, Z.max_l, Z.opp_involutive, Z.max_r by lia.
  replace (a * 2 ^ j + -1 * 2 ^ j) with ((a - 1) * 2 ^ j) by ring. rewrite Z.mul_1_r, Z.abs_eq by nia.
  destruct (Z.eq_dec a 1) as [->|]; [done|]. rewrite round_quot_pow2 by lia. unfold float_of_uint.
  destruct (round_quot 53 (a - 1) 1) as [m' e']. rewrite Z.sgn_pos by nia. by rewrite Z.mul_1_l.
Qed.

(** An even number of vertices makes whole blocks, and the last row is the last. *)
Definition dyn_height (tool : DynTool) (v : Z) : Z := match tool with VT_0_3 => 3 * v | _ => 5 * (v / 2) end.

Lemma dyn_size tool v :
  0 < v < 2 ^ 24 → Z.Even v →
  dyn_rows tool v = dyn_height tool v ∧ dyn_last tool v = Ok (dyn_height tool v - 1) ∧ 0 < dyn_height tool v.
Proof.
  intros Hv [w ->]. unfold dyn_height. rewrite (Z.mul_comm 2 w), Z.div_mul, (Z.mul_comm w 2) by done.
  destruct tool; unfold dyn_rows, dyn_last, dyn_tile_num.
  5: { rewrite (u64_small (2 * w * (2 + 1))), u64_small by lia. split_and!; [lia | f_equal; lia | lia]. }
  all: rewrite dmul_half by lia; rewrite dbl_ceil, dadd_pred, dbl_u64 by lia; split_and!; done || lia.
Qed.

Lemma dyn_pointers_csr i acc rows :
  rows ≠ [] → dyn_pointers (i + vsize rows - 1) i acc rows = print_pointers acc rows.
Proof.
  revert i acc. induction rows as [|r rows IH]; intros i acc Hr; [done|]. cbn [dyn_pointers print_pointers].
  rewrite vsize_cons. replace (i + (vsize rows + 1) - 1) with (i + 1 + vsize rows - 1) by lia.
  destruct rows as [|r' rows]; [|rewrite IH by done]; cbn [qempty].
  - change (vsize (@nil (list Z))) with 0. destruct (Z.eqb_spec i (i + 1 + 0 - 1)); [|lia]. done.
  - rewrite vsize_cons. pose proof (vsize_nonneg rows). destruct (Z.eqb_spec i (i + 1 + (vsize rows + 1) - 1)); [lia|]. done.
Qed.

Lemma dyn_edges_csr i rows : dyn_edges (i + vsize rows - 1) i rows = print_rows rows.
Proof.
  revert i. induction rows as [|r rows IH]; intros i; [done|]. cbn [dyn_edges print_rows]. rewrite vsize_cons.
  replace (i + (vsize rows + 1) - 1) with (i + 1 + vsize rows - 1) by lia. rewrite IH. do 2 f_equal.
  destruct rows as [|r' rows]; cbn [qempty].
  - change (vsize (@nil (list Z))) with 0. apply Z.eqb_eq. lia.
  - rewrite vsize_cons. pose proof (vsize_nonneg rows). apply Z.eqb_neq. lia.
Qed.

Lemma dyn_text_csr rows : rows ≠ [] → dyn_text (vsize rows - 1) rows = csr_text rows.
Proof.
  intros Hr. unfold dyn_text, csr_text. rewrite <- (Z.add_0_l (vsize rows)). by rewrite dyn_pointers_csr, dyn_edges_csr.
Qed.

(** ** The blocks *)

(** A quotient, and a quotient less two, converted to an integer. *)
Lemma u64_quot m e c :
  e ≤ 0 → 0 ≤ c < 2 ^ 64 → c * 2 ^ (- e) ≤ m < (c + 1) * 2 ^ (- e) → u64_of_float (m, e) = Ok c.
Proof.
  intros He Hc Hm. unfold u64_of_float. pose proof (pow2_pos (- e)).
  assert ((if 0 <=? e then m * 2 ^ e else Z.quot m (2 ^ (- e))) = c) as ->.
  { destruct (Z.leb_spec 0 e) as [H0|]; [replace e with 0 in * by lia; change (2 ^ (- 0)) with 1 in *; change (2 ^ 0) with 1; lia|].
    rewrite Z.quot_div_nonneg by nia. symmetry. apply (Z.div_unique _ _ _ (m - c * 2 ^ (- e))); nia. }
  destruct (Z.leb_spec 0 c), (Z.ltb_spec c (2 ^ 64)); done || lia.
Qed.

(** A positive significand, negated: the conversion of a number above -1. *)
Lemma u64_neg m e :
  0 < m → u64_of_float (- m, e) = if (if 0 <=? e then 1 <=? m else 2 ^ (- e) <=? m) then Err FloatRange else Ok 0.
Proof.
  intros Hm. unfold u64_of_float. destruct (Z.leb_spec 0 e).
  - pose proof (pow2_pos e ltac:(lia)). destruct (Z.leb_spec 1 m), (Z.leb_spec 0 (- m * 2 ^ e)); try nia. done.
  - pose proof (pow2_pos (- e) ltac:(lia)). rewrite Z.quot_opp_l, Z.quot_div_nonneg by lia. destruct (Z.leb_spec (2 ^ (- e)) m).
    + assert (1 ≤ m / 2 ^ (- e)) by (apply Z.div_le_lower_bound; lia). destruct (Z.leb_spec 0 (- (m / 2 ^ (- e)))); [lia|]. done.
    + rewrite Z.div_small by lia. done.
Qed.

(** The sum of a quotient and -2, where it is rounded from. *)
Lemma less_two m e :
  e ≤ 0 → float_add 24 (m, e) (-2, 0) =
    let K := 2 ^ (- e) in let x := round_quot 24 (Z.abs (m - 2 * K)) K in (Z.sgn (m - 2 * K) * x.1, x.2).
Proof.
  intros He. unfold float_add, dyadic_add. cbn [fst snd]. rewrite Z.min_l, Z.sub_diag, Z.mul_1_r by lia.
  replace (0 - e) with (- e) by lia. replace (m + -2 * 2 ^ (- e)) with (m - 2 * 2 ^ (- e)) by lia.
  rewrite Z.max_l, (Z.max_r 0 (- e)), Z.mul_1_r by lia. cbv zeta. by destruct (round_quot _ _ _).
Qed.

Lemma half_quot_ok k c :
  0 < k → 4 * k < 2 ^ 24 → 0 ≤ c < 4 * k →
  ∃ q, half_quot (2 * k) c = Ok q ∧ u64_of_float q = Ok (c / k) ∧
    u64_of_float (float_add 24 q (-2, 0)) = if c <=? k then Err FloatRange else Ok (Z.max 0 (c / k - 2)).
Proof.
  intros Hk Hs Hc. unfold half_quot. rewrite (Z.mul_comm 2 k), Z.div_mul by done.
  destruct (Z.eqb_spec k 0) as [|_]; [lia|]. eexists. split; [reflexivity|].
  destruct (Z.eq_dec c 0) as [->|Hc0].
  { assert (float_div 24 (float_of_uint 24 0) (float_of_uint 24 k) = (0, 0)) as -> by done.
    rewrite Z.div_0_l by lia. destruct (Z.leb_spec 0 k); [|lia]. by split. }
  destruct (float_div_ratio 24 c k) as (n & d & -> & Hn & Hd & E); [lia..|].
  destruct (round_quot_compare 24 n d c k) as [He Hcmp]; [lia..|].
  destruct (round_quot_shape 24 n d) as [Hm _]; [lia..|]. destruct (round_quot 24 n d) as [m e]. cbn [fst snd] in *.
  rewrite less_two by done. cbv zeta. set (K := 2 ^ (- e)) in *. assert (0 < K) as HK by (apply pow2_pos; lia).
  assert (∀ i, m < i * K ↔ c < i * k) as Hlt.
  { intros i. rewrite <- !Z.compare_lt_iff. by rewrite Hcmp. }
  pose proof (Z.div_mod c k ltac:(lia)) as Hdm. pose proof (Z.mod_pos_bound c k ltac:(lia)) as Hmb.
  assert (0 ≤ c / k < 4) as Hq by (split; [apply Z.div_pos; lia | apply Z.div_lt_upper_bound; lia]).
  assert (∀ i, i ≤ c / k → i * K ≤ m) as Hge.
  { intros i Hi. destruct (Z.lt_ge_cases m (i * K)) as [H%Hlt|]; [nia | done]. }
  assert (m < (c / k + 1) * K) as Hup by (apply Hlt; nia). split; [apply u64_quot; [done | lia | split; [by apply Hge | done]]|].
  pose proof (Hcmp 1) as H1. rewrite !Z.mul_1_l in H1. destruct (Z.leb_spec c k) as [Hck|Hck].
  - (* at most one: the difference is at most -1 *)
    assert (m ≤ K) as HmK by (destruct (Z.compare_spec c k), (Z.compare_spec m K); done || lia).
    rewrite Z.abs_neq, Z.sgn_neg by lia. destruct (round_quot_shape 24 (- (m - 2 * K)) K) as [Hx1 Hx2]; [lia..|].
    specialize (Hx2 ltac:(lia)). destruct (round_quot 24 (- (m - 2 * K)) K) as [x f]. cbn [fst snd] in *.
    replace (-1 * x) with (- x) by lia. rewrite u64_neg by lia. destruct (Z.leb_spec 0 f).
    + destruct (Z.leb_spec 1 x); [done | lia].
    + destruct (Z.leb_spec (2 ^ (- f)) x); [done | lia].
  - assert (K < m) as HKm by (destruct (Z.compare_spec c k), (Z.compare_spec m K); done || lia).
    destruct (Z.lt_trichotomy m (2 * K)) as [Hm2|[Hm2|Hm2]].
    + assert (c / k = 1) as ->.
      { assert (1 ≤ c / k) by (apply Z.div_le_lower_bound; lia). destruct (Z.le_gt_cases 2 (c / k)) as [H2%Hge|]; lia. }
      rewrite Z.abs_neq, Z.sgn_neg by lia.
      destruct (round_quot_compare 24 (- (m - 2 * K)) K (- (m - 2 * K)) K) as [Hf Hcmp']; [lia..|].
      destruct (round_quot_shape 24 (- (m - 2 * K)) K) as [Hx1 _]; [lia..|].
      specialize (Hcmp' 1). destruct (round_quot 24 (- (m - 2 * K)) K) as [x f]. cbn [fst snd] in *.
      rewrite !Z.mul_1_l in Hcmp'. replace (-1 * x) with (- x) by lia. rewrite u64_neg by lia.
      assert (x < 2 ^ (- f)) by (unfold Z.lt; rewrite Hcmp'; apply Z.compare_lt_iff; lia).
      destruct (Z.leb_spec 0 f); [replace f with 0 in * by lia; change (2 ^ (- 0)) with 1 in *; lia|].
      destruct (Z.leb_spec (2 ^ (- f)) x); [lia | done].
    + assert (c / k = 2) as ->.
      { pose proof (Hcmp 2) as H2. rewrite Hm2, Z.compare_refl in H2. symmetry in H2. apply Z.compare_eq_iff in H2. subst c.
        by rewrite Z.div_mul by lia. }
      rewrite Hm2, Z.sub_diag. reflexivity.
    + assert (2 ≤ c / k) as Hq2.
      { destruct (Z.le_gt_cases 2 (c / k)); [done|]. assert (c < 2 * k) as H2%Hlt by nia. lia. }
      rewrite Z.abs_eq, Z.sgn_pos, Z.max_r by lia.
      destruct (round_quot_compare 24 (m - 2 * K) K (m - 2 * K) K) as [Hf Hcmp']; [lia..|].
      destruct (round_quot 24 (m - 2 * K) K) as [x f]. cbn [fst snd] in *. rewrite Z.mul_1_l.
      apply u64_quot; [done | lia |]. split.
      * destruct (Z.compare_spec x ((c / k - 2) * 2 ^ (- f))) as [| Hlt' |]; [lia | | lia].
        unfold Z.lt in Hlt'. rewrite Hcmp', Z.mul_sub_distr_r in Hlt'. change (m - 2 * K < c / k * K - 2 * K) in Hlt'.
        pose proof (Hge (c / k) ltac:(lia)). lia.
      * unfold Z.lt. rewrite Hcmp'. apply Z.compare_lt_iff. rewrite Z.mul_add_distr_r, Z.mul_sub_distr_r.
        rewrite Z.mul_add_distr_r in Hup. lia.
Qed.

(** The constants of the tools, for [4 * k] vertices. *)
Section Targets.
Variables (k i c : Z).
Hypothesis (Hk : 2 ≤ k) (Hs : 4 * k < 2 ^ 24) (Hi : 0 ≤ i < 4 * k) (Hc : 0 ≤ c < 4 * k).

Lemma dyn_half : 4 * k / 2 = 2 * k.
Proof. replace (4 * k) with (2 * k * 2) by lia. by rewrite Z.div_mul. Qed.
Lemma dyn_quarter : 4 * k / 4 = k.
Proof. rewrite Z.mul_comm. by rewrite Z.div_mul. Qed.
Lemma dyn_part j : 0 < j → dmul (dbl (4 * k)) (j, -2) = dbl (j * k).
Proof. intros Hj. apply (dmul_part 2 k j); lia. Qed.
Lemma dyn_halves j : 0 < j → dmul (dbl (4 * k)) (j, -1) = dbl (2 * j * k).
Proof. intros Hj. replace (4 * k) with (2 * (2 * k)) by lia. rewrite dmul_half by lia. f_equal. lia. Qed.
Lemma dyn_tile : udiv c (2 * k) = Ok (if c <? 2 * k then 0 else 1).
Proof.
  unfold udiv. destruct (Z.eqb_spec (2 * k) 0); [lia|]. f_equal. symmetry.
  destruct (Z.ltb_spec c (2 * k)); [by rewrite Z.div_small by lia | apply (Z.div_unique _ _ _ (c - 2 * k)); lia].
Qed.
Lemma dyn_sum a b : 0 ≤ a → 0 ≤ b → a + b < 2 ^ 32 → u64_of_float (dadd (dbl a) (dbl b)) = Ok (a + b).
Proof. intros. rewrite dadd_exact by lia. apply dbl_u64. lia. Qed.

Lemma vt_0_blocks :
  vt_0_target (4 * k) (2 * k) i c =
    Ok (if i <=? 2 * k then if 2 <=? c then i + 6 * k else i else i + (if c <? 2 * k then 2 * k else 6 * k)).
Proof.
  unfold vt_0_target. rewrite dyn_half. destruct (Z.leb_spec i (2 * k)).
  - destruct (half_quot_ok k c) as (q & -> & Eq & _); [lia..|]. rewrite bind_Ok, Eq, bind_Ok, dmul_comm, dyn_halves by lia.
    rewrite (dmul_comm (1, -1)), dyn_halves by lia. destruct (Z.leb_spec 2 c); [by apply dyn_sum; lia|].
    rewrite Z.div_small by lia. change (last_tile 0) with 0. rewrite dmul_exact, dyn_sum by lia. f_equal. lia.
  - rewrite dyn_tile, bind_Ok, dmul_comm, dyn_halves by lia.
    destruct (Z.ltb_spec c (2 * k)); [change (last_tile 0) with 0 | change (last_tile 1) with 1];
      rewrite u64_small, (dadd_exact (2 * 1 * k)), dyn_sum by lia; f_equal; lia.
Qed.

Lemma vt_1_blocks :
  vt_1_target (4 * k) (2 * k) i c =
    if i <=? 2 * k then
      if c <=? k then Err FloatRange
      else Ok (if 2 * k <=? c then i + (if c <? 3 * k then 4 * k else 6 * k) else i)
    else Ok (i + (if c <? 2 * k then 0 else 6 * k)).
Proof.
  unfold vt_1_target. rewrite dyn_half. destruct (Z.leb_spec i (2 * k)).
  - destruct (half_quot_ok k c) as (q & -> & _ & Eq); [lia..|]. rewrite bind_Ok, Eq.
    destruct (Z.leb_spec c k); [done|]. rewrite bind_Ok. destruct (Z.leb_spec (2 * k) c); [|done].
    assert (Z.max 0 (c / k - 2) = if c <? 3 * k then 0 else 1) as ->.
    { destruct (Z.ltb_spec c (3 * k)); [rewrite <- (Z.div_unique c k 2 (c - 2 * k)) | rewrite <- (Z.div_unique c k 3 (c - 3 * k))]; lia. }
    rewrite (dmul_comm (1, -1)), dyn_halves, u64_small by lia.
    destruct (Z.ltb_spec c (3 * k)); [change (last_tile 0) with 0 | change (last_tile 1) with 1];
      rewrite dmul_exact, dyn_sum by lia; f_equal; lia.
  - rewrite dyn_tile, bind_Ok, dyn_halves by lia.
    destruct (Z.ltb_spec c (2 * k)); [change (last_tile 0) with 0 | change (last_tile 1) with 1];
      rewrite dmul_exact, dyn_sum by lia; f_equal; lia.
Qed.

Lemma vt_2_blocks :
  vt_2_target (4 * k) (2 * k) i c =
    Ok (if i <=? 2 * k then i + (if c <? 2 * k then 0 else 6 * k)
        else if 2 * k <=? c then i + 6 * k else i + (if c <? k then 0 else 2 * k)).
Proof.
  unfold vt_2_target. rewrite dyn_half. destruct (Z.leb_spec i (2 * k)).
  - rewrite dyn_tile, bind_Ok, (dmul_comm (3, -1)), dyn_halves by lia.
    destruct (Z.ltb_spec c (2 * k)); [change (last_tile 0) with 0 | change (last_tile 1) with 1];
      rewrite dmul_exact, dyn_sum by lia; f_equal; lia.
  - destruct (half_quot_ok k c) as (q & -> & Eq & _); [lia..|]. rewrite bind_Ok, Eq, bind_Ok.
    rewrite (dmul_comm (3, -1)), dyn_halves by lia. destruct (Z.leb_spec (2 * k) c); [by apply dyn_sum; lia|].
    assert (c / k = if c <? k then 0 else 1) as ->.
    { destruct (Z.ltb_spec c k); [apply Z.div_small; lia | symmetry; apply (Z.div_unique _ _ _ (c - k)); lia]. }
    destruct (Z.ltb_spec c k); [change (last_tile 0) with 0 | change (last_tile 1) with 1];
      rewrite (u64_small (2 * k * _)), u64_small by lia; f_equal; lia.
Qed.

Lemma vt_3_blocks :
  vt_3_target (4 * k) (2 * k) i c =
    if i <=? 2 * k then Ok (i + (if c <? 2 * k then 0 else 4 * k))
    else if c <=? k then Err FloatRange else Ok (if 2 * k <=? c then i + 6 * k else i).
Proof.
  unfold vt_3_target. rewrite dyn_half. destruct (Z.leb_spec i (2 * k)).
  - rewrite dyn_tile, bind_Ok.
    destruct (Z.ltb_spec c (2 * k)); [change (last_tile 0) with 0 | change (last_tile 1) with 1];
      rewrite (u64_small (4 * k * _)), u64_small by lia; f_equal; lia.
  - destruct (half_quot_ok k c) as (q & -> & _ & Eq); [lia..|]. rewrite bind_Ok, Eq. destruct (Z.leb_spec c k); [done|].
    rewrite bind_Ok, (dmul_comm (3, -1)), dyn_halves by lia. destruct (Z.leb_spec (2 * k) c); [by apply dyn_sum; lia|].
    rewrite <- (Z.div_unique c k 1 (c - k)) by lia. change (last_tile (Z.max 0 (1 - 2))) with 0.
    rewrite (u64_small (2 * k * _)), u64_small by lia. f_equal. lia.
Qed.

Lemma vt_0_3_blocks :
  vt_0_3_target (4 * k) (2 * k) i c =
    Ok (i + if i <? 2 * k then if c <? k then 0 else if c <? 2 * k then 2 * k else 6 * k
            else if c <? 2 * k then 2 * k
            else if i <? 3 * k then if c <? 3 * k then 6 * k else 8 * k
            else if c <? 3 * k then 7 * k else 9 * k).
Proof.
  unfold vt_0_3_target. rewrite dyn_half, dyn_quarter, (u64_small (4 * k * 3)), (u64_small (4 * k * 2)) by lia.
  replace (4 * k * 3 / 4) with (3 * k) by (rewrite <- (Z.div_mul (3 * k) 4); [f_equal; lia | done]).
  rewrite dyn_halves, !dyn_part, !dyn_sum, !u64_small by lia.
  destruct (i <? 2 * k), (i <? 3 * k), (c <? k), (c <? 2 * k), (c <? 3 * k); f_equal; lia.
Qed.
End Targets.

(** Each tool sends an edge to the row of its block, and has none for the others. *)
Lemma dyn_target_row tool k e :
  2 ≤ k → 4 * k < 2 ^ 24 → 0 ≤ e.1 < 4 * k → 0 ≤ e.2 < 4 * k →
  match block_row (blocks tool k) e with
  | Some j => dyn_target tool (4 * k) (2 * k) e.1 e.2 = Ok j ∧ 0 ≤ j < dyn_height tool (4 * k)
  | None => no_row (λ e, dyn_target tool (4 * k) (2 * k) e.1 e.2) (dyn_height tool (4 * k)) e
  end.
Proof.
  destruct e as [i c]. cbn [fst snd]. intros Hk Hs Hi Hc. unfold no_row, dyn_height, dyn_target. cbn [fst snd].
  rewrite (dyn_half k).
  destruct tool; rewrite ?vt_0_blocks, ?vt_1_blocks, ?vt_2_blocks, ?vt_3_blocks, ?vt_0_3_blocks by done;
    unfold blocks, block_row, in_block; cbn [b_rows b_columns b_at fst snd];
    repeat match goal with |- context [?x <=? ?y] => destruct (Z.leb_spec x y); try lia; cbn [andb]
                         | |- context [?x <? ?y] => destruct (Z.ltb_spec x y); try lia; cbn [andb] end;
    try (split; [f_equal|]; lia); try done; intros j [= <-]; lia.
Qed.

Lemma block_row_covers tool k e :
  tool = VT_0 ∨ tool = VT_2 → 0 ≤ e.1 < 4 * k → 0 ≤ e.2 < 4 * k → is_Some (block_row (blocks tool k) e).
Proof.
  intros Ht He1 He2. destruct e as [i c]. cbn [fst snd] in *. destruct Ht as [->| ->]; unfold blocks, block_row, in_block; cbn [b_rows b_columns b_at fst snd];
    repeat match goal with |- context [?x <=? ?y] => destruct (Z.leb_spec x y); try lia; cbn [andb]
                         | |- context [?x <? ?y] => destruct (Z.ltb_spec x y); try lia; cbn [andb] end; by eexists.
Qed.

(** ** Properties *)

(** C36: What an unequal tiling writes.  On a file that holds a square matrix of [4 * k]
    vertices, with [2 ≤ k], a tool whose blocks ([blocks]) contain every edge writes the
    file of the rows that the geometry gives: the row of an edge is the row of its vertex in
    the block of the edge, each row holds its columns in the order of the file, and every
    edge is in exactly one.  If an edge lies in no block, the run ends in an undefined
    conversion or outside an array: an upper edge with a column up to [k] in [vt_1], a lower
    one in [vt_3], and one with both ends in the last quarter in [vt_0_3].  The blocks of
    [vt_0] and [vt_2] contain all edges. *)
Theorem unequal_tiles tool k text rows :
  csr_file text rows → vsize rows = 4 * k → 2 ≤ k → 4 * k < 2 ^ 24 → vsize (List.concat rows) < 2 ^ 64 →
  Forall (λ c, 0 ≤ c < 4 * k) (List.concat rows) →
  let es := edges_from 0 rows in let row := block_row (blocks tool k) in
  let new_csr := arranged row (match tool with VT_0_3 => 12 * k | _ => 10 * k end) es in
  (Forall (λ e, is_Some (row e)) es →
     vtmake_dynamic tool (4 * k) (Some text) = Ok (Some (csr_text new_csr)) ∧ List.concat new_csr ≡ₚ List.concat rows) ∧
  (¬ Forall (λ e, is_Some (row e)) es → ∃ f, vtmake_dynamic tool (4 * k) (Some text) = Err f) ∧
  (tool = VT_0 ∨ tool = VT_2 → Forall (λ e, is_Some (row e)) es).
Proof.
  intros Hf Hv Hk Hs Hlen Hcols es row new_csr.
  assert (∀ e, e ∈ es → 0 ≤ e.1 < 4 * k ∧ 0 ≤ e.2 < 4 * k) as Hes.
  { intros e He. split; [rewrite <- Hv; by apply (edges_from_range 0 rows)|]. rewrite Forall_forall in Hcols. apply Hcols.
    rewrite <- (edges_from_snd 0). apply list_elem_of_fmap. by exists e. }
  destruct (dyn_size tool (4 * k)) as (Er & El & Hh); [lia | by exists (2 * k); lia|].
  set (n := dyn_height tool (4 * k)) in *. assert (match tool with VT_0_3 => 12 * k | _ => 10 * k end = n) as En.
  { unfold n, dyn_height. rewrite dyn_half. destruct tool; lia. }
  unfold new_csr. clear new_csr. rewrite En.
  set (target e := dyn_target tool (4 * k) (2 * k) (fst e) (snd e)).
  assert (∀ e, e ∈ es → match row e with Some j => target e = Ok j ∧ 0 ≤ j < n | None => no_row target n e end) as Ht
    by (intros e He; destruct (Hes e He); by apply dyn_target_row).
  unfold vtmake_dynamic. rewrite ceil_float_exact, bind_Ok by (unfold dyn_tile_num; lia).
  assert (ceil_div (4 * k) dyn_tile_num = 2 * k) as ->
    by (unfold ceil_div, dyn_tile_num; symmetry; apply (Z.div_unique _ _ _ 1); lia).
  rewrite Er. destruct (all_edges_run (dyn_place tool (4 * k) (2 * k)) text rows (replicate (Z.to_nat n) []) Hf Hlen)
    as (r & es' & tmp & E & Hrun). rewrite Hv in Hrun. fold es in Hrun. rewrite E, bind_Ok. unfold dyn_place in Hrun at 1.
  change (λ e : Z * Z, _) with (λ (e : Z * Z) s, k ← target e; vmod s k (λ r, Ok (r ++ [snd e]))) in Hrun.
  split; [|split].
  - intros Hall. assert (Forall (in_rows target row n) es) as Hin.
    { rewrite Forall_forall in Hall |- *. intros e He. destruct (Hall e He) as [j Ej]. pose proof (Ht e He) as Hte.
      rewrite Ej in Hte. destruct Hte as [Hte1 Hte2]. by exists j. }
    assert (replicate (Z.to_nat n) [] = arranged row n []) as E0.
    { apply replicate_as_elem_of. unfold arranged. rewrite length_fmap, length_seqZ. split; [done|].
      by intros y (j & -> & _)%list_elem_of_fmap. }
    rewrite E0 in Hrun |- *. rewrite (put_all _ row) in Hrun by (done || lia).
    destruct Hrun as (toks & es'' & tmp' & Ea & _). rewrite Ea, bind_Ok, El, bind_Ok. cbn [app]. split.
    + do 2 f_equal. assert (vsize (arranged row n es) = n) as Hl.
      { unfold arranged, vsize. rewrite length_fmap, length_seqZ. lia. }
      pose proof (dyn_text_csr (arranged row n es)) as Htx. rewrite Hl in Htx. apply Htx. intros Hn. rewrite Hn in Hl.
      change (0 = n) in Hl. lia.
    + rewrite (arranged_perm target row n) by (done || lia). unfold es. by rewrite edges_from_snd.
  - intros Hn. apply not_Forall_Exists in Hn; [|intros e; destruct (row e); [by left; eexists | right; by intros []]].
    apply Exists_exists in Hn as (e & He & Hne). pose proof (Ht e He) as Hte.
    destruct (row e) as [j|] eqn:Ej; [destruct Hne; by exists j|].
    destruct (put_bad target n es e (replicate (Z.to_nat n) []) He Hte) as [f Ef].
    { unfold vsize. rewrite length_replicate. lia. }
    rewrite Ef in Hrun. cbn [follows] in Hrun. rewrite Hrun. by exists f.
  - intros Ht2. apply Forall_forall. intros e He. destruct (Hes e He). by apply block_row_covers.
Qed.

(** ** Concrete runs *)

(** Eight vertices, with edges in several blocks; the second has one more, in the last quarter. *)
Definition ex_dyn_rows : list (list Z) := [[1; 7]; [0; 5]; []; [3]; [2; 4]; [6]; [1; 3]; [0; 2; 4]].
Definition ex_dyn_last : list (list Z) := [[1; 7]; [0; 5]; []; [3]; [2; 4]; [6]; [1; 3]; [0; 6]].

Lemma unequal_tiles_witness :
  vtmake_dynamic VT_2 8 (Some (csr_text ex_dyn_rows)) =
    Ok (Some (csr_text [[1]; [0]; []; [3]; [2]; []; [1]; [0]; []; []; [3]; [2]; [7]; [5]; []; []; [4]; [6]; []; [4]])) ∧
  ∃ f, vtmake_dynamic VT_0_3 8 (Some (csr_text ex_dyn_last)) = Err f.
Proof.
  split.
  - destruct (unequal_tiles VT_2 2 (csr_text ex_dyn_rows) ex_dyn_rows) as (H & _ & Hall);
      [apply csr_text_file; [done | by repeat constructor | done] | done | done | done | done | by repeat constructor |].
    destruct H as [E _]; [apply Hall; by right | exact E].
  - destruct (unequal_tiles VT_0_3 2 (csr_text ex_dyn_last) ex_dyn_last) as (_ & H & _);
      [apply csr_text_file; [done | by repeat constructor | done] | done | done | done | done | by repeat constructor |].
    apply H. intros Hall. rewrite Forall_forall in Hall. destruct (Hall (7, 6)) as [j Ej]; [|discriminate Ej].
    by apply (list_elem_of_lookup_2 _ 11).
Defined.

(** With the guard [i <= v/2], [vt_0] puts edges of the vertices 0 and 2 into one row. *)
Example ex_shared_row :
  dyn_target VT_0 4 2 0 1 = Ok 2 ∧ dyn_target VT_0 4 2 2 0 = Ok 2.
Proof. split; vm_compute; reflexivity. Qed.

(** A row of [vt_3] is found with a negative number where the column is in the left half. *)
Example ex_negative_index : dyn_target VT_3 8 4 6 0 = Err FloatRange ∧ dyn_target VT_1 8 4 0 0 = Err FloatRange.
Proof. split; vm_compute; reflexivity. Qed.

(** Vertices of two quarters share the row 20 of [vt_0_3]. *)
Example ex_shared_quarter :
  dyn_target VT_0_3 8 4 4 6 = Ok 20 ∧ dyn_target VT_0_3 8 4 6 4 = Ok 20.
Proof. split; vm_compute; reflexivity. Qed.

(** An odd number of vertices leaves half a row: the separators are put as if the last but
    one were the last, so the two last row pointers are glued. *)
Example ex_odd_rows :
  dyn_rows VT_2 5 = 13 ∧ dyn_last VT_2 5 = Ok 11 ∧
  vtmake_dynamic VT_2 5 (Some (csr_text [[0]; []; []; []; [4]])) = Ok (Some "0 1 1 1 1 1 1 1 1 1 1 1 22 
0 4
"%string).
Proof. split_and!; vm_compute; reflexivity. Qed.
