(* ===== verification/Cpu.v ===== *)
(** * The stand-alone driver of the memory simulator (DRAMsim3/src/cpu.h, cpu.cc, main.cc)

    Three processors that drive a memory system: with random addresses, with the sum of
    two arrays, and with a trace file.  A tick answers the transactions the system
    accepted and the callbacks it made.  The numbers of [std::mt19937_64] are a sequence
    [gen], of which a processor has drawn a number; an uninitialised [Transaction] is any
    transaction.  Formatted input ([>>]) is modelled on its stream with its end-of-file
    and failure bits.  The theorems: a run of a processor of any kind goes through
    for as many cycles as its memory lasts and keeps the memory's ledger; the trace
    processor offers the transactions of the file in their order, each until it is
    accepted, and then the last one a second time, as a read. *)

From S2P Require Import Prelude CFloat DramCommon DramConfig ControllerTick Common MemoryRun DramSystem.
From S2P Require Import Text DataReader CsrTools.
From Stdlib Require Import Ascii String.

Open Scope Z_scope.

(** ** Formatted input *)

Record IStream := mkIStream { is_text : string; eofbit : bool; failbit : bool }.

(** The sentry of [>>] skips white space; it fails on a stream that is not good and at
    the end of the text. *)
Definition sentry (st : IStream) : bool * IStream :=
  if eofbit st || failbit st then (false, st {{ failbit := true }})
  else match skip_space (is_text st) with
       | EmptyString => (false, mkIStream EmptyString true true)
       | s => (true, mkIStream s false false)
       end.

(** A prefix [0x], which [std::hex] allows. *)
Definition skip_0x (s : string) : string :=
  match s with
  | String "0" (String x s') => if (code x =? 120) || (code x =? 88) then s' else s
  | _ => s
  end.

(** [is >> n] for an unsigned number in base 10 or 16: no digits make it 0, too many the
    largest number, and both the stream fail. *)
Definition extract_u64 (base n : Z) (st : IStream) : Z * IStream :=
  match sentry st with
  | (false, st) => (n, st)
  | (true, st) =>
      let '(neg, s) := sign (is_text st) in
      let '(v, k, rest) := digits base (if base =? 16 then skip_0x s else s) 0 0 in
      let eof := String.eqb rest EmptyString in
      if k =? 0 then (0, mkIStream rest eof true)
      else if 2 ^ 64 <=? v then (2 ^ 64 - 1, mkIStream rest eof true)
      else (if (neg : bool) then u64 (- v) else v, mkIStream rest eof false)
  end.

(** The characters up to the next white space. *)
Fixpoint word (s : string) : string * string :=
  match s with
  | String c s' => if is_space c then (EmptyString, s) else let '(w, r) := word s' in (String c w, r)
  | EmptyString => (EmptyString, EmptyString)
  end.

(** [is >> w] for a string. *)
Definition extract_word (w : string) (st : IStream) : string * IStream :=
  match sentry st with
  | (false, st) => (w, st)
  | (true, st) => let '(w, rest) := word (is_text st) in (w, mkIStream rest (String.eqb rest EmptyString) false)
  end.

Definition write_types : list string := ["WRITE"; "write"; "P_MEM_WR"; "BOFF"]%string.

(** [operator>>(std::istream&, Transaction&)] *)
Definition read_Transaction (t : Transaction) (st : IStream) : Transaction * IStream :=
  let '(a, st) := extract_u64 16 (tr_addr t) st in
  let '(mem_op, st) := extract_word EmptyString st in
  let '(c, st) := extract_u64 10 (added_cycle t) st in
  (t {{ tr_addr := a; added_cycle := c; is_write := existsb (String.eqb mem_op) write_types }}, st).

(** ** The processors *)

Definition array_size_ : Z := Z.shiftl 2 20.
Definition stride_ : Z := 64.

Section Processors.
Context {M : Type} `{MemorySystem M}.
Variable gen : nat → Z.

(** The members of [CPU]; [rn_drawn] and [sm_drawn] count the numbers drawn. *)
Record RandomCPU := mkRandom {
  rn_memory : M; rn_clk : Z; last_addr_ : Z; last_write_ : bool; rn_drawn : nat; rn_get_next : bool }.

Record StreamCPU := mkStreamCPU {
  sm_memory : M; sm_clk : Z; addr_a_ : Z; addr_b_ : Z; addr_c_ : Z; offset_ : Z; sm_drawn : nat;
  inserted_a_ : bool; inserted_b_ : bool; inserted_c_ : bool }.

Record TraceBasedCPU := mkTrace {
  tc_memory : M; tc_clk : Z; trace_file_ : IStream; trans_ : Transaction; tc_get_next : bool }.

(** [if (memory_system_.WillAcceptTransaction(a, w)) memory_system_.AddTransaction(a, w)],
    with its condition. *)
Definition offer (a : Z) (w : bool) (m : M) : res (bool * M) :=
  ok ← WillAcceptTransaction a w m;
  if (ok : bool) then m' ← ms_AddTransaction a w m; Ok (true, m') else Ok (false, m).

Abbreviation ticked C := (list (Z * bool) * list (Z * bool) * C)%type.

(** [RandomCPU::ClockTick] *)
Definition Random_ClockTick (c : RandomCPU) : res (ticked RandomCPU) :=
  '(evs, m) ← ms_ClockTick (rn_memory c);
  let c := if rn_get_next c then
             c {{ last_addr_ := gen (rn_drawn c); last_write_ := gen (S (rn_drawn c)) mod 3 =? 0;
                  rn_drawn := S (S (rn_drawn c)) }}
           else c in
  '(ok, m) ← offer (last_addr_ c) (last_write_ c) m;
  Ok (if (ok : bool) then [(last_addr_ c, last_write_ c)] else [], evs,
      c {{ rn_memory := m; rn_get_next := ok; rn_clk := u64 (rn_clk c + 1) }}).

(** One of the three [if]s of [StreamCPU::ClockTick]. *)
Definition insert_once (inserted : bool) (a : Z) (w : bool) (m : M) : res (list (Z * bool) * bool * M) :=
  if inserted then Ok ([], true, m)
  else '(ok, m) ← offer a w m; Ok (if (ok : bool) then [(a, w)] else [], ok, m).

(** [StreamCPU::ClockTick] *)
Definition Stream_ClockTick (c : StreamCPU) : res (ticked StreamCPU) :=
  '(evs, m) ← ms_ClockTick (sm_memory c);
  let c := if (array_size_ <=? offset_ c) || (sm_clk c =? 0) then
             c {{ addr_a_ := gen (sm_drawn c); addr_b_ := gen (1 + sm_drawn c)%nat; addr_c_ := gen (2 + sm_drawn c)%nat;
                  sm_drawn := (3 + sm_drawn c)%nat; offset_ := 0 }}
           else c in
  '(xa, a, m) ← insert_once (inserted_a_ c) (u64 (addr_a_ c + offset_ c)) false m;
  '(xb, b, m) ← insert_once (inserted_b_ c) (u64 (addr_b_ c + offset_ c)) false m;
  '(xc, d, m) ← insert_once (inserted_c_ c) (u64 (addr_c_ c + offset_ c)) true m;
  let c := if a && b && d then
             c {{ offset_ := u64 (offset_ c + stride_); inserted_a_ := false; inserted_b_ := false; inserted_c_ := false }}
           else c {{ inserted_a_ := a; inserted_b_ := b; inserted_c_ := d }} in
  Ok (xa ++ xb ++ xc, evs, c {{ sm_memory := m; sm_clk := u64 (sm_clk c + 1) }}).

(** [TraceBasedCPU::ClockTick] *)
Definition Trace_ClockTick (c : TraceBasedCPU) : res (ticked TraceBasedCPU) :=
  '(evs, m) ← ms_ClockTick (tc_memory c);
  '(acc, c, m) ←
    (if eofbit (trace_file_ c) then Ok ([], c, m)
     else
       let c := if tc_get_next c then
                  let '(t, st) := read_Transaction (trans_ c) (trace_file_ c) in
                  c {{ trans_ := t; trace_file_ := st; tc_get_next := false }}
                else c in
       let t := trans_ c in
       if added_cycle t <=? tc_clk c then
         '(ok, m) ← offer (tr_addr t) (is_write t) m;
         Ok (if (ok : bool) then [(tr_addr t, is_write t)] else [], c {{ tc_get_next := ok }}, m)
       else Ok ([], c, m));
  Ok (acc, evs, c {{ tc_memory := m; tc_clk := u64 (tc_clk c + 1) }}).

(** The virtual [ClockTick]. *)
Inductive CPU := Random (c : RandomCPU) | Stream (c : StreamCPU) | TraceBased (c : TraceBasedCPU).

Definition memory_system_ (c : CPU) : M :=
  match c with Random c => rn_memory c | Stream c => sm_memory c | TraceBased c => tc_memory c end.

Definition CPU_ClockTick (c : CPU) : res (ticked CPU) :=
  match c with
  | Random c => '(a, d, c) ← Random_ClockTick c; Ok (a, d, Random c)
  | Stream c => '(a, d, c) ← Stream_ClockTick c; Ok (a, d, Stream c)
  | TraceBased c => '(a, d, c) ← Trace_ClockTick c; Ok (a, d, TraceBased c)
  end.

(** The processors as they are constructed; [t] is the uninitialised [trans_], and
    [x], [y], [z] the uninitialised addresses. *)
Definition new_RandomCPU (x : Z) (m : M) : RandomCPU := mkRandom m 0 x false 0 true.
Definition new_StreamCPU (x y z : Z) (m : M) : StreamCPU := mkStreamCPU m 0 x y z 0 0 false false false.
Definition new_TraceBasedCPU (t : Transaction) (file : option string) (m : M) : res TraceBasedCPU :=
  text ← of_option AbruptExit file; Ok (mkTrace m 0 (mkIStream text false false) t true).

(** [main]: the choice of the processor, and the loop.  [trace] is the [-t] option. *)
Definition choose_CPU (x y z : Z) (t : Transaction) (trace : option (option string)) (stream_type : string) (m : M)
    : res CPU :=
  match trace with
  | Some file => c ← new_TraceBasedCPU t file m; Ok (TraceBased c)
  | None =>
      if String.eqb stream_type "stream" || String.eqb stream_type "s" then Ok (Stream (new_StreamCPU x y z m))
      else Ok (Random (new_RandomCPU x m))
  end.

Fixpoint run_cycles (cycles : nat) (c : CPU) : res (ticked CPU) :=
  match cycles with
  | O => Ok ([], [], c)
  | S n => '(a, d, c) ← CPU_ClockTick c; '(a', d', c) ← run_cycles n c; Ok (a ++ a', d ++ d', c)
  end.
End Processors.

(** ** Runs *)

Section Runs.
Context {M : Type} `{MemorySystemRuns M}.
Variable gen : nat → Z.

Lemma offer_ok n a w (m : M) :
  lasts n m → ∃ ok m', offer a w m = Ok (ok, m') ∧ lasts n m' ∧
    (if (ok : bool) then [(a, w)] else []) ++ pending m ≡ₚ pending m'.
Proof.
  intros Hl. pose proof (lasts_wf _ _ Hl) as W. destruct (will_accept_total a w m W) as [b Hb]. unfold offer.
  rewrite Hb, bind_Ok. destruct b; [|by exists false, m].
  destruct (add_accepted a w m W Hb) as (m' & E & _ & P). rewrite E, bind_Ok. exists true, m'.
  split; [done|]. split; [by eapply add_lasts | by symmetry].
Qed.

Lemma insert_once_ok n ins a w (m : M) :
  lasts n m → ∃ x ins' m', insert_once ins a w m = Ok (x, ins', m') ∧ lasts n m' ∧ x ++ pending m ≡ₚ pending m'.
Proof.
  intros Hl. unfold insert_once. destruct ins; [by eexists _, _, m|].
  destruct (offer_ok n a w m Hl) as (ok & m' & E & Hl' & P). rewrite E, bind_Ok. by eexists _, _, m'.
Qed.

(** A tick of a processor: the memory has one more cycle behind it. *)
Definition drives (n : Z) (m : M) (a d : list (Z * bool)) (m' : M) : Prop :=
  lasts n m' ∧ a ++ pending m ≡ₚ d ++ pending m'.

Lemma memory_tick n (m : M) :
  0 ≤ n → lasts (n + 1) m → ∃ evs m', ms_ClockTick m = Ok (evs, m') ∧ lasts n m' ∧ pending m ≡ₚ evs ++ pending m'.
Proof.
  intros Hn Hl. destruct (tick_lasts n m Hn Hl) as (evs & m' & E & Hl'). exists evs, m'. split; [done|]. split; [done|].
  by apply (tick_reports m evs m' (lasts_wf _ _ Hl)) in E as [_ P].
Qed.

Lemma drives_after n (m m1 m2 : M) a d :
  lasts n m2 → pending m ≡ₚ d ++ pending m1 → a ++ pending m1 ≡ₚ pending m2 → drives n m a d m2.
Proof.
  intros Hl P1 P2. split; [done|]. rewrite P1, <- P2, !app_assoc. by rewrite (Permutation_app_comm a d).
Qed.

Lemma CPU_ClockTick_ok n (c : CPU (M := M)) :
  0 ≤ n → lasts (n + 1) (memory_system_ c) →
  ∃ a d c', CPU_ClockTick gen c = Ok (a, d, c') ∧ drives n (memory_system_ c) a d (memory_system_ c').
Proof.
  intros Hn Hl. destruct (memory_tick n _ Hn Hl) as (evs & m1 & E & Hl1 & P1).
  destruct c as [c|c|c]; cbn [memory_system_ CPU_ClockTick] in *.
  - unfold Random_ClockTick. rewrite E, bind_Ok. set (c1 := if rn_get_next c then _ else c).
    destruct (offer_ok n (last_addr_ c1) (last_write_ c1) m1 Hl1) as (ok & m2 & E2 & Hl2 & P2). rewrite E2, !bind_Ok.
    eexists _, _, _. split; [reflexivity|]. by eapply drives_after.
  - unfold Stream_ClockTick. rewrite E, bind_Ok. set (c1 := if _ || _ then _ else c).
    destruct (insert_once_ok n (inserted_a_ c1) (u64 (addr_a_ c1 + offset_ c1)) false m1 Hl1) as (xa & a & m2 & E2 & Hl2 & P2).
    rewrite E2, bind_Ok.
    destruct (insert_once_ok n (inserted_b_ c1) (u64 (addr_b_ c1 + offset_ c1)) false m2 Hl2) as (xb & b & m3 & E3 & Hl3 & P3).
    rewrite E3, bind_Ok.
    destruct (insert_once_ok n (inserted_c_ c1) (u64 (addr_c_ c1 + offset_ c1)) true m3 Hl3) as (xc & d & m4 & E4 & Hl4 & P4).
    rewrite E4, !bind_Ok. eexists _, _, _. split; [reflexivity|]. cbn [memory_system_].
    assert ((xa ++ xb ++ xc) ++ pending m1 ≡ₚ pending m4) as P by perm_solve.
    by destruct (a && b && d); eapply drives_after.
  - unfold Trace_ClockTick. rewrite E, bind_Ok.
    destruct (eofbit _); [rewrite !bind_Ok; eexists _, _, _; split; [reflexivity|]; by eapply drives_after|].
    set (c1 := if tc_get_next c then _ else c). cbv zeta. destruct (_ <=? _).
    + destruct (offer_ok n (tr_addr (trans_ c1)) (is_write (trans_ c1)) m1 Hl1) as (ok & m2 & E2 & Hl2 & P2).
      rewrite E2, !bind_Ok. eexists _, _, _. split; [reflexivity|]. by eapply drives_after.
    + rewrite !bind_Ok. eexists _, _, _. split; [reflexivity|]. by eapply drives_after.
Qed.

Lemma run_cycles_ok k (c : CPU (M := M)) :
  lasts (Z.of_nat k) (memory_system_ c) →
  ∃ a d c', run_cycles gen k c = Ok (a, d, c') ∧ a ++ pending (memory_system_ c) ≡ₚ d ++ pending (memory_system_ c').
Proof.
  revert c. induction k as [|k IH]; intros c Hl; cbn [run_cycles]; [by exists [], [], c|].
  destruct (CPU_ClockTick_ok (Z.of_nat k) c) as (a & d & c1 & E & Hl1 & P1); [lia|by replace (Z.of_nat k + 1) with (Z.of_nat (S k)) by lia|].
  destruct (IH c1 Hl1) as (a' & d' & c2 & E2 & P2). rewrite E, bind_Ok, E2, bind_Ok. eexists _, _, _. split; [reflexivity|].
  perm_solve.
Qed.
End Runs.

(** ** Reading a trace *)

(** A number of digits in base [b]. *)
Definition numeral (b : Z) (s : string) (n : Z) : Prop :=
  s ≠ EmptyString ∧ Forall (λ c, digit_val c < b) (list_ascii_of_string s) ∧ (digits b s 0 0).1.1 = n.

Definition no_space (s : string) : Prop := s ≠ EmptyString ∧ Forall (λ c, is_space c = false) (list_ascii_of_string s).

(** A line of a trace, [0x<address> <operation> <cycle>], for each transaction: its
    address, whether it is a write, and its cycle. *)
Inductive trace_text : string → list (Z * bool * Z) → Prop :=
  | trace_nil : trace_text EmptyString []
  | trace_line h op d text a c ts :
      numeral 16 h a → a < 2 ^ 64 → no_space op → numeral 10 d c → c < 2 ^ 64 → trace_text text ts →
      trace_text ("0x" ++ h ++ String " " (op ++ String " " (d ++ String newline text)))
        ((a, existsb (String.eqb op) write_types, c) :: ts).

Lemma digits_stop b s c r acc n :
  Forall (λ c, digit_val c < b) (list_ascii_of_string s) → b ≤ digit_val c →
  digits b (s ++ String c r) acc n = ((digits b s acc n).1.1, n + Z.of_nat (String.length s), String c r).
Proof.
  intros Hs Hc. revert acc n. induction s as [|x s IH]; intros acc n; simpl in *.
  - destruct (Z.ltb_spec (digit_val c) b); [lia|].
    by rewrite Z.add_0_r.
  - apply Forall_cons in Hs as [Hx Hs]. destruct (Z.ltb_spec (digit_val x) b); [|lia]. rewrite IH by done.
    f_equal. f_equal. lia.
Qed.

Lemma word_stop s c r : Forall (λ c, is_space c = false) (list_ascii_of_string s) → is_space c = true →
  word (s ++ String c r) = (s, String c r).
Proof.
  intros Hs Hc. induction s as [|x s IH]; simpl in *; [by rewrite Hc|].
  apply Forall_cons in Hs as [-> Hs]. by rewrite IH.
Qed.

Lemma numeral_head b s n : numeral b s n → ∃ c s', s = String c s' ∧ digit_val c < b.
Proof.
  intros (Hne & Hd & _). destruct s as [|c s']; [done|]. exists c, s'. split; [done|].
  cbn [list_ascii_of_string] in Hd. by apply Forall_cons in Hd as [Hc _].
Qed.

Lemma extract_hex n0 pre h a r :
  pre = EmptyString ∨ pre = String newline EmptyString → numeral 16 h a → a < 2 ^ 64 →
  extract_u64 16 n0 (mkIStream (pre ++ "0x" ++ h ++ String " " r) false false) =
    (a, mkIStream (String " " r) false false).
Proof.
  intros Hp (Hne & Hd & Hv) Ha. unfold extract_u64.
  assert (sentry (mkIStream (pre ++ "0x" ++ h ++ String " " r) false false) =
    (true, mkIStream ("0x" ++ h ++ String " " r) false false)) as -> by (by destruct Hp as [-> | ->]).
  cbn [is_text]. change (sign ("0x" ++ h ++ String " " r)) with (false, ("0x" ++ h ++ String " " r)%string).
  change (16 =? 16) with true. cbv iota zeta beta. change (skip_0x ("0x" ++ h ++ String " " r)) with (h ++ String " " r)%string.
  rewrite digits_stop by done. rewrite Hv.
  destruct (Z.eqb_spec (0 + Z.of_nat (String.length h)) 0) as [E|_]; [destruct h; [done|cbn in E; lia]|].
  destruct (Z.leb_spec (2 ^ 64) a); [lia|reflexivity].
Qed.

Lemma extract_dec n0 d c r :
  numeral 10 d c → c < 2 ^ 64 →
  extract_u64 10 n0 (mkIStream (String " " (d ++ String newline r)) false false) = (c, mkIStream (String newline r) false false).
Proof.
  intros Hn Hc. destruct (numeral_head _ _ _ Hn) as (x & d' & -> & Hx). destruct Hn as (_ & Hd & Hv).
  destruct (digit_not_space x Hx) as (Hs & N1 & N2). unfold extract_u64.
  assert (sentry (mkIStream (String " " (String x d' ++ String newline r)) false false) =
    (true, mkIStream (String x d' ++ String newline r) false false)) as ->.
  { rewrite append_cons. unfold sentry. cbn [eofbit failbit orb is_text skip_space]. change (is_space " ") with true. cbv iota. by rewrite Hs. }
  cbn [is_text]. assert (sign (String x d' ++ String newline r) = (false, (String x d' ++ String newline r)%string)) as ->.
  { rewrite append_cons. unfold sign. by destruct x as [[] [] [] [] [] [] [] []]. }
  change (10 =? 16) with false. cbv iota. rewrite digits_stop by done. rewrite Hv.
  destruct (Z.eqb_spec (0 + Z.of_nat (String.length (String x d'))) 0) as [E|_]; [cbn in E; lia|].
  destruct (Z.leb_spec (2 ^ 64) c); [lia|reflexivity].
Qed.

Lemma extract_op op r :
  no_space op → extract_word EmptyString (mkIStream (String " " (op ++ String " " r)) false false) =
    (op, mkIStream (String " " r) false false).
Proof.
  intros [Hne Hs]. destruct op as [|x op']; [done|]. pose proof Hs as Hs'. cbn [list_ascii_of_string] in Hs'.
  apply Forall_cons in Hs' as [Hx _]. unfold extract_word.
  assert (sentry (mkIStream (String " " (String x op' ++ String " " r)) false false) =
    (true, mkIStream (String x op' ++ String " " r) false false)) as ->.
  { rewrite append_cons. unfold sentry. cbn [eofbit failbit orb is_text skip_space]. change (is_space " ") with true. cbv iota. by rewrite Hx. }
  cbn [is_text]. by rewrite word_stop.
Qed.

(** A line of the trace is read as its transaction, and leaves its newline. *)
Lemma read_line t pre h op d text a c :
  pre = EmptyString ∨ pre = String newline EmptyString →
  numeral 16 h a → a < 2 ^ 64 → no_space op → numeral 10 d c → c < 2 ^ 64 →
  read_Transaction t (mkIStream (pre ++ "0x" ++ h ++ String " " (op ++ String " " (d ++ String newline text))) false false) =
    (mkTransaction a c (complete_cycle t) (existsb (String.eqb op) write_types), mkIStream (String newline text) false false).
Proof.
  intros Hp Hh Ha Ho Hd Hc. unfold read_Transaction. rewrite (extract_hex _ pre h a), extract_op, (extract_dec _ d c) by done.
  by destruct t.
Qed.

(** At the end of the file the transaction keeps its address and becomes a read. *)
Lemma read_end t pre :
  pre = EmptyString ∨ pre = String newline EmptyString →
  read_Transaction t (mkIStream pre false false) =
    (mkTransaction (tr_addr t) (added_cycle t) (complete_cycle t) false, mkIStream EmptyString true true).
Proof. intros [-> | ->]; by destruct t. Qed.

(** ** Replaying a trace *)

(** The transactions of the trace, and the last one ([a]: the one before) as a read. *)
Fixpoint offers (a : Z) (ts : list (Z * bool * Z)) : list (Z * bool) :=
  match ts with
  | [] => [(a, false)]
  | (a', w, _) :: ts' => (a', w) :: offers a' ts'
  end.

(** The trace player, without the file: each cycle the memory is ticked and the next
    transaction, once it is due, is offered until it is accepted; after the last one of
    them, the last [(address, cycle)] is offered again, one time, as a read ([Some []]),
    and then nothing more ([None]). *)
Section Replay.
Context {M : Type} `{MemorySystem M}.

Definition offer_due (a : Z) (w : bool) (c clk : Z) (m : M) : res (bool * M) :=
  if c <=? clk then offer a w m else Ok (false, m).

Definition play_turn (last : Z * Z) (left : option (list (Z * bool * Z))) (clk : Z) (m : M)
    : res (list (Z * bool) * (Z * Z) * option (list (Z * bool * Z)) * M) :=
  match left with
  | None => Ok ([], last, None, m)
  | Some [] =>
      '(ok, m) ← offer_due last.1 false last.2 clk m;
      Ok (if (ok : bool) then [(last.1, false)] else [], last, None, m)
  | Some ((a, w, c) :: ts) =>
      '(ok, m) ← offer_due a w c clk m;
      if (ok : bool) then Ok ([(a, w)], (a, c), Some ts, m) else Ok ([], last, left, m)
  end.

Fixpoint play (k : nat) (last : Z * Z) (left : option (list (Z * bool * Z))) (clk : Z) (m : M)
    : res (list (Z * bool) * list (Z * bool) * M) :=
  match k with
  | O => Ok ([], [], m)
  | S k' =>
      '(evs, m) ← ms_ClockTick m;
      '(acc, last, left, m) ← play_turn last left clk m;
      '(acc', evs', m) ← play k' last left (u64 (clk + 1)) m;
      Ok (acc ++ acc', evs ++ evs', m)
  end.

Lemma play_over k clk last (m : M) acc evs m' : play k last None clk m = Ok (acc, evs, m') → acc = [].
Proof.
  revert clk m acc evs m'. induction k as [|k IH]; intros clk m acc evs m' E; cbn [play] in E; [by injection E as <- _ _|].
  apply bind_Ok_inv in E as ([e4 m4] & _ & E). cbn in E. apply bind_Ok_inv in E as ([[a5 e5] m5] & E5 & E).
  injection E as <- _ _. cbn. by eapply IH.
Qed.

(** The player accepts the transactions in their order, and only these. *)
Lemma play_prefix k last ts clk (m : M) acc evs m' :
  play k last (Some ts) clk m = Ok (acc, evs, m') → acc `prefix_of` offers last.1 ts.
Proof.
  revert last ts clk m acc evs m'. induction k as [|k IH]; intros last ts clk m acc evs m' E; cbn [play] in E.
  { injection E as <- _ _. apply prefix_nil. }
  apply bind_Ok_inv in E as ([e1 m1] & _ & E). apply bind_Ok_inv in E as ([[[a1 l1] t1] m2] & E1 & E).
  apply bind_Ok_inv in E as ([[a2 e2] m3] & E2 & E). injection E as <- _ _.
  destruct ts as [|[[a w] c] ts]; cbn [play_turn offers] in *; apply bind_Ok_inv in E1 as ([ok m4] & _ & E1).
  - injection E1 as <- <- <- <-.
    apply play_over in E2 as ->. destruct ok; rewrite app_nil_r; [done | apply prefix_nil].
  - destruct ok; injection E1 as <- <- <- <-; [|by apply IH in E2]. apply IH in E2. cbn in *. by apply prefix_cons.
Qed.

(** The states of the processor for the states of the player. *)
Inductive plays (c : TraceBasedCPU (M := M)) : Z * Z → option (list (Z * bool * Z)) → Prop :=
  | plays_next pre text ts :
      pre = EmptyString ∨ pre = String newline EmptyString → trace_file_ c = mkIStream (pre ++ text) false false →
      trace_text text ts → tc_get_next c = true →
      plays c (tr_addr (trans_ c), added_cycle (trans_ c)) (Some ts)
  | plays_hold last text ts :
      trace_file_ c = mkIStream (String newline text) false false → trace_text text ts → tc_get_next c = false →
      plays c last (Some ((tr_addr (trans_ c), is_write (trans_ c), added_cycle (trans_ c)) :: ts))
  | plays_over last : eofbit (trace_file_ c) = true → plays c last None.

(** A tick of the processor is a turn of the player, errors included. *)
Definition same_turn (c : TraceBasedCPU (M := M)) (r : res (list (Z * bool) * list (Z * bool) * TraceBasedCPU (M := M)))
    (last : Z * Z) (left : option (list (Z * bool * Z))) : Prop :=
  match r, ('(evs, m) ← ms_ClockTick (tc_memory c); '(a, l, t, m) ← play_turn last left (tc_clk c) m; Ok (a, evs, l, t, m)) with
  | Ok (a, d, c'), Ok (a', d', l, t, m) =>
      a' = a ∧ d' = d ∧ m = tc_memory c' ∧ tc_clk c' = u64 (tc_clk c + 1) ∧ plays c' l t
  | Err e, Err e' => e = e'
  | _, _ => False
  end.

Lemma tick_plays (c : TraceBasedCPU (M := M)) last left : plays c last left → same_turn c (Trace_ClockTick c) last left.
Proof.
  intros Hp. unfold same_turn, Trace_ClockTick. destruct (ms_ClockTick (tc_memory c)) as [[evs m]|e]; [|done].
  cbn [mbind res_bind]. destruct c as [m0 clk f t g]. cbn in Hp |- *.
  destruct Hp as [pre text ts Hpre Hf Ht Hg|last text ts Hf Ht Hg|last He]; cbn [trace_file_ tc_get_next trans_] in *.
  - rewrite Hf, Hg. cbn [eofbit]. destruct Ht as [|h op d text a c ts Hh Ha Ho Hd Hc Ht].
    + rewrite append_nil, read_end by done. cbn. unfold offer_due. destruct (added_cycle t <=? clk); cbn.
      * destruct (offer (tr_addr t) false m) as [[ok m2]|]; [|done]. cbn. destruct ok; split_and!; try done; by apply plays_over.
      * split_and!; try done. by apply plays_over.
    + rewrite (read_line _ pre h op d text a c) by done. generalize (existsb (String.eqb op) write_types) as w. intros w.
      cbn. unfold offer_due. destruct (c <=? clk); cbn.
      * destruct (offer a w m) as [[ok m2]|]; [|done]. cbn. destruct ok; split_and!; try done.
        { by apply (plays_next (mkTrace m2 _ (mkIStream (String newline text) false false)
            (mkTransaction a c (complete_cycle t) w) true) (String newline EmptyString) text); [right|..]. }
        by apply (plays_hold (mkTrace m2 _ (mkIStream (String newline text) false false)
          (mkTransaction a c (complete_cycle t) w) false) _ text).
      * split_and!; try done. by apply (plays_hold (mkTrace m _ (mkIStream (String newline text) false false)
          (mkTransaction a c (complete_cycle t) w) false) _ text).
  - rewrite Hf, Hg. cbn. unfold offer_due. destruct (added_cycle t <=? clk); cbn.
    + destruct (offer (tr_addr t) (is_write t) m) as [[ok m2]|]; [|done]. cbn. destruct ok; split_and!; try done.
      { by apply (plays_next (mkTrace m2 _ (mkIStream (String newline text) false false) t true) (String newline EmptyString) text); [right|..]. }
      by apply (plays_hold (mkTrace m2 _ (mkIStream (String newline text) false false) t false) _ text).
    + split_and!; try done. by apply (plays_hold (mkTrace m _ (mkIStream (String newline text) false false) t false) _ text).
  - rewrite He. cbn. split_and!; try done. by apply plays_over.
Qed.

Lemma run_plays gen k (c : TraceBasedCPU (M := M)) last left :
  plays c last left →
  (λ r, (r.1, memory_system_ r.2)) <$> run_cycles gen k (TraceBased c) = play k last left (tc_clk c) (tc_memory c).
Proof.
  revert c last left. induction k as [|k IH]; intros c last left Hp; cbn [run_cycles play CPU_ClockTick]; [done|].
  pose proof (tick_plays c last left Hp) as Ht. unfold same_turn in Ht.
  destruct (Trace_ClockTick c) as [[[a d] c']|e];
    (destruct (ms_ClockTick (tc_memory c)) as [[evs m]|e']; cbn [mbind res_bind] in *; [|by subst]);
    (destruct (play_turn last left (tc_clk c) m) as [[[[a' l] t] m']|e']; cbn [mbind res_bind] in *; [|by subst]); [|done].
  destruct Ht as (-> & -> & -> & Hc & Hp'). specialize (IH c' l t Hp'). rewrite Hc in IH. rewrite <- IH.
  by destruct (run_cycles gen k (TraceBased c')) as [[[a2 d2] c2]|].
Qed.
End Replay.

Section Willing.
Context {M : Type} `{MemorySystemRuns M}.

(** A memory that never refuses takes a transaction as soon as it is due. *)
Lemma offer_willing n a w c clk (m m' : M) ok :
  (∀ a w m, ms_wf m → WillAcceptTransaction a w m = Ok true) → lasts n m →
  offer_due a w c clk m = Ok (ok, m') → ok = (c <=? clk) ∧ lasts n m'.
Proof.
  intros Hwill Hl Eo. unfold offer_due in Eo. destruct (Z.leb_spec c clk); [|by injection Eo as <- <-].
  destruct (offer_ok n a w m Hl) as (ok' & m5 & Eo' & Hl5 & _). rewrite Eo in Eo'. injection Eo' as <- <-.
  split; [|done]. unfold offer in Eo. rewrite (Hwill a w m (lasts_wf _ _ Hl)) in Eo. cbn [mbind res_bind] in Eo.
  apply bind_Ok_inv in Eo as (m6 & _ & Eo). by injection Eo as <- _.
Qed.

(** It takes the whole trace, and the read. *)
Lemma play_all k last ts clk (m : M) acc evs m' D :
  (∀ a w m, ms_wf m → WillAcceptTransaction a w m = Ok true) → lasts (Z.of_nat k) m →
  0 ≤ clk → clk + Z.of_nat k < 2 ^ 64 → (ts = [] → last.2 ≤ clk) → Forall (λ x, x.2 ≤ D) ts →
  Z.max D clk + vsize ts < clk + Z.of_nat k →
  play k last (Some ts) clk m = Ok (acc, evs, m') → acc = offers last.1 ts.
Proof.
  intros Hwill. revert last ts clk m acc evs m'.
  induction k as [|k IH]; intros last ts clk m acc evs m' Hl Hc Hk HD Hts Hm E; [pose proof (vsize_nonneg ts); lia|].
  cbn [play] in E. apply bind_Ok_inv in E as ([e1 m1] & Et & E). apply bind_Ok_inv in E as ([[[a1 l1] t1] m2] & E1 & E).
  apply bind_Ok_inv in E as ([[a2 e2] m3] & E2 & E). injection E as <- _ _.
  replace (Z.of_nat (S k)) with (Z.of_nat k + 1) in * by lia.
  destruct (memory_tick (Z.of_nat k) m ltac:(lia) Hl) as (evs0 & m0 & Et' & Hl1 & _). rewrite Et in Et'. injection Et' as <- <-.
  rewrite (u64_small (clk + 1)) in E2 by lia.
  destruct ts as [|[[a w] c] ts]; cbn [play_turn] in E1; apply bind_Ok_inv in E1 as ([ok m4] & Eo & E1);
    destruct (offer_willing _ _ _ _ _ _ _ _ Hwill Hl1 Eo) as [-> Hl4].
  - injection E1 as <- <- <- <-. apply play_over in E2 as ->. destruct (Z.leb_spec last.2 clk); [done|specialize (HD eq_refl); lia].
  - apply Forall_cons in Hts as [Hcd Hts]. cbn in Hcd. rewrite vsize_cons in Hm. pose proof (vsize_nonneg ts).
    destruct (Z.leb_spec c clk); injection E1 as <- <- <- <-.
    + cbn [offers app]. f_equal. apply (IH (a, c) ts (clk + 1) m4 a2 e2 m3); cbn; try done; lia.
    + cbn [app]. apply (IH last ((a, w, c) :: ts) (clk + 1) m4 a2 e2 m3); try done; [lia|lia| by apply Forall_cons|].
      rewrite vsize_cons. lia.
Qed.
End Willing.

(** ** Properties *)

(** C14: The driver's loop runs for as many cycles as its memory system lasts, with
    whichever processor its options choose; each transaction the memory accepted is
    reported once or pending at its end.  On a trace file of lines that each end with a
    newline, the trace processor is exactly the player of the list of its transactions:
    it offers each one from its cycle on until it is accepted and then the next, and after
    the last one offers that once more, as a read; so that the accepted ones are, in
    in order, the first ones of the trace, and, after all of them, at most that read.  A
    memory that never refuses accepts all of them and the read, given as many cycles as
    the latest cycle in the trace and its length. *)
Theorem driver_runs {M} `{MemorySystemRuns M} gen x y z t trace stream_type cycles (m : M) c :
  lasts (Z.of_nat cycles) m → choose_CPU x y z t trace stream_type m = Ok c →
  ∃ accepted reported c', run_cycles gen cycles c = Ok (accepted, reported, c') ∧
    accepted ++ pending m ≡ₚ reported ++ pending (memory_system_ c') ∧
    ∀ text ts, trace = Some (Some text) → trace_text text ts →
      play cycles (tr_addr t, added_cycle t) (Some ts) 0 m = Ok (accepted, reported, memory_system_ c') ∧
      accepted `prefix_of` offers (tr_addr t) ts ∧
      ∀ D, (∀ a w m1, ms_wf m1 → WillAcceptTransaction a w m1 = Ok true) → ts ≠ [] → 0 ≤ D →
        Forall (λ x, x.2 ≤ D) ts → D + vsize ts < Z.of_nat cycles < 2 ^ 64 → accepted = offers (tr_addr t) ts.
Proof.
  intros Hl E. assert (memory_system_ c = m) as Hm.
  { unfold choose_CPU, new_TraceBasedCPU in E. destruct trace as [[text|]|]; [by injection E as <- | done |].
    destruct (_ || _); by injection E as <-. }
  rewrite <- Hm in Hl |- *. destruct (run_cycles_ok gen cycles c Hl) as (a & d & c' & Er & P).
  exists a, d, c'. split; [done|]. split; [done|]. intros text ts -> Ht. injection E as <-. cbn [memory_system_] in *.
  pose proof (run_plays gen cycles (mkTrace m 0 (mkIStream text false false) t true) (tr_addr t, added_cycle t) (Some ts)) as Hr.
  rewrite Er in Hr. cbn in Hr. specialize (Hr ltac:(by apply (plays_next (mkTrace m 0 (mkIStream text false false) t true) EmptyString text ts); [left|..])).
  split; [done|]. symmetry in Hr. split; [by apply (play_prefix _ (tr_addr t, added_cycle t)) in Hr|].
  intros D Hwill Hne HD Hts Hk. apply (play_all cycles (tr_addr t, added_cycle t) ts 0 m a d (memory_system_ c') D); try done; lia.
Qed.

(** ** A concrete run *)

Definition line_end : string := String newline EmptyString.

Definition ex_trace : string := ("0x40 READ 1" ++ line_end ++ "0x1F80 WRITE 3" ++ line_end)%string.

Lemma ex_trace_text : trace_text ex_trace [(64, false, 1); (8064, true, 3)].
Proof.
  apply (trace_line "40" "READ" "1" ("0x1F80 WRITE 3" ++ line_end) 64 1); [..|apply (trace_line "1F80" "WRITE" "3" "" 8064 3)].
  all: first [lia | apply trace_nil | split; [discriminate | split; [by repeat constructor | reflexivity]]
    | split; [discriminate | by repeat constructor]].
Qed.

(** The write of the trace is followed by a read of its address. *)
Example ex_trace_run :
  (λ r, r.1) <$> (c ← choose_CPU 0 0 0 (new_Transaction 7 true) (Some (Some ex_trace)) EmptyString ex_jedec;
    run_cycles (λ _, 0) 8 c) =
  Ok ([(64, false); (8064, true); (8064, false)], [(8064, true); (8064, false)]).
Proof. vm_compute. reflexivity. Qed.

(** Without a newline at its end, a file whose last transaction is not due when it is read
    ends before it is offered. *)
Example ex_trace_lost :
  (λ r, r.1.1) <$> (c ← choose_CPU 0 0 0 (new_Transaction 7 true) (Some (Some "0x40 READ 0 0x80 READ 4"%string)) EmptyString ex_jedec;
    run_cycles (λ _, 0) 8 c) =
  Ok [(64, false)].
Proof. vm_compute. reflexivity. Qed.

(** A memory that never refuses, and completes what it has in the next cycle. *)
Definition open_mem : Type := list (Z * bool).

#[local] Instance open_ms : MemorySystem open_mem := {
  WillAcceptTransaction _ _ _ := Ok true;
  ms_AddTransaction a w m := Ok ((a, w) :: m);
  ms_ClockTick m := Ok (m, []);
  IsQueueFill m := negb (qempty m) }.

#[local, refine] Instance open_ms_spec : MemorySystemSpec open_mem := { ms_wf _ := True; pending m := m }.
Proof.
  - intros. by exists true.
  - intros a w m _ _. by exists ((a, w) :: m).
  - intros m evs m' _ [= <- <-]. by rewrite app_nil_r.
Defined.

#[local, refine] Instance open_ms_runs : MemorySystemRuns open_mem := { lasts _ _ := True }.
Proof.
  - done.
  - done.
  - intros n m _ _. by exists m, [].
Defined.

(** Over a JEDEC memory of eight cycles, and over one that never refuses. *)
Lemma driver_runs_witness :
  let t := new_Transaction 7 true in
  (∃ accepted reported c', run_cycles (λ _, 0) 8 (TraceBased (mkTrace ex_jedec 0 (mkIStream ex_trace false false) t true))
      = Ok (accepted, reported, c') ∧
    accepted ++ js_pending ex_jedec ≡ₚ reported ++ pending (memory_system_ c') ∧
    play 8 (tr_addr t, added_cycle t) (Some [(64, false, 1); (8064, true, 3)]) 0 ex_jedec = Ok (accepted, reported, memory_system_ c')) ∧
  ∃ reported c', run_cycles (λ _, 0) 8 (TraceBased (mkTrace ([] : open_mem) 0 (mkIStream ex_trace false false) t true))
    = Ok ([(64, false); (8064, true); (8064, false)], reported, c').
Proof.
  destruct (new_system_ok ex_config ex_jedec ex_usable ltac:(done) ex_jedec_new) as [Hok _]. cbv zeta. split.
  - destruct (driver_runs (λ _, 0) 0 0 0 (new_Transaction 7 true) (Some (Some ex_trace)) EmptyString 8 ex_jedec
      (TraceBased (mkTrace ex_jedec 0 (mkIStream ex_trace false false) (new_Transaction 7 true) true)))
      as (a & d & c' & E & P & Hp); [eapply sys_ok_le, Hok; lia | reflexivity |].
    exists a, d, c'. split; [exact E|]. split; [exact P|]. exact (proj1 (Hp ex_trace _ eq_refl ex_trace_text)).
  - destruct (driver_runs (λ _, 0) 0 0 0 (new_Transaction 7 true) (Some (Some ex_trace)) EmptyString 8 ([] : open_mem)
      (TraceBased (mkTrace ([] : open_mem) 0 (mkIStream ex_trace false false) (new_Transaction 7 true) true)))
      as (a & d & c' & E & _ & Hp); [exact I | reflexivity |].
    destruct (Hp ex_trace _ eq_refl ex_trace_text) as (_ & _ & Hall).
    assert (a = [(64, false); (8064, true); (8064, false)]) as ->.
    { apply (Hall 3); [intros; reflexivity | discriminate | lia | repeat constructor; cbn; lia | change (3 + 2 < 8 < 2 ^ 64); lia]. }
    exists d, c'. exact E.
Defined.
