(* ===== verification/Distributer.v ===== *)
(** * The distributer (Distributer.h, Distributer.cpp)

    It gives every unit its address offsets and its share of the CSR matrix:
    everything to unit 0 ([DIVISION_TYPE == 0]), or rows until a unit has its
    share of the edges ([DIVISION_TYPE == 1]), with row pointers relative to the
    unit.  The theorems: the edge-balanced shares partition the matrix and, put back
    together, give its row pointers; when the edges run out before the last unit
    the next one pops an empty queue; an address leads back to its unit
    modulo 16. *)

From S2P Require Import Prelude CFloat Common.

Open Scope Z_scope.

(** A unit being filled, what is left of the matrix, the local [row]. *)
Record UnitState := mkUnit {
  u_rows : list Z; u_cols : list Z; t_row : list Z; t_col : list Z; u_row : Z }.

Record Distributer := mkDist {
  tot_acc : Z;
  dt_adjrowindex : list (list Z); dt_adjcolindex : list (list Z);
  a_row_offset : list Z; a_col_offset : list Z; axw_offset : list Z;
  a_row_info : list RowInfo; axw_count : list Z }.

(** The loop over [j < col_size]. *)
Fixpoint take_edges (n : nat) (s : UnitState) : res UnitState :=
  match n with
  | O => Ok s
  | S n' =>
      x ← qfront (t_col s); q ← qpop (t_col s);
      take_edges n' (s {{ u_cols := u_cols s ++ [x]; t_col := q }})
  end.

(** One turn of the [while (true)] for a unit: with [Some last], the loop ends. *)
Definition unit_step (last_ unit_edge : Z) (s : UnitState) : res (UnitState * option Z) :=
  b ← qback (u_rows s);
  f ← qfront (t_row s);
  q ← qpop (t_row s);
  let x := u64 (f - last_) in
  let col_size := i32 (u64 (x - u64 (i32 b))) in
  r ← int_chk (u_row s + 1);
  s1 ← take_edges (Z.to_nat col_size)
         (s {{ u_rows := u_rows s ++ [x]; t_row := q; u_row := r }});
  if qempty (t_col s1) then
    Ok (s1 {{ u_rows := u_rows s1 ++ ((λ f, u64 (f - last_)) <$> t_row s1); t_row := [] }},
        Some last_)
  else if unit_edge <=? x then Ok (s1, Some (u64 (last_ + x)))
  else Ok (s1, None).

Fixpoint unit_while (fuel : nat) (last_ unit_edge : Z) (s : UnitState) : res (UnitState * Z) :=
  match fuel with
  | O => Err OutOfFuel
  | S fuel' =>
      '(s1, o) ← unit_step last_ unit_edge s;
      match o with
      | Some l => Ok (s1, l)
      | None => unit_while fuel' last_ unit_edge s1
      end
  end.

(** A unit: its pointers and its indices, with its [row_start] and [row_end]. *)
Record UnitShare := mkShare { sh_rows : list Z; sh_cols : list Z; sh_info : RowInfo }.

(** The loop over the units. *)
Fixpoint divide_units (n : nat) (last_ unit_edge : Z) (rows cols : list Z) (row : Z)
    : res (list UnitShare * list Z * list Z) :=
  match n with
  | O => Ok ([], rows, cols)
  | S n' =>
      '(s, last1) ← unit_while (S (length rows)) last_ unit_edge (mkUnit [0] [] rows cols row);
      '(us, r, c) ← divide_units n' last1 unit_edge (t_row s) (t_col s) (u_row s);
      Ok (mkShare (u_rows s) (u_cols s) (mkRowInfo (u64 row) (u64 (u_row s - 1))) :: us, r, c)
  end.

Section Distribute.
Variable P : Params.
Variable DIVISION_TYPE : Z.
(** The contents of the fresh arrays [a_row_info] and [axw_count]. *)
Variable info0 : list RowInfo.
Variable count0 : list Z.

(** [Distribute], on the queues of the reader. *)
Definition Distribute (tot_acc : Z) (rows cols : list Z)
    : res (list (list Z) * list (list Z) * list RowInfo * list Z) :=
  _ ← ceil_float_int (x_h P) tot_acc;
  let none := replicate (Z.to_nat tot_acc) [] in
  if DIVISION_TYPE =? 0 then
    r ← vset none 0 rows;
    c ← vset none 0 cols;
    i ← vset info0 0 (mkRowInfo 0 (x_h P));
    n ← vset count0 0 (x_h P);
    Ok (r, c, i, n)
  else if DIVISION_TYPE =? 1 then
    unit_edge ← ceil_float (vsize cols) tot_acc;
    rows1 ← qpop rows;
    '(us, _, _) ← divide_units (Z.to_nat tot_acc) 0 unit_edge rows1 cols 0;
    i ← vmod (sh_info <$> us) (tot_acc - 1) (λ x, Ok (mkRowInfo (row_start x) (u64 (x_h P - 1))));
    Ok (sh_rows <$> us, sh_cols <$> us, i, (λ u, u64 (vsize (sh_rows u) - 1)) <$> us)
  else Ok (none, none, info0, count0).

(** [Distributer::Distributer]; it also sets [w_fold]. *)
Definition unit_offset (i : Z) : Z := u64 (0x0010000000000000 * i).
Definition new_Distributer (acc : Z) (rows cols : list Z) : res (Params * Distributer) :=
  _ ← ceil_float_int (x_h P) acc;
  let offs := unit_offset <$> seqZ 0 acc in
  '(r, c, i, n) ← Distribute acc rows cols;
  Ok (P {{ w_fold := w_w P }}, mkDist acc r c offs offs offs i n).
End Distribute.

(** [Distributer::ReturnID] *)
Definition ReturnID (address : Z) : Z :=
  i32 (Z.land address 0x00ffffffffffffff / 0x0010000000000000).

(** ** Shares *)

(** The row pointers that shares stand for, from [base] on. *)
Fixpoint rebase (base : Z) (us : list UnitShare) : list Z :=
  match us with
  | [] => []
  | u :: us' =>
      ((λ x, base + x) <$> tail (sh_rows u)) ++ rebase (base + List.last (sh_rows u) 0) us'
  end.

(** Pointers below 2^31, nondecreasing from [c]. *)
Fixpoint csr (c : Z) (l : list Z) : Prop :=
  match l with [] => True | v :: l' => c ≤ v < 2 ^ 31 ∧ csr v l' end.

Lemma csr_app c l1 l2 : csr c (l1 ++ l2) ↔ csr c l1 ∧ csr (List.last l1 c) l2.
Proof.
  revert c. induction l1 as [|v l1 IH]; intros c; [simpl; naive_solver|].
  rewrite last_cons. cbn [app csr]. rewrite IH. naive_solver.
Qed.

Lemma csr_last c l : csr c l → c ≤ List.last l c ∧ (c < 2 ^ 31 → List.last l c < 2 ^ 31).
Proof.
  revert c. induction l as [|v l IH]; intros c; [cbn; lia|]. intros [Hv Hl]. rewrite last_cons.
  specialize (IH v Hl). lia.
Qed.

Lemma csr_bounds c l v : csr c l → v ∈ l → c ≤ v < 2 ^ 31.
Proof.
  revert c. induction l as [|x l IH]; intros c; [by intros _ ?%elem_of_nil|].
  intros [Hx Hl] [->|Hv]%elem_of_cons; [lia|]. specialize (IH x Hl Hv). lia.
Qed.

Lemma take_edges_inv n s s' :
  take_edges n s = Ok s' →
  ∃ E, length E = n ∧ t_col s = E ++ t_col s' ∧ u_cols s' = u_cols s ++ E ∧
    u_rows s' = u_rows s ∧ t_row s' = t_row s ∧ u_row s' = u_row s.
Proof.
  revert s. induction n as [|n IH]; intros s H; cbn [take_edges] in H.
  { injection H as <-. exists []. by rewrite app_nil_r. }
  destruct (t_col s) as [|x q] eqn:Ec; [done|]. cbn [qfront qpop] in H. rewrite !bind_Ok in H.
  apply IH in H as (E & El & Et & Eu & Er & Ew & Eo). destruct s; cbn in *. subst.
  exists (x :: E). rewrite <- app_assoc in Eu. done.
Qed.

Lemma take_edges_enough n s :
  (n ≤ length (t_col s))%nat → ∃ s', take_edges n s = Ok s'.
Proof.
  revert s. induction n as [|n IH]; intros s Hn; [by eexists|]. cbn [take_edges].
  destruct (t_col s) as [|x q] eqn:Ec; cbn in Hn; [lia|]. cbn [qfront qpop]. rewrite !bind_Ok.
  apply IH. destruct s; cbn in *. lia.
Qed.

Section Shares.
(** The matrix at the start of a unit. *)
Variables (base unit_edge : Z) (R C : list Z).
Hypothesis Hbase : 0 ≤ base < 2 ^ 31.
Hypothesis Hcsr : csr base R.
Hypothesis Hsize : vsize C = List.last R base - base.

(** The pointers [Rd] and the edges [Ed] are the unit's. *)
Record unit_inv (s : UnitState) (Rd Ed : list Z) : Prop := {
  ui_rows : u_rows s = 0 :: ((λ f, f - base) <$> Rd);
  ui_cols : u_cols s = Ed;
  ui_R : R = Rd ++ t_row s; ui_C : C = Ed ++ t_col s;
  ui_size : vsize Ed = List.last Rd base - base }.

Lemma last_rows Rd : List.last (0 :: ((λ f, f - base) <$> Rd)) 0 = List.last Rd base - base.
Proof.
  rewrite last_cons. assert (0 = base - base) as -> by lia. generalize base at 2 4 as b. intros b.
  revert b. induction Rd as [|x Rd IH]; intros b; [done|].
  change ((λ f, f - base) <$> x :: Rd) with (x - base :: ((λ f, f - base) <$> Rd)).
  by rewrite !last_cons, IH.
Qed.

Lemma qback_last {A} (l : list A) d : l ≠ [] → qback l = Ok (List.last l d).
Proof.
  intros Hl. destruct (exists_last Hl) as (l' & x & ->). unfold qback.
  by rewrite last_snoc, List.last_last.
Qed.

(** What a step does, on a state of the invariant with rows left. *)
Lemma unit_step_spec s Rd Ed v rest :
  unit_inv s Rd Ed → t_row s = v :: rest → 0 ≤ u_row s < 2 ^ 31 - 1 →
  ∃ s' Ed', u_row s' = u_row s + 1 ∧
    ((t_col s' = [] ∧ unit_step base unit_edge s = Ok (s', Some base) ∧ unit_inv s' R Ed' ∧
        t_row s' = []) ∨
     (t_col s' ≠ [] ∧ unit_edge ≤ v - base ∧ unit_step base unit_edge s = Ok (s', Some v) ∧
        unit_inv s' (Rd ++ [v]) Ed' ∧ t_row s' = rest) ∨
     (t_col s' ≠ [] ∧ v - base < unit_edge ∧ unit_step base unit_edge s = Ok (s', None) ∧
        unit_inv s' (Rd ++ [v]) Ed' ∧ t_row s' = rest)).
Proof.
  intros [Hrows Hcols HR HC Hs] Et Hrow. unfold unit_step.
  assert (qback (u_rows s) = Ok (List.last Rd base - base)) as ->.
  { rewrite (qback_last _ 0) by by rewrite Hrows. by rewrite Hrows, last_rows. }
  rewrite Et. cbn [qfront qpop]. rewrite !bind_Ok, int_chk_Ok, bind_Ok by lia.
  rewrite HR, Et in Hcsr. apply csr_app in Hcsr as [Hc1 Hc2]. cbn [csr] in Hc2.
  destruct Hc2 as [Hv Hc2]. destruct (csr_last _ _ Hc1) as [Hlo Hhi].
  set (p := List.last Rd base) in *. pose proof (csr_last _ _ Hc2) as [Hlo2 _].
  assert (List.last R base = List.last rest v) as Elast.
  { rewrite HR, Et, last_app, last_cons. done. }
  rewrite (i32_small (p - base)), (u64_small (p - base)), (u64_small (v - base)) by lia.
  rewrite (u64_small (v - base - (p - base))), i32_small by lia.
  assert (vsize (t_col s) = List.last R base - p) as Etc.
  { rewrite HC, vsize_app in Hsize. lia. }
  match goal with |- context [take_edges ?n ?a] =>
    destruct (take_edges_enough n a) as [s1 E1]; [|] end.
  { destruct s; cbn in *. unfold vsize in Etc. lia. }
  rewrite E1, bind_Ok. apply take_edges_inv in E1 as (E & El & Ecol & Eu & Er & Ew & Eo).
  assert (vsize Ed + vsize E = v - base) as Hsz'.
  { unfold vsize at 2. rewrite El, Hs. rewrite Z2Nat.id; lia. }
  assert (unit_inv s1 (Rd ++ [v]) (Ed ++ E)) as Hinv.
  { destruct s; cbn in *. split.
    - rewrite Er, Hrows, fmap_app. done.
    - by rewrite Eu, Hcols.
    - by rewrite Ew, <- app_assoc, HR, Et.
    - by rewrite <- app_assoc, <- Ecol.
    - rewrite vsize_app, last_app. cbn. lia. }
  assert (t_row s1 = rest ∧ u_row s1 = u_row s + 1) as [Ew' Eo'] by (destruct s; cbn in *; done).
  destruct (t_col s1) as [|c cs] eqn:Ec; cbn [qempty].
  - exists (s1 {{ u_rows := u_rows s1 ++ ((λ f, u64 (f - base)) <$> t_row s1); t_row := [] }}), (Ed ++ E).
    split; [by destruct s1|]. left. split; [by destruct s1|]. split; [done|].
    split; [|by destruct s1]. destruct Hinv as [I1 I2 I3 I4 I5]. split.
    + assert (R = (Rd ++ [v]) ++ rest) as HR2 by (by rewrite <- app_assoc, HR, Et).
      destruct s1; cbn in *. rewrite I1, Ew', HR2, (fmap_app _ (Rd ++ [v]) rest).
      cbn [app]. do 2 f_equal. apply list_fmap_ext. intros k x Hx.
      apply u64_small. apply list_elem_of_lookup_2 in Hx. pose proof (csr_bounds _ _ _ Hc2 Hx). lia.
    + by destruct s1.
    + destruct s1; cbn. by rewrite app_nil_r.
    + by destruct s1.
    + destruct s1; cbn in *. rewrite Ec, app_nil_r in I4. by rewrite <- I4.
  - exists s1, (Ed ++ E). split; [done|]. right. destruct (Z.leb_spec unit_edge (v - base)).
    + left. split; [by rewrite Ec|]. split; [done|]. split; [|done].
      rewrite u64_small by lia. by replace (base + (v - base)) with v by lia.
    + right. by rewrite Ec.
Qed.

(** A unit is filled, unless there is no row for it. *)
Lemma unit_while_spec fuel s Rd Ed :
  unit_inv s Rd Ed → t_row s ≠ [] → (length (t_row s) < fuel)%nat →
  0 ≤ u_row s → u_row s + vsize (t_row s) < 2 ^ 31 → t_col s ≠ [] ∨ Rd = [] →
  ∃ s' last1 Rd' Ed', unit_while fuel base unit_edge s = Ok (s', last1) ∧ unit_inv s' Rd' Ed' ∧
    0 ≤ u_row s' ∧ u_row s' + vsize (t_row s') < 2 ^ 31 ∧
    (t_col s' = [] ∧ t_row s' = [] ∨
     t_col s' ≠ [] ∧ last1 = List.last Rd' base ∧ unit_edge ≤ vsize Ed').
Proof.
  revert s Rd Ed. induction fuel as [|fuel IH]; intros s Rd Ed Hi Hne Hf Hr Hr2 Hc; [lia|].
  destruct (t_row s) as [|v rest] eqn:Et; [done|]. rewrite vsize_cons in Hr2.
  pose proof (vsize_nonneg rest). cbn [length] in Hf.
  destruct (unit_step_spec s Rd Ed v rest Hi Et) as (s1 & Ed1 & Eo & Hcase); [lia|].
  cbn [unit_while].
  destruct Hcase as [(Ec & -> & Hi1 & Et1)|[(Ec & Hge & -> & Hi1 & Et1)|(Ec & Hlt & -> & Hi1 & Et1)]];
    rewrite bind_Ok; cbv beta iota.
  - exists s1, base, R, Ed1. rewrite Et1. change (vsize []) with 0. split; [done|]. split; [done|].
    split; [lia|]. split; [lia|]. by left.
  - exists s1, v, (Rd ++ [v]), Ed1. rewrite Et1. split; [done|]. split; [done|]. split; [lia|].
    split; [lia|]. right. split; [done|]. rewrite last_app. cbn. split; [done|].
    pose proof (ui_size _ _ _ Hi1) as Hsz. rewrite last_app in Hsz. cbn in Hsz. lia.
  - assert (rest ≠ []) as Hrest.
    { intros ->. apply Ec. destruct Hi1 as [_ _ I3 I4 I5]. rewrite Et1, app_nil_r in I3.
      rewrite I4, vsize_app in Hsize. rewrite I3 in Hsize.
      destruct (t_col s1) as [|c cs]; [done|]. rewrite vsize_cons in Hsize.
      pose proof (vsize_nonneg cs). lia. }
    apply (IH s1 (Rd ++ [v]) Ed1); rewrite ?Et1; try done; try lia; by left.
Qed.
End Shares.

(** Well-formed shares: pointers from 0, as many edges as the last says. *)
Definition share_ok (u : UnitShare) : Prop :=
  head (sh_rows u) = Some 0 ∧ vsize (sh_cols u) = List.last (sh_rows u) 0.

Lemma divide_units_spec n base unit_edge R C row us R' C' :
  0 ≤ base < 2 ^ 31 → csr base R → vsize C = List.last R base - base → R ≠ [] →
  0 ≤ row → row + vsize R < 2 ^ 31 → (0 < n)%nat →
  divide_units n base unit_edge R C row = Ok (us, R', C') →
  length us = n ∧ R = rebase base us ++ R' ∧ C = concat (sh_cols <$> us) ++ C' ∧
  Forall share_ok us ∧
  (C' = [] ∧ R' = [] ∨ C' ≠ [] ∧ Z.of_nat n * unit_edge ≤ vsize (concat (sh_cols <$> us))) ∧
  (∀ i u, us !! i = Some u → (S i < n)%nat → unit_edge ≤ vsize (sh_cols u)).
Proof.
  revert base R C row us. induction n as [|n IH];
    intros base R C row us Hb Hcsr Hsize Hne Hrow Hrow2 Hn H; [lia|].
  cbn [divide_units] in H. apply bind_Ok_inv in H as ([s last1] & Hw & H).
  apply bind_Ok_inv in H as ([[us' r] c] & Hd & H). injection H as <- <- <-.
  destruct (unit_while_spec base unit_edge R C Hb Hcsr Hsize (S (length R)) (mkUnit [0] [] R C row)
    [] []) as (s' & l' & Rd & Ed & Hw' & Hi & Hr1 & Hr2 & Hcase); try done; cbn [t_row t_col u_row]; try lia.
  { split; try done. cbn. change (vsize []) with 0. lia. }
  { by right. }
  rewrite Hw in Hw'. injection Hw' as <- <-. destruct Hi as [I1 I2 I3 I4 I5].
  assert (List.last (u_rows s) 0 = List.last Rd base - base) as Hlast
    by (rewrite I1; apply last_rows).
  assert (share_ok (mkShare (u_rows s) (u_cols s) (mkRowInfo (u64 row) (u64 (u_row s - 1))))) as Hok.
  { split; cbn; [by rewrite I1 | by rewrite I2, Hlast]. }
  assert ((λ x, base + x) <$> tail (u_rows s) = Rd) as Hreb.
  { rewrite I1. cbn [tail]. rewrite <- list_fmap_compose. rewrite <- (list_fmap_id Rd) at 2.
    apply list_fmap_ext. intros i x _. cbn. lia. }
  destruct Hcase as [[Ec Er]|(Ec & -> & Hge)].
  - destruct n as [|n].
    + cbn [divide_units] in Hd. injection Hd as <- <- <-. rewrite Ec, Er in *.
      split; [done|]. cbn [fmap list_fmap concat rebase sh_rows sh_cols]. rewrite !app_nil_r in *.
      rewrite Hreb. split; [done|]. split; [congruence|]. split; [by constructor|]. split; [by left|].
      intros [|i] u Hu Hlt; [lia | done].
    + rewrite Er in Hd. cbn in Hd. unfold unit_step in Hd. done.
  - pose proof Hcsr as Hcsr'. rewrite I3 in Hcsr'. apply csr_app in Hcsr' as [Hc1 Hc2].
    pose proof (csr_last _ _ Hc1) as [Hlo Hhi].
    assert (R ≠ [] → t_row s ≠ []) as Hne'.
    { intros _ E. rewrite I3, E, app_nil_r in Hsize. rewrite I4, vsize_app in Hsize.
      destruct (t_col s) as [|x xs]; [done|]. rewrite vsize_cons in Hsize.
      pose proof (vsize_nonneg xs). lia. }
    specialize (Hne' Hne).
    destruct n as [|n].
    + cbn [divide_units] in Hd. injection Hd as <- <- <-.
      split; [done|]. cbn [fmap list_fmap concat rebase sh_rows sh_cols]. rewrite !app_nil_r.
      rewrite Hreb. split; [done|]. split; [congruence|]. split; [by constructor|]. split.
      * right. split; [done|]. rewrite I2. lia.
      * intros [|i] u Hu Hlt; [lia | done].
    + destruct (IH (List.last Rd base) (t_row s) (t_col s) (u_row s) us') as
        (HL & HR & HC & HS & HE & HQ); try done; try lia.
      { rewrite I4, I3, vsize_app, last_app in Hsize. lia. }
      split; [cbn; by rewrite HL|]. cbn [fmap list_fmap concat rebase sh_rows sh_cols].
      rewrite Hreb, Hlast. replace (base + (List.last Rd base - base)) with (List.last Rd base) by lia.
      split; [by rewrite <- app_assoc, <- HR|]. rewrite <- app_assoc, <- HC. split; [congruence|].
      split; [by constructor|]. split.
      * destruct HE as [HE|[HE1 HE2]]; [by left|]. right. split; [done|].
        rewrite vsize_app, I2. lia.
      * intros [|i] u Hu Hlt; cbn in Hu; [|apply (HQ i u Hu); lia].
        injection Hu as <-. cbn. by rewrite I2.
Qed.

(** ** Properties *)

(** C15: the edge-balanced shares partition the matrix.  On a CSR matrix below
    2^24 edges, if the division succeeds it made one share per unit; the column
    indices of the shares, one after the other, are those of the matrix, and
    their row pointers, put back on their bases, are its row pointers: nothing is
    lost or duplicated.  Each share starts at 0 and ends at its number of edges, and
    each but the last has at least the [ceil] of the average. *)
Theorem edge_division_partitions P info0 count0 acc rows cols rs cs infos counts :
  0 < acc < 2 ^ 24 → 0 ≤ x_h P < 2 ^ 24 → csr 0 rows → rows ≠ [] →
  vsize cols = List.last rows 0 → vsize cols < 2 ^ 24 → vsize rows < 2 ^ 31 →
  Distribute P 1 info0 count0 acc (0 :: rows) cols = Ok (rs, cs, infos, counts) →
  ∃ us, rs = sh_rows <$> us ∧ cs = sh_cols <$> us ∧ vsize us = acc ∧
    concat cs = cols ∧ rebase 0 us = rows ∧ Forall share_ok us ∧
    (∀ i u, us !! i = Some u → Z.of_nat i < acc - 1 → ceil_div (vsize cols) acc ≤ vsize (sh_cols u)).
Proof.
  intros Hacc Hx Hcsr Hne Hsize Hc24 Hr31 H. pose proof (vsize_nonneg cols). unfold Distribute in H.
  unfold ceil_float_int in H. rewrite !ceil_float_exact in H by lia.
  apply bind_Ok_inv in H as (z & _ & H). cbn [Z.eqb Pos.eqb qpop] in H. rewrite !bind_Ok in H.
  apply bind_Ok_inv in H as ([[us R'] C'] & Hd & H). apply bind_Ok_inv in H as (i & _ & H).
  injection H as <- <- <- <-. exists us. split; [done|]. split; [done|].
  destruct (divide_units_spec (Z.to_nat acc) 0 (ceil_div (vsize cols) acc) rows cols 0 us R' C')
    as (HL & HR & HC & HS & HE & HQ); try done; try lia.
  pose proof (ceil_div_bounds (vsize cols) acc).
  split; [unfold vsize; lia|].
  destruct HE as [[-> ->]|[HE1 HE2]].
  - rewrite !app_nil_r in *. split; [done|]. split; [done|]. split; [done|].
    intros i' u Hu Hi. apply (HQ i' u Hu). lia.
  - exfalso.
    assert (vsize cols = vsize (concat (sh_cols <$> us)) + vsize C') as Hv
      by (rewrite <- vsize_app; by f_equal).
    destruct C' as [|x C']; [done|]. rewrite vsize_cons in Hv. pose proof (vsize_nonneg C').
    rewrite Z2Nat.id in HE2 by lia. lia.
Qed.

(** When the edges run out early the division reads an empty queue.  If the
    first row has all the edges, any division between two units or more pops the
    empty [tmp_adjrow] for the second unit. *)
Theorem edge_division_underflow P info0 count0 acc v rows cols :
  1 < acc < 2 ^ 24 → 0 ≤ x_h P < 2 ^ 24 → csr 0 (v :: rows) → cols ≠ [] →
  vsize cols = v → vsize cols < 2 ^ 24 → List.last rows v = v →
  vsize (v :: rows) < 2 ^ 31 →
  Distribute P 1 info0 count0 acc (0 :: v :: rows) cols = Err EmptyQueue.
Proof.
  intros Hacc Hx Hcsr Hne Hsize Hc24 Hlast Hr31. pose proof (vsize_nonneg cols). unfold Distribute.
  rewrite ceil_float_int_exact, ceil_float_exact, bind_Ok by lia.
  cbn [Z.eqb Pos.eqb qpop]. rewrite !bind_Ok.
  destruct (Z.to_nat acc) as [|[|n]] eqn:En; [lia | lia |]. cbn [divide_units].
  set (ue := ceil_div (vsize cols) acc).
  assert (unit_inv 0 (v :: rows) cols (mkUnit [0] [] (v :: rows) cols 0) [] []) as Hi by by split.
  destruct (unit_step_spec 0 ue (v :: rows) cols ltac:(lia) Hcsr) with (s := mkUnit [0] [] (v :: rows) cols 0)
    (Rd := @nil Z) (Ed := @nil Z) (v := v) (rest := rows) as (s1 & Ed1 & Eo & Hcase); try done.
  { rewrite last_cons, Hlast. lia. }
  destruct Hcase as [(Ec & E1 & Hi1 & Et1)|Hother].
  - cbn [unit_while length]. rewrite E1, !bind_Ok. cbv beta iota. rewrite Et1.
    assert (∀ l c r, unit_step l ue (mkUnit [0] [] [] c r) = Err EmptyQueue) as Eu by done.
    cbn [divide_units unit_while length]. rewrite Eu. reflexivity.
  - exfalso. assert (t_col s1 ≠ [] ∧ unit_inv 0 (v :: rows) cols s1 ([] ++ [v]) Ed1) as [Hc [_ _ _ I4 I5]]
      by (destruct Hother as [(? & _ & _ & ? & _)|(? & _ & _ & ? & _)]; done).
    cbn in I5. assert (vsize cols = vsize Ed1 + vsize (t_col s1)) as Hv
      by (rewrite <- vsize_app; by f_equal).
    destruct (t_col s1) as [|x xs]; [done|]. rewrite vsize_cons in Hv. pose proof (vsize_nonneg xs). lia.
Qed.

(** An address leads back to its unit, modulo 16.  In an area that starts at
    a multiple of 2^56, the unit of an address with offset [i] is [i mod 16]:
    its unit for up to 16 units, another one beyond. *)
Theorem return_id_mod_16 start i k :
  0 ≤ start → 0 ≤ i < 2048 → 0 ≤ k < 2 ^ 52 → start mod 2 ^ 56 = 0 → start < 2 ^ 63 →
  ReturnID (start + unit_offset i + k) = i mod 16.
Proof.
  intros Hs Hi Hk Hal Hs63. unfold ReturnID, unit_offset.
  rewrite (u64_small (4503599627370496 * i)) by lia.
  change 0x00ffffffffffffff with (Z.ones 56). rewrite Z.land_ones by lia.
  change 4503599627370496 with (2 ^ 52).
  rewrite <- Z.add_assoc, <- Zplus_mod_idemp_l, Hal, Z.add_0_l.
  rewrite (Z.add_comm (2 ^ 52 * i)). change (2 ^ 56) with (2 ^ 52 * 16).
  rewrite Z.rem_mul_r by lia.
  rewrite (Z.mul_comm (2 ^ 52) i), Z.div_add, Z.mod_add by lia.
  rewrite (Z.mod_small k), (Z.div_small k) by lia. rewrite Z.add_0_l, (Z.add_comm k).
  rewrite Z.mul_comm, Z.div_add_l, (Z.div_small k), Z.add_0_r by lia.
  apply i32_small. pose proof (Z.mod_pos_bound i 16). lia.
Qed.

(** ** Concrete runs *)

Definition ex_shares : res (list (list Z) * list (list Z) * list RowInfo * list Z) :=
  Distribute ex_params 1 [] [] 2 [0; 1; 3; 4; 6] [1; 0; 3; 2; 0; 1].

Lemma edge_division_partitions_witness :
  ∃ us, [[0; 1; 3]; [0; 1; 3]] = sh_rows <$> us ∧ rebase 0 us = [1; 3; 4; 6] ∧
    concat (sh_cols <$> us) = [1; 0; 3; 2; 0; 1].
Proof.
  destruct ex_shares as [[[[rs cs] infos] counts]|] eqn:E; [|by vm_compute in E].
  destruct (edge_division_partitions ex_params [] [] 2 [1; 3; 4; 6] [1; 0; 3; 2; 0; 1] rs cs infos
    counts) as (us & Er & Ec & _ & Hc & Hr & _).
  1-3: simpl; lia.
  1: done.
  1: reflexivity.
  1, 2: by vm_compute.
  1: exact E.
  exists us. rewrite <- Er, <- Ec. split; [|split; [exact Hr | exact Hc]].
  assert (ex_shares = Ok ([[0; 1; 3]; [0; 1; 3]], [[1; 0; 3]; [2; 0; 1]],
    [mkRowInfo 0 1; mkRowInfo 2 3], [2; 2])) as E' by (vm_compute; reflexivity).
  rewrite E' in E. injection E as <- _ _ _. reflexivity.
Defined.

Lemma edge_division_underflow_witness :
  Distribute ex_params 1 [] [] 2 [0; 3; 3; 3] [1; 0; 3] = Err EmptyQueue.
Proof.
  apply edge_division_underflow.
  1-3: simpl; lia.
  1: done.
  1: reflexivity.
  1: by vm_compute.
  1: reflexivity.
  by vm_compute.
Defined.

Lemma return_id_mod_16_witness :
  ReturnID (0x1000000000000000 + unit_offset 17 + 640) = 1.
Proof.
  apply (return_id_mod_16 0x1000000000000000 17 640); [lia | lia | lia | reflexivity | lia].
Defined.
