(* ===== verification/Simulator.v ===== *)
(** * The main loop (RunSimulator.cpp)

    [main] creates a data controller, a vertex reader and an edge reader per unit around
    one DRAM interface and runs a cycle after the other: it takes completed reads, lets
    the data controllers answer them, the readers receive, transfer and request, and the
    interface dispatch and tick, until every output write is complete.  What the loop
    prints is left out, and so are the global buffers, accelerators and XW readers, which
    [main] creates and the loop no longer uses.  [sim_logs] runs the loop next to logs of
    what each cycle issued, received and was told by the memory.  The theorem: whatever
    the units do, the logs balance with what is held before and after, and the loop ends
    only when the output writes it waits for have been completed, as many as there are. *)

From S2P Require Import Prelude CFloat DramCommon DramConfig Stats BankState Timing ChannelState ChannelProps.
From S2P Require Import Refresh CommandQueue ChannelRun Controller ControllerProps ControllerTick Common.
From S2P Require Import DRAMInterface DramSystem VertexReader EdgeReader DataController Distributer.

Open Scope Z_scope.

Section Simulator.
Context {M : Type} `{MemorySystem M}.
Variable P : Params.

Abbreviation DI := (DRAMInterface (M := M)).

(** The units, the globals they share and the cycle counter. *)
Record Simulator := mkSim {
  sim_dc : list DataController; sim_vr : list VertexReader; sim_er : list EdgeReader;
  sim_g : Globals DI; cycle : Z }.

(** What a DRAM slot of a cycle holds: a completed read of the matrices with its unit,
    or one of the features. *)
Inductive Slot := NoRead | ARead (address id : Z) | WRead (address : Z).

(** The DRAM turn. *)
Definition dram_slot (g : Globals DI) : res (Slot * Globals DI) :=
  if FReadComplete (g_dram g) then
    '(a, d) ← GetReadData false (g_dram g); Ok (ARead a (ReturnID a), g {{ g_dram := d }})
  else if WReadComplete (g_dram g) then
    '(a, d) ← GetReadData true (g_dram g); Ok (WRead a, g {{ g_dram := d; f_flag := true }})
  else Ok (NoRead, g).
Definition dram_turn (s : Simulator) : res (list Slot * Simulator) :=
  '(l, g) ← for_loop (Z.to_nat (MAX_DRAM P)) 0
    (λ _ '(l, g), '(x, g) ← dram_slot g; Ok (l ++ [x], g)) ([], sim_g s);
  Ok (l, s {{ sim_g := g }}).

(** The answer of the data controller of a slot: its type, unit and data. *)
Definition slot_answer (x : Slot) (s : Simulator) : res (option (Type_ * Z * list Z) * Simulator) :=
  match x with
  | ARead a id =>
      dc ← vget (sim_dc s) id;
      t ← ReturnDataType P a;
      '(data, dc, g) ←
        match t with
        | A_ROW => AdjRowDataReturn P dc (sim_g s)
        | A_COL => AdjColDataReturn P dc (sim_g s)
        | X => Ok ([], dc, sim_g s)
        end;
      l ← vset (sim_dc s) id dc;
      Ok (Some (t, id, data), s {{ sim_dc := l; sim_g := g }})
  | _ => Ok (None, s)
  end.
Fixpoint controller_turn (l : list Slot) (s : Simulator) : res (list (option (Type_ * Z * list Z)) * Simulator) :=
  match l with
  | [] => Ok ([], s)
  | x :: l' => '(a, s) ← slot_answer x s; '(as_, s) ← controller_turn l' s; Ok (a :: as_, s)
  end.

(** The vertex readers receive, and request. *)
Definition vr_receive (o : option (Type_ * Z * list Z)) (s : Simulator) : res Simulator :=
  match o with
  | Some (A_ROW, id, data) => l ← vmod (sim_vr s) id (VR_ReceiveData data); Ok (s {{ sim_vr := l }})
  | _ => Ok s
  end.
Definition vr_unit (i : Z) (s : Simulator) : res Simulator :=
  v ← vget (sim_vr s) i;
  let v := if VR_IsEndOperation v (sim_g s) then VR_TurnOffFlag v else v in
  '(v, g) ← (if req_need (vr_flag v) then VR_Request P v (sim_g s) else Ok (v, sim_g s));
  l ← vset (sim_vr s) i v;
  Ok (s {{ sim_vr := l; sim_g := g }}).

(** The edge readers receive, take a vertex, request, walk an edge and write. *)
Definition er_receive (o : option (Type_ * Z * list Z)) (s : Simulator) : res Simulator :=
  match o with
  | Some (A_COL, id, data) => l ← vmod (sim_er s) id (ER_ReceiveData data); Ok (s {{ sim_er := l }})
  | _ => Ok s
  end.
Definition er_unit (i : Z) (s : Simulator) : res Simulator :=
  e ← vget (sim_er s) i;
  v ← vget (sim_vr s) i;
  let g := sim_g s in
  '(e, v, g) ←
    (if ER_CanVertexReceive e && negb (q_empty (vr_flag v)) && f_flag g then
       '(x, v, g) ← VR_TransferData P v g;
       '(e, g) ← ER_ReceiveVertex P x e g; Ok (e, v, g)
     else Ok (e, v, g));
  let e := if ER_IsEndOperation e g then ER_TurnOffFlag e else e in
  '(e, g) ← (if req_need (er_flag e) then ER_Request P e g else Ok (e, g));
  '(e, g) ← OuterProduct P e g;
  '(e, g) ← ER_Write P e g;
  le ← vset (sim_er s) i e; lv ← vset (sim_vr s) i v;
  Ok (s {{ sim_er := le; sim_vr := lv; sim_g := g }}).

(** The loops over the slots and the units of a cycle; [tot] is the number of units. *)
Definition units_turn (tot : Z) (l : list (option (Type_ * Z * list Z))) (s : Simulator) : res Simulator :=
  s ← for_each l vr_receive s;
  s ← for_each (seqZ 0 tot) vr_unit s;
  s ← for_each l er_receive s;
  for_each (seqZ 0 tot) er_unit s.

(** A cycle of the [while (true)]. *)
Definition sim_cycle (tot : Z) (s : Simulator) : res Simulator :=
  '(slots, s) ← dram_turn s;
  '(answers, s) ← controller_turn slots s;
  s ← units_turn tot answers s;
  d ← DI_AddTransaction P (g_dram (sim_g s));
  d ← UpdateCycle P d;
  Ok (s {{ sim_g := (sim_g s) {{ g_dram := d }}; cycle := u64 (cycle s + 1) }}).

(** The test that ends the loop. *)
Definition sim_done (s : Simulator) : res bool :=
  let d := g_dram (sim_g s) in
  if tot_axw_count (ctr d) =? 0 then w ← WriteExist d; Ok (negb w) else Ok false.

(** The loop, for at most [n] cycles; the flag tells whether it has ended. *)
Fixpoint sim_loop (n : nat) (tot : Z) (s : Simulator) : res (bool * Simulator) :=
  match n with
  | O => Ok (false, s)
  | S n' =>
      s ← sim_cycle tot s;
      b ← sim_done s;
      if (b : bool) then Ok (true, s) else sim_loop n' tot s
  end.

(** What [main] does before the loop: a vertex reader and an edge reader per unit, of
    which the member [x_repeat] is not initialised ([vx], [ex]), and the first features. *)
Definition new_Simulator (dt : Distributer) (vx ex : Z → Z) (g : Globals DI) : res Simulator :=
  let units := seqZ 0 (tot_acc dt) in
  dcs ← for_each units (λ i l,
      rows ← vget (dt_adjrowindex dt) i; cols ← vget (dt_adjcolindex dt) i;
      Ok (l ++ [new_DataController i rows cols])) [];
  '(vrs, ers, g) ← for_each units (λ i '(vl, el, g),
      ro ← vget (a_row_offset dt) i; co ← vget (a_col_offset dt) i;
      cols ← vget (dt_adjcolindex dt) i; ri ← vget (a_row_info dt) i;
      '(v, g) ← new_VertexReader P i ro (vx i) ri g;
      '(e, g) ← new_EdgeReader P i co (vsize cols) (ex i) ri g;
      Ok (vl ++ [v], el ++ [e], g)) ([], [], g);
  v0 ← vget vrs 0;
  let '(v0, g) := RequestF P v0 g in
  vrs ← vset vrs 0 v0;
  Ok (mkSim dcs vrs ers g 0).
End Simulator.

(** ** The units only queue requests *)

Section Requests.
Context {D : Type} `{DramPort D}.
Variable P : Params.

(** [d'] is [d] with requests queued. *)
Inductive queued : D → D → Prop :=
  | queued_none d : queued d d
  | queued_request d a w d' : queued (DRAMRequest a w d) d' → queued d d'
  | queued_request_id d a w i d' : queued (DRAMRequestId a w i d) d' → queued d d'.

#[global] Instance queued_preorder : PreOrder queued.
Proof.
  split; [intros d; apply queued_none|]. intros d1 d2 d3 H12 H23.
  induction H12; [done | by eapply queued_request, IHqueued | by eapply queued_request_id, IHqueued].
Qed.

Lemma queued_one a w d : queued d (DRAMRequest a w d).
Proof. eapply queued_request, queued_none. Qed.

Lemma vr_request_queued v (g : Globals D) v' g' :
  VR_Request P v g = Ok (v', g') → queued (g_dram g) (g_dram g').
Proof. unfold VR_Request. intros E. apply bind_Ok_inv in E as (n & _ & E). injection E as _ <-. apply queued_one. Qed.

Lemma er_request_queued e (g : Globals D) e' g' :
  ER_Request P e g = Ok (e', g') → queued (g_dram g) (g_dram g').
Proof. unfold ER_Request. intros E. apply bind_Ok_inv in E as (n & _ & E). injection E as _ <-. apply queued_one. Qed.

Lemma feature_queued v (g : Globals D) v' g' :
  feature_step P v g = Ok (v', g') → queued (g_dram g) (g_dram g').
Proof.
  unfold feature_step, RequestF. intros E. apply bind_Ok_inv in E as (n & _ & E). cbv zeta in E.
  destruct (_ || _); injection E as _ <-; [apply queued_one | apply queued_none].
Qed.

Lemma transfer_queued v (g : Globals D) x v' g' :
  VR_TransferData P v g = Ok (x, v', g') → queued (g_dram g) (g_dram g').
Proof.
  unfold VR_TransferData. destruct (_ && _); [|destruct (_ && _)]; intros E.
  - unfold transfer_first in E. apply bind_Ok_inv in E as (r & _ & E). apply bind_Ok_inv in E as (y & _ & E).
    apply bind_Ok_inv in E as (q & _ & E). apply bind_Ok_inv in E as ([v1 g1] & E1 & E). apply feature_queued in E1.
    cbn in E1. apply bind_Ok_inv in E as (m & _ & E). destruct (_ || _); [apply bind_Ok_inv in E as (k & _ & E)|];
      by injection E as _ _ <-.
  - unfold transfer_replay in E. apply bind_Ok_inv in E as (r & _ & E). apply bind_Ok_inv in E as (y & _ & E).
    apply bind_Ok_inv in E as ([v1 g1] & E1 & E). apply feature_queued in E1. destruct (_ || _); [|by injection E as _ _ <-].
    destruct (negb _); [apply bind_Ok_inv in E as (k & _ & E); by injection E as _ _ <-|].
    apply bind_Ok_inv in E as ([v2 g2] & E2 & E). injection E as _ _ <-. unfold finish_block in E2.
    apply bind_Ok_inv in E2 as (n & _ & E2). apply bind_Ok_inv in E2 as (t & _ & E2). apply bind_Ok_inv in E2 as (q & _ & E2).
    by injection E2 as _ <-.
  - by injection E as _ _ <-.
Qed.

Lemma vertex_same x e (g : Globals D) e' g' :
  ER_ReceiveVertex P x e g = Ok (e', g') → g_dram g' = g_dram g.
Proof.
  unfold ER_ReceiveVertex. intros E. destruct (_ <? _); [|by injection E as _ <-].
  apply bind_Ok_inv in E as (n & _ & E). destruct (_ =? 0); [destruct (_ =? a_h P)|]; by injection E as _ <-.
Qed.

Lemma outer_same e (g : Globals D) e' g' : OuterProduct P e g = Ok (e', g') → g_dram g' = g_dram g.
Proof.
  unfold OuterProduct. destruct (_ && _); [|destruct (_ && _)]; intros E.
  - unfold outer_first in E. apply bind_Ok_inv in E as (r & _ & E). apply bind_Ok_inv in E as (q & _ & E).
    destruct (_ =? 0); [|by injection E as _ <-]. apply bind_Ok_inv in E as ([] & _ & E); [|by injection E as _ <-].
    apply bind_Ok_inv in E as (k & _ & E). by injection E as _ <-.
  - unfold outer_replay in E. apply bind_Ok_inv in E as (r & _ & E).
    destruct (_ =? 0); [|by injection E as _ <-]. apply bind_Ok_inv in E as ([] & _ & E); cbn [negb] in E; [|by injection E as _ <-].
    destruct (negb _); [apply bind_Ok_inv in E as (k & _ & E); by injection E as _ <-|].
    unfold er_finish in E. apply bind_Ok_inv in E as (b & _ & E). apply bind_Ok_inv in E as (n & _ & E).
    apply bind_Ok_inv in E as (t & _ & E). apply bind_Ok_inv in E as (q & _ & E). by injection E as _ <-.
  - by injection E as _ <-.
Qed.

Lemma write_queued e (g : Globals D) e' g' : ER_Write P e g = Ok (e', g') → queued (g_dram g) (g_dram g').
Proof.
  unfold ER_Write. destruct (do_write e); [|by intros [= _ <-]]. intros E. apply bind_Ok_inv in E as (n & _ & E).
  destruct (n =? 0); [apply bind_Ok_inv in E as (k & _ & E)|]; injection E as _ <-; apply queued_one.
Qed.

Lemma line_same dc (g : Globals D) r :
  AdjRowDataReturn P dc g = Ok r ∨ AdjColDataReturn P dc g = Ok r → g_dram r.2 = g_dram g.
Proof.
  intros [E|E]; unfold AdjRowDataReturn, AdjColDataReturn in E; apply bind_Ok_inv in E as ([[c l] n] & _ & E);
    apply bind_Ok_inv in E as ([x q] & _ & E); by injection E as <-.
Qed.
End Requests.

(** ** The ledger of the simulation *)

Section Ledger.
Context {M : Type} `{MemorySystemSpec M}.
Variable P : Params.
Hypothesis HMAX : 0 < MAX_DRAM P.

Abbreviation DI := (DRAMInterface (M := M)).
Abbreviation Sim := (Simulator (M := M)).

(** What a cycle exchanges with the interface: what its slots held, the requests that the
    units queued, and the completions that the memory systems reported. *)
Record SimLog := mkLog {
  lg_slots : list Slot; lg_issued : list (Z * bool); lg_reported : list (Z * bool) }.

(** The reads of the matrices and of the features that the slots took. *)
Definition taken_f (l : list Slot) : list Z := omap (λ x, match x with ARead a _ => Some a | _ => None end) l.
Definition taken_w (l : list Slot) : list Z := omap (λ x, match x with WRead a => Some a | _ => None end) l.

(** The requests that [d'] has queued behind those of [d]. *)
Definition queued_since (d d' : DI) : list (Z * bool) := drop (length (requests d)) (requests d').

(** The log of the cycle that starts in [s], observed at the points where [sim_cycle]
    takes reads, queues requests and ticks. *)
Definition cycle_log (tot : Z) (s : Sim) : res SimLog :=
  '(slots, s) ← dram_turn P s;
  '(answers, s) ← controller_turn P slots s;
  s' ← units_turn P tot answers s;
  d ← DI_AddTransaction P (g_dram (sim_g s'));
  Ok (mkLog slots (queued_since (g_dram (sim_g s)) (g_dram (sim_g s'))) (tick_events d)).

(** The logs of the cycles of [sim_loop], in order. *)
Fixpoint sim_logs (n : nat) (tot : Z) (s : Sim) : res (list SimLog) :=
  match n with
  | O => Ok []
  | S n' =>
      x ← cycle_log tot s;
      s ← sim_cycle P tot s;
      b ← sim_done s;
      if (b : bool) then Ok [x] else l ← sim_logs n' tot s; Ok (x :: l)
  end.

Definition log_app (x y : SimLog) : SimLog :=
  mkLog (lg_slots x ++ lg_slots y) (lg_issued x ++ lg_issued y) (lg_reported x ++ lg_reported y).
(** The log of several cycles. *)
Definition log_concat (l : list SimLog) : SimLog := foldr log_app (mkLog [] [] []) l.

(** The ledger between two states of the interface and the log [x] of what passed: no
    request is lost or duplicated, reads are taken in the order in which they were
    reported, requests wait in the order in which they were queued, and the counter of
    the output goes down with the output writes reported. *)
Definition balanced (d : DI) (x : SimLog) (d' : DI) : Prop :=
  holds d ++ lg_issued x ≡ₚ
    holds d' ++ as_reads (taken_f (lg_slots x) ++ taken_w (lg_slots x)) ++ writes_of (lg_reported x) ∧
  taken_f (lg_slots x) ++ f_address d' = f_address d ++ f_reads P (lg_reported x) ∧
  taken_w (lg_slots x) ++ w_address d' = w_address d ++ w_reads P (lg_reported x) ∧
  requests d' `suffix_of` requests d ++ lg_issued x ∧
  tot_axw_count (ctr d') mod 2 ^ 64 = (tot_axw_count (ctr d) - axw_writes P (lg_reported x)) mod 2 ^ 64.

(** [balanced], together with the well-formedness of the interface. *)
Definition kept (d : DI) (x : SimLog) (d' : DI) : Prop := di_wf P d → di_wf P d' ∧ balanced d x d'.

Lemma kept_refl d : kept d (mkLog [] [] []) d.
Proof.
  intros W. split; [done|]. unfold balanced, axw_writes, vsize. cbn. rewrite !app_nil_r, Z.sub_0_r. by split_and!.
Qed.

Lemma kept_trans d1 d2 d3 x y : kept d1 x d2 → kept d2 y d3 → kept d1 (log_app x y) d3.
Proof.
  intros K1 K2 W1. destruct (K1 W1) as (W2 & H1 & F1 & V1 & Q1 & C1). destruct (K2 W2) as (W3 & H2 & F2 & V2 & Q2 & C2).
  split; [done|]. unfold balanced, taken_f, taken_w, f_reads, w_reads, writes_of, axw_writes, as_reads in *. cbn [log_app lg_slots lg_issued lg_reported].
  rewrite !omap_app, !filter_app, !fmap_app, vsize_app in *. split; [|split; [|split; [|split]]].
  - clear -H1 H2. perm_solve.
  - by rewrite <- app_assoc, F2, app_assoc, F1, app_assoc.
  - by rewrite <- app_assoc, V2, app_assoc, V1, app_assoc.
  - etrans; [exact Q2|]. rewrite app_assoc. destruct Q1 as [k ->]. exists k. by rewrite app_assoc.
  - rewrite C2, <- Zminus_mod_idemp_l, C1, Zminus_mod_idemp_l. f_equal. lia.
Qed.

(** The steps of the interface keep the ledger. *)
Lemma tick_kept d d' : UpdateCycle P d = Ok d' → kept d (mkLog [] [] (tick_events d)) d'.
Proof.
  intros E W. destruct (UpdateCycle_events P HMAX d d' W E) as (W' & Pe & Mv).
  pose proof (moved_holds P d d' _ Pe Mv) as Hh. destruct Mv as (Hf & Hw & Hq & _ & Hc).
  split; [done|]. split; [|split; [|split; [|split]]]; cbn; try done.
  - rewrite app_nil_r, Hh. cbn. by rewrite Permutation_app_comm.
  - rewrite Hq. by rewrite app_nil_r.
Qed.

Lemma dispatch_kept d d' : DI_AddTransaction P d = Ok d' → kept d (mkLog [] [] []) d'.
Proof.
  intros E W. destruct (DI_AddTransaction_ok P HMAX d W) as (s1 & sent & E1 & W1 & Hq & Hp & Hf & Hw & _ & Hct).
  rewrite E in E1. injection E1 as <-. split; [done|].
  unfold balanced, holds, axw_writes, vsize. cbn. rewrite !app_nil_r, Z.sub_0_r, Hf, Hw, Hct.
  split; [|split; [done|split; [done|split; [|done]]]].
  - rewrite Hq, fmap_app, Hp. perm_solve.
  - rewrite Hq, fmap_app. by eexists.
Qed.

Lemma get_kept isW d a d' :
  GetReadData isW d = Ok (a, d') → kept d (mkLog [if isW then WRead a else ARead a 0] [] []) d'.
Proof.
  intros E W. destruct (GetReadData_ok P isW d a d' W E) as (W' & Hh & Hct). split; [done|].
  unfold balanced, axw_writes, vsize, as_reads. cbn. rewrite !app_nil_r, Z.sub_0_r, Hct.
  assert (f_address d' = (if isW then f_address d else tail (f_address d)) ∧ w_address d' = (if isW then tail (w_address d) else w_address d) ∧
    head (if isW then w_address d else f_address d) = Some a ∧ t_queue d' = t_queue d) as (Hf & Hw & Ha & Hq).
  { unfold GetReadData in E. destruct isW; cbn in E; inv_res E; injection E as <- <-; cbn;
      [destruct (w_address d) | destruct (f_address d)]; cbn in *; simplify_eq; done. }
  rewrite Hf, Hw, Hq. split; [|split; [|split; [|by split]]].
  - rewrite Hh. destruct isW; cbn; perm_solve.
  - destruct isW; cbn; [done|]. destruct (f_address d); cbn in *; by simplify_eq.
  - destruct isW; cbn; [|done]. destruct (w_address d); cbn in *; by simplify_eq.
Qed.

Lemma append_kept (d1 : DI) a w d2 :
  (di_wf P d1 → di_wf P d2) → t_queue d2 = t_queue d1 ++ [mkTrans a w] → dram d2 = dram d1 →
  f_address d2 = f_address d1 → w_address d2 = w_address d1 → ctr d2 = ctr d1 → kept d1 (mkLog [] [(a, w)] []) d2.
Proof.
  intros HW Hq Hd Hf Hw Hc W. split; [by apply HW|]. unfold balanced, holds, in_dram, axw_writes, vsize. cbn.
  rewrite Hq, Hd, Hf, Hw, Hc, !fmap_app, !app_nil_r, Z.sub_0_r.
  change (req <$> [mkTrans a w]) with [(a, w)]. split; [perm_solve|]. by split_and!.
Qed.

Lemma queued_new (d d' : DI) :
  queued d d' → ∃ new, requests d' = requests d ++ new ∧ kept d (mkLog [] new []) d'.
Proof.
  induction 1 as [d|d a w d' _ (new & Hr & K)|d a w i d' _ (new & Hr & K)].
  - exists []. split; [by rewrite app_nil_r | apply kept_refl].
  - exists ((a, w) :: new). rewrite Hr, request_queued, <- app_assoc. split; [done|].
    refine (kept_trans d (DI_DRAMRequest a w d) d' (mkLog [] [(a, w)] []) (mkLog [] new []) _ K).
    apply append_kept; [by intros [W1 W2 W3 W4 W5] | done..].
  - exists ((a, w) :: new). rewrite Hr, request_id_queued, <- app_assoc. split; [done|].
    refine (kept_trans d (DI_DRAMRequestId a w i d) d' (mkLog [] [(a, w)] []) (mkLog [] new []) _ K).
    apply append_kept; [by intros [W1 W2 W3 W4 W5] | done..].
Qed.

Lemma queued_kept (d d' : DI) : queued d d' → kept d (mkLog [] (queued_since d d') []) d'.
Proof. intros (new & Hr & K)%queued_new. unfold queued_since. by rewrite Hr, drop_app_length. Qed.

(** *** The turns of a cycle *)

Abbreviation port s := (g_dram (sim_g s)).

Lemma slot_kept (g : Globals DI) x g' : dram_slot g = Ok (x, g') → kept (g_dram g) (mkLog [x] [] []) (g_dram g').
Proof.
  unfold dram_slot. destruct (FReadComplete _); [|destruct (WReadComplete _)]; intros E.
  - apply bind_Ok_inv in E as ([a d] & Eg & E). injection E as <- <-. by apply (get_kept false) in Eg.
  - apply bind_Ok_inv in E as ([a d] & Eg & E). injection E as <- <-. by apply (get_kept true) in Eg.
  - injection E as <- <-. apply kept_refl.
Qed.

Lemma dram_turn_kept (s : Sim) l s' : dram_turn P s = Ok (l, s') → kept (port s) (mkLog l [] []) (port s').
Proof.
  unfold dram_turn. intros E. apply bind_Ok_inv in E as ([l1 g] & El & E). injection E as <- <-.
  apply (for_loop_keeps (λ _ p, kept (port s) (mkLog p.1 [] []) (g_dram p.2))) in El; [exact El | | apply kept_refl].
  intros i [l2 g2] p2 _ K Eb. apply bind_Ok_inv in Eb as ([x g3] & Ex & Eb). injection Eb as <-.
  apply slot_kept in Ex. exact (kept_trans _ _ _ _ _ K Ex).
Qed.

Lemma answer_same x (s : Sim) a s' : slot_answer P x s = Ok (a, s') → port s' = port s ∧ cycle s' = cycle s.
Proof.
  unfold slot_answer. intros E. destruct x as [|ad id|ad]; try by injection E as _ <-.
  apply bind_Ok_inv in E as (dc & _ & E). apply bind_Ok_inv in E as (t & _ & E).
  apply bind_Ok_inv in E as ([[data dc'] g] & Et & E). apply bind_Ok_inv in E as (l & _ & E). injection E as _ <-.
  cbn. split; [|done]. destruct t; [by injection Et as _ _ <-|..]; [apply (line_same P dc (sim_g s) (data, dc', g)); by left|
    apply (line_same P dc (sim_g s) (data, dc', g)); by right].
Qed.

Lemma controller_same l (s : Sim) a s' : controller_turn P l s = Ok (a, s') → port s' = port s ∧ cycle s' = cycle s.
Proof.
  revert s a. induction l as [|x l IH]; intros s a E; cbn [controller_turn] in E; [by injection E as _ <-|].
  apply bind_Ok_inv in E as ([b s1] & E1 & E). apply bind_Ok_inv in E as ([c s2] & E2 & E). injection E as _ <-.
  apply answer_same in E1 as [? ?]. apply IH in E2 as [? ?]. split; congruence.
Qed.

Definition units_queued (s s' : Sim) : Prop := queued (port s) (port s') ∧ cycle s' = cycle s.

#[local] Instance units_queued_preorder : PreOrder units_queued.
Proof.
  split; unfold units_queued; [intros s; by split|]. intros s1 s2 s3 [H12 C12] [H23 C23]. split; [by etrans | congruence].
Qed.

Lemma vr_unit_queued i (s s' : Sim) : vr_unit P i s = Ok s' → units_queued s s'.
Proof.
  unfold vr_unit. intros E. apply bind_Ok_inv in E as (v & _ & E). cbv zeta in E.
  apply bind_Ok_inv in E as ([v1 g] & E1 & E). apply bind_Ok_inv in E as (l & _ & E). injection E as <-.
  unfold units_queued. cbn. split; [|done]. destruct (req_need _); [by apply (vr_request_queued P) in E1 | by injection E1 as _ <-].
Qed.

Lemma er_unit_queued i (s s' : Sim) : er_unit P i s = Ok s' → units_queued s s'.
Proof.
  unfold er_unit. intros E. apply bind_Ok_inv in E as (e & _ & E). apply bind_Ok_inv in E as (v & _ & E). cbv zeta in E.
  apply bind_Ok_inv in E as ([[e1 v1] g1] & E1 & E). apply bind_Ok_inv in E as ([e2 g2] & E2 & E).
  apply bind_Ok_inv in E as ([e3 g3] & E3 & E). apply bind_Ok_inv in E as ([e4 g4] & E4 & E).
  apply bind_Ok_inv in E as (le & _ & E). apply bind_Ok_inv in E as (lv & _ & E). injection E as <-.
  unfold units_queued. cbn. split; [|done]. trans (g_dram g1).
  { destruct (_ && _); [|by injection E1 as _ _ <-]. apply bind_Ok_inv in E1 as ([[x v2] g5] & E5 & E1).
    apply bind_Ok_inv in E1 as ([e5 g6] & E6 & E1). injection E1 as _ _ <-.
    apply (transfer_queued P) in E5. apply (vertex_same P) in E6. by rewrite E6. }
  trans (g_dram g2); [destruct (req_need _); [by apply (er_request_queued P) in E2 | by injection E2 as _ <-]|].
  apply (outer_same P) in E3. apply (write_queued P) in E4. by rewrite <- E3.
Qed.

Lemma units_turn_queued tot l (s s' : Sim) : units_turn P tot l s = Ok s' → units_queued s s'.
Proof.
  unfold units_turn. intros E. apply bind_Ok_inv in E as (s4 & Ea & E).
  apply bind_Ok_inv in E as (s5 & Eb & E). apply bind_Ok_inv in E as (s6 & Ec & E). trans s4.
  { eapply for_each_rel, Ea; [apply _|]. intros [[[[] id] data]|] x y _ Ex; try by injection Ex as <-.
    apply bind_Ok_inv in Ex as (v & _ & Ex). injection Ex as <-. unfold units_queued. by split. }
  trans s5; [eapply for_each_rel, Eb; [apply _|]; intros i x y _; apply vr_unit_queued|]. trans s6.
  { eapply for_each_rel, Ec; [apply _|]. intros [[[[] id] data]|] x y _ Ex; try by injection Ex as <-.
    apply bind_Ok_inv in Ex as (v & _ & Ex). injection Ex as <-. unfold units_queued. by split. }
  eapply for_each_rel, E; [apply _|]; intros i x y _; apply er_unit_queued.
Qed.

(** A cycle is logged, and its log balances. *)
Lemma cycle_kept tot (s s' : Sim) :
  sim_cycle P tot s = Ok s' → ∃ x, cycle_log tot s = Ok x ∧ kept (port s) x (port s') ∧ cycle s' = u64 (cycle s + 1).
Proof.
  unfold sim_cycle, cycle_log. intros E. apply bind_Ok_inv in E as ([slots s1] & E1 & E).
  apply bind_Ok_inv in E as ([ans s2] & E2 & E). apply bind_Ok_inv in E as (s3 & E3 & E).
  apply bind_Ok_inv in E as (d1 & E4 & E). apply bind_Ok_inv in E as (d2 & E5 & E). injection E as <-.
  rewrite E1. cbn [mbind res_bind]. rewrite E2. cbn [mbind res_bind]. rewrite E3. cbn [mbind res_bind].
  rewrite E4. cbn [mbind res_bind]. eexists. split; [done|]. cbn.
  assert (cycle s1 = cycle s) as C1 by (unfold dram_turn in E1; apply bind_Ok_inv in E1 as ([l1 g] & _ & E1); by injection E1 as _ <-).
  apply dram_turn_kept in E1. apply controller_same in E2 as [E2 C2]. rewrite <- E2 in E1.
  apply units_turn_queued in E3 as [E3 C3]. apply queued_kept in E3. rewrite C3, C2, C1. split; [|done].
  apply dispatch_kept in E4. apply tick_kept in E5.
  pose proof (kept_trans _ _ _ _ _ E1 (kept_trans _ _ _ _ _ E3 (kept_trans _ _ _ _ _ E4 E5))) as K.
  unfold log_app in K. cbn in K. by rewrite !app_nil_r in K.
Qed.

(** The loop is logged, a log per cycle, and the logs balance. *)
Lemma loop_kept n tot (s : Sim) b s' :
  sim_loop P n tot s = Ok (b, s') →
  ∃ l, sim_logs n tot s = Ok l ∧ kept (port s) (log_concat l) (port s') ∧
    u64 (cycle s') = u64 (cycle s + vsize l) ∧ (b = false → length l = n) ∧ (b = true → sim_done s' = Ok true).
Proof.
  revert s. induction n as [|n IH]; intros s E; cbn [sim_loop sim_logs] in *.
  { injection E as <- <-. exists []. unfold vsize. cbn. rewrite Z.add_0_r. split; [done|]. split; [apply kept_refl | done]. }
  apply bind_Ok_inv in E as (s1 & E1 & E). apply bind_Ok_inv in E as (d & Ed & E).
  destruct (cycle_kept tot s s1 E1) as (x & Ex & K & Hc).
  rewrite Ex. cbn [mbind res_bind]. rewrite E1. cbn [mbind res_bind]. rewrite Ed. cbn [mbind res_bind]. destruct d.
  - injection E as <- <-. exists [x]. split; [done|]. unfold log_concat. cbn [foldr].
    split; [exact (kept_trans _ _ _ _ _ K (kept_refl _))|]. rewrite Hc. split; [apply Z.mod_mod; lia | done].
  - destruct (IH s1 E) as (l & El & Kl & Hl & Hn & Hd). rewrite El. exists (x :: l). split; [done|].
    split; [exact (kept_trans _ _ _ _ _ K Kl)|]. rewrite Hl, Hc, vsize_cons. split; [|split; [|done]].
    + unfold u64. rewrite Zplus_mod_idemp_l. f_equal. lia.
    + intros Hb. cbn. by rewrite (Hn Hb).
Qed.

(** The ledger at the end of the loop. *)
Lemma loop_ledger n tot (s0 : Sim) b s :
  di_wf P (port s0) → sim_loop P n tot s0 = Ok (b, s) →
  ∃ l, sim_logs n tot s0 = Ok l ∧ balanced (port s0) (log_concat l) (port s) ∧
    u64 (cycle s) = u64 (cycle s0 + vsize l) ∧ (b = false → length l = n) ∧
    (b = true → tot_axw_count (ctr (port s)) = 0 ∧ WriteExist (port s) = Ok false ∧
      u64 (axw_writes P (lg_reported (log_concat l))) = u64 (tot_axw_count (ctr (port s0)))).
Proof.
  intros W E. destruct (loop_kept n tot s0 b s E) as (l & El & K & Hc & Hn & Hd). destruct (K W) as [_ B].
  exists l. split; [done|]. split; [exact B|]. split; [done|]. split; [done|]. intros Hb. specialize (Hd Hb).
  unfold sim_done in Hd. destruct (Z.eqb_spec (tot_axw_count (ctr (port s))) 0) as [Hz|]; [|done].
  split; [done|]. apply bind_Ok_inv in Hd as (w & Ew & Hd). destruct w; [done|]. split; [done|].
  destruct B as (_ & _ & _ & _ & C). rewrite Hz, Z.mod_0_l in C by done.
  symmetry in C. apply Z.mod_divide in C as [q Hq]; [|done].
  replace (axw_writes P (lg_reported (log_concat l))) with (tot_axw_count (ctr (port s0)) + (- q) * 2 ^ 64) by lia.
  unfold u64. by rewrite Z_mod_plus_full.
Qed.

(** ** Properties *)

(** C2: The simulation keeps the ledger of the DRAM interface.  Every cycle of a run of
    the loop is logged: what its slots took, the requests its units queued and the
    completions its memory systems reported, [sim_logs] being computed from the same
    run.  However the run comes out, the requests of the start with those queued in the
    logs are those that the interface still holds, the reads taken in the logs and the
    writes reported in them; reads of the matrices, and of the features, are taken in
    the order in which they were reported; the requests still waiting are the last ones
    queued, in order; and there is a log per cycle counted.  When the loop ends, the
    test of [WriteExist] has found nothing in the first memory system, and the logs
    report, modulo 2^64, as many output writes as the counter of [main] asked for. *)
Theorem simulation_ledger n tot (s0 : Sim) b s :
  di_wf P (port s0) → sim_loop P n tot s0 = Ok (b, s) →
  ∃ l, sim_logs n tot s0 = Ok l ∧ balanced (port s0) (log_concat l) (port s) ∧
    u64 (cycle s) = u64 (cycle s0 + vsize l) ∧ (b = false → length l = n) ∧
    (b = true → tot_axw_count (ctr (port s)) = 0 ∧ WriteExist (port s) = Ok false ∧
      u64 (axw_writes P (lg_reported (log_concat l))) = u64 (tot_axw_count (ctr (port s0)))).
Proof. apply loop_ledger. Qed.
End Ledger.

(** ** A concrete simulation *)

(** Four vertices and six edges in two blocks, two folds, over two memory systems with a
    unified queue; the third output write ends the simulation. *)
Definition ex_unified : Config :=
  mkConfig (ex_sys {{ unified_queue := true }}) ex_dram ex_size ex_map ex_tim 100000.

Definition ex_memory : JedecDRAMSystem :=
  match new_JedecDRAMSystem ex_unified with Ok m => m | Err _ => mkJedec ex_unified 0 0 [] end.

Definition ex_interface : DRAMInterface (M := JedecDRAMSystem) :=
  new_DRAMInterface [ex_memory; ex_memory] (mkCtr 0 0 0 0 3).

Definition ex_dist : Distributer :=
  mkDist 1 [[0; 2; 3; 5; 6]] [[1; 2; 0; 1; 3; 2]] [0] [0] [0] [mkRowInfo 0 3] [0].

Definition simulator_over (d : DRAMInterface (M := JedecDRAMSystem)) : Simulator (M := JedecDRAMSystem) :=
  match new_Simulator ex_params ex_dist (λ _, 0) (λ _, 0) (globals_of d [3; 2] [3; 3]) with
  | Ok s => s | Err _ => mkSim [] [] [] (globals_of d [] []) 0 end.

Definition ex_simulator : Simulator (M := JedecDRAMSystem) := simulator_over ex_interface.

Lemma ex_interface_wf : di_wf ex_params ex_interface.
Proof.
  assert (usable ex_unified) as U.
  { split; [split; vm_compute; split; congruence | reflexivity | cbn; lia | cbn; lia | by vm_compute | done | | reflexivity].
    intros rf E. injection E as <-. by vm_compute. }
  assert (new_JedecDRAMSystem ex_unified = Ok ex_memory) as E by (apply ok_or; vm_compute; reflexivity).
  destruct (new_system_ok ex_unified ex_memory U ltac:(done) E) as [[W _ _ _] _].
  split; [reflexivity | cbn; lia | | reflexivity | reflexivity].
  apply Forall_cons. split; [exact W|]. apply Forall_cons. split; [exact W | by apply Forall_nil].
Qed.

Lemma simulator_over_dram d : g_dram (sim_g (simulator_over d)) = DI_DRAMRequest 4000 false d.
Proof. reflexivity. Qed.

Lemma ex_simulator_wf : di_wf ex_params (g_dram (sim_g ex_simulator)).
Proof.
  unfold ex_simulator. rewrite simulator_over_dram.
  destruct ex_interface_wf as [W1 W2 W3 W4 W5]. split; [exact W1 | exact W2 | exact W3 | exact W4 | exact W5].
Qed.

Lemma ended_ok {A} (r : res (bool * A)) :
  match r with Ok (b, _) => b | Err _ => false end = true → ∃ a, r = Ok (true, a).
Proof. destruct r as [[[] a]|]; [intros _; by exists a | discriminate | discriminate]. Qed.

Lemma ex_simulator_ends : ∃ s, sim_loop ex_params 200 1 ex_simulator = Ok (true, s).
Proof. apply ended_ok. vm_compute. reflexivity. Qed.

Lemma simulation_ledger_witness :
  ∃ s l, sim_loop ex_params 200 1 ex_simulator = Ok (true, s) ∧ sim_logs ex_params 200 1 ex_simulator = Ok l ∧
    balanced ex_params (g_dram (sim_g ex_simulator)) (log_concat l) (g_dram (sim_g s)) ∧
    u64 (cycle s) = u64 (cycle ex_simulator + vsize l) ∧
    u64 (axw_writes ex_params (lg_reported (log_concat l))) = 3.
Proof.
  destruct ex_simulator_ends as [s E].
  destruct (simulation_ledger ex_params ltac:(reflexivity) 200 1 ex_simulator true s ex_simulator_wf E)
    as (l & El & B & Hc & _ & Hd).
  exists s, l. split; [exact E|]. split; [exact El|]. split; [exact B|]. split; [exact Hc|]. apply (Hd eq_refl).
Defined.

(** What the logs of that run hold: in a hundred and five cycles nine requests are queued
    behind the first one, four reads of the matrices and two of the features are taken,
    and three output writes are reported; one request is still held at the end. *)
Example ex_simulator_logs :
  (l ← sim_logs ex_params 200 1 ex_simulator;
   let x := log_concat l in
   Ok (vsize l, vsize (lg_issued x), vsize (taken_f (lg_slots x)), vsize (taken_w (lg_slots x)),
       axw_writes ex_params (lg_reported x))) = Ok (105, 9, 4, 2, 3).
Proof. vm_compute. reflexivity. Qed.
