(* ===== verification/IniParser.v ===== *)
(** * The configuration parser (IniParser.h, IniParser.cpp)

    A file of lines [key = value] becomes a table; [ParseIni] reads the simulator's
    parameters from it, and throws on a missing key or a malformed number.  A line
    without [=] binds itself to itself, as the arithmetic on [npos] makes it.
    The theorems: a written configuration is read back, later lines overriding
    earlier ones; a successful parse found every key. *)

From S2P Require Import Prelude CFloat Common Text DataReader.
From Stdlib Require Import Ascii String.

Open Scope Z_scope.

Abbreviation IniTable := (gmap string string).

(** The tokens of a line: up to the delimiter, and after it. *)
Definition ini_tokens (line : string) : string * string :=
  let len := String.length line in
  match String.index 0 " = " line with
  | Some i => (substring 0 i line, substring (i + 3) len line)
  | None =>
      match String.index 0 "=" line with
      | Some i => (substring 0 i line, substring (i + 1) len line)
      | None => (line, line)
      end
  end.

(** The loop of [ReadIni] *)
Definition read_table (text : string) : res IniTable :=
  getline_loop (stream_fuel (stream_of text)) newline (stream_of text) EmptyString
    (λ line m, let '(k, v) := ini_tokens line in Ok (<[k := v]> m)) ∅.

Definition Contain (name : string) (m : IniTable) : bool := bool_decide (is_Some (m !! name)).

Definition get_entry (name : string) (m : IniTable) : res string :=
  if Contain name m then Ok (default EmptyString (m !! name)) else Err InvalidArgument.

(** [GetBool]: the first character; on an empty value it is the terminator. *)
Definition GetBool (name : string) (m : IniTable) : res bool :=
  s ← get_entry name m;
  match s with
  | String c _ => Ok (Ascii.eqb c "t" || Ascii.eqb c "T")
  | EmptyString => Ok false
  end.

Definition quote : ascii := ascii_of_nat 34.

Definition GetString (name : string) (m : IniTable) : res string :=
  s ← get_entry name m;
  if no_char quote s then Ok s
  else Ok (substring 1 (if decide (String.length s = 1%nat) then 1 else String.length s - 2) s).

Definition GetFloat (name : string) (m : IniTable) : res dyadic := s ← get_entry name m; stof s.
Definition GetInt (name : string) (m : IniTable) : res Z := s ← get_entry name m; stoi s.
Definition GetUint64 (name : string) (m : IniTable) : res Z := s ← get_entry name m; stoull 0 s.

(** What [ParseIni] sets: the members and the globals (those in [Params], with
    the sizes still to be read, and the others). *)
Record IniConfig := mkIni {
  ini_params : Params;
  ini_gbsize : Z; ini_xbsize : Z; ini_tot_acc : Z;
  SYSTOLIC_DIM : Z; CACHE_REPL_ALGO : Z; DIVISION_TYPE : Z; MECHA_TYPE : Z;
  BLOOM_FILTER_NUM : Z; BF_RATIO : dyadic; BF_OVERLAP : Z; CACHE_WAY_N : Z; MEM_TYPE : string }.

Definition ParseIni (m : IniTable) (P : Params) : res IniConfig :=
  gbsize ← GetUint64 "GlobalBufferSize" m;
  xbsize ← GetUint64 "XBufferSize" m;
  acc ← GetUint64 "TotalNumOfAcc" m;
  dram ← GetInt "TotalNumOfDRAM" m;
  clb ← GetUint64 "CacheLineByte" m;
  clc ← GetUint64 "CacheLineCount" m;
  ub ← udiv clb clc;
  x ← GetUint64 "XStartAddress" m;
  ar ← GetUint64 "ARowStartAddress" m;
  ac ← GetUint64 "AColStartAddress" m;
  w ← GetUint64 "WeightStartAddress" m;
  xw ← GetUint64 "XWResultStartAddress" m;
  axw ← GetUint64 "AXWResultStartAddress" m;
  sd ← GetInt "SystolicDimension" m;
  algo ← GetUint64 "CacheReplacementAlgo" m;
  div ← GetInt "CSRDivisionType" m;
  mech ← GetInt "MechanismType" m;
  uw ← GetInt "UnitWeightReadBlock" m;
  bfn ← GetUint64 "BloomFilterNum" m;
  bfr ← GetFloat "BloomFilterRatio" m;
  bfo ← GetUint64 "BloomFilterOverlap" m;
  way ← GetUint64 "CacheWayN" m;
  mem ← GetString "MemoryType" m;
  Ok {| ini_params := P {{ CACHE_LINE_BYTE := clb; CACHE_LINE_COUNT := clc; UNIT_BYTE := ub;
          X_START := x; A_ROW_START := ar; A_COL_START := ac; WEIGHT_START := w;
          XW_START := xw; AXW_START := axw; MAX_DRAM := dram; UNIT_W_READ := uw }};
        ini_gbsize := gbsize; ini_xbsize := xbsize; ini_tot_acc := acc;
        SYSTOLIC_DIM := sd; CACHE_REPL_ALGO := algo; DIVISION_TYPE := div; MECHA_TYPE := mech;
        BLOOM_FILTER_NUM := bfn; BF_RATIO := bfr; BF_OVERLAP := bfo; CACHE_WAY_N := way;
        MEM_TYPE := mem |}.

(** [IniParser::ReadIni] *)
Definition ReadIni (file : option string) (P : Params) : res IniConfig :=
  match file with
  | None => Err InvalidArgument
  | Some text => m ← read_table text; ParseIni m P
  end.

(** ** Lines *)

Definition ini_text (l : list (string * string)) : string :=
  file_text newline ((λ p, (fst p ++ " = " ++ snd p)%string) <$> l).

Definition ini_bindings (l : list (string * string)) : IniTable :=
  foldl (λ m p, <[fst p := snd p]> m) ∅ l.

Lemma index_delimiter k v :
  no_char "=" k = true → String.index 0 " = " (k ++ " = " ++ v)%string = Some (String.length k).
Proof.
  induction k as [|c k IH]; intros Hk; [by destruct v|]. apply andb_prop in Hk as [Hc Hk].
  change ((String c k ++ " = " ++ v)%string) with (String c (k ++ " = " ++ v)%string).
  cbn [String.index]. rewrite (IH Hk).
  assert (String.prefix " = " (String c (k ++ " = " ++ v)%string) = false) as ->; [|done].
  cbn [String.prefix]. destruct (ascii_dec " " c); [|done]. destruct k as [|d k]; [done|].
  change (String.prefix "= " (String d (k ++ " = " ++ v)%string) = false). cbn [String.prefix].
  destruct (ascii_dec "=" d) as [<-|]; [by cbn in Hk | done].
Qed.

Lemma substring_app n m k r : substring (String.length k + n) m (k ++ r)%string = substring n m r.
Proof. induction k as [|c k IH]; [done|]. exact IH. Qed.

Lemma substring_prefix k r : substring 0 (String.length k) (k ++ r)%string = k.
Proof. induction k as [|c k IH]; simpl; [by destruct r | by rewrite IH]. Qed.

Lemma substring_all m s : (String.length s ≤ m)%nat → substring 0 m s = s.
Proof.
  revert m. induction s as [|c s IH]; intros m Hm; [by destruct m|].
  destruct m as [|m]; simpl in *; [lia|]. rewrite IH; [done | lia].
Qed.

Lemma length_append a b : String.length (a ++ b) = (String.length a + String.length b)%nat.
Proof. induction a as [|c a IH]; simpl; [done|]. by rewrite IH. Qed.

Lemma ini_tokens_line k v :
  no_char "=" k = true → ini_tokens (k ++ " = " ++ v)%string = (k, v).
Proof.
  intros Hk. unfold ini_tokens. rewrite index_delimiter by done. rewrite substring_prefix.
  f_equal. rewrite substring_app. change (substring 3 ?m (" = " ++ v)%string) with (substring 0 m v).
  apply substring_all. rewrite !length_append. cbn. lia.
Qed.

(** ** Properties *)

(** C33: a written configuration is read back.  From a file with a line
    [key = value] for each binding (no [=] in a key, no newline anywhere), the table
    has exactly these bindings, the last one of each key; and parsing depends
    on nothing else of the file. *)
Theorem ini_read_back l P :
  Forall (λ p, no_char "=" (fst p) = true ∧ no_char newline (fst p) = true ∧
    no_char newline (snd p) = true) l →
  read_table (ini_text l) = Ok (ini_bindings l) ∧
  ReadIni (Some (ini_text l)) P = ParseIni (ini_bindings l) P ∧
  (∀ k, Contain k (ini_bindings l) = true ↔ k ∈ fst <$> l) ∧
  (∀ k v l1 l2, l = l1 ++ (k, v) :: l2 → k ∉ fst <$> l2 → ini_bindings l !! k = Some v).
Proof.
  intros Hl.
  assert (read_table (ini_text l) = Ok (ini_bindings l)) as E.
  { unfold read_table, ini_text. rewrite getline_loop_file.
    - unfold ini_bindings. generalize (∅ : IniTable) as m. induction Hl as [|p l Hp Hl IH]; intros m;
        [done|]. cbn [fmap list_fmap for_each foldl]. rewrite ini_tokens_line by apply Hp. apply IH.
    - apply Forall_fmap. eapply Forall_impl; [exact Hl|]. intros [k v] (_ & H1 & H2). cbn in *.
      rewrite !no_char_app, H1, H2. done.
    - unfold stream_fuel, stream_of. cbn [st_rest]. 
      pose proof (file_length newline ((λ p, (fst p ++ " = " ++ snd p)%string) <$> l)). lia. }
  split; [done|]. split; [unfold ReadIni; by rewrite E|].
  assert (∀ m k, is_Some (foldl (λ m p, <[fst p := snd p]> m) m l !! k) ↔
    is_Some ((m : IniTable) !! k) ∨ k ∈ fst <$> l) as Hin.
  { clear. induction l as [|[k v] l IH]; intros m x; cbn [foldl fmap list_fmap fst snd].
    { rewrite elem_of_nil. tauto. }
    rewrite IH, elem_of_cons. destruct (decide (x = k)) as [->|].
    - rewrite lookup_insert_eq. naive_solver.
    - rewrite lookup_insert_ne by done. naive_solver. }
  split.
  - intros k. unfold Contain, ini_bindings. rewrite bool_decide_eq_true, Hin, lookup_empty.
    split; [intros [[? ?]|?]; done | by right].
  - intros k v l1 l2 -> Hk. unfold ini_bindings. rewrite foldl_app. cbn [foldl fst snd].
    generalize (foldl (λ m p, <[fst p := snd p]> m) (∅ : IniTable) l1) as m. clear -Hk. intros m.
    revert m Hk. induction l2 as [|[x y] l2 IH]; intros m Hk; cbn [foldl fst snd].
    { by rewrite lookup_insert_eq. }
    cbn [fmap list_fmap fst] in Hk. rewrite not_elem_of_cons in Hk.
    rewrite insert_insert_ne by naive_solver. apply IH. naive_solver.
Qed.

(** The keys of [ParseIni]. *)
Definition ini_keys : list string :=
  ["GlobalBufferSize"; "XBufferSize"; "TotalNumOfAcc"; "TotalNumOfDRAM"; "CacheLineByte";
   "CacheLineCount"; "XStartAddress"; "ARowStartAddress"; "AColStartAddress";
   "WeightStartAddress"; "XWResultStartAddress"; "AXWResultStartAddress"; "SystolicDimension";
   "CacheReplacementAlgo"; "CSRDivisionType"; "MechanismType"; "UnitWeightReadBlock";
   "BloomFilterNum"; "BloomFilterRatio"; "BloomFilterOverlap"; "CacheWayN"; "MemoryType"]%string.

Lemma get_entry_Ok name m s : get_entry name m = Ok s → is_Some (m !! name).
Proof. unfold get_entry, Contain. by case_bool_decide. Qed.

(** Every key is required.  If any of the 22 keys is missing, parsing fails,
    whatever the other lines hold; so does a zero [CacheLineCount]. *)
Theorem ini_missing_key_rejected m P k :
  k ∈ ini_keys → Contain k m = false → is_Ok (ParseIni m P) = false.
Proof.
  intros Hk Hc. destruct (ParseIni m P) as [c|] eqn:E; [exfalso | done].
  unfold Contain in Hc. apply bool_decide_eq_false in Hc. apply Hc. clear Hc.
  unfold ParseIni, GetUint64, GetInt, GetFloat, GetString in E.
  repeat match type of E with
  | (get_entry _ _ ≫= _) ≫= _ = _ =>
      let s := fresh "s" in let Hs := fresh "Hs" in let y := fresh "y" in let Hy := fresh "Hy" in
      apply bind_Ok_inv in E as (y & Hy & E); apply bind_Ok_inv in Hy as (s & Hs & Hy);
      apply get_entry_Ok in Hs; clear Hy
  | udiv _ _ ≫= _ = _ => apply bind_Ok_inv in E as (? & _ & E)
  end.
  clear E. unfold ini_keys in Hk. rewrite !elem_of_cons, elem_of_nil in Hk.
  repeat (destruct Hk as [->|Hk]; [done|]). done.
Qed.

(** ** Concrete runs *)

Definition ex_bindings : list (string * string) :=
  [("GlobalBufferSize", "1024"); ("CacheLineByte", "64"); ("CacheLineByte", "32")]%string.

Lemma ini_read_back_witness :
  read_table (ini_text ex_bindings) = Ok (ini_bindings ex_bindings) ∧
  ini_bindings ex_bindings !! "CacheLineByte" = Some "32"%string.
Proof.
  destruct (ini_read_back ex_bindings ex_params) as (E & _ & _ & Hl).
  - repeat constructor.
  - split; [exact E|]. eapply (Hl _ _ [_; _] []); [reflexivity|]. by intros ?%elem_of_nil.
Defined.

Lemma ini_missing_key_rejected_witness :
  is_Ok (ParseIni (ini_bindings ex_bindings) ex_params) = false.
Proof.
  apply (ini_missing_key_rejected _ _ "MemoryType").
  - unfold ini_keys. rewrite !elem_of_cons. do 21 right. by left.
  - by vm_compute.
Defined.
