(* ===== verification/Main.v ===== *)
(** * The program (RunSimulator.cpp, [main])

    [main] parses the configuration, reads the data files, creates the memory systems
    behind the DRAM interface, divides the matrix among the units, creates the units and
    runs the main loop.  This file composes the models of those parts in the order of the
    code, from the contents of three files to the end of the loop.  The command line and
    what is printed are left out; so are the global buffers, accelerators and XW readers,
    which the loop does not use, and the estimates of the XW phase, which nothing reads,
    but for the division among them that traps.  The theorem: from well-formed data files,
    whatever the run does in between, a run that ends has completed as many output
    writes as the matrix has output lines, by the log of its cycles, and has lost nothing. *)

From S2P Require Import Prelude CFloat DramCommon DramConfig Stats BankState Timing ChannelState ChannelProps.
From S2P Require Import Refresh CommandQueue ChannelRun Controller ControllerProps ControllerTick Common.
From S2P Require Import DRAMInterface DramSystem VertexReader EdgeReader DataController Text DataReader.
From S2P Require Import Distributer Simulator IniParser.
From Stdlib Require Import Ascii String.

Open Scope Z_scope.

(** The globals before the files are read: zero but for [max_v], read from the
    standard input. *)
Definition start_params (max_v : Z) : Params :=
  mkParams 0 0 0 0 0 0 0 0 0 0 0 0 0 0 0 0 0 0 max_v.

Section Main.
Context {M : Type} `{MemorySystem M}.
(** [dramsim3::GetMemorySystem] on the configuration file of the memory. *)
Variable GetMemorySystem : string → res M.

(** The memory systems of [DRAMInterface::DRAMInterface]; [new] throws on a negative size. *)
Definition new_systems (n : Z) (config_file : string) : res (list M) :=
  if n <? 0 then Err RangeError
  else for_loop (Z.to_nat n) 0 (λ _ l, m ← GetMemorySystem config_file; Ok (l ++ [m])) [].

(** The counters of the XW phase: [tot_req], and the division that traps. *)
Definition xw_counters (P : Params) (xbsize : Z) : res Z :=
  r ← ceil_float_int (u64 (w_h P * w_w P)) (CACHE_LINE_COUNT P);
  _ ← udiv xbsize (u64 (UNIT_BYTE P * x_w P));
  Ok r.

(** [main] up to the loop: the configuration, the parameters of the run, the units.  The
    loop indexes the edge readers, which are created for mechanism 0 only.  [info0] and
    [count0] are the contents of the fresh arrays of the distributer, [vx] and [ex] the
    uninitialised members of the readers. *)
Definition main_setup (ini data1 data2 : option string) (max_v : Z)
    (info0 : list RowInfo) (count0 : list Z) (vx ex : Z → Z)
    : res (IniConfig * Params * Simulator (M := M)) :=
  c ← ReadIni ini (start_params max_v);
  '(P, d) ← ReadData data1 data2 (ini_params c);
  systems ← new_systems (MAX_DRAM P) (MEM_TYPE c);
  '(P, dt) ← new_Distributer P (DIVISION_TYPE c) info0 count0 (ini_tot_acc c) (rd_adjrowindex d) (rd_adjcolindex d);
  if negb (MECHA_TYPE c =? 0) then Err OutOfRange else
  tot ← xw_counters P (ini_xbsize c);
  let counters := mkCtr 0 0 tot (u64 (x_h P * w_fold P)) (rd_tot_axw d) in
  let g := globals_of (new_DRAMInterface systems counters) (rc_vertex (rd_counts d)) (rc_edge (rd_counts d)) in
  s ← new_Simulator P dt vx ex g;
  Ok (c, P, s).

(** [main], for at most [n] cycles of the loop. *)
Definition main (n : nat) (ini data1 data2 : option string) (max_v : Z)
    (info0 : list RowInfo) (count0 : list Z) (vx ex : Z → Z) : res (bool * Simulator (M := M)) :=
  '(c, P, s) ← main_setup ini data1 data2 max_v info0 count0 vx ex;
  sim_loop P n (ini_tot_acc c) s.
End Main.

(** ** The set-up *)

Section Setup.
Context {M : Type} `{MemorySystemSpec M}.

(** The units are created without a request, and the first reader asks for the first
    line of features. *)
Lemma reader_units P dt vx ex (l : list Z) vl el (g : Globals (DRAMInterface (M := M))) r :
  for_each l (λ i '(vl, el, g),
      ro ← vget (a_row_offset dt) i; co ← vget (a_col_offset dt) i;
      cols ← vget (dt_adjcolindex dt) i; ri ← vget (a_row_info dt) i;
      '(v, g) ← new_VertexReader P i ro (vx i) ri g;
      '(e, g) ← new_EdgeReader P i co (vsize cols) (ex i) ri g;
      Ok (vl ++ [v], el ++ [e], g)) (vl, el, g) = Ok r →
  Forall (λ v, vr_req_f_address v = XW_START P) vl →
  Forall (λ v, vr_req_f_address v = XW_START P) r.1.1 ∧ g_dram r.2 = g_dram g.
Proof.
  revert vl el g. induction l as [|i l IH]; intros vl el g E Hv; cbn [for_each] in E; [by injection E as <-|].
  apply bind_Ok_inv in E as ([[vl1 el1] g1] & E1 & E).
  apply bind_Ok_inv in E1 as (ro & _ & E1). apply bind_Ok_inv in E1 as (co & _ & E1).
  apply bind_Ok_inv in E1 as (cols & _ & E1). apply bind_Ok_inv in E1 as (ri & _ & E1).
  apply bind_Ok_inv in E1 as ([v g2] & Ev & E1). apply bind_Ok_inv in E1 as ([e g3] & Ee & E1). injection E1 as <- <- <-.
  unfold new_VertexReader in Ev. inv_res Ev. injection Ev as <- <-.
  unfold new_EdgeReader in Ee. inv_res Ee. injection Ee as <- <-.
  destruct (IH _ _ _ E) as [H1 H2]; [by apply Forall_app_2, Forall_singleton|]. split; [done|]. by rewrite H2; destruct g.
Qed.

Lemma new_simulator_dram P dt vx ex (g : Globals (DRAMInterface (M := M))) s :
  new_Simulator P dt vx ex g = Ok s → g_dram (sim_g s) = DI_DRAMRequest (XW_START P) false (g_dram g).
Proof.
  unfold new_Simulator. cbv zeta. intros E. apply bind_Ok_inv in E as (dcs & _ & E).
  apply bind_Ok_inv in E as ([[vrs ers] g1] & E1 & E). apply reader_units in E1 as [Hv Hg]; [|by apply Forall_nil].
  cbn [fst snd] in Hv, Hg. apply bind_Ok_inv in E as (v0 & E0 & E). destruct (RequestF P v0 g1) as [v1 g2] eqn:ER.
  apply bind_Ok_inv in E as (vrs' & _ & E). injection E as <-. cbn. unfold RequestF in ER. injection ER as _ <-.
  apply vget_lookup in E0 as [_ E0]. pose proof (proj1 (Forall_lookup _ _) Hv _ _ E0) as Ha. cbn in Ha.
  destruct g1. cbn in *. by rewrite Ha, Hg.
Qed.

(** The memory systems are as many as asked for, each as [GetMemorySystem] makes it. *)
Lemma new_systems_ok (Get : string → res M) n config l m :
  new_systems Get n config = Ok l → Get config = Ok m → 0 ≤ n ∧ l = replicate (Z.to_nat n) m.
Proof.
  unfold new_systems. destruct (Z.ltb_spec n 0); [done|]. intros E Hm. split; [done|].
  rewrite Hm in E. assert (∀ k i l0, for_loop k i (λ _ l, Ok (l ++ [m])) l0 = Ok (l0 ++ replicate k m)) as Hl.
  { induction k as [|k IH]; intros i l0; cbn [for_loop replicate]; [by rewrite app_nil_r|].
    cbn [mbind res_bind]. by rewrite IH, <- app_assoc. }
  cbn [mbind res_bind] in E. rewrite Hl in E. by injection E as <-.
Qed.

(** Fresh memory systems make a well-formed interface that holds nothing. *)
Lemma new_interface_ok (P : Params) m c :
  0 < MAX_DRAM P → ms_wf m → pending m = [] →
  let d := new_DRAMInterface (replicate (Z.to_nat (MAX_DRAM P)) m) c in di_wf P d ∧ holds d = [].
Proof.
  intros HM Hm Hp. split.
  - split; cbn; try done; [unfold vsize; rewrite length_replicate; lia|]. by apply Forall_replicate.
  - assert (∀ k, in_dram (new_DRAMInterface (replicate k m) c) = []) as Hk.
    { unfold in_dram. cbn [dram new_DRAMInterface]. induction k as [|k IH]; [done|]. cbn. by rewrite Hp. }
    unfold holds. by rewrite Hk.
Qed.

Lemma request_wf (P : Params) a (d : DRAMInterface (M := M)) : di_wf P d → di_wf P (DI_DRAMRequest a false d).
Proof. by intros [W1 W2 W3 W4 W5]. Qed.

Lemma holds_request a (d : DRAMInterface (M := M)) : holds (DI_DRAMRequest a false d) ≡ₚ (a, false) :: holds d.
Proof.
  unfold holds, DI_DRAMRequest, set_queue, in_dram. cbn. rewrite fmap_app, <- app_assoc. cbn.
  symmetry. apply Permutation_middle.
Qed.

(** The parser leaves [max_v] alone. *)
Lemma parse_max_v tbl (P : Params) c : ParseIni tbl P = Ok c → max_v (ini_params c) = max_v P.
Proof. unfold ParseIni. intros E. inv_res E. injection E as <-. by destruct P. Qed.

Lemma read_max_v ini (P : Params) c : ReadIni ini P = Ok c → max_v (ini_params c) = max_v P.
Proof. destruct ini as [text|]; [|done]. cbn [ReadIni]. intros E. apply bind_Ok_inv in E as (tbl & _ & E). by eapply parse_max_v. Qed.
End Setup.

(** ** Properties *)

(** C1: The program writes its output.  On data files that hold the sizes and a CSR
    matrix, and memories that start empty, the set-up of [main] leaves one request in the
    interface, the first line of features, and a log of every cycle of the run is computed
    from that state.  The logs balance: at any point, the requests issued in them are,
    with that first one, those that the interface holds, the reads taken and the writes
    reported, reads are taken in the order reported and requests wait in the order issued.
    When the run ends, the memories have reported, in those logs, as many output writes
    as there are lines of output, [w] times [ceil(x / count)] for each block of [max_v]
    vertices, modulo 2^64. *)
Theorem main_writes_output {M} `{MemorySystemSpec M} (Get : string → res M) n ini c m mv info0 count0 vx ex
    hs ws xs h w x tr ps tc cs b s :
  ReadIni ini (start_params mv) = Ok c → 0 < CACHE_LINE_COUNT (ini_params c) < 2 ^ 53 → 1 ≤ mv < 2 ^ 64 →
  decimal hs h → decimal ws w → decimal xs x → 0 ≤ h < 2 ^ 31 → 0 < w < 2 ^ 31 → 0 < x < 2 ^ 31 →
  token_line tr (0 :: ps) → token_line tc cs → nondecreasing 0 ps → vsize ps = x →
  let lines := ceil_div x (CACHE_LINE_COUNT (ini_params c)) * w * vsize (chunks (Z.to_nat mv) ps) in
  lines < 2 ^ 53 →
  Get (MEM_TYPE c) = Ok m → ms_wf m → pending m = [] → 0 < MAX_DRAM (ini_params c) →
  main Get n ini (Some (file_text newline [hs; ws; xs])) (Some (file_text newline [join blank tr; join blank tc]))
    mv info0 count0 vx ex = Ok (b, s) →
  ∃ P s0 l,
    main_setup Get ini (Some (file_text newline [hs; ws; xs])) (Some (file_text newline [join blank tr; join blank tc]))
      mv info0 count0 vx ex = Ok (c, P, s0) ∧
    holds (g_dram (sim_g s0)) = [(XW_START (ini_params c), false)] ∧
    sim_logs P n (ini_tot_acc c) s0 = Ok l ∧
    balanced P (g_dram (sim_g s0)) (log_concat l) (g_dram (sim_g s)) ∧
    (b = true → WriteExist (g_dram (sim_g s)) = Ok false ∧
      u64 (axw_writes (ini_params c) (lg_reported (log_concat l))) = lines).
Proof.
  intros Ei HC Hmv Dh Dw Dx Hh Hw Hx Htr Htc Hnd Hlen lines Hlines Eg Hwf Hp HM E.
  unfold main in E. apply bind_Ok_inv in E as ([[c' P] s0] & Eset & E).
  pose proof Eset as E0. unfold main_setup in E0. rewrite Ei in E0. cbn [mbind res_bind] in E0.
  pose proof (read_max_v _ _ _ Ei) as Emv. cbn in Emv.
  rewrite (read_two_files hs ws xs h w x tr ps tc cs (ini_params c)) in E0 by (rewrite ?Emv; done). rewrite Emv in E0.
  cbn [mbind res_bind] in E0. set (P1 := (ini_params c) {{ w_h := h; x_w := h; w_w := w; x_h := x; a_h := x; a_w := x }}) in *.
  apply bind_Ok_inv in E0 as (systems & Es & E0). apply bind_Ok_inv in E0 as ([P2 dt] & Ed & E0).
  destruct (negb _) eqn:Hmech; [done|]. apply bind_Ok_inv in E0 as (tot & _ & E0). cbv zeta in E0.
  apply bind_Ok_inv in E0 as (s1 & E1 & E0). injection E0 as <- <- <-.
  unfold new_Distributer in Ed. apply bind_Ok_inv in Ed as (z & _ & Ed). cbv zeta in Ed.
  apply bind_Ok_inv in Ed as ([[[r cc] ri] nn] & _ & Ed). injection Ed as <- _.
  destruct (new_systems_ok Get _ _ _ _ Es Eg) as [_ ->].
  apply new_simulator_dram in E1.
  set (P2 := P1 {{ w_fold := w_w P1 }}) in *.
  assert (MAX_DRAM P2 = MAX_DRAM (ini_params c) ∧ MAX_DRAM P1 = MAX_DRAM (ini_params c) ∧
    XW_START P2 = XW_START (ini_params c) ∧ AXW_START P2 = AXW_START (ini_params c)) as (F1 & F2 & F3 & F4)
    by (unfold P2, P1; by destruct (ini_params c)).
  rewrite F2, <- F1 in E1. cbn [g_dram globals_of rd_tot_axw] in E1.
  set (counters := mkCtr _ _ _ _ _) in E1. destruct (new_interface_ok P2 m counters) as [W Hh0]; [by rewrite F1|done|done|].
  set (d0 := new_DRAMInterface _ counters) in *.
  assert (di_wf P2 (g_dram (sim_g s1))) as W1 by (rewrite E1; by apply request_wf).
  destruct (loop_ledger P2 ltac:(by rewrite F1) n (ini_tot_acc c) s1 b s W1 E) as (l & El & B & _ & _ & Hb).
  exists P2, s1, l. split; [exact Eset|]. split; [|split; [exact El|split; [exact B|]]].
  - rewrite E1, <- F3. apply Permutation_singleton_r. by rewrite holds_request, Hh0.
  - intros ->. destruct (Hb eq_refl) as (_ & Hw0 & Hc). split; [exact Hw0|]. rewrite E1 in Hc.
    change (tot_axw_count (ctr (DI_DRAMRequest (XW_START P2) false d0))) with lines in Hc.
    assert (∀ e, axw_writes (ini_params c) e = axw_writes P2 e) as -> by (intros e; unfold axw_writes; by rewrite F4).
    rewrite Hc. apply u64_small. pose proof (ceil_div_bounds x (CACHE_LINE_COUNT (ini_params c)) ltac:(lia)).
    pose proof (vsize_nonneg (chunks (Z.to_nat mv) ps)). unfold lines in *.
    assert (0 ≤ ceil_div x (CACHE_LINE_COUNT (ini_params c))) by nia. split; [|lia].
    apply Z.mul_nonneg_nonneg; [apply Z.mul_nonneg_nonneg|]; lia.
Qed.

(** ** A concrete run *)

(** A configuration file, for one unit and one memory. *)
Definition ex_ini : list (string * string) :=
  [("GlobalBufferSize", "4096"); ("XBufferSize", "65536"); ("TotalNumOfAcc", "1"); ("TotalNumOfDRAM", "1");
   ("CacheLineByte", "64"); ("CacheLineCount", "8"); ("XStartAddress", "0"); ("ARowStartAddress", "0x1000000000000000");
   ("AColStartAddress", "0x2000000000000000"); ("WeightStartAddress", "0x3000000000000000");
   ("XWResultStartAddress", "0x4000000000000000"); ("AXWResultStartAddress", "0x5000000000000000");
   ("SystolicDimension", "16"); ("CacheReplacementAlgo", "0"); ("CSRDivisionType", "0"); ("MechanismType", "0");
   ("UnitWeightReadBlock", "1"); ("BloomFilterNum", "4"); ("BloomFilterRatio", "0.5"); ("BloomFilterOverlap", "1");
   ("CacheWayN", "8"); ("MemoryType", "memory.ini")]%string.

Definition ex_config_read : IniConfig :=
  match ReadIni (Some (ini_text ex_ini)) (start_params 2) with
  | Ok c => c | Err _ => mkIni (start_params 0) 0 0 0 0 0 0 0 0 (0, 0) 0 0 EmptyString end.

(** The matrix of four vertices and six edges of the example of the main loop, in
    blocks of two vertices, with [w] folds. *)
Definition ex_main (w : string) (n : nat) : res (bool * Simulator (M := JedecDRAMSystem)) :=
  main (λ _, new_JedecDRAMSystem ex_unified) n (Some (ini_text ex_ini)) (Some (file_text newline ["4"; w; "4"]%string))
    (Some (file_text newline [join blank ["0"; "2"; "3"; "5"; "6"]%string; join blank ["1"; "2"; "0"; "1"; "3"; "2"]%string]))
    2 [mkRowInfo 0 0] [0] (λ _, 0) (λ _, 0).

Lemma ex_main_ends : ∃ s, ex_main "1" 100 = Ok (true, s).
Proof. apply ended_ok. vm_compute. reflexivity. Qed.

Lemma ex_memory_fresh : new_JedecDRAMSystem ex_unified = Ok ex_memory ∧ ms_wf ex_memory ∧ pending ex_memory = [].
Proof.
  split; [apply ok_or; vm_compute; reflexivity|]. destruct ex_interface_wf as [_ _ W _ _].
  apply Forall_cons in W as [W _]. split; [exact W|]. reflexivity.
Qed.

Lemma main_writes_output_witness :
  ∃ P s0 s l, ex_main "1" 100 = Ok (true, s) ∧
    holds (g_dram (sim_g s0)) = [(0x4000000000000000, false)] ∧
    sim_logs P 100 (ini_tot_acc ex_config_read) s0 = Ok l ∧
    balanced P (g_dram (sim_g s0)) (log_concat l) (g_dram (sim_g s)) ∧
    u64 (axw_writes (ini_params ex_config_read) (lg_reported (log_concat l))) = 2.
Proof.
  destruct ex_main_ends as [s E], ex_memory_fresh as (E1 & E2 & E3).
  destruct (main_writes_output (λ _, new_JedecDRAMSystem ex_unified) 100 (Some (ini_text ex_ini)) ex_config_read ex_memory 2
    [mkRowInfo 0 0] [0] (λ _, 0) (λ _, 0) "4" "1" "4" 4 1 4 ["0"; "2"; "3"; "5"; "6"]%string [2; 3; 5; 6]
    ["1"; "2"; "0"; "1"; "3"; "2"]%string [1; 2; 0; 1; 3; 2] true s) as (P & s0 & l & _ & Hh & El & B & Hd).
  1: apply ok_or; vm_compute; reflexivity.
  1, 2: vm_compute; split; congruence.
  1-3: by split.
  1-3: lia.
  1, 2: by apply token_line_ex.
  1: simpl; lia.
  1: reflexivity.
  1: vm_compute; reflexivity.
  1: exact E1.
  1: exact E2.
  1: exact E3.
  1: vm_compute; reflexivity.
  1: exact E.
  exists P, s0, s, l. split; [exact E|]. split; [exact Hh|]. split; [exact El|]. split; [exact B|]. apply (Hd eq_refl).
Defined.

(** With two folds the same run reads the front of an empty queue before its end. *)
Example ex_two_folds : ex_main "2" 200 = Err EmptyQueue.
Proof. vm_compute. reflexivity. Qed.
