(* ===== verification/BasisEdgeReader.v ===== *)
(** * The edge reader of the other mechanism (BasisEdgeReader.h, BasisEdgeReader.cpp)

    It hands over the edges of a row one fold after the other.  The theorem: for a
    row of [n] edges, [n * w_fold] transfers give every edge its [w_fold] folds, in
    order, at the address of that fold, flag the last edge, and consume exactly
    the row. *)

From S2P Require Import Prelude CFloat Common.

Open Scope Z_scope.

Record BasisEdgeReader := mkBER {
  be_pre_w_fold : Z; be_can_receive : bool; be_flag : ReaderFlag;
  be_id : Z; be_q_space : Z; be_pre_w_fold_start : Z; be_offset : Z; be_req_address : Z;
  be_pre_row : Z; be_cur_v : Z; be_prev_v : Z; be_remain_col_num : Z; be_col_num_archive : Z;
  be_req_stat : RCNT; be_row_info : RowInfo; be_eq : list Z; be_ev : list Z }.

Section Reader.
Context {D : Type} `{DramPort D}.
Variable P : Params.

Definition new_BasisEdgeReader (id offset a_col_size : Z) (ri : RowInfo) : res BasisEdgeReader :=
  tot ← ceil_double_int a_col_size (CACHE_LINE_COUNT P);
  Ok {| be_pre_w_fold := 0; be_can_receive := true; be_flag := mkReaderFlag true true;
        be_id := id; be_q_space := 0; be_pre_w_fold_start := 0; be_offset := offset;
        be_req_address := u64 (A_COL_START P + offset);
        be_pre_row := i32 (u64 (row_start ri - 1)); be_cur_v := 0; be_prev_v := 0;
        be_remain_col_num := 0; be_col_num_archive := 0; be_req_stat := mkRCNT tot 0 0;
        be_row_info := ri; be_eq := []; be_ev := [] |}.

Definition be_more_requests (s : BasisEdgeReader) : res ReaderFlag :=
  room ← int_chk (MAX_QUEUE_SIZE - be_q_space s);
  Ok (if (pre_read_cnt (be_req_stat s) <? tot_read_cnt (be_req_stat s))
         && (CACHE_LINE_COUNT P <? u64 room)
      then mkReaderFlag true (q_empty (be_flag s)) else be_flag s).

(** [BasisEdgeReader::TransferData] *)
Definition BE_TransferData (s : BasisEdgeReader) : res (ERData * BasisEdgeReader) :=
  '(ev1, eq1) ←
    (if be_pre_w_fold s =? 0 then
       x ← qfront (be_eq s); q ← qpop (be_eq s); Ok (be_ev s ++ [x], q)
     else Ok (be_ev s, be_eq s));
  col ← vget ev1 (u64 (be_col_num_archive s - be_remain_col_num s));
  let addr := u64 (XW_START P +
                u64 (u64 (u64 (col * w_fold P) + u64 (be_pre_w_fold s)) * CACHE_LINE_BYTE P)) in
  let is_end := be_remain_col_num s =? 1 in
  let ret := mkERData (u64 (be_pre_row s)) col addr (be_pre_w_fold s) (be_pre_w_fold_start s) 0 is_end in
  fl ← be_more_requests s;
  f1 ← int_chk (be_pre_w_fold s + 1);
  let full := u64 f1 =? w_fold P in
  let s1 := s {{ be_ev := ev1; be_eq := eq1; be_flag := fl;
                 be_pre_w_fold := if full then 0 else f1;
                 be_remain_col_num := if full then u64 (be_remain_col_num s - 1)
                                      else be_remain_col_num s }} in
  let s2 :=
    if is_end && full then
      let s1 := s1 {{ be_q_space := i32 (u64 (u64 (be_q_space s) - vsize ev1)); be_ev := [] }} in
      if negb (u64 (be_pre_row s) =? row_end (be_row_info s))
      then s1 {{ be_can_receive := true }}
      else s1 {{ be_flag := mkReaderFlag (req_need (be_flag s1)) true }}
    else s1 in
  Ok (ret,
      if (be_pre_w_fold s2 =? 0) && qempty eq1
      then s2 {{ be_flag := mkReaderFlag (req_need (be_flag s2)) true }} else s2).

Definition BE_IsEndOperation (s : BasisEdgeReader) : bool :=
  pre_read_cnt (be_req_stat s) =? tot_read_cnt (be_req_stat s).
Definition IsEndColomn (s : BasisEdgeReader) : bool :=
  (read_cnt_acm (be_req_stat s) =? tot_read_cnt (be_req_stat s)) && q_empty (be_flag s).
Definition BE_CanVertexReceive (s : BasisEdgeReader) : bool := be_can_receive s.

Definition BE_ReceiveData (data : list Z) (s : BasisEdgeReader) : res BasisEdgeReader :=
  n ← int_chk (read_cnt_acm (be_req_stat s) + 1);
  let st := be_req_stat s in
  Ok (s {{ be_req_stat := mkRCNT (tot_read_cnt st) (pre_read_cnt st) n;
           be_eq := be_eq s ++ data;
           be_flag := mkReaderFlag (req_need (be_flag s)) false }}).

(** [ReceiveData(uint64_t vertex)]; an empty row counts its outputs as written. *)
Definition BE_ReceiveVertex (vertex : Z) (s : BasisEdgeReader) (axw : Z)
    : res (BasisEdgeReader * Z) :=
  let rem := u64 (vertex - be_cur_v s) in
  r ← int_chk (be_pre_row s + 1);
  let s1 := s {{ be_prev_v := be_cur_v s; be_cur_v := vertex; be_remain_col_num := rem;
                 be_col_num_archive := rem; be_pre_row := r; be_can_receive := rem =? 0 }} in
  if rem =? 0 then
    if 2 ^ 31 <=? w_fold P then Err SignedOverflow
    else axw' ← for_loop (Z.to_nat (w_fold P)) 0 (λ _ n, Ok (u64 (n - 1))) axw; Ok (s1, axw')
  else Ok (s1, axw).

Definition BE_Request (s : BasisEdgeReader) (d : D) : res (BasisEdgeReader * D) :=
  let st := be_req_stat s in
  let qs := i32 (u64 (u64 (be_q_space s) + CACHE_LINE_COUNT P)) in
  n ← int_chk (pre_read_cnt st + 1);
  room ← int_chk (MAX_QUEUE_SIZE - qs);
  let stop := (u64 room <? CACHE_LINE_COUNT P) || (n =? tot_read_cnt st) in
  Ok (s {{ be_q_space := qs; be_req_stat := mkRCNT (tot_read_cnt st) n (read_cnt_acm st);
           be_flag := mkReaderFlag (if stop then false else req_need (be_flag s))
                        (q_empty (be_flag s));
           be_req_address := u64 (be_req_address s + CACHE_LINE_BYTE P) }},
      DRAMRequest (be_req_address s) READ_REQ d).

Definition BE_TurnOffFlag (s : BasisEdgeReader) : BasisEdgeReader :=
  s {{ be_flag := mkReaderFlag false (q_empty (be_flag s)) }}.

(** ** A row *)

Fixpoint be_transfers (n : nat) (s : BasisEdgeReader) : res (list ERData * BasisEdgeReader) :=
  match n with
  | O => Ok ([], s)
  | S n' => '(x, s1) ← BE_TransferData s; '(l, s2) ← be_transfers n' s1; Ok (x :: l, s2)
  end.

(** The transfers of fold [f] on of an edge [e] of row [row]. *)
Definition be_edge (row start e : Z) (last_ : bool) (f : Z) (n : nat) : list ERData :=
  (λ i, mkERData row e (u64 (XW_START P + u64 (u64 (u64 (e * w_fold P) + i) * CACHE_LINE_BYTE P)))
          i start 0 last_) <$> seqZ f (Z.of_nat n).

(** The transfers of a row. *)
Fixpoint be_row (row start : Z) (E : list Z) : list ERData :=
  match E with
  | [] => []
  | e :: E' => be_edge row start e (qempty E') 0 (Z.to_nat (w_fold P)) ++ be_row row start E'
  end.

Hypothesis Hfold : 1 ≤ w_fold P < 2 ^ 31.

(** The state in fold [f] of an edge: [sp] is the room taken in the queue. *)
Record be_view (s : BasisEdgeReader) (f : Z) (ev_ q : list Z) (rem arch row start sp : Z) : Prop := {
  bw_f : be_pre_w_fold s = f; bw_ev : be_ev s = ev_; bw_q : be_eq s = q;
  bw_rem : be_remain_col_num s = rem; bw_arch : be_col_num_archive s = arch;
  bw_row : be_pre_row s = row; bw_start : be_pre_w_fold_start s = start;
  bw_space : be_q_space s = sp }.

(** One transfer: fold [f] of edge [e], [dn] being the edges of the row before it. *)
Lemma be_step s f dn e q rem row start sp :
  let arch := rem + vsize dn in
  be_view s f (if f =? 0 then dn else dn ++ [e]) (if f =? 0 then e :: q else q) rem arch row start sp →
  0 ≤ f < w_fold P → 0 < rem → arch ≤ sp < 2 ^ 31 →
  let last_ := rem =? 1 in
  let full := f + 1 =? w_fold P in
  ∃ s', BE_TransferData s =
      Ok (mkERData (u64 row) e (u64 (XW_START P +
            u64 (u64 (u64 (e * w_fold P) + f) * CACHE_LINE_BYTE P))) f start 0 last_, s') ∧
    be_view s' (if full then 0 else f + 1) (if last_ && full then [] else dn ++ [e]) q
      (if full then rem - 1 else rem) arch row start (if last_ && full then sp - arch else sp).
Proof.
  intros arch [Hf Hev Hq Hr Ha Hw Hs Hsp] Hfr Hrem Hsmall last_ full. pose proof (vsize_nonneg dn).
  unfold BE_TransferData. rewrite Hf, Hev, Hq.
  assert ((if f =? 0 then x ← qfront (if f =? 0 then e :: q else q);
             q0 ← qpop (if f =? 0 then e :: q else q); Ok ((if f =? 0 then dn else dn ++ [e]) ++ [x], q0)
           else Ok (if f =? 0 then dn else dn ++ [e], if f =? 0 then e :: q else q))
          = Ok (dn ++ [e], q)) as -> by by destruct (f =? 0).
  rewrite bind_Ok, Ha, Hr. cbv beta iota. unfold arch in *. rewrite Z.add_simpl_l, (u64_small (vsize dn)) by lia.
  assert (vget (dn ++ [e]) (vsize dn) = Ok e) as ->.
  { apply vget_lookup. split; [lia|]. unfold vsize. rewrite Nat2Z.id. by apply list_lookup_middle. }
  rewrite bind_Ok. unfold be_more_requests, MAX_QUEUE_SIZE.
  rewrite Hsp, (int_chk_Ok (1000000 - sp)), !bind_Ok by lia.
  rewrite int_chk_Ok, bind_Ok by lia. rewrite (u64_small (f + 1)), (u64_small f) by lia.
  rewrite Hw, Hs. fold last_ full. rewrite (u64_small (rem - 1)) by lia.
  match goal with |- context [if (?a <? ?b) && ?c then ?x else ?y] =>
    generalize (if (a <? b) && c then x else y) as fl; intros fl end.
  eexists. split; [reflexivity|].
  assert (last_ = true → i32 (u64 (u64 sp - vsize (dn ++ [e]))) = sp - (rem + vsize dn)) as Hi.
  { unfold last_. intros E%Z.eqb_eq. rewrite vsize_app. change (vsize [e]) with 1.
    rewrite (u64_small sp), u64_small, i32_small by lia. lia. }
  destruct last_, full; cbn [andb]; try specialize (Hi eq_refl);
    repeat (match goal with |- context [if ?b then _ else _] => destruct b end);
    destruct s; cbn in *; split; cbn; congruence.
Qed.

(** The folds of an edge from [f] on. *)
Lemma be_edge_folds n s f dn e q rem row start sp :
  let arch := rem + vsize dn in
  be_view s f (if f =? 0 then dn else dn ++ [e]) (if f =? 0 then e :: q else q) rem arch row start sp →
  f + Z.of_nat n = w_fold P → (0 < n)%nat → 0 ≤ f → 0 < rem → arch ≤ sp < 2 ^ 31 →
  let last_ := rem =? 1 in
  ∃ s', be_transfers n s = Ok (be_edge (u64 row) start e last_ f n, s') ∧
    be_view s' 0 (if last_ then [] else dn ++ [e]) q (rem - 1) arch row start
      (if last_ then sp - arch else sp).
Proof.
  intros arch. revert s f. induction n as [|n IH]; intros s f V Hn Hpos Hf Hrem Hsp last_; [lia|].
  destruct (be_step s f dn e q rem row start sp V) as (s1 & E & V1); [lia..|].
  cbn [be_transfers]. rewrite E, bind_Ok. unfold be_edge. rewrite seqZ_cons by lia.
  cbn [fmap list_fmap]. replace (Z.pred (Z.of_nat (S n))) with (Z.of_nat n) by lia.
  change (Z.succ f) with (f + 1). fold last_ in V1. destruct n as [|n].
  - replace (f + 1) with (w_fold P) in V1 by lia. rewrite Z.eqb_refl, andb_true_r in V1.
    exists s1. split; [|exact V1]. done.
  - destruct (Z.eqb_spec (f + 1) (w_fold P)); [lia|]. rewrite andb_false_r in V1.
    destruct (IH s1 (f + 1)) as (s2 & E2 & V2); [|lia..|].
    { destruct (Z.eqb_spec (f + 1) 0); [lia|]. exact V1. }
    exists s2. rewrite E2. split; [done | exact V2].
Qed.

Lemma be_transfers_app n1 n2 s l1 s1 l2 s2 :
  be_transfers n1 s = Ok (l1, s1) → be_transfers n2 s1 = Ok (l2, s2) →
  be_transfers (n1 + n2) s = Ok (l1 ++ l2, s2).
Proof.
  revert s l1. induction n1 as [|n1 IH]; intros s l1 H1 H2; cbn [be_transfers] in H1.
  { by injection H1 as <- <-. }
  apply bind_Ok_inv in H1 as ([x sa] & Ha & H1).
  apply bind_Ok_inv in H1 as ([l sb] & Hb & H1). injection H1 as <- <-.
  cbn [Nat.add be_transfers]. rewrite Ha, bind_Ok. cbv beta iota. by rewrite (IH _ _ Hb H2).
Qed.

Lemma be_edges E s dn q row start sp :
  let arch := vsize E + vsize dn in
  be_view s 0 dn (E ++ q) (vsize E) arch row start sp → E ≠ [] → arch ≤ sp < 2 ^ 31 →
  ∃ s', be_transfers (length E * Z.to_nat (w_fold P)) s = Ok (be_row (u64 row) start E, s') ∧
    be_view s' 0 [] q 0 arch row start (sp - arch).
Proof.
  revert s dn. induction E as [|e E IH]; intros s dn arch V Hne Hsp; [done|]. unfold arch in *.
  rewrite vsize_cons in *. pose proof (vsize_nonneg E). cbn [app] in V.
  destruct (be_edge_folds (Z.to_nat (w_fold P)) s 0 dn e (E ++ q) (vsize E + 1) row start sp V)
    as (s1 & E1 & V1); [lia..|].
  cbn [length Nat.mul be_row]. destruct E as [|e' E].
  - change (vsize []) with 0 in *. cbn in V1. exists s1. rewrite Nat.add_0_r, app_nil_r.
    split; [exact E1 | exact V1].
  - rewrite vsize_cons in *. pose proof (vsize_nonneg E).
    destruct (Z.eqb_spec (vsize E + 1 + 1) 1); [lia|]. rewrite Z.add_simpl_r in V1.
    destruct (IH s1 (dn ++ [e])) as (s2 & E2 & V2); rewrite ?vsize_app; change (vsize [e]) with 1;
      [|done|lia|].
    { replace (vsize E + 1 + (vsize dn + 1)) with (vsize E + 1 + 1 + vsize dn) by lia. exact V1. }
    exists s2. split; [exact (be_transfers_app _ _ _ _ _ _ _ E1 E2)|].
    rewrite vsize_app in V2. change (vsize [e]) with 1 in V2.
    by replace (vsize E + 1 + 1 + vsize dn) with (vsize E + 1 + (vsize dn + 1)) by lia.
Qed.
End Reader.

(** ** Properties *)

(** A row is transferred fold by fold.  After a pointer [n] beyond the last
    one, with the [n] edges of the row at the front of the queue, [n * w_fold]
    transfers give each of these edges in order its folds 0 to [w_fold - 1] at
    the address [XW_START + (edge * w_fold + fold) * CACHE_LINE_BYTE], mark those of
    the last edge only, free the room of the row and leave the rest of the queue. *)
Theorem basis_row_transferred P s axw v E q row start sp :
  1 ≤ w_fold P < 2 ^ 31 → E ≠ [] → vsize E ≤ sp < 2 ^ 31 → 0 ≤ row < 2 ^ 31 - 1 →
  be_view s 0 [] (E ++ q) 0 (be_col_num_archive s) row start sp →
  v - be_cur_v s = vsize E →
  ∃ s1 s2, BE_ReceiveVertex P v s axw = Ok (s1, axw) ∧ be_can_receive s1 = false ∧
    be_transfers P (length E * Z.to_nat (w_fold P)) s1 = Ok (be_row P (u64 (row + 1)) start E, s2) ∧
    be_view s2 0 [] q 0 (vsize E) (row + 1) start (sp - vsize E).
Proof.
  intros Hw Hne Hsp Hrow V Hv. assert (0 < vsize E) as Hpos.
  { destruct E as [|e E]; [done|]. rewrite vsize_cons. pose proof (vsize_nonneg E). lia. }
  unfold BE_ReceiveVertex. rewrite Hv, u64_small by lia.
  destruct V as [Vf Ve Vq Vr Va Vw Vs Vsp]. rewrite Vw, int_chk_Ok, bind_Ok by lia.
  destruct (Z.eqb_spec (vsize E) 0); [lia|].
  match goal with |- context [Ok (?a, axw)] => set (s1 := a) end.
  assert (be_view s1 0 [] (E ++ q) (vsize E) (vsize E) (row + 1) start sp) as V1.
  { unfold s1. destruct s; cbn in *. by split. }
  destruct (be_edges P Hw E s1 [] q (row + 1) start sp) as (s2 & E2 & V2); try done;
    change (vsize []) with 0; rewrite ?Z.add_0_r; try done.
  exists s1, s2. split; [done|]. split; [by unfold s1; destruct s|]. split; [done|].
  change (vsize []) with 0 in V2. by rewrite Z.add_0_r in V2.
Qed.

(** ** A concrete run *)

Definition ex_basis : BasisEdgeReader :=
  {| be_pre_w_fold := 0; be_can_receive := true; be_flag := mkReaderFlag false false;
     be_id := 0; be_q_space := 8; be_pre_w_fold_start := 0; be_offset := 0;
     be_req_address := 2064; be_pre_row := 0; be_cur_v := 0; be_prev_v := 0;
     be_remain_col_num := 0; be_col_num_archive := 0; be_req_stat := mkRCNT 1 1 1;
     be_row_info := mkRowInfo 1 4; be_eq := [3; 1; 2]; be_ev := [] |}.

Lemma basis_row_transferred_witness :
  ∃ s1 s2, BE_ReceiveVertex ex_params 2 ex_basis 10 = Ok (s1, 10) ∧
    be_transfers ex_params 4 s1 = Ok (be_row ex_params 1 0 [3; 1], s2) ∧ be_eq s2 = [2].
Proof.
  destruct (basis_row_transferred ex_params ex_basis 10 2 [3; 1] [2] 0 0 8)
    as (s1 & s2 & E1 & _ & E2 & V).
  - simpl. lia.
  - done.
  - by vm_compute.
  - lia.
  - by split.
  - reflexivity.
  - exists s1, s2. split; [exact E1|]. split; [exact E2|]. apply V.
Defined.
