(* ===== verification/Accelerator.v ===== *)
(** * The accelerator and the XW reader (Accelerator.cpp, XWReader.cpp)

    The accelerator keeps up to [limit] edges in its multiply-accumulate units and
    the others in a queue; the XW reader keeps the edges twice, until they are requested
    and until they are transferred.  The theorems: the accelerator is a queue: edges
    leave in the order they came, a write for the last edge of each row, at
    consecutive addresses; the XW reader serves both sides in arrival order. *)

From S2P Require Import Prelude CFloat Common.

Open Scope Z_scope.

Definition MAC_CYCLE : Z := 1.

Record MAC1Data := mkMAC1 { m1_xr : XRData; m1_pre_cycle : Z }.
Record MAC2Data := mkMAC2 { m2_er : ERData; m2_pre_cycle : Z }.

Record Accelerator := mkAcc {
  isA : bool; acc_id : Z; limit : Z; axw_address : Z; acc_axw_offset : Z; pe : Z; acc_row : Z;
  acc_row_info : RowInfo; x_data : list XRData; a_data : list ERData;
  m1_data : list MAC1Data; m2_data : list MAC2Data }.

Section Acc.
Context {D : Type} `{DramPort D}.
Variable P : Params.

Definition new_Accelerator (id offset pe_ : Z) (ri : RowInfo) : res Accelerator :=
  l ← ceil_float_int pe_ (CACHE_LINE_COUNT P);
  Ok {| isA := false; acc_id := id; limit := l; axw_address := u64 (AXW_START P + offset);
        acc_axw_offset := offset; pe := pe_; acc_row := row_start ri; acc_row_info := ri;
        x_data := []; a_data := []; m1_data := []; m2_data := [] |}.

(** [m1_data.size() < limit]: [limit] is converted to unsigned. *)
Definition CanReceive (s : Accelerator) : bool :=
  if isA s then vsize (m2_data s) <? u64 (limit s) else vsize (m1_data s) <? u64 (limit s).

Definition Acc_ReceiveX (data : XRData) (s : Accelerator) : Accelerator :=
  if CanReceive s then s {{ m1_data := m1_data s ++ [mkMAC1 data 0] }}
  else s {{ x_data := x_data s ++ [data] }}.

Definition Acc_ReceiveA (data : ERData) (s : Accelerator) : Accelerator :=
  if CanReceive s then s {{ m2_data := m2_data s ++ [mkMAC2 data 0] }}
  else s {{ a_data := a_data s ++ [data] }}.

Definition WriteZeroRow (s : Accelerator) (g : Globals D) : res (Accelerator * Globals D) :=
  z ← qpop (zero_row g);
  Ok (s {{ axw_address := u64 (axw_address s + CACHE_LINE_BYTE P) }},
      g {{ zero_row := z; g_dram := DRAMRequest (axw_address s) WRITE_REQ (g_dram g) }}).

(** A turn of the loop of [MAC] at [offset]. *)
Definition mac_turn (st : Z * Accelerator * D) : res (Z * Accelerator * D) :=
  let '(offset, s, d) := st in
  e ← vget (m2_data s) offset;
  c ← int_chk (m2_pre_cycle e + 1);
  if c =? MAC_CYCLE then
    let '(s, d) :=
      if er_is_end (m2_er e)
      then (s {{ axw_address := u64 (axw_address s + CACHE_LINE_BYTE P) }},
            DRAMRequest (axw_address s) WRITE_REQ d)
      else (s, d) in
    m ← verase (m2_data s) offset;
    match a_data s with
    | x :: q => Ok (offset, s {{ m2_data := m ++ [mkMAC2 x 0]; a_data := q }}, d)
    | [] => Ok (offset, s {{ m2_data := m }}, d)
    end
  else
    m ← vset (m2_data s) offset (mkMAC2 (m2_er e) c);
    o ← int_chk (offset + 1); Ok (o, s {{ m2_data := m }}, d).

Definition MAC (s : Accelerator) (d : D) : res (Accelerator * D) :=
  '(_, s', d') ← for_loop (length (m2_data s)) 0 (λ _, mac_turn) (0, s, d);
  Ok (s', d').
End Acc.

(** ** The XW reader *)

Record XWRFlag := mkXWRFlag { xw_q_empty : bool; xw_can_receive : bool }.

Record XWReader := mkXWR {
  xw_flag : XWRFlag; xw_id : Z; xw_a_col_size : Z; xw_tot_req : Z; xw_req_cnt : Z;
  xw_q_space : Z; xwq : list ERData; xwq_archive : list ERData }.

Definition new_XWReader (P : Params) (id a_col_size : Z) : XWReader :=
  {| xw_flag := mkXWRFlag true true; xw_id := id; xw_a_col_size := a_col_size;
     xw_tot_req := u64 (a_col_size * w_fold P); xw_req_cnt := 0; xw_q_space := 0;
     xwq := []; xwq_archive := [] |}.

Definition XW_IsEndOperation (s : XWReader) : bool := xw_req_cnt s =? xw_tot_req s.

Definition XW_TransferData (s : XWReader) : res (ERData * XWReader) :=
  x ← qfront (xwq_archive s);
  q ← qpop (xwq_archive s);
  let s := s {{ xwq_archive := q; xw_q_space := u64 (xw_q_space s - 2) }} in
  Ok (x, if XW_IsEndOperation s then s
         else s {{ xw_flag := mkXWRFlag (xw_q_empty (xw_flag s)) true }}).

Definition XW_Request (s : XWReader) : res (ERData * XWReader) :=
  x ← qfront (xwq s);
  q ← qpop (xwq s);
  let s := s {{ xwq := q; xw_req_cnt := u64 (xw_req_cnt s + 1) }} in
  Ok (x, if qempty q then s {{ xw_flag := mkXWRFlag true (xw_can_receive (xw_flag s)) }} else s).

Definition XW_ReceiveData (data : ERData) (s : XWReader) : XWReader :=
  let qs := u64 (xw_q_space s + 2) in
  s {{ xwq := xwq s ++ [data]; xwq_archive := xwq_archive s ++ [data]; xw_q_space := qs;
       xw_flag := mkXWRFlag false
         (if u64 (MAX_QUEUE_SIZE - qs) <? 2 then false else xw_can_receive (xw_flag s)) }}.

Definition XW_TurnOffFlag (s : XWReader) : XWReader :=
  s {{ xw_flag := mkXWRFlag (xw_q_empty (xw_flag s)) false }}.

(** ** The accelerator as a queue *)

Section Queue.
Context {D : Type} `{DramPort D}.
Variable P : Params.

(** The edges inside, oldest first. *)
Definition acc_queue (s : Accelerator) : list ERData := (m2_er <$> m2_data s) ++ a_data s.

(** Every unit is free or about to finish; edges wait only when all units are busy. *)
Record acc_wf (s : Accelerator) : Prop := {
  aw_isA : isA s = true; aw_limit : 0 < limit s < 2 ^ 31;
  aw_cycles : Forall (λ e, m2_pre_cycle e = 0) (m2_data s);
  aw_size : vsize (m2_data s) ≤ limit s;
  aw_busy : a_data s ≠ [] → vsize (m2_data s) = limit s }.

(** The addresses written for a list of edges, from [a]. *)
Fixpoint row_writes (a : Z) (l : list ERData) : list (Z * bool) :=
  match l with
  | [] => []
  | e :: l' =>
      if er_is_end e then (a, WRITE_REQ) :: row_writes (u64 (a + CACHE_LINE_BYTE P)) l'
      else row_writes a l'
  end.
Fixpoint after_writes (a : Z) (l : list ERData) : Z :=
  match l with
  | [] => a
  | e :: l' => after_writes (if er_is_end e then u64 (a + CACHE_LINE_BYTE P) else a) l'
  end.

(** A turn at offset 0. *)
Lemma mac_turn_front s (d : D) e M :
  m2_data s = mkMAC2 e 0 :: M →
  ∃ s' d', mac_turn P (0, s, d) = Ok (0, s', d') ∧
    m2_data s' = M ++ ((λ x, mkMAC2 x 0) <$> take 1 (a_data s)) ∧
    a_data s' = drop 1 (a_data s) ∧
    axw_address s' = after_writes (axw_address s) [e] ∧
    requests d' = requests d ++ row_writes (axw_address s) [e] ∧
    isA s' = isA s ∧ limit s' = limit s.
Proof.
  intros Hm. unfold mac_turn. rewrite Hm.
  change (vget (mkMAC2 e 0 :: M) 0) with (Ok (mkMAC2 e 0)). rewrite bind_Ok.
  cbn [m2_pre_cycle m2_er]. change (int_chk (0 + 1)) with (Ok (1 : Z)).
  rewrite bind_Ok. change (1 =? MAC_CYCLE) with true. cbv iota.
  assert (verase (mkMAC2 e 0 :: M) 0 = Ok M) as Hv by (unfold verase; by case_match).
  destruct s; cbn in *; subst. destruct (er_is_end e); cbn; rewrite Hv; cbn;
    destruct a_data0; cbn; do 2 eexists; (split; [reflexivity|]); cbn;
    rewrite ?request_queued, ?app_nil_r; done.
Qed.

(** [k] turns at offset 0, on units whose first [k] edges are [L]. *)
Lemma mac_turns L i s (d : D) M :
  m2_data s = ((λ x, mkMAC2 x 0) <$> L) ++ M →
  ∃ s' d', for_loop (length L) i (λ _, mac_turn P) (0, s, d) = Ok (0, s', d') ∧
    m2_data s' = M ++ ((λ x, mkMAC2 x 0) <$> take (length L) (a_data s)) ∧
    a_data s' = drop (length L) (a_data s) ∧
    axw_address s' = after_writes (axw_address s) L ∧
    requests d' = requests d ++ row_writes (axw_address s) L ∧
    isA s' = isA s ∧ limit s' = limit s.
Proof.
  revert i s d M. induction L as [|e L IH]; intros i s d M Hm; cbn [length for_loop].
  { exists s, d. cbn in Hm. rewrite Hm, take_0, drop_0, app_nil_r. cbn. by rewrite app_nil_r. }
  destruct (mac_turn_front s d e _ Hm) as (s1 & d1 & E & E1 & E2 & E3 & E4 & E5 & E6).
  rewrite E, bind_Ok. rewrite <- app_assoc in E1.
  destruct (IH (i + 1) s1 d1 _ E1) as (s2 & d2 & F & F1 & F2 & F3 & F4 & F5 & F6).
  exists s2, d2. split; [exact F|]. rewrite F1, F2, F3, F4, E2, E3, E4, F5, F6, <- !app_assoc.
  split; [|split; [|split; [done|split; [|done]]]].
  - destruct (a_data s) as [|x q]; [rewrite ?drop_nil, ?take_nil; cbn; by rewrite ?app_nil_r | done].
  - destruct (a_data s) as [|x q]; [by rewrite !drop_nil | done].
  - cbn. by destruct (er_is_end e).
Qed.
End Queue.

(** ** Properties *)

(** C32: the accelerator is a queue.  Once [isA] is set, receiving an edge appends
    it to the edges inside; [MAC] removes exactly the edges that are in the units,
    oldest first, writes a line for each of them that ends a row, at consecutive
    addresses in order, and moves up waiting edges; both keep the accelerator well
    formed (edges wait only when every unit is busy), so edges leave in the
    order they came. *)
Theorem accelerator_is_a_queue {D} `{DramPort D} P s (d : D) :
  acc_wf s →
  (∀ e, acc_wf (Acc_ReceiveA e s) ∧ acc_queue (Acc_ReceiveA e s) = acc_queue s ++ [e]) ∧
  ∃ s' d', MAC P s d = Ok (s', d') ∧ acc_wf s' ∧
    acc_queue s = (m2_er <$> m2_data s) ++ acc_queue s' ∧
    requests d' = requests d ++ row_writes P (axw_address s) (m2_er <$> m2_data s) ∧
    axw_address s' = after_writes P (axw_address s) (m2_er <$> m2_data s).
Proof.
  intros [Ha Hl Hc Hs Hb]. pose proof (vsize_nonneg (m2_data s)). split.
  - intros e. unfold Acc_ReceiveA, CanReceive. rewrite Ha, u64_small by lia.
    destruct (Z.ltb_spec (vsize (m2_data s)) (limit s)) as [Hlt|Hge].
    + assert (a_data s = []) as Hn.
      { destruct (a_data s) eqn:E; [done|]. exfalso. specialize (Hb ltac:(done)). lia. }
      split; [|destruct s; cbn in *; subst; unfold acc_queue; cbn; by rewrite fmap_app, !app_nil_r].
      destruct s; cbn in *; subst. split; cbn; try done; rewrite ?vsize_app;
        change (vsize [_]) with 1; try lia. by apply Forall_app_2; [|repeat constructor].
    + split; [|unfold acc_queue; destruct s; cbn; by rewrite app_assoc].
      destruct s; cbn in *; subst. split; cbn; try done. intros _. lia.
  - assert (m2_data s = ((λ x, mkMAC2 x 0) <$> (m2_er <$> m2_data s)) ++ []) as Em.
    { rewrite app_nil_r, <- list_fmap_compose. rewrite <- (list_fmap_id (m2_data s)) at 1.
      apply list_fmap_ext. intros i [x c] Hx. cbn. f_equal.
      rewrite Forall_lookup in Hc. by apply (Hc i (mkMAC2 x c)). }
    destruct (mac_turns P (m2_er <$> m2_data s) 0 s d [] Em)
      as (s' & d' & El & F1 & F2 & F3 & F4 & F5 & F6).
    rewrite length_fmap in *. unfold MAC. rewrite El, bind_Ok. exists s', d'. split; [done|].
    cbn [app] in F1. split; [|split; [|done]].
    + split; [congruence | congruence | | |].
      * rewrite F1. apply Forall_fmap, Forall_true. done.
      * rewrite F1, F6. unfold vsize in *. rewrite length_fmap, length_take. lia.
      * rewrite F1, F2, F6. intros Hd. unfold vsize in *. rewrite length_fmap, length_take.
        assert (length (m2_data s) < length (a_data s))%nat.
        { apply not_ge. intros Hle. apply Hd. by apply drop_ge. }
        rewrite Nat.min_l by lia. apply Hb. intros E. rewrite E in *. simpl in *. lia.
    + unfold acc_queue. rewrite F1, F2. rewrite <- list_fmap_compose. cbn.
      f_equal. rewrite <- (take_drop (length (m2_data s)) (a_data s)) at 1. f_equal.
      rewrite <- (list_fmap_id (take _ _)) at 1. apply list_fmap_ext. done.
Qed.

(** Both sides of the XW reader see the edges in arrival order.  From any state
    whose archive ends with the pending requests, receiving, requesting and
    transferring keep that, append, and return the oldest of their queue; a transfer
    never overtakes unless more is transferred than requested. *)
Theorem xw_reader_orders s :
  (∃ l, xwq_archive s = l ++ xwq s) →
  (∀ e, (∃ l, xwq_archive (XW_ReceiveData e s) = l ++ xwq (XW_ReceiveData e s)) ∧
     xwq (XW_ReceiveData e s) = xwq s ++ [e] ∧
     xwq_archive (XW_ReceiveData e s) = xwq_archive s ++ [e]) ∧
  (∀ e q, xwq s = e :: q → ∃ s', XW_Request s = Ok (e, s') ∧ xwq s' = q ∧
     xwq_archive s' = xwq_archive s ∧ (∃ l, xwq_archive s' = l ++ xwq s') ∧
     xw_q_empty (xw_flag s') = (qempty q || xw_q_empty (xw_flag s))) ∧
  (∀ e q, xwq_archive s = e :: q → ∃ s', XW_TransferData s = Ok (e, s') ∧ xwq_archive s' = q ∧
     xwq s' = xwq s ∧ (xwq_archive s ≠ xwq s → ∃ l, xwq_archive s' = l ++ xwq s')).
Proof.
  intros [l Hl]. split; [|split].
  - intros e. destruct s; cbn in *. subst. split; [|done]. exists l. by rewrite app_assoc.
  - intros e q Hq. unfold XW_Request. rewrite Hq. cbn [qfront qpop]. rewrite !bind_Ok.
    eexists. split; [reflexivity|]. destruct s as [[f1 f2] ? ? ? ? ? ? ?]; cbn in *. subst.
    destruct (qempty q); cbn; (split; [done|]); (split; [done|]); (split; [|done]);
      exists (l ++ [e]); by rewrite <- app_assoc.
  - intros e q Hq. unfold XW_TransferData. rewrite Hq. cbn [qfront qpop]. rewrite !bind_Ok.
    eexists. split; [reflexivity|]. rewrite <- Hq.
    assert (xwq_archive s ≠ xwq s → ∃ l', q = l' ++ xwq s) as Hd.
    { intros Hn. rewrite Hl in Hq, Hn. destruct l as [|x l]; [done|]. injection Hq as -> <-. by exists l. }
    destruct s as [? ? ? ? ? ? ? ?]; cbn in *. case_match; cbn; done.
Qed.

(** ** Concrete runs *)

Definition ex_edge (r : Z) (last_ : bool) : ERData := mkERData r 0 4000 0 0 0 last_.

Definition ex_acc : Accelerator :=
  {| isA := true; acc_id := 0; limit := 1; axw_address := 9000; acc_axw_offset := 0; pe := 8;
     acc_row := 0; acc_row_info := mkRowInfo 0 4; x_data := []; a_data := [ex_edge 2 true];
     m1_data := []; m2_data := [mkMAC2 (ex_edge 1 true) 0] |}.

Lemma accelerator_is_a_queue_witness :
  ∃ s' d', MAC ex_params ex_acc ([] : list (Z * bool)) = Ok (s', d') ∧
    acc_queue s' = [ex_edge 2 true] ∧ d' = [(9000, true)] ∧ axw_address s' = 9064.
Proof.
  destruct (accelerator_is_a_queue ex_params ex_acc ([] : list (Z * bool)))
    as (_ & s' & d' & E & _ & Hq & Hr & Ha).
  - split; cbn; try done. by repeat constructor.
  - exists s', d'. split; [exact E|]. injection Hq as Hq. split; [by rewrite <- Hq|].
    split; [exact Hr | exact Ha].
Defined.

Lemma xw_reader_orders_witness :
  ∃ s', XW_Request (XW_ReceiveData (ex_edge 1 true) (new_XWReader ex_params 0 4)) =
    Ok (ex_edge 1 true, s') ∧ xwq s' = [].
Proof.
  destruct (xw_reader_orders (XW_ReceiveData (ex_edge 1 true) (new_XWReader ex_params 0 4)))
    as (_ & Hr & _).
  - by exists [].
  - destruct (Hr (ex_edge 1 true) []) as (s' & E & Eq & _); [done|]. by exists s'.
Defined.
