(* ===== verification/GlobalBuffer.v ===== *)
(** * The global buffer (GlobalBuffer.h, GlobalBuffer.cpp)

    A set-associative cache of XW lines in front of the DRAM, with the queue of
    the edges that wait for their line ([wq]), the table of requested lines, and one
    of six replacement policies.  The C++ members that point to the policy objects
    are left pointing to locals of the constructor; the operations only use the
    policies' global vectors, which are the state here.  The theorems: at most one
    request is outstanding per line; with LRU the cache and the policy's lists hold
    the same lines, an arriving line evicts exactly the least recently used one,
    and an edge asks for its line when, and only when, it is missing. *)

From S2P Require Import Prelude CFloat Common Text DataReader IniParser Replacement BloomFilter.
From S2P Require Import DRAMInterface.

Open Scope Z_scope.

Definition FIFO_ALGO : Z := 0.
Definition LRU_ALGO : Z := 1.
Definition RRIP_ALGO : Z := 2.
Definition BF_ALGO : Z := 3.
Definition SHiP_ALGO : Z := 4.
Definition MOVING_MED_ALGO : Z := 6.
Definition LIMIT_WQ_SIZE : Z := 32.
(** [MOV_MED_BLOCK_NUM] is never read from the configuration. *)
Definition MOV_MED_BLOCK_NUM : Z := 0.

Record XWFlag := mkXWFlag { w_fill_complete : bool; xwf_can_transfer : bool }.
Record AXWFlag := mkAXWFlag {
  af_can_transfer : bool; af_can_receive : bool; cache_full : bool; af_q_empty : bool }.

(** The data of the policies. *)
Record ReplState := mkRepl {
  r_fifo : FIFO; r_lru : LRU; r_rrip : list (list Z); r_ship : SHiP;
  r_bf : BfCounts; r_bft : BfTables; r_mvm : MvmState }.

Record GlobalBuffer := mkGB {
  gb_id : Z; gbsize : Z; tot_w : Z; xwflag : XWFlag; axwflag : AXWFlag; gb_x_data : XRData;
  setN : Z; wayN : Z; cache : list (list Z); weight_blk_idx : list (list Z);
  set_util : list Z; wq : list ERData; w_map : gmap Z ERData; w_req_table : gmap Z bool;
  repl : ReplState }.

Section Buffer.
Context {D : Type} `{DramPort D}.
Variable P : Params.
Variable C : IniConfig.

(** [(uint64_t)a_w*BF_RATIO] *)
Definition BF_LEN : res Z := u64_of_float (float_mul 24 (float_of_uint 24 (a_w P)) (BF_RATIO C)).

(** The policy part of the constructor; [r0] is what the vectors held. *)
Definition new_repl (way sets : Z) (r0 : ReplState) : res ReplState :=
  let a := CACHE_REPL_ALGO C in
  if a =? FIFO_ALGO then Ok (r0 {{ r_fifo := new_FIFO sets }})
  else if a =? LRU_ALGO then Ok (r0 {{ r_lru := new_LRU sets }})
  else if a =? BF_ALGO then
    l ← BF_LEN;
    '(c, t) ← new_BloomFilter (a_h P) (BLOOM_FILTER_NUM C) l (BF_OVERLAP C);
    Ok (r0 {{ r_lru := new_LRU sets; r_bf := c; r_bft := t }})
  else if a =? RRIP_ALGO then Ok (r0 {{ r_rrip := new_RRIP way sets }})
  else if a =? SHiP_ALGO then Ok (r0 {{ r_ship := new_SHiP way sets }})
  else if a =? MOVING_MED_ALGO then
    m ← new_MovingMedian (a_h P) MOV_MED_BLOCK_NUM;
    Ok (r0 {{ r_lru := new_LRU sets; r_mvm := m }})
  else Ok r0.

(** [GlobalBuffer::GlobalBuffer]; [x0] is the uninitialised [x_data]. *)
Definition new_GlobalBuffer (id size tw : Z) (x0 : XRData) (r0 : ReplState) : res GlobalBuffer :=
  _ ← BF_LEN;
  b ← udiv size (CACHE_LINE_BYTE P);
  let blockN := i32 b in
  s ← udiv (u64 blockN) (CACHE_WAY_N C);
  let sets := i32 s in
  let way := i32 (CACHE_WAY_N C) in
  let row := replicate (Z.to_nat (CACHE_WAY_N C)) (-1) in
  r ← new_repl way sets r0;
  Ok {| gb_id := id; gbsize := size; tot_w := tw; xwflag := mkXWFlag false false;
        axwflag := mkAXWFlag false true false true; gb_x_data := x0; setN := sets; wayN := way;
        cache := replicate (Z.to_nat sets) row; weight_blk_idx := replicate (Z.to_nat sets) row;
        set_util := replicate (Z.to_nat sets) 0; wq := []; w_map := ∅; w_req_table := ∅;
        repl := r |}.

(** [ReceiveData(XRData)], [TransferXData] *)
Definition GB_ReceiveX (data : XRData) (s : GlobalBuffer) : GlobalBuffer :=
  s {{ xwflag := if w_fill_complete (xwflag s) then mkXWFlag true true else xwflag s;
       gb_x_data := data }}.
Definition TransferXData (s : GlobalBuffer) : XRData * GlobalBuffer :=
  (gb_x_data s, s {{ xwflag := mkXWFlag (w_fill_complete (xwflag s)) false }}).

(** The set of a column. *)
Definition set_of (s : GlobalBuffer) (to : Z) : res Z := umod to (u64 (setN s)).

(** The first of the [n] ways from [i] that holds a line with [eqv] and block [blk]. *)
Fixpoint find_way (n : nat) (i : Z) (eqv : Z → bool) (blk : Z) (l w : list Z) : res (option Z) :=
  match n with
  | O => Ok None
  | S n' =>
      x ← vget l i;
      if eqv x then
        y ← vget w i;
        if y =? blk then Ok (Some i) else find_way n' (i + 1) eqv blk l w
      else find_way n' (i + 1) eqv blk l w
  end.

(** Whether a line is in its set: [cache == to] compares an [int] with an
    unsigned. *)
Definition lookup_line (s : GlobalBuffer) (set_ to blk : Z) : res (option Z) :=
  l ← vget (cache s) set_; w ← vget (weight_blk_idx s) set_;
  find_way (Z.to_nat (wayN s)) 0 (λ x, u64 x =? to) blk l w.

Fixpoint find_free (n : nat) (i : Z) (l : list Z) : res (option Z) :=
  match n with
  | O => Ok None
  | S n' => x ← vget l i; if x =? -1 then Ok (Some i) else find_free n' (i + 1) l
  end.

(** [Request] *)
Definition GB_Request (data : ERData) (s : GlobalBuffer) (d : D) : GlobalBuffer * D :=
  (s {{ w_map := <[address data := data]> (w_map s);
        w_req_table := <[address data := true]> (w_req_table s) }},
   DRAMRequestId (address data) READ_REQ (gb_id s) d).

Definition requested (a : Z) (s : GlobalBuffer) : bool := default false (w_req_table s !! a).

(** The policy on a hit in way [i]. *)
Definition repl_hit (set_ i to blk addr : Z) (r : ReplState) : res ReplState :=
  let a := CACHE_REPL_ALGO C in
  if (a =? LRU_ALGO) || (((a =? BF_ALGO) || (a =? MOVING_MED_ALGO)) && (blk =? 0)) then
    l ← LRU_access set_ (i32 to) blk (r_lru r); Ok (r {{ r_lru := l }})
  else if a =? BF_ALGO then Ok r
  else if a =? RRIP_ALGO then v ← RRIP_access set_ i (r_rrip r); Ok (r {{ r_rrip := v }})
  else if a =? SHiP_ALGO then v ← SHiP_access set_ i addr (r_ship r); Ok (r {{ r_ship := v }})
  else Ok r.

(** The first-cycle scan of BloomFilter and MovingMedian. *)
Definition repl_scan (from to blk : Z) (r : ReplState) : res ReplState :=
  let a := CACHE_REPL_ALGO C in
  r ← (if (a =? BF_ALGO) && (blk =? 0) then
         l ← BF_LEN; c ← BloomFilter_firstCycleAccess l (r_bft r) from to (r_bf r);
         Ok (r {{ r_bf := c }})
       else Ok r);
  if (a =? MOVING_MED_ALGO) && (blk =? 0) then
    m ← MovingMedian_firstCycleAccess MOV_MED_BLOCK_NUM from to (r_mvm r); Ok (r {{ r_mvm := m }})
  else Ok r.

(** [ReceiveData(ERData)] *)
Definition GB_ReceiveEdge (data : ERData) (s : GlobalBuffer) (d : D) : res (GlobalBuffer * D) :=
  let from := rowindex data in
  let to := colindex data in
  let blk := er_pre_w_fold data in
  let q := wq s ++ [data] in
  let fl := axwflag s in
  let can := if vsize q =? LIMIT_WQ_SIZE then false else af_can_receive fl in
  let s := s {{ wq := q; axwflag := mkAXWFlag (af_can_transfer fl) can (cache_full fl) false }} in
  r ← repl_scan from to blk (repl s);
  set_ ← set_of s to;
  u ← vmod (set_util s) set_ (λ n, Ok (u64 (n + 1)));
  let s := s {{ repl := r; set_util := u }} in
  w ← lookup_line s set_ to blk;
  match w with
  | Some i =>
      r ← repl_hit (i32 set_) i to blk (address data) (repl s);
      Ok (s {{ repl := r;
               axwflag := mkAXWFlag true (af_can_receive (axwflag s)) (cache_full (axwflag s))
                            (af_q_empty (axwflag s)) }}, d)
  | None => if requested (address data) s then Ok (s, d) else Ok (GB_Request data s d)
  end.

(** [cache[set][i] = to; weight_blk_idx[set][i] = blk] *)
Definition put_line (set_ i to blk : Z) (s : GlobalBuffer) : res GlobalBuffer :=
  c ← vmod (cache s) set_ (λ l, vset l i (i32 to));
  w ← vmod (weight_blk_idx s) set_ (λ l, vset l i blk);
  Ok (s {{ cache := c; weight_blk_idx := w }}).

(** The policy on a line put in a free way. *)
Definition repl_fill (set_ to blk : Z) (r : ReplState) : res ReplState :=
  let a := CACHE_REPL_ALGO C in
  if a =? FIFO_ALGO then f ← FIFO_access set_ (i32 to) blk (r_fifo r); Ok (r {{ r_fifo := f }})
  else if (a =? LRU_ALGO) || (((a =? BF_ALGO) || (a =? MOVING_MED_ALGO)) && (blk =? 0)) then
    l ← LRU_access set_ (i32 to) blk (r_lru r); Ok (r {{ r_lru := l }})
  else Ok r.

(** Putting the line in the way of the victim [(v, b)], if it is there; [touch] is
    the policy's access. *)
Definition evict (set_ to blk v b : Z) (touch : ReplState → res ReplState) (s : GlobalBuffer)
    : res GlobalBuffer :=
  l ← vget (cache s) set_; w ← vget (weight_blk_idx s) set_;
  i ← find_way (Z.to_nat (wayN s)) 0 (λ x, x =? v) b l w;
  match i with
  | Some i => s1 ← put_line set_ i to blk s; r ← touch (repl s1); Ok (s1 {{ repl := r }})
  | None => Ok s
  end.

(** The full set: each policy chooses its victim. *)
Definition replace_line (set_ from to blk : Z) (s : GlobalBuffer) : res GlobalBuffer :=
  let a := CACHE_REPL_ALGO C in
  let r := repl s in
  if a =? FIFO_ALGO then
    '((v, b), f) ← FIFO_replace (i32 set_) (r_fifo r);
    evict set_ to blk v b (λ r, f ← FIFO_access (i32 set_) (i32 to) blk (r_fifo r); Ok (r {{ r_fifo := f }}))
      (s {{ repl := r {{ r_fifo := f }} }})
  else if (a =? LRU_ALGO) || (((a =? BF_ALGO) || (a =? MOVING_MED_ALGO)) && (blk =? 0)) then
    '((v, b), l) ← LRU_replace (i32 set_) (r_lru r);
    evict set_ to blk v b (λ r, l ← LRU_access (i32 set_) (i32 to) blk (r_lru r); Ok (r {{ r_lru := l }}))
      (s {{ repl := r {{ r_lru := l }} }})
  else if a =? BF_ALGO then
    useOvl ← vget (useOvlBF (r_bft r)) from;
    whichBF ← vget (bfIdx (r_bft r)) (i32 from);
    whichOlBF ← vget (ovlBFIdx (r_bft r)) (i32 from);
    len ← BF_LEN;
    l ← vget (cache s) set_; w ← vget (weight_blk_idx s) set_;
    let ovl := negb (BF_OVERLAP C =? 0) && (useOvl : bool) in
    '(v, b) ← BloomFilter_replace len (r_bf r) (if ovl then whichOlBF else whichBF) ovl l w;
    evict set_ to blk v b Ok s
  else if a =? MOVING_MED_ALGO then
    l ← vget (cache s) set_; w ← vget (weight_blk_idx s) set_;
    '(v, b) ← MovingMedian_replace (r_mvm r) (i32 from) l w;
    evict set_ to blk v b Ok s
  else Ok s.

Definition no_edge : ERData := mkERData 0 0 0 0 0 0 false.

(** [ReceiveData(uint64_t address)]: [w_map[address]] creates a missing entry. *)
Definition GB_ReceiveLine (addr : Z) (s : GlobalBuffer) : res GlobalBuffer :=
  let data := default no_edge (w_map s !! addr) in
  let s := s {{ w_map := <[addr := data]> (w_map s) }} in
  let from := rowindex data in
  let to := colindex data in
  let blk := er_pre_w_fold data in
  set_ ← set_of s to;
  s ←
    (if CACHE_REPL_ALGO C =? RRIP_ALGO then
       '((_, way), v) ← RRIP_replace (i32 set_) (r_rrip (repl s));
       put_line set_ way to blk (s {{ repl := (repl s) {{ r_rrip := v }} }})
     else if CACHE_REPL_ALGO C =? SHiP_ALGO then
       '((_, way), v) ← SHiP_replace (i32 set_) addr (r_ship (repl s));
       put_line set_ way to blk (s {{ repl := (repl s) {{ r_ship := v }} }})
     else
       l ← vget (cache s) set_;
       free ← find_free (Z.to_nat (wayN s)) 0 l;
       match free with
       | Some i =>
           s1 ← put_line set_ i to blk s;
           r ← repl_fill (i32 set_) to blk (repl s1); Ok (s1 {{ repl := r }})
       | None => replace_line set_ from to blk s
       end);
  let s := s {{ w_req_table := <[addr := false]> (w_req_table s) }} in
  f ← qfront (wq s);
  let fl := axwflag s in
  Ok (if addr =? address f
      then s {{ axwflag := mkAXWFlag true (af_can_receive fl) (cache_full fl) (af_q_empty fl) }}
      else s).

(** [CanTransfer] *)
Definition GB_CanTransfer (s : GlobalBuffer) (d : D) : res (GlobalBuffer * D) :=
  let fl := axwflag s in
  let set_can b (s : GlobalBuffer) :=
    s {{ axwflag := mkAXWFlag b (af_can_receive fl) (cache_full fl) (af_q_empty fl) }} in
  if af_q_empty fl then Ok (set_can false s, d)
  else
    data ← qfront (wq s);
    set_ ← set_of s (colindex data);
    w ← lookup_line s set_ (colindex data) (er_pre_w_fold data);
    match w with
    | Some _ => Ok (set_can true s, d)
    | None =>
        let '(s, d) :=
          if requested (address data) s then (s, d) else GB_Request data s d in
        Ok (set_can false s, d)
    end.

(** [TransferAData] *)
Definition TransferAData (s : GlobalBuffer) : res (ERData * GlobalBuffer) :=
  x ← qfront (wq s);
  q ← qpop (wq s);
  let fl := axwflag s in
  Ok (x, s {{ wq := q; axwflag := mkAXWFlag (af_can_transfer fl) true (cache_full fl)
                (if vsize q =? 0 then true else af_q_empty fl) }}).
End Buffer.

(** [FillWeight], on the concrete interface: [fuel] bounds the wait for [tot_req]. *)
Section Fill.
Context {M : Type} `{MemorySystem M}.
Variable P : Params.

Definition fill_turn (st : DRAMInterface (M := M) * Z) : res (DRAMInterface (M := M) * Z) :=
  d ← DI_AddTransaction P (fst st); d ← UpdateCycle P d; Ok (d, u64 (snd st + 1)).

Fixpoint fill_wait (fuel : nat) (st : DRAMInterface (M := M) * Z)
    : res (DRAMInterface (M := M) * Z) :=
  if tot_req (ctr (fst st)) =? 0 then Ok st
  else match fuel with O => Err OutOfFuel | S f => st' ← fill_turn st; fill_wait f st' end.

Definition FillWeight (fuel : nat) (s : GlobalBuffer) (d : DRAMInterface (M := M)) (cycle : Z)
    : res (GlobalBuffer * DRAMInterface (M := M) * Z) :=
  n ← ceil_float_int (tot_w s) (CACHE_LINE_COUNT P);
  let c := ctr d in
  let d := mkDI (dram d) (dram_idx d) (cmp_idx d) (f_read_complete d) (w_read_complete d)
    (f_address d) (w_address d) (t_queue d) (info d)
    (mkCtr (a_util c) (w_util c) n (tot_xw_count c) (tot_axw_count c)) in
  '(d, cycle) ← for_loop (Z.to_nat n) 0 (λ i st,
      fill_turn (DI_DRAMRequest (u64 (WEIGHT_START P + i * CACHE_LINE_BYTE P)) READ_REQ (fst st),
                 snd st)) (d, cycle);
  '(d, cycle) ← fill_wait fuel (d, cycle);
  d ← for_loop (Z.to_nat (MAX_DRAM P)) 0 (λ _ d,
        if WReadComplete d then '(_, d') ← GetReadData true d; Ok d' else Ok d) d;
  Ok (s {{ xwflag := mkXWFlag true (xwf_can_transfer (xwflag s)) }}, d, cycle).
End Fill.

(** ** Requests *)

Section Requests.
Context {D : Type} `{DramPort D}.
Variable P : Params.
Variable C : IniConfig.

(** One call of the buffer; [got] is the lines that arrived.  A line arrives only
    if it was requested. *)
Inductive gb_step : GlobalBuffer * D → list Z → GlobalBuffer * D → Prop :=
  | step_edge data s d s' d' : GB_ReceiveEdge P C data s d = Ok (s', d') → gb_step (s, d) [] (s', d')
  | step_can s d s' d' : GB_CanTransfer s d = Ok (s', d') → gb_step (s, d) [] (s', d')
  | step_transfer s d x s' : TransferAData s = Ok (x, s') → gb_step (s, d) [] (s', d)
  | step_line a s d s' :
      requested a s = true → GB_ReceiveLine P C a s = Ok s' → gb_step (s, d) [a] (s', d).

Inductive gb_run (st : GlobalBuffer * D) : list Z → GlobalBuffer * D → Prop :=
  | run_nil : gb_run st [] st
  | run_snoc got st1 g st2 : gb_run st got st1 → gb_step st1 g st2 → gb_run st (got ++ g) st2.

Definition outstanding (a : Z) (s : GlobalBuffer) : nat := if requested a s then 1 else 0.

(** Reads issued and pending, against a first list. *)
Definition reads (a : Z) (d : D) : nat := mult (requests d) (a, READ_REQ).

Lemma requested_insert a b v s s' :
  w_req_table s' = <[a := v]> (w_req_table s) →
  requested b s' = if decide (b = a) then v else requested b s.
Proof.
  unfold requested. intros ->. case_decide as E; [subst; by rewrite lookup_insert_eq|].
  by rewrite lookup_insert_ne.
Qed.

(** What a step that may request does to a line's books. *)
Definition keeps_books (s : GlobalBuffer) (d : D) (s' : GlobalBuffer) (d' : D) : Prop :=
  ∀ a, (reads a d' + outstanding a s = reads a d + outstanding a s')%nat.

Lemma same_books s d s' : w_req_table s' = w_req_table s → keeps_books s d s' d.
Proof. intros E a. unfold outstanding, requested. by rewrite E. Qed.

Lemma request_books data s d :
  requested (address data) s = false →
  keeps_books s d (fst (GB_Request data s d)) (snd (GB_Request data s d)).
Proof.
  intros Hr a. unfold reads, outstanding.
  rewrite (requested_insert (address data) a true s (fst (GB_Request data s d))) by by destruct s.
  unfold GB_Request. cbn [fst snd]. rewrite request_id_queued, mult_app, mult_single.
  destruct (decide (a = address data)) as [->|Hne].
  - rewrite Hr, decide_True by done. lia.
  - rewrite decide_False by congruence. lia.
Qed.

Lemma edge_books data s d s' d' :
  GB_ReceiveEdge P C data s d = Ok (s', d') → keeps_books s d s' d'.
Proof.
  unfold GB_ReceiveEdge. intros E. apply bind_Ok_inv in E as (r & _ & E).
  apply bind_Ok_inv in E as (k & _ & E). apply bind_Ok_inv in E as (u & _ & E).
  apply bind_Ok_inv in E as (w & _ & E). destruct w as [i|].
  - apply bind_Ok_inv in E as (r' & _ & E). injection E as <- <-. apply same_books. by destruct s.
  - match type of E with context [requested ?a ?s1] =>
      assert (w_req_table s1 = w_req_table s) as Es by (by destruct s); revert E Es;
      generalize s1; intros s2 E Es end.
    destruct (requested (address data) s2) eqn:Hr.
    + injection E as <- <-. by apply same_books.
    + pose proof (request_books data s2 d Hr) as Hb. injection E as <- <-.
      intros a. specialize (Hb a). unfold outstanding, requested in *. by rewrite <- Es.
Qed.

Lemma can_books s d s' d' : GB_CanTransfer s d = Ok (s', d') → keeps_books s d s' d'.
Proof.
  unfold GB_CanTransfer. intros E. destruct (af_q_empty (axwflag s)).
  { injection E as <- <-. apply same_books. by destruct s. }
  apply bind_Ok_inv in E as (data & _ & E). apply bind_Ok_inv in E as (k & _ & E).
  apply bind_Ok_inv in E as (w & _ & E). destruct w as [i|].
  { injection E as <- <-. apply same_books. by destruct s. }
  destruct (requested (address data) s) eqn:Hr.
  - injection E as <- <-. apply same_books. by destruct s.
  - pose proof (request_books data s d Hr) as Hb. injection E as <- <-. intros a. specialize (Hb a).
    unfold GB_Request in *. cbn [fst snd] in Hb. by destruct s.
Qed.

Lemma put_line_table set_ i to blk s s' :
  put_line set_ i to blk s = Ok s' → w_req_table s' = w_req_table s ∧ wq s' = wq s.
Proof.
  unfold put_line. intros E. apply bind_Ok_inv in E as (c & _ & E).
  apply bind_Ok_inv in E as (w & _ & E). injection E as <-. by destruct s.
Qed.

Lemma evict_table set_ to blk v b touch s s' :
  evict set_ to blk v b touch s = Ok s' → w_req_table s' = w_req_table s.
Proof.
  unfold evict. intros E. apply bind_Ok_inv in E as (l & _ & E). apply bind_Ok_inv in E as (w & _ & E).
  apply bind_Ok_inv in E as (o & _ & E). destruct o as [i|]; [|by injection E as <-].
  apply bind_Ok_inv in E as (s1 & Hp & E). apply put_line_table in Hp as [Hp _].
  apply bind_Ok_inv in E as (r & _ & E). injection E as <-. by destruct s1.
Qed.

Lemma replace_line_table set_ from to blk s s' :
  replace_line P C set_ from to blk s = Ok s' → w_req_table s' = w_req_table s.
Proof.
  unfold replace_line. intros E. destruct (CACHE_REPL_ALGO C =? FIFO_ALGO).
  { apply bind_Ok_inv in E as ([[v b] f] & _ & E). apply evict_table in E. rewrite E. by destruct s. }
  destruct (_ || _).
  { apply bind_Ok_inv in E as ([[v b] f] & _ & E). apply evict_table in E. rewrite E. by destruct s. }
  destruct (CACHE_REPL_ALGO C =? BF_ALGO).
  - apply bind_Ok_inv in E as (u & _ & E). apply bind_Ok_inv in E as (w & _ & E).
    apply bind_Ok_inv in E as (o & _ & E). apply bind_Ok_inv in E as (n & _ & E).
    apply bind_Ok_inv in E as (l & _ & E). apply bind_Ok_inv in E as (ws & _ & E).
    apply bind_Ok_inv in E as ([v b] & _ & E). by apply evict_table in E.
  - destruct (CACHE_REPL_ALGO C =? MOVING_MED_ALGO); [|by injection E as <-].
    apply bind_Ok_inv in E as (l & _ & E). apply bind_Ok_inv in E as (ws & _ & E).
    apply bind_Ok_inv in E as ([v b] & _ & E). by apply evict_table in E.
Qed.

Lemma line_table a s s' :
  GB_ReceiveLine P C a s = Ok s' → w_req_table s' = <[a := false]> (w_req_table s).
Proof.
  unfold GB_ReceiveLine. intros E. apply bind_Ok_inv in E as (k & _ & E).
  apply bind_Ok_inv in E as (s1 & Hs & E). apply bind_Ok_inv in E as (f & _ & E).
  assert (w_req_table s1 = w_req_table s) as Ht.
  { destruct (CACHE_REPL_ALGO C =? RRIP_ALGO).
    { apply bind_Ok_inv in Hs as ([[? ?] ?] & _ & Hs). apply put_line_table in Hs as [-> _]. by destruct s. }
    destruct (CACHE_REPL_ALGO C =? SHiP_ALGO).
    { apply bind_Ok_inv in Hs as ([[? ?] ?] & _ & Hs). apply put_line_table in Hs as [-> _]. by destruct s. }
    apply bind_Ok_inv in Hs as (l & _ & Hs). apply bind_Ok_inv in Hs as (o & _ & Hs).
    destruct o as [i|].
    - apply bind_Ok_inv in Hs as (s2 & Hp & Hs). apply put_line_table in Hp as [Hp _].
      apply bind_Ok_inv in Hs as (r & _ & Hs). injection Hs as <-. destruct s2; cbn in *.
      rewrite Hp. by destruct s.
    - apply replace_line_table in Hs. rewrite Hs. destruct s. reflexivity. }
  rewrite <- Ht. injection E as <-. destruct (a =? address f); by destruct s1.
Qed.
End Requests.

(** ** LRU and the cache *)

Section Lru.
Variable P : Params.
Variable C : IniConfig.
Hypothesis Halgo : CACHE_REPL_ALGO C = LRU_ALGO.

(** The lines of a row of the cache. *)
Definition row_lines (l w : list Z) : list (Z * Z) := filter (λ p, p.1 ≠ -1) (zip l w).
Definition gb_lines (s : GlobalBuffer) (k : Z) : list (Z * Z) :=
  match vget (cache s) k, vget (weight_blk_idx s) k with
  | Ok l, Ok w => row_lines l w
  | _, _ => []
  end.
Definition lru_of (s : GlobalBuffer) : LRU := r_lru (repl s).
Definition with_lru (l : LRU) (s : GlobalBuffer) : GlobalBuffer :=
  s {{ repl := (repl s) {{ r_lru := l }} }}.

(** The geometry of the cache, and that cache and LRU hold the same lines, each once. *)
Record gb_shape (s : GlobalBuffer) : Prop := {
  gw_set : 0 < setN s < 2 ^ 31; gw_way : 0 < wayN s < 2 ^ 31;
  gw_cache : vsize (cache s) = setN s; gw_weight : vsize (weight_blk_idx s) = setN s;
  gw_util : vsize (set_util s) = setN s;
  gw_rows : ∀ k l w, vget (cache s) k = Ok l → vget (weight_blk_idx s) k = Ok w →
    vsize l = wayN s ∧ vsize w = wayN s ∧ Forall (λ x, -1 ≤ x < 2 ^ 31) l }.

Record gb_wf (s : GlobalBuffer) : Prop := {
  gw_shape : gb_shape s; gw_lru : lru_wf (lru_of s); gw_lists : vsize (lruList (lru_of s)) = setN s;
  gw_same : ∀ k, gb_lines s k ≡ₚ lru_lines (lru_of s) k }.

Lemma find_way_spec n i eqv blk l w :
  0 ≤ i → i + Z.of_nat n = vsize l → vsize w = vsize l →
  ∃ o, find_way n i eqv blk l w = Ok o ∧
    match o with
    | Some j => i ≤ j < vsize l ∧ ∃ x, vget l j = Ok x ∧ eqv x = true ∧ vget w j = Ok blk
    | None => ∀ j x, i ≤ j → vget l j = Ok x → eqv x = true → vget w j ≠ Ok blk
    end.
Proof.
  revert i. induction n as [|n IH]; intros i Hi Hn Hw; cbn [find_way].
  { exists None. split; [done|]. intros j x Hj Hx. apply vget_range in Hx. lia. }
  destruct (vget_is_Ok l i) as [x Hx]; [lia|]. destruct (vget_is_Ok w i) as [y Hy]; [lia|].
  rewrite Hx, bind_Ok, Hy.
  destruct (IH (i + 1)) as (o & E & Ho); [lia..|].
  destruct (eqv x) eqn:Ex; [rewrite bind_Ok; destruct (Z.eqb_spec y blk) as [->|Hne]|].
  - exists (Some i). split; [done|]. split; [lia|]. eauto.
  - exists o. split; [done|]. destruct o as [j|].
    + destruct Ho as [? ?]. split; [lia | done].
    + intros j x' Hj Hx' Ex'. destruct (decide (j = i)) as [->|]; [congruence|].
      apply (Ho j x'); [lia | done..].
  - exists o. split; [done|]. destruct o as [j|].
    + destruct Ho as [? ?]. split; [lia | done].
    + intros j x' Hj Hx' Ex'. destruct (decide (j = i)) as [->|]; [congruence|].
      apply (Ho j x'); [lia | done..].
Qed.

Lemma find_free_spec n i l :
  0 ≤ i → i + Z.of_nat n = vsize l →
  ∃ o, find_free n i l = Ok o ∧
    match o with
    | Some j => i ≤ j < vsize l ∧ vget l j = Ok (-1)
    | None => ∀ j, i ≤ j → vget l j ≠ Ok (-1)
    end.
Proof.
  revert i. induction n as [|n IH]; intros i Hi Hn; cbn [find_free].
  { exists None. split; [done|]. intros j Hj Hx. apply vget_range in Hx. lia. }
  destruct (vget_is_Ok l i) as [x Hx]; [lia|]. rewrite Hx, bind_Ok.
  destruct (IH (i + 1)) as (o & E & Ho); [lia..|].
  destruct (Z.eqb_spec x (-1)) as [->|Hne]; [exists (Some i); split; [done|]; split; [lia | done]|].
  exists o. split; [done|]. destruct o as [j|]; [destruct Ho; split; [lia | done]|].
  intros j Hj Hj'. destruct (decide (j = i)) as [->|]; [congruence|]. apply (Ho j); [lia | done].
Qed.

Lemma zip_lookup (l w : list Z) i x y :
  vget l i = Ok x → vget w i = Ok y → zip l w !! Z.to_nat i = Some (x, y).
Proof.
  intros [_ Hx]%vget_lookup [_ Hy]%vget_lookup. by apply lookup_zip_Some.
Qed.

(** Putting a line over another entry. *)
Lemma row_lines_put l w i x0 y0 x y :
  vget l i = Ok x0 → vget w i = Ok y0 → x ≠ -1 →
  row_lines (<[Z.to_nat i := x]> l) (<[Z.to_nat i := y]> w) ++
    (if decide (x0 = -1) then [] else [(x0, y0)]) ≡ₚ row_lines l w ++ [(x, y)].
Proof.
  intros Hx Hy Hne. unfold row_lines.
  rewrite <- insert_zip_with.
  set (f := λ p : Z * Z, filter (λ p : Z * Z, p.1 ≠ -1) [p]).
  assert (∀ z : list (Z * Z), filter (λ p, p.1 ≠ -1) z = concat (f <$> z)) as Hf.
  { intros z. induction z as [|p z IH]; [done|]. cbn [fmap list_fmap concat]. rewrite <- IH.
    unfold f. by rewrite <- filter_app. }
  rewrite !Hf. apply (concat_insert_perm f _ _ (x0, y0)); [by apply zip_lookup|].
  unfold f. rewrite !filter_cons, !filter_nil. cbn [fst]. rewrite (decide_True _ _ Hne).
  destruct (decide (x0 = -1)) as [->|N].
  - rewrite decide_False by (intros E; by apply E). done.
  - rewrite decide_True by done. apply Permutation_app_comm.
Qed.

Lemma row_lines_elem l w p :
  p ∈ row_lines l w ↔ p.1 ≠ -1 ∧ ∃ i, vget l i = Ok p.1 ∧ vget w i = Ok p.2.
Proof.
  unfold row_lines. rewrite list_elem_of_filter. destruct p as [x y]. cbn [fst snd].
  assert ((x, y) ∈ zip l w ↔ ∃ i, vget l i = Ok x ∧ vget w i = Ok y) as ->; [|done].
  rewrite list_elem_of_lookup. split.
  - intros [n Hn]. apply lookup_zip_Some in Hn as [H1 H2]. exists (Z.of_nat n).
    rewrite !vget_lookup, Nat2Z.id. split; split; (lia || done).
  - intros (i & H1 & H2). exists (Z.to_nat i). by apply zip_lookup.
Qed.

Lemma wf_row s k :
  gb_shape s → 0 ≤ k < setN s →
  ∃ l w, vget (cache s) k = Ok l ∧ vget (weight_blk_idx s) k = Ok w ∧ gb_lines s k = row_lines l w ∧
    vsize l = wayN s ∧ vsize w = wayN s ∧ Forall (λ x, -1 ≤ x < 2 ^ 31) l.
Proof.
  intros W Hk. destruct (vget_is_Ok (cache s) k) as [l Hl]; [by rewrite gw_cache|].
  destruct (vget_is_Ok (weight_blk_idx s) k) as [w Hw]; [by rewrite gw_weight|].
  exists l, w. unfold gb_lines. rewrite Hl, Hw. destruct (gw_rows _ W _ _ _ Hl Hw) as (? & ? & ?).
  by split_and!.
Qed.

(** The lookup of a line finds it if and only if it is in its set. *)
Lemma lookup_line_spec s k to blk :
  gb_shape s → 0 ≤ k < setN s → 0 ≤ to < 2 ^ 31 →
  ∃ o, lookup_line s k to blk = Ok o ∧ (is_Some o ↔ (to, blk) ∈ gb_lines s k).
Proof.
  intros W Hk Ht. destruct (wf_row s k W Hk) as (l & w & Hl & Hw & -> & Sl & Sw & Hr).
  unfold lookup_line. rewrite Hl, Hw, !bind_Ok. pose proof (gw_way _ W).
  destruct (find_way_spec (Z.to_nat (wayN s)) 0 (λ x, u64 x =? to) blk l w) as (o & E & Ho); [lia..|].
  exists o. split; [done|]. rewrite row_lines_elem. cbn [fst snd].
  assert (∀ i x, vget l i = Ok x → (u64 x =? to) = true ↔ x = to) as Heq.
  { intros i x [_ Hx]%vget_lookup. rewrite Forall_lookup in Hr. specialize (Hr _ _ Hx). cbn in Hr.
    rewrite Z.eqb_eq. destruct (decide (x = -1)) as [->|]; [change (u64 (-1)) with (2 ^ 64 - 1); lia|].
    by rewrite (u64_small x) by lia. }
  destruct o as [j|].
  - split; [intros _ | intros _; by exists j]. destruct Ho as (_ & x & Hx & He & Hb).
    apply (Heq _ _ Hx) in He. subst x. split; [lia|]. by exists j.
  - split; [by intros [? ?]|]. intros [_ (i & H1 & H2)]. exfalso.
    apply (Ho i to); [apply vget_range in H1; lia | done | by eapply Heq | done].
Qed.

(** Putting a line in the cache. *)
Lemma put_line_ok s k i to blk l w x0 y0 :
  gb_shape s → 0 ≤ to < 2 ^ 31 →
  vget (cache s) k = Ok l → vget (weight_blk_idx s) k = Ok w →
  vget l i = Ok x0 → vget w i = Ok y0 →
  ∃ s1, put_line k i to blk s = Ok s1 ∧ gb_shape s1 ∧ repl s1 = repl s ∧ setN s1 = setN s ∧
    w_req_table s1 = w_req_table s ∧ wq s1 = wq s ∧
    gb_lines s1 k ++ (if decide (x0 = -1) then [] else [(x0, y0)]) ≡ₚ gb_lines s k ++ [(to, blk)] ∧
    ∀ j, j ≠ k → gb_lines s1 j = gb_lines s j.
Proof.
  intros W Ht Hl Hw Hx Hy. pose proof (vget_range _ _ _ Hl) as Hk. pose proof (vget_range _ _ _ Hw) as Hk'.
  pose proof (vget_range _ _ _ Hx) as Hi. pose proof (vget_range _ _ _ Hy) as Hi'.
  unfold put_line. rewrite (vmod_Ok (cache s) _ _ l (<[Z.to_nat i := i32 to]> l)) by (done || (cbv beta; by rewrite vset_Ok by lia)).
  rewrite (vmod_Ok (weight_blk_idx s) _ _ w (<[Z.to_nat i := blk]> w)) by (done || (cbv beta; by rewrite vset_Ok by lia)).
  rewrite !bind_Ok, (i32_small to) by lia. eexists. split; [done|].
  destruct s as [f1 f2 f3 f4 f5 f6 f7 f8 c wb f9 f10 f11 f12 f13]. destruct W as [W1 W2 W3 W4 W5 W6].
  cbn in *. split_and!; try done.
  - split; cbn; try done; [by rewrite vsize_insert..|].
    intros j l2 w2. rewrite !vget_insert by lia. case_decide; [|by apply W6].
    intros [= <-] [= <-]. rewrite !vsize_insert. destruct (W6 _ _ _ Hl Hw) as (? & ? & ?).
    split_and!; [done..|]. apply Forall_insert; [done | lia].
  - unfold gb_lines. cbn. rewrite !vget_insert, !decide_True, Hl, Hw by (done || lia).
    apply row_lines_put; [done..|lia].
  - intros j Hj. unfold gb_lines. cbn. by rewrite !vget_insert, !decide_False by (done || lia).
Qed.

(** A line put in the cache, and touched by the policy, whose lists were [lru0]
    (the old ones, less what the line replaces). *)
Lemma put_touch s s1 k to blk lru0 :
  gb_wf s → 0 ≤ k < setN s → 0 ≤ to < 2 ^ 31 → gb_shape s1 → setN s1 = setN s → lru_of s1 = lru0 →
  (∀ j, j ≠ k → gb_lines s1 j = gb_lines s j) → gb_lines s1 k ≡ₚ (to, blk) :: lru_lines lru0 k →
  lru_wf lru0 → vsize (lruList lru0) = setN s → (to, blk) ∉ lru_lines lru0 k →
  (∀ j, j ≠ k → lru_lines lru0 j = lru_lines (lru_of s) j) →
  ∃ l1, LRU_access k to blk (r_lru (repl s1)) = Ok l1 ∧ gb_wf (with_lru l1 s1) ∧
    lru_lines l1 k = (to, blk) :: lru_lines lru0 k ∧
    ∀ j, j ≠ k → lru_lines l1 j = lru_lines (lru_of s) j.
Proof.
  intros W Hk Ht W1 Hs Hl Hoth Hnew Hwf Hsz Hnot Ho2. unfold lru_of in Hl. rewrite Hl.
  destruct (LRU_access_ok lru0 k to blk) as (l1 & E & Hw1 & Hv1 & H1); [done | lia |].
  assert (lru_lines l1 k = (to, blk) :: lru_lines lru0 k) as E1.
  { rewrite H1, decide_True by done. unfold lru_touch. f_equal. apply list_filter_all.
    intros n p Hp ->. apply Hnot. by eapply list_elem_of_lookup_2. }
  exists l1. split; [done|]. split; [|split; [done|]].
  - split; cbn.
    + destruct W1. destruct s1. by split.
    + by destruct s1.
    + rewrite Hv1. by destruct s1; cbn in *; lia.
    + intros j. transitivity (gb_lines s1 j); [by destruct s1|]. transitivity (lru_lines l1 j); [|by destruct s1].
      destruct (decide (j = k)) as [->|Hj]; [by rewrite E1|].
      rewrite (Hoth j), H1 by done. rewrite decide_False, Ho2 by done. apply gw_same, W.
  - intros j Hj. by rewrite H1, decide_False, Ho2 by done.
Qed.

(** Only the cache, its geometry and the lists of LRU matter. *)
Lemma gb_wf_ext s s' :
  gb_wf s → setN s' = setN s → wayN s' = wayN s → cache s' = cache s →
  weight_blk_idx s' = weight_blk_idx s → vsize (set_util s') = vsize (set_util s) →
  lru_of s' = lru_of s → gb_wf s'.
Proof.
  intros [[] ? ? Hs] E1 E2 E3 E4 E5 E6. split; [split|..]; rewrite ?E1, ?E2, ?E3, ?E4, ?E5, ?E6; try done.
  intros k. unfold gb_lines in *. rewrite E3, E4. apply Hs.
Qed.

(** The constructor with LRU, when it makes at least one set and one way. *)
Lemma new_gb_wf id size tw x0 r0 s :
  new_GlobalBuffer P C id size tw x0 r0 = Ok s → 0 < wayN s ∧ CACHE_WAY_N C = wayN s → 0 < setN s →
  gb_wf s.
Proof.
  unfold new_GlobalBuffer. intros E. apply bind_Ok_inv in E as (x & _ & E).
  apply bind_Ok_inv in E as (b & _ & E). apply bind_Ok_inv in E as (n & _ & E).
  apply bind_Ok_inv in E as (r & Er & E). injection E as <-. cbn [wayN setN]. intros [Hw Ew] Hs.
  unfold new_repl in Er. rewrite Halgo in Er. cbn [Z.eqb FIFO_ALGO LRU_ALGO Pos.eqb] in Er. injection Er as <-.
  pose proof (i32_range n) as Hn. pose proof (i32_range (CACHE_WAY_N C)) as Hc. rewrite <- Ew in *.
  set (k := i32 n) in *. clearbody k.
  assert (∀ A (x : A), vsize (replicate (Z.to_nat k) x) = k) as Hk
    by (intros; unfold vsize; rewrite length_replicate; lia).
  assert (∀ A j (x y : A), vget (replicate (Z.to_nat k) x) j = Ok y → y = x) as Hg.
  { intros A j x' y [_ H]%vget_lookup. apply lookup_replicate in H. by destruct H. }
  split; [split|..]; cbn [setN wayN cache weight_blk_idx set_util lru_of repl r_lru]; try apply Hk; try lia.
  - intros j l w -> %Hg -> %Hg. unfold vsize. rewrite length_replicate. split_and!; [lia..|].
    apply Forall_replicate. lia.
  - apply new_LRU_wf.
  - intros j. transitivity ([] : list (Z * Z)).
    + unfold gb_lines. cbn [cache weight_blk_idx]. destruct (vget _ j) as [l|] eqn:El; [|done].
      apply Hg in El as ->.
      apply Permutation_nil_r, elem_of_nil_inv. intros p [Hne (i & Hi & _)]%row_lines_elem.
      apply vget_lookup in Hi as [_ Hi]. apply lookup_replicate in Hi as [Hi _]. by rewrite Hi in Hne.
    + unfold lru_of, lru_lines. cbn. destruct (vget _ j) as [l|] eqn:El; [|done]. by apply Hg in El as ->.
Qed.

Lemma row_lines_le l w : (length (row_lines l w) ≤ length l)%nat.
Proof.
  unfold row_lines. etrans; [apply length_filter|]. rewrite length_zip_with. lia.
Qed.

(** A set without a free way holds as many lines as it has ways. *)
Lemma row_lines_full l w :
  vsize l = vsize w → (∀ j, 0 ≤ j → vget l j ≠ Ok (-1)) → length (row_lines l w) = length l.
Proof.
  unfold vsize. intros Hlw Hno. unfold row_lines. rewrite list_filter_all.
  - rewrite length_zip_with. lia.
  - intros n [x y] Hp. apply lookup_zip_Some in Hp as [Hp _]. cbn. intros ->.
    apply (Hno (Z.of_nat n)); [lia|]. apply vget_lookup. rewrite Nat2Z.id. split; [lia | done].
Qed.

Lemma gb_lines_le s k : gb_shape s → 0 ≤ k < setN s → Z.of_nat (length (gb_lines s k)) ≤ wayN s.
Proof.
  intros W Hk. destruct (wf_row s k W Hk) as (l & w & _ & _ & -> & Hl & _ & _).
  pose proof (row_lines_le l w). unfold vsize in Hl. lia.
Qed.

(** The result of filling a set with a line. *)
Definition filled (s s' : GlobalBuffer) (k : Z) (p : Z * Z) : Prop :=
  gb_wf s' ∧ w_req_table s' = w_req_table s ∧ wq s' = wq s ∧ setN s' = setN s ∧
  lru_lines (lru_of s') k = p :: (if decide (Z.of_nat (length (lru_lines (lru_of s) k)) < wayN s)
    then lru_lines (lru_of s) k else removelast (lru_lines (lru_of s) k)) ∧
  ∀ j, j ≠ k → lru_lines (lru_of s') j = lru_lines (lru_of s) j.

Lemma fill_free s k to blk l i :
  gb_wf s → 0 ≤ to < 2 ^ 31 → (to, blk) ∉ lru_lines (lru_of s) k →
  vget (cache s) k = Ok l → vget l i = Ok (-1) →
  ∃ s1 r, put_line k i to blk s = Ok s1 ∧ repl_fill C (i32 k) to blk (repl s1) = Ok r ∧
    filled s (s1 {{ repl := r }}) k (to, blk).
Proof.
  intros W Ht Hnot Hl Hi. assert (0 ≤ k < setN s) as Hk.
  { rewrite <- (gw_cache _ (gw_shape _ W)). by eapply vget_range. }
  destruct (wf_row s k (gw_shape _ W) Hk) as (l' & w & Hl' & Hw & _ & Sl & Sw & _).
  rewrite Hl in Hl'. injection Hl' as <-.
  destruct (vget_is_Ok w i) as [y Hy]; [rewrite Sw, <- Sl; by eapply vget_range|].
  destruct (put_line_ok s k i to blk l w (-1) y (gw_shape _ W) Ht Hl Hw Hi Hy)
    as (s1 & E & W1 & Hr & Hs & Ht1 & Hq & Hp & Ho).
  rewrite decide_True, app_nil_r in Hp by done. assert (lru_of s1 = lru_of s) as Elru by (unfold lru_of; by rewrite Hr).
  destruct (put_touch s s1 k to blk (lru_of s)) as (l1 & Ea & W2 & E1 & E2); try done.
  { by rewrite Hp, (gw_same _ W), Permutation_app_comm. }
  { apply W. } { apply W. }
  pose proof (gb_lines_le s1 k W1) as Hle. rewrite Hp, length_app, (gw_same _ W), Hs in Hle. cbn [length] in Hle.
  assert (wayN s1 = wayN s) as Ew by (unfold put_line in E; inv_res E; injection E as <-; by destruct s).
  exists s1, ((repl s1) {{ r_lru := l1 }}). split; [done|]. split.
  - unfold repl_fill. rewrite Halgo. cbn [Z.eqb FIFO_ALGO LRU_ALGO Pos.eqb orb].
    pose proof (gw_set _ (gw_shape _ W)). by rewrite (i32_small k), (i32_small to), Ea by lia.
  - unfold filled. rewrite decide_True by lia. split; [done|]. 
    replace (lru_of _) with l1 by by destruct s1. split_and!; try done; by destruct s1.
Qed.

Lemma fill_full s k from to blk l :
  gb_wf s → 0 ≤ to < 2 ^ 31 → (to, blk) ∉ lru_lines (lru_of s) k →
  vget (cache s) k = Ok l → (∀ j, 0 ≤ j → vget l j ≠ Ok (-1)) →
  ∃ s', replace_line P C k from to blk s = Ok s' ∧ filled s s' k (to, blk).
Proof.
  intros W Ht Hnot Hl Hno. pose proof (gw_shape _ W) as Wsh. assert (0 ≤ k < setN s) as Hk.
  { rewrite <- (gw_cache _ Wsh). by eapply vget_range. }
  pose proof (gw_set _ Wsh) as Hset. pose proof (gw_way _ Wsh) as Hway.
  destruct (wf_row s k Wsh Hk) as (l' & w & Hl' & Hw & El & Sl & Sw & _).
  rewrite Hl in Hl'. injection Hl' as <-.
  assert (Z.of_nat (length (lru_lines (lru_of s) k)) = wayN s) as Hlen.
  { rewrite <- (gw_same _ W), El, row_lines_full by (done || congruence). done. }
  destruct (exists_last (l := lru_lines (lru_of s) k)) as (q & [v b] & Eq).
  { intros E. rewrite E in Hlen. cbn in Hlen. lia. }
  destruct (LRU_replace_ok (lru_of s) k (gw_lru _ W) ltac:(by rewrite (gw_lists _ W)) q (v, b) Eq)
    as (l0 & Er & Wl0 & Sl0 & Hl0).
  assert (lru_lines l0 k = q) as Ek by by rewrite Hl0, decide_True.
  assert ((v, b) ∈ gb_lines s k) as Hin.
  { rewrite (gw_same _ W), Eq. apply elem_of_app. right. by apply list_elem_of_singleton. }
  rewrite El, row_lines_elem in Hin. cbn [fst snd] in Hin. destruct Hin as (Hv & i0 & Hi1 & Hi2).
  destruct (find_way_spec (Z.to_nat (wayN s)) 0 (λ x, x =? v) b l w) as (o & Ef & Ho); [lia..|].
  destruct o as [i|].
  2: { exfalso. apply (Ho i0 v); [apply vget_range in Hi1; lia | done | apply Z.eqb_refl | done]. }
  destruct Ho as (_ & x & Hx & Exv & Hy). apply Z.eqb_eq in Exv as ->.
  set (s0 := with_lru l0 s). assert (gb_shape s0) as W0 by (destruct Wsh; by destruct s).
  destruct (put_line_ok s0 k i to blk l w v b W0 Ht) as (s1 & E & W1 & Hr & Hs & Ht1 & Hq & Hp & Hoth);
    [by destruct s.. | done | done |].
  rewrite decide_False in Hp by done.
  assert (∀ j, gb_lines s0 j = gb_lines s j) as Hs0 by (by destruct s). rewrite Hs0 in Hp.
  assert (lru_of s1 = l0) as Elru by (unfold lru_of; rewrite Hr; by destruct s).
  assert ((to, blk) ∉ q) as Hnq.
  { intros H. apply Hnot. rewrite Eq. apply elem_of_app. by left. }
  destruct (put_touch s s1 k to blk l0) as (l1 & Ea & W2 & E1 & E2); try done.
  { rewrite Ek. apply (Permutation_app_inv_r [(v, b)]).
    by rewrite Hp, (gw_same _ W), Eq, (Permutation_app_comm _ [(to, blk)]). }
  { rewrite Sl0. apply W. } { by rewrite Ek. } { intros j Hj. by rewrite Hl0, decide_False by done. }
  exists (with_lru l1 s1). split.
  - unfold replace_line. rewrite Halgo. cbn [Z.eqb FIFO_ALGO LRU_ALGO Pos.eqb orb].
    rewrite (i32_small k), (i32_small to) by lia. fold (lru_of s). rewrite Er, bind_Ok.
    unfold evict. replace (cache _) with (cache s) by by destruct s.
    replace (weight_blk_idx _) with (weight_blk_idx s) by by destruct s.
    rewrite Hl, Hw, !bind_Ok. replace (wayN _) with (wayN s) by by destruct s.
    fold (with_lru l0 s). fold s0. rewrite Ef, bind_Ok, E, bind_Ok, Ea, !bind_Ok. done.
  - unfold filled. rewrite decide_False by lia. split; [done|].
    replace (lru_of (with_lru l1 s1)) with l1 by by destruct s1.
    rewrite Eq, removelast_last. split_and!; [..|by rewrite E1, Ek | done]; destruct s1, s; cbn in *; done.
Qed.

Lemma set_of_ok s to :
  gb_shape s → 0 ≤ to < 2 ^ 31 → set_of s to = Ok (to mod setN s) ∧ 0 ≤ to mod setN s < setN s.
Proof.
  intros W Ht. pose proof (gw_set _ W). unfold set_of. rewrite (u64_small (setN s)) by lia.
  rewrite umod_Ok by lia. split; [done|]. apply Z.mod_pos_bound. lia.
Qed.

(** One line arrives: LRU with and without a free way. *)
Lemma line_fill_ok s addr data :
  gb_wf s → w_map s !! addr = Some data → 0 ≤ colindex data < 2 ^ 31 → wq s ≠ [] →
  let k := colindex data mod setN s in let p := (colindex data, er_pre_w_fold data) in
  p ∉ lru_lines (lru_of s) k →
  ∃ s1 s', GB_ReceiveLine P C addr s = Ok s' ∧ filled s s1 k p ∧
    (setN s' = setN s1 ∧ wayN s' = wayN s1 ∧ cache s' = cache s1 ∧ weight_blk_idx s' = weight_blk_idx s1 ∧
     set_util s' = set_util s1 ∧ repl s' = repl s1) ∧
    w_req_table s' = <[addr := false]> (w_req_table s).
Proof.
  intros W Hm Hto Hq k p Hnot. pose proof (gw_shape _ W) as Wsh. pose proof (gw_way _ Wsh) as Hway.
  destruct (set_of_ok s _ Wsh Hto) as [Hset Hk]. fold k in Hset, Hk.
  destruct (wf_row s k Wsh Hk) as (l & w & Hl & _ & _ & Sl & _ & _).
  set (sm := s {{ w_map := <[addr := data]> (w_map s) }}).
  assert (gb_wf sm) as Wm by (by apply (gb_wf_ext s); destruct s).
  assert (lru_of sm = lru_of s) as Elru by by destruct s.
  assert (∃ s1, (free ← find_free (Z.to_nat (wayN sm)) 0 l;
    match free with
    | Some i => s1 ← put_line k i (colindex data) (er_pre_w_fold data) sm;
        r ← repl_fill C (i32 k) (colindex data) (er_pre_w_fold data) (repl s1); Ok (s1 {{ repl := r }})
    | None => replace_line P C k (rowindex data) (colindex data) (er_pre_w_fold data) sm
    end) = Ok s1 ∧ filled sm s1 k p) as (s1 & E & Hf).
  { destruct (find_free_spec (Z.to_nat (wayN sm)) 0 l) as (o & E & Ho); [lia | by destruct s; cbn in *; lia |].
    rewrite E, bind_Ok. destruct o as [i|].
    - destruct (fill_free sm k (colindex data) (er_pre_w_fold data) l i Wm Hto) as (s1 & r & E1 & E2 & Hf);
        [by rewrite Elru | by destruct s | apply Ho |].
      exists (s1 {{ repl := r }}). by rewrite E1, bind_Ok, E2.
    - apply (fill_full sm k (rowindex data) _ _ l); [done..| by rewrite Elru | by destruct s | done]. }
  destruct Hf as (W1 & Ht & Hq1 & Hs1 & H1 & H2).
  destruct (wq s) as [|f q] eqn:Ewq; [done|].
  eexists s1, _. split; [|split; [|split]].
  - unfold GB_ReceiveLine. rewrite Hm. change (default no_edge (Some data)) with data. fold sm.
    replace (set_of sm _) with (set_of s (colindex data)) by by destruct s. rewrite Hset, bind_Ok, Halgo.
    cbn [Z.eqb RRIP_ALGO SHiP_ALGO LRU_ALGO Pos.eqb]. replace (cache sm) with (cache s) by by destruct s.
    rewrite Hl, bind_Ok, E, bind_Ok.
    assert (wq (s1 {{ w_req_table := <[addr := false]> (w_req_table s1) }}) = f :: q) as ->
      by (etrans; [|etrans; [exact Hq1 | by destruct s]]; by destruct s1).
    cbn [qfront]. rewrite bind_Ok. reflexivity.
  - by destruct s.
  - destruct (addr =? address f); by destruct s1.
  - assert (w_req_table s1 = w_req_table s) as <- by (etrans; [exact Ht | by destruct s]).
    destruct (addr =? address f); by destruct s1.
Qed.
End Lru.

(** What the books of one line are after any run. *)
Section Run.
Context {D : Type} `{DramPort D}.
Variable P : Params.
Variable C : IniConfig.

Lemma step_books st g st' :
  gb_step P C st g st' → ∀ a,
  (reads a (snd st') + outstanding a (fst st) = reads a (snd st) + outstanding a (fst st') + mult g a)%nat.
Proof.
  intros Hs a. destruct Hs as [data s d s' d' E | s d s' d' E | s d x s' E | b s d s' Hr E]; cbn [fst snd].
  - rewrite mult_nil, Nat.add_0_r. by apply (edge_books P C data).
  - rewrite mult_nil, Nat.add_0_r. by apply can_books.
  - rewrite mult_nil, Nat.add_0_r. unfold TransferAData in E.
    apply bind_Ok_inv in E as (y & _ & E). apply bind_Ok_inv in E as (q & _ & E). injection E as _ <-.
    apply same_books. by destruct s.
  - apply line_table in E. rewrite mult_single. unfold outstanding.
    rewrite (requested_insert b a false s s' E). case_decide as Eb.
    + subst. rewrite Hr, decide_True by done. lia.
    + rewrite decide_False by congruence. lia.
Qed.

Lemma run_books st got st' :
  gb_run P C st got st' → ∀ a,
  (reads a (snd st') + outstanding a (fst st) = reads a (snd st) + outstanding a (fst st') + mult got a)%nat.
Proof.
  induction 1 as [|got st1 g st2 _ IH Hs]; intros a; [rewrite mult_nil; lia|].
  specialize (IH a). pose proof (step_books _ _ _ Hs a) as Hb. rewrite mult_app. lia.
Qed.
End Run.

Lemma touch_perm (p : Z * Z) l : NoDup l → p ∈ l → l ≡ₚ lru_touch p l.
Proof.
  intros Hd Hp. apply NoDup_Permutation; [done | |].
  - apply NoDup_cons. split; [|by apply NoDup_filter]. intros Hin%list_elem_of_filter. naive_solver.
  - intros x. unfold lru_touch. rewrite elem_of_cons, list_elem_of_filter.
    destruct (decide (x = p)); naive_solver.
Qed.

Section EdgeLookup.
Context {D : Type} `{DramPort D}.
Variable P : Params.
Variable C : IniConfig.

(** An edge arrives, with LRU. *)
Lemma edge_lookup_ok s data (d : D) :
  CACHE_REPL_ALGO C = LRU_ALGO → gb_wf s → 0 ≤ colindex data < 2 ^ 31 →
  let k := colindex data mod setN s in
  let p := (colindex data, er_pre_w_fold data) in
  ∃ s' d', GB_ReceiveEdge P C data s d = Ok (s', d') ∧ gb_wf s' ∧ wq s' = wq s ++ [data] ∧
    (∀ j, lru_lines (lru_of s') j =
      if decide (j = k ∧ p ∈ gb_lines s k) then lru_touch p (lru_lines (lru_of s) k)
      else lru_lines (lru_of s) j) ∧
    if decide (p ∈ gb_lines s k)
    then af_can_transfer (axwflag s') = true ∧ requests d' = requests d
    else requested (address data) s' = true ∧
      requests d' = requests d ++
        (if requested (address data) s then [] else [(address data, READ_REQ)]).
Proof.
  intros Ha W Hto k p. pose proof (gw_shape _ W) as Wsh. pose proof (gw_set _ Wsh) as Hset.
  destruct (set_of_ok s _ Wsh Hto) as [Hk1 Hk]. fold k in Hk1, Hk.
  destruct (vget_is_Ok (set_util s) k) as [u Hu]; [by rewrite gw_util|].
  unfold GB_ReceiveEdge, repl_scan. rewrite Ha. cbn [Z.eqb BF_ALGO LRU_ALGO MOVING_MED_ALGO Pos.eqb andb].
  rewrite !bind_Ok. set (fl := mkAXWFlag _ _ _ _). set (s1 := s {{ wq := wq s ++ [data]; axwflag := fl }}).
  replace (set_of s1 (colindex data)) with (set_of s (colindex data)) by by destruct s.
  rewrite Hk1, bind_Ok.
  rewrite (vmod_Ok (set_util s1) _ _ u (u64 (u + 1))) by (done || by destruct s). rewrite bind_Ok.
  set (s2 := s1 {{ repl := repl s1; set_util := _ }}).
  assert (gb_wf s2) as W2 by (apply (gb_wf_ext s); [done | by destruct s..| | by destruct s]; apply vsize_insert).
  assert (setN s2 = setN s) as Es by by destruct s.
  assert (gb_lines s2 k = gb_lines s k ∧ lru_of s2 = lru_of s) as [Eg El] by by destruct s.
  destruct (lookup_line_spec s2 k (colindex data) (er_pre_w_fold data) (gw_shape _ W2)) as (o & Eo & Ho);
    [by rewrite Es | done |].
  rewrite Eg in Ho. fold p in Ho. rewrite Eo, bind_Ok. destruct o as [i|].
  - assert (p ∈ gb_lines s k) as Hin by by apply Ho.
    destruct (LRU_access_ok (lru_of s) k (colindex data) (er_pre_w_fold data)) as (l1 & E1 & Hw & Hv & Hl);
      [apply W | by rewrite (gw_lists _ W) |]. fold p in Hl.
    unfold repl_hit. rewrite Ha. cbn [Z.eqb LRU_ALGO Pos.eqb orb]. rewrite !i32_small by lia.
    fold (lru_of s2). rewrite El, E1, !bind_Ok. eexists _, d. split; [done|].
    match goal with |- gb_wf ?s3 ∧ _ => set (s' := s3) end.
    assert (lru_of s' = l1) as El' by (unfold s'; by destruct s). rewrite El', decide_True by done.
    split; [|split; [|split]]; [| unfold s'; by destruct s | |unfold s'; by destruct s].
    + split; [| by rewrite El' | rewrite El', Hv, (gw_lists _ W); unfold s'; by destruct s |].
      * destruct (gw_shape _ W2). clear El'. destruct s. by split.
      * intros j. rewrite El'. transitivity (gb_lines s2 j); [clear El'; by destruct s|].
        rewrite (gw_same _ W2), El, Hl. case_decide as Ej; [|done]. subst j.
        apply touch_perm; [apply lw_nodup, W | by rewrite <- (gw_same _ W)].
    + intros j. rewrite Hl. case_decide as Ej; [subst j; by rewrite decide_True|]. rewrite decide_False; naive_solver.
  - assert (p ∉ gb_lines s k) as Hnin by (intros Hin; apply Ho in Hin; by destruct Hin).
    assert (requested (address data) s2 = requested (address data) s) as -> by by destruct s.
    destruct (requested (address data) s) eqn:Hr.
    + exists s2, d. rewrite (decide_False (P := p ∈ gb_lines s k)) by done.
      split_and!; try done; [|by rewrite app_nil_r].
      intros j. rewrite decide_False by naive_solver. by rewrite El.
    + eexists _, _. split; [done|]. rewrite (decide_False (P := p ∈ gb_lines s k)) by done. split_and!.
      * apply (gb_wf_ext s2); by destruct s.
      * by destruct s.
      * intros j. rewrite decide_False by naive_solver. by destruct s.
      * unfold requested. destruct s; cbn. by rewrite lookup_insert_eq.
      * apply request_id_queued.
Qed.

End EdgeLookup.

(** ** Properties *)

Section Properties.
Context {D : Type} `{DramPort D}.
Variable P : Params.
Variable C : IniConfig.

(** C19: at most one request per line is in flight.  From an empty request table,
    after any sequence of [ReceiveData(edge)], [CanTransfer], [TransferAData] and
    arrivals of requested lines, the reads of a line that were issued are those that
    arrived plus one exactly when the request table says so: the buffer never asks
    for a line it is already waiting for, with every policy. *)
Theorem one_outstanding_request s d got s' d' :
  w_req_table s = ∅ → gb_run P C (s, d) got (s', d') → ∀ a,
  reads a d' = (reads a d + mult got a + if requested a s' then 1 else 0)%nat.
Proof.
  intros Hs Hr a. pose proof (run_books P C _ _ _ Hr a) as Hb. cbn [fst snd] in Hb.
  assert (outstanding a s = 0%nat) as E by (unfold outstanding, requested; by rewrite Hs, lookup_empty).
  unfold outstanding in Hb, E. rewrite E in Hb. lia.
Qed.

(** C29: with LRU, the arrival of a requested line that is not in its set is total,
    keeps the cache and the lists of the policy in step, makes the line the most
    recently used one of its set, evicts exactly the least recently used line when
    every way is taken and nothing otherwise, leaves the other sets alone and clears
    the outstanding request. *)
Theorem lru_line_fills s addr data :
  CACHE_REPL_ALGO C = LRU_ALGO → gb_wf s → w_map s !! addr = Some data →
  0 ≤ colindex data < 2 ^ 31 → wq s ≠ [] →
  let k := colindex data mod setN s in
  let p := (colindex data, er_pre_w_fold data) in
  let old := lru_lines (lru_of s) k in
  p ∉ old →
  ∃ s', GB_ReceiveLine P C addr s = Ok s' ∧ gb_wf s' ∧
    lru_lines (lru_of s') k =
      p :: (if decide (Z.of_nat (length old) < wayN s) then old else removelast old) ∧
    gb_lines s' k ≡ₚ lru_lines (lru_of s') k ∧
    (∀ j, j ≠ k → lru_lines (lru_of s') j = lru_lines (lru_of s) j) ∧
    requested addr s' = false.
Proof.
  intros Ha W Hm Hto Hq k p old Hnot.
  destruct (line_fill_ok P C Ha s addr data W Hm Hto Hq Hnot)
    as (s1 & s' & E & (W1 & _ & _ & _ & H1 & H2) & (E1 & E2 & E3 & E4 & E5 & E6) & Et).
  assert (lru_of s' = lru_of s1) as El by (unfold lru_of; by rewrite E6).
  assert (gb_wf s') as W' by (apply (gb_wf_ext s1); by rewrite ?E5).
  exists s'. rewrite El. split_and!; try done.
  - rewrite <- El. apply W'.
  - unfold requested. by rewrite Et, lookup_insert_eq.
Qed.

(** With LRU, an edge that arrives is put in the queue of waiting edges, and the
    lookup of its line is exact: if the line is in its set it becomes the most
    recently used one and the edge can be transferred, without a request; otherwise
    the lists do not change and the line is requested, unless it already is.  Either
    way the call is total and the cache stays in step with the policy. *)
Theorem edge_lookup s data (d : D) :
  CACHE_REPL_ALGO C = LRU_ALGO → gb_wf s → 0 ≤ colindex data < 2 ^ 31 →
  let k := colindex data mod setN s in
  let p := (colindex data, er_pre_w_fold data) in
  ∃ s' d', GB_ReceiveEdge P C data s d = Ok (s', d') ∧ gb_wf s' ∧ wq s' = wq s ++ [data] ∧
    (∀ j, lru_lines (lru_of s') j =
      if decide (j = k ∧ p ∈ gb_lines s k) then lru_touch p (lru_lines (lru_of s) k)
      else lru_lines (lru_of s) j) ∧
    if decide (p ∈ gb_lines s k)
    then af_can_transfer (axwflag s') = true ∧ requests d' = requests d
    else requested (address data) s' = true ∧
      requests d' = requests d ++
        (if requested (address data) s then [] else [(address data, READ_REQ)]).
Proof. apply edge_lookup_ok. Qed.
End Properties.

(** ** Concrete runs *)

(** 256 bytes of cache: two sets of two ways, LRU. *)
Definition ex_ini : IniConfig :=
  {| ini_params := ex_params; ini_gbsize := 256; ini_xbsize := 0; ini_tot_acc := 1;
     SYSTOLIC_DIM := 4; CACHE_REPL_ALGO := LRU_ALGO; DIVISION_TYPE := 1; MECHA_TYPE := 0;
     BLOOM_FILTER_NUM := 1; BF_RATIO := (1, 0); BF_OVERLAP := 0; CACHE_WAY_N := 2; MEM_TYPE := "HBM" |}.

Definition no_policy : ReplState :=
  mkRepl (mkFIFO [] []) (mkLRU [] []) [] (mkSHiP [] [] [] ∅) (mkCounts [] []) (mkTables [] [] [])
    (mkMvm [] [] [] 0).

Definition ex_edge_to (c : Z) : ERData := mkERData 0 c (4000 + 64 * c) 0 0 0 false.
Definition state_of {A} (r : res A) (a : A) : A := match r with Ok x => x | Err _ => a end.

(** The empty buffer, the buffer waiting for line (1, 0), the buffer that got it, and
    that buffer waiting for line (3, 0) of the same set. *)
Definition ex_start : GlobalBuffer :=
  match new_GlobalBuffer ex_params ex_ini 0 256 0 (mkXRData None false) no_policy with
  | Ok s => s
  | Err _ => mkGB 0 0 0 (mkXWFlag false false) (mkAXWFlag false false false false) (mkXRData None false)
      0 0 [] [] [] [] ∅ ∅ no_policy
  end.
Definition ex_wait1 : GlobalBuffer * list (Z * bool) :=
  state_of (GB_ReceiveEdge ex_params ex_ini (ex_edge_to 1) ex_start []) (ex_start, []).
Definition ex_got1 : GlobalBuffer := state_of (GB_ReceiveLine ex_params ex_ini 4064 (fst ex_wait1)) ex_start.
Definition ex_loaded : GlobalBuffer * list (Z * bool) :=
  state_of (GB_ReceiveEdge ex_params ex_ini (ex_edge_to 3) ex_got1 []) (ex_start, []).

Lemma ex_start_wf : gb_wf ex_start.
Proof.
  apply (new_gb_wf ex_params ex_ini eq_refl 0 256 0 (mkXRData None false) no_policy);
    [by vm_compute | vm_compute; split; congruence | by vm_compute].
Qed.

Lemma ex_got1_wf : gb_wf ex_got1.
Proof.
  destruct (edge_lookup_ok ex_params ex_ini ex_start (ex_edge_to 1) ([] : list (Z * bool)))
    as (s1 & d1 & E1 & W1 & _); [done | apply ex_start_wf | by split |].
  assert (fst ex_wait1 = s1) as Es by (unfold ex_wait1; by rewrite E1). rewrite <- Es in W1.
  destruct (line_fill_ok ex_params ex_ini eq_refl (fst ex_wait1) 4064 (ex_edge_to 1) W1)
    as (s2 & s' & E2 & (W2 & _) & (H1 & H2 & H3 & H4 & H5 & H6) & _);
    [vm_compute; reflexivity | by split | by vm_compute | vm_compute; apply not_elem_of_nil |].
  assert (ex_got1 = s') as -> by (unfold ex_got1; by rewrite E2).
  clear E2 Es E1. exact (gb_wf_ext s2 s' W2 H1 H2 H3 H4 (f_equal vsize H5) (f_equal r_lru H6)).
Qed.

Lemma ex_loaded_wf : gb_wf (fst ex_loaded).
Proof.
  destruct (edge_lookup_ok ex_params ex_ini ex_got1 (ex_edge_to 3) ([] : list (Z * bool)))
    as (s1 & d1 & E1 & W1 & _); [done | apply ex_got1_wf | by split |].
  assert (fst ex_loaded = s1) as -> by (unfold ex_loaded; by rewrite E1). exact W1.
Qed.

Lemma one_outstanding_request_witness :
  ∃ s d, GB_ReceiveEdge ex_params ex_ini (ex_edge_to 1) ex_start ([] : list (Z * bool)) = Ok (s, d) ∧
    reads 4064 d = 1%nat.
Proof.
  destruct (GB_ReceiveEdge ex_params ex_ini (ex_edge_to 1) ex_start ([] : list (Z * bool)))
    as [[s d]|] eqn:E; [|by vm_compute in E].
  exists s, d. split; [exact eq_refl|].
  rewrite (one_outstanding_request ex_params ex_ini ex_start ([] : list (Z * bool)) [] s d).
  - assert (requested 4064 s = true) as -> by (vm_compute in E; injection E as <- <-; reflexivity). reflexivity.
  - vm_compute; reflexivity.
  - apply (run_snoc ex_params ex_ini _ [] (ex_start, []) []); [constructor | by apply step_edge in E].
Defined.

Lemma edge_lookup_witness :
  ∃ s d, GB_ReceiveEdge ex_params ex_ini (ex_edge_to 1) ex_start ([] : list (Z * bool)) = Ok (s, d) ∧
    gb_wf s ∧ d = [(4064, READ_REQ)].
Proof.
  destruct (edge_lookup ex_params ex_ini ex_start (ex_edge_to 1) ([] : list (Z * bool)))
    as (s & d & E & W & _ & _ & H); [done | exact ex_start_wf | by split |].
  exists s, d. split; [exact E|]. split; [exact W|].
  assert (gb_lines ex_start 1 = []) as Hno by (vm_compute; reflexivity).
  destruct (decide _) as [Hin|_] in H; [|exact (proj2 H)].
  exfalso. change (colindex (ex_edge_to 1) mod setN ex_start) with 1 in Hin.
  rewrite Hno in Hin. by apply elem_of_nil in Hin.
Defined.

Lemma lru_line_fills_witness :
  ∃ s, GB_ReceiveLine ex_params ex_ini 4192 (fst ex_loaded) = Ok s ∧ lru_lines (lru_of s) 1 = [(3, 0); (1, 0)].
Proof.
  destruct (lru_line_fills ex_params ex_ini (fst ex_loaded) 4192 (ex_edge_to 3))
    as (s & E & _ & H & _);
    [reflexivity | exact ex_loaded_wf | vm_compute; reflexivity | by split | by vm_compute | |].
  - assert (lru_lines (lru_of (fst ex_loaded)) 1 = [(1, 0)]) as Hl by (vm_compute; reflexivity).
    change (colindex (ex_edge_to 3) mod setN (fst ex_loaded)) with 1. rewrite Hl.
    intros Hin%list_elem_of_singleton. discriminate.
  - exists s. split; [exact E|].
    assert (∀ l, lru_lines (lru_of s) 1 = l → l = [(3, 0); (1, 0)] → lru_lines (lru_of s) 1 = [(3, 0); (1, 0)])
      as Ht by congruence.
    apply (Ht _ H). vm_compute. reflexivity.
Defined.
